(** * dupfind: duplicate detection and resolution

    A shallow embedding of [dupfind.c] and the properties of its three
    phases: building the file list, digesting files into buckets, sorting
    and filtering a bucket, byte-by-byte confirmation, and the list / link /
    delete actions.

    The program talks to the operating system and to the operator.  Both are
    made explicit in a [world] value that every function of the program takes
    and returns: the directory entries and what [read] yields for each of
    them, the characters still waiting on standard input, and the trace of
    library calls and system calls made so far. *)

From Stdlib Require Import ZArith List String Ascii Lia Permutation Sorted OrdersEx.
From Stdlib.Strings Require Import Byte.
From Stdlib Require Import DecimalString DecimalNat DecimalFacts.
From stdpp Require Import base gmap strings list fin_maps.
From Equations Require Import Equations.
Import ListNotations.

Local Open Scope string_scope.
Local Open Scope list_scope.
Local Open Scope Z_scope.

(** ** C integers *)

Module CInt.

(** Conversion of an integer value to a 32-bit [int] (the [gint] of GLib):
    reduction modulo 2^32 into [-2^31, 2^31). *)
Definition to_int (z : Z) : Z := (z + 2147483648) mod 4294967296 - 2147483648.

(** [LONG_MIN] and [LONG_MAX] of the LP64 targets the program is built for. *)
Definition LONG_MAX : Z := 9223372036854775807.
Definition LONG_MIN : Z := -9223372036854775808.

Definition clamp_long (z : Z) : Z := Z.max LONG_MIN (Z.min LONG_MAX z).

End CInt.

(** ** The C library *)

Module Libc.

Definition uchar (c : ascii) : Z := Z.of_N (N_of_ascii c).

(** The bytes of a buffer as a C string: what precedes the first NUL. *)
Fixpoint cstr (buf : string) : string :=
  match buf with
  | EmptyString => EmptyString
  | String c rest => if Ascii.eqb c zero then EmptyString else String c (cstr rest)
  end.

(** A Rocq string stands for a C string when it holds no NUL. *)
Fixpoint is_cstring (s : string) : bool :=
  match s with
  | EmptyString => true
  | String c rest => negb (Ascii.eqb c zero) && is_cstring rest
  end.

(** [strcmp]: the difference of the first two differing characters, as
    unsigned chars; the end of a string reads as the terminating NUL. *)
Fixpoint strcmp (s1 s2 : string) : Z :=
  match s1, s2 with
  | EmptyString, EmptyString => 0
  | EmptyString, String c2 _ => 0 - uchar c2
  | String c1 _, EmptyString => uchar c1 - 0
  | String c1 r1, String c2 r2 =>
      if Ascii.eqb c1 c2 then strcmp r1 r2 else uchar c1 - uchar c2
  end.

(** [strncmp]: as [strcmp], over at most [n] characters. *)
Fixpoint strncmp (s1 s2 : string) (n : nat) {struct n} : Z :=
  match n with
  | O => 0
  | S n' =>
      match s1, s2 with
      | EmptyString, EmptyString => 0
      | EmptyString, String c2 _ => 0 - uchar c2
      | String c1 _, EmptyString => uchar c1 - 0
      | String c1 r1, String c2 r2 =>
          if Ascii.eqb c1 c2 then strncmp r1 r2 n' else uchar c1 - uchar c2
      end
  end.

(** [memcmp] over the first [n] bytes of two buffers. *)
Fixpoint memcmp (b1 b2 : list byte) (n : nat) : Z :=
  match n with
  | O => 0
  | S n' =>
      match b1, b2 with
      | x :: r1, y :: r2 =>
          if Byte.eqb x y then memcmp r1 r2 n'
          else Z.of_N (Byte.to_N x) - Z.of_N (Byte.to_N y)
      | _, _ => 0
      end
  end.

Definition isspace (c : ascii) : bool :=
  let n := N_of_ascii c in
  (n =? 32)%N || ((9 <=? n)%N && (n <=? 13)%N).

Definition isdigit (c : ascii) : bool :=
  let n := N_of_ascii c in (48 <=? n)%N && (n <=? 57)%N.

Fixpoint skip_space (s : string) : string :=
  match s with
  | String c rest => if isspace c then skip_space rest else s
  | EmptyString => s
  end.

(** The decimal digits at the head of [s], accumulated onto [acc]. *)
Fixpoint digits (s : string) (acc : Z) : Z :=
  match s with
  | String c rest =>
      if isdigit c then digits rest (10 * acc + (uchar c - 48)) else acc
  | EmptyString => acc
  end.

(** [strtol (s, NULL, 10)]: white space, an optional sign, digits; a value
    out of the range of [long] is clamped to [LONG_MIN] or [LONG_MAX]. *)
Definition strtol (s : string) : Z :=
  match skip_space s with
  | String "-" rest => CInt.clamp_long (- digits rest 0)
  | String "+" rest => CInt.clamp_long (digits rest 0)
  | rest => CInt.clamp_long (digits rest 0)
  end.

(** [atoi] as the GNU C library has it: [(int) strtol (s, NULL, 10)]. *)
Definition atoi (s : string) : Z := CInt.to_int (strtol s).

(** [fgets (buf, size, stdin)], on the characters waiting on standard input:
    at most [size - 1] characters, up to and including the first newline.
    [None] is the NULL returned at end of input. *)
Fixpoint fgets_line (n : nat) (input : string) : string * string :=
  match n with
  | O => (EmptyString, input)
  | S n' =>
      match input with
      | EmptyString => (EmptyString, EmptyString)
      | String c rest =>
          if Ascii.eqb c "010" then (String c EmptyString, rest)
          else let '(buf, rest') := fgets_line n' rest in (String c buf, rest')
      end
  end.

Definition fgets (size : nat) (input : string) : option (string * string) :=
  match input with
  | EmptyString => None
  | _ => Some (fgets_line (size - 1) input)
  end.

End Libc.

(** ** GLib lists *)

Module GLib.

Definition g_list_append {A} (l : list A) (data : A) : list A := l ++ [data].

(** [g_list_nth_data]: the element at a position, NULL past the end. *)
Definition g_list_nth_data {A} (l : list A) (n : Z) : option A :=
  if n <? 0 then None else nth_error l (Z.to_nat n).

(** The merge step of [g_list_sort]: the head of the first list goes first
    unless the comparison is positive. *)
Fixpoint g_list_sort_merge {A} (compare : A -> A -> Z) (l1 : list A) : list A -> list A :=
  fix merge_l2 (l2 : list A) : list A :=
    match l1, l2 with
    | [], _ => l2
    | _, [] => l1
    | a :: l1', b :: l2' =>
        if compare a b <=? 0
        then a :: g_list_sort_merge compare l1' l2
        else b :: merge_l2 l2'
    end.

(** [g_list_sort]: the list is cut in two halves (the first gets the smaller
    one), each half is sorted, and the two are merged. *)
Equations? g_list_sort {A} (compare : A -> A -> Z) (l : list A) : list A
  by wf (length l) lt :=
  g_list_sort compare [] := [];
  g_list_sort compare [x] := [x];
  g_list_sort compare (x :: y :: l') :=
    let l := x :: y :: l' in
    g_list_sort_merge compare
      (g_list_sort compare (take (Nat.div2 (length l)) l))
      (g_list_sort compare (drop (Nat.div2 (length l)) l)).
Proof.
  - pose proof (Nat.le_div2_diag_l (length l')) as H.
    rewrite length_take. cbn [length].
    generalize dependent (Nat.div2 (length l')). intros n Hn. lia.
  - rewrite length_drop. cbn [length].
    generalize (Nat.div2 (length l')). intros n. lia.
Qed.

End GLib.

(** ** Data of the program *)

(** Flag values for command line options. *)
Definition OPT_QUIET     : Z := 0x001.
Definition OPT_RECURSE   : Z := 0x002.
Definition OPT_SYMLINKS  : Z := 0x004.
Definition OPT_HARDLINKS : Z := 0x008.
Definition OPT_NOEMPTY   : Z := 0x010.
Definition OPT_SAMELINE  : Z := 0x020.
Definition OPT_OMITFIRST : Z := 0x040.
Definition OPT_SHOWSIZE  : Z := 0x080.
Definition OPT_DELETE    : Z := 0x100.
Definition OPT_LINK      : Z := 0x200.
Definition OPT_STDIN     : Z := 0x400.
Definition OPT_VERBOSE   : Z := 0x800.

(** [options & flag], read as a C condition. *)
Definition opt_set (options flag : Z) : bool := negb (Z.land options flag =? 0).

Definition CHUNK_SIZE : Z := 8192.

(** The data stored about a file. *)
Record file_t := {
  name : string;
  st_size : Z;
  st_nlink : Z;
  st_mode : Z;
  st_dev : Z;
  st_ino : Z
}.

(** The value type of the table keyed by message digest. *)
Record file_list_t := {
  nfile : Z;
  files : list file_t
}.

(** A value type used to implement the delete action. *)
Record delete_t := {
  file : file_t;
  keep : Z
}.

#[global] Instance file_t_eq_dec : EqDecision file_t.
Proof. solve_decision. Defined.

#[global] Instance byte_eq_decision : EqDecision byte.
Proof.
  intros x y. destruct (Byte.eqb x y) eqn:E.
  - left. apply byte_dec_bl, E.
  - right. apply Byte.eqb_false, E.
Defined.

(** ** The operating system and the operator *)

(** What is behind a directory entry: the file it is an entry of, known by
    the device and the inode number [stat] reports for it (two entries with
    the same pair are hard links of one file); whether [open] for reading
    succeeds; and what the successive calls of [read] on a fresh descriptor
    return, [Some bytes] for that many bytes read ([Some []] is the 0 of end
    of file) and [None] for the -1 of a read error.  Once the list is used
    up [read] returns 0. *)
Record inode := {
  i_dev : Z;
  i_ino : Z;
  i_readable : bool;
  i_reads : list (option (list byte))
}.

(** An open descriptor: the results of the reads still to come. *)
Definition fd_t : Type := list (option (list byte)).

Inductive arg :=
| AStr (s : string)
| AInt (n : Z)
| AChar (c : ascii).

Inductive log_level := LevelCritical | LevelWarning | LevelInfo.

(** Calls of the three action functions, with their arguments. *)
Inductive call :=
| Call_list_files (master : file_t) (good_list : list file_t)
| Call_delete_files (digest : string) (master : file_t) (good_list : list file_t)
| Call_link_pair (master slave : file_t).

(** What the program does that can be seen from outside, in order.  Format
    strings are kept as the source writes them, escapes included. *)
Inductive event :=
| Stdout (format : string) (args : list arg)
| Stderr (text : string)
| GLog (level : log_level) (format : string) (args : list arg)
| SysOpen (path : string) (ok : bool)
| SysUnlink (path : string) (ok : bool)
| SysLink (oldpath newpath : string) (ok : bool)
| Enter (c : call).

Record world := {
  (** the directory entries, each under the path that names it: what the
      paths the program uses show of a file system when they name entries
      of their own *)
  w_fs : gmap string inode;
  (** entries that [unlink] cannot remove *)
  w_nounlink : gset string;
  (** names at which [link] cannot create an entry *)
  w_nolink : gset string;
  w_stdin : string;
  w_trace : list event
}.

(** The program as a state transformer over the world. *)
Definition M (A : Type) : Type := world -> A * world.

Definition ret {A} (a : A) : M A := fun w => (a, w).

Definition bind {A B} (m : M A) (k : A -> M B) : M B :=
  fun w => let '(a, w') := m w in k a w'.

Notation "'let*' x ':=' m 'in' k" := (bind m (fun x => k))
  (at level 10, x name, m at level 100, k at level 200).
Notation "'let*' ' p ':=' m 'in' k" := (bind m (fun x => let 'p := x in k))
  (at level 10, p pattern, m at level 100, k at level 200).
Notation "m ';;' k" := (bind m (fun _ => k))
  (at level 100, k at level 200, right associativity).

(** The world after some more events, nothing else changed. *)
Definition logged (w : world) (events : list event) : world :=
  {| w_fs := w_fs w; w_nounlink := w_nounlink w; w_nolink := w_nolink w;
     w_stdin := w_stdin w; w_trace := w_trace w ++ events |}.

Definition emit (e : event) : M unit := fun w => (tt, logged w [e]).

Definition printf (format : string) (args : list arg) : M unit := emit (Stdout format args).
Definition g_warning (format : string) (args : list arg) : M unit :=
  emit (GLog LevelWarning format args).
Definition g_critical (format : string) (args : list arg) : M unit :=
  emit (GLog LevelCritical format args).
Definition g_info (format : string) : M unit := emit (GLog LevelInfo format []).

(** [open (path, O_RDONLY)]: [None] is the -1 of a failure. *)
Definition sys_open (path : string) : M (option fd_t) :=
  fun w =>
    let r := match w_fs w !! path with
             | Some i => if i_readable i then Some (i_reads i) else None
             | None => None
             end in
    (r, logged w [SysOpen path (bool_decide (is_Some r))]).

(** One [read] on a descriptor: the count returned, the bytes put in the
    buffer, and the descriptor afterwards. *)
Definition read_result (r : option (list byte)) : Z * list byte :=
  match r with
  | Some bytes => (Z.of_nat (length bytes), bytes)
  | None => (-1, [])
  end.

Definition sys_read (fd : fd_t) : (Z * list byte) * fd_t :=
  match fd with
  | [] => ((0, []), [])
  | r :: fd' => (read_result r, fd')
  end.

(** [unlink (path)]: 0, and the entry [path] names is gone; or -1.  The
    entry is the one the world keeps under [path]. *)
Definition sys_unlink (path : string) : M Z :=
  fun w =>
    if bool_decide (is_Some (w_fs w !! path)) && negb (bool_decide (path ∈ w_nounlink w))
    then (0, {| w_fs := delete path (w_fs w); w_nounlink := w_nounlink w;
                w_nolink := w_nolink w; w_stdin := w_stdin w;
                w_trace := w_trace w ++ [SysUnlink path true] |})
    else (-1, logged w [SysUnlink path false]).

(** [link (oldpath, newpath)]: 0, and [newpath] names what [oldpath] names;
    or -1. *)
Definition sys_link (oldpath newpath : string) : M Z :=
  fun w =>
    match w_fs w !! oldpath, w_fs w !! newpath with
    | Some i, None =>
        if bool_decide (newpath ∈ w_nolink w)
        then (-1, logged w [SysLink oldpath newpath false])
        else (0, {| w_fs := <[newpath := i]> (w_fs w); w_nounlink := w_nounlink w;
                    w_nolink := w_nolink w; w_stdin := w_stdin w;
                    w_trace := w_trace w ++ [SysLink oldpath newpath true] |})
    | _, _ => (-1, logged w [SysLink oldpath newpath false])
    end.

(** [fgets (buf, size, stdin)] on the operator's input. *)
Definition sys_fgets (size : nat) : M (option string) :=
  fun w =>
    match Libc.fgets size (w_stdin w) with
    | None => (None, w)
    | Some (buf, rest) =>
        (Some buf, {| w_fs := w_fs w; w_nounlink := w_nounlink w; w_nolink := w_nolink w;
                      w_stdin := rest; w_trace := w_trace w |})
    end.

(** ** Phase three: sorting and filtering a group of files *)

(** Comparison function called by [g_list_sort], to sort a list of files by
    the number of hard links.  [res] is a [gint]; the difference of the two
    [nlink_t] counts is converted to it. *)
Definition sort_compare (fa fb : file_t) : Z :=
  let res := CInt.to_int (st_nlink fb - st_nlink fa) in
  if res =? 0 then Libc.strcmp (name fa) (name fb) else res.

(** The test of the inner loop of [filter_links]. *)
Definition same_storage (fp2 fp1 : file_t) : bool :=
  (st_dev fp2 =? st_dev fp1) && (st_ino fp2 =? st_ino fp1).

(** The inner [for] loop of [filter_links]: is a file hard-linked with [fp1]
    already in the new list? *)
Fixpoint filter_links_found (fp1 : file_t) (ptr : list file_t) : bool :=
  match ptr with
  | [] => false
  | fp2 :: next => if same_storage fp2 fp1 then true else filter_links_found fp1 next
  end.

(** The [while] loop of [filter_links] over the rest of the list. *)
Fixpoint filter_links_loop (l new_list : list file_t) : list file_t :=
  match l with
  | [] => new_list
  | fp1 :: next =>
      if filter_links_found fp1 new_list
      then filter_links_loop next new_list
      else filter_links_loop next (GLib.g_list_append new_list fp1)
  end.

(** Takes a list of files and returns another list which contains only one
    file from any set that are hard-linked together. *)
Definition filter_links (l : list file_t) : list file_t :=
  match l with
  | [] => []
  | data :: next => filter_links_loop next (GLib.g_list_append [] data)
  end.

(** The list [digest_foreach] searches: the sorted files, filtered unless
    the hard links option is set. *)
Definition search_list_of (options : Z) (file_list : file_list_t) : list file_t :=
  let search_list := GLib.g_list_sort sort_compare (files file_list) in
  if negb (opt_set options OPT_HARDLINKS) then filter_links search_list else search_list.

(** ** Phase three: byte-by-byte comparison *)

(** The [do ... while] loop of [compare_files], returning [status].  The loop
    goes round again only after a read of [fd1] that returned data, so the
    last branch on an exhausted [fd1] is never taken. *)
Fixpoint compare_files_loop (name1 name2 : string) (fd1 fd2 : fd_t) {struct fd1} : M Z :=
  let '(nb1, buf1) := fst (sys_read fd1) in
  if nb1 =? -1 then
    g_critical "read error on file '%s' - %m" [AStr name1] ;; ret 0
  else
    let '((nb2, buf2), fd2') := sys_read fd2 in
    if nb2 =? -1 then
      g_critical "read error on file '%s' - %m" [AStr name2] ;; ret 0
    else if (nb1 =? 0) && (nb2 =? 0) then ret 1
    else if (nb1 =? nb2) && (Libc.memcmp buf1 buf2 (Z.to_nat nb1) =? 0) then
      match fd1 with
      | _ :: fd1' => compare_files_loop name1 name2 fd1' fd2'
      | [] => ret 0
      end
    else ret 0.

(** Byte-by-byte comparison of two files: 1 if they are the same, 0
    otherwise. *)
Definition compare_files (file1 file2 : file_t) : M Z :=
  let name1 := name file1 in
  let* fd1 := sys_open name1 in
  match fd1 with
  | Some fd1 =>
      let name2 := name file2 in
      let* fd2 := sys_open name2 in
      match fd2 with
      | Some fd2 => compare_files_loop name1 name2 fd1 fd2
      | None =>
          g_critical "unable to open file '%s' for reading - %m" [AStr name2] ;; ret 0
      end
  | None =>
      g_critical "unable to open file '%s' for reading - %m" [AStr name1] ;; ret 0
  end.

(** ** Phase three: the actions *)

(** Makes the second file, the slave, a hard link to the first, the master. *)
Definition link_pair (master slave : file_t) : M unit :=
  emit (Enter (Call_link_pair master slave)) ;;
  let* r := sys_unlink (name slave) in
  if r =? 0 then
    let* r' := sys_link (name master) (name slave) in
    if r' =? -1 then
      g_warning "unable to link '%s' to '%s' - %m" [AStr (name master); AStr (name slave)]
    else ret tt
  else g_warning "unable to unlink '%s' - %m" [AStr (name slave)].

(** The listing of the current disposition, numbered from [i]. *)
Fixpoint print_disposition (ptr : list delete_t) (i : Z) : M unit :=
  match ptr with
  | [] => ret tt
  | elem :: next =>
      printf "%5d %c %s (%ld links)\n"
        [AInt i; AChar (if keep elem =? 0 then " "%char else "*"%char);
         AStr (name (file elem)); AInt (st_nlink (file elem))] ;;
      print_disposition next (i + 1)
  end.

(** The go-ahead: every file not marked to be kept is unlinked. *)
Fixpoint unlink_marked (ptr : list delete_t) : M unit :=
  match ptr with
  | [] => ret tt
  | elem :: next =>
      (if keep elem =? 0 then
         let name := name (file elem) in
         let* r := sys_unlink name in
         if r =? 0 then printf "%s deleted\n" [AStr name]
         else g_warning "unable to delete '%s' - %m" [AStr name]
       else ret tt) ;;
      unlink_marked next
  end.

(** [elem->keep = 1 - elem->keep] on the element at a position. *)
Definition toggle (delete_list : list delete_t) (n : nat) (elem : delete_t) : list delete_t :=
  <[n := {| file := file elem; keep := 1 - keep elem |}]> delete_list.

(** The interactive loop of [delete_files].  Every round but the last takes
    at least one character from standard input; [fuel] bounds the rounds. *)
Fixpoint delete_files_loop (fuel : nat) (digest : string)
    (delete_list : list delete_t) (print_list : bool) : M unit :=
  match fuel with
  | O => ret tt
  | S fuel' =>
      (if print_list then
         printf "\nDisposition of files with digest %s\n\n" [AStr digest] ;;
         print_disposition delete_list 1 ;;
         printf "\nFiles marked (*) will be kept - these reset deleted\nTo toggle a file's status type its number\nType 'go' to go ahead with the delete\n" []
       else ret tt) ;;
      printf "\n> " [] ;;
      let* line := sys_fgets 20 in
      match line with
      | None => printf "*** EOF *** no action taken\n" []
      | Some buf =>
          let buf := Libc.cstr buf in
          if Libc.strncmp buf "go" 2 =? 0 then unlink_marked delete_list
          else
            let i := Libc.atoi buf in
            if i >? 0 then
              match GLib.g_list_nth_data delete_list (i - 1) with
              | Some elem =>
                  delete_files_loop fuel' digest
                    (toggle delete_list (Z.to_nat (i - 1)) elem) true
              | None =>
                  printf "no file number %d\n" [AInt i] ;;
                  delete_files_loop fuel' digest delete_list false
              end
            else
              printf "invalid input - please type a number or 'go'\n" [] ;;
              delete_files_loop fuel' digest delete_list false
      end
  end.

(** The list built at the start of [delete_files]: the master, kept, then
    every other file of the group, not kept. *)
Definition initial_delete_list (master : file_t) (l : list file_t) : list delete_t :=
  fold_left (fun delete_list data =>
               GLib.g_list_append delete_list {| file := data; keep := 0 |})
            l (GLib.g_list_append [] {| file := master; keep := 1 |}).

(** The interactive deletion of some files from a group known to have the
    same contents. *)
Definition delete_files (digest : string) (master : file_t) (l : list file_t) : M unit :=
  emit (Enter (Call_delete_files digest master l)) ;;
  fun w =>
    delete_files_loop (S (String.length (w_stdin w))) digest
      (initial_delete_list master l) true w.

(** The [while] loop of [list_files]. *)
Fixpoint list_files_loop (options : Z) (fs : ascii) (l : list file_t) : M unit :=
  match l with
  | [] => ret tt
  | fp :: next =>
      (if opt_set options OPT_SHOWSIZE then
         printf "%s (%ld)%c" [AStr (name fp); AInt (st_size fp); AChar fs]
       else printf "%s%c" [AStr (name fp); AChar fs]) ;;
      list_files_loop options fs next
  end.

(** Lists a single group of files known to have the same contents. *)
Definition list_files (options : Z) (master : file_t) (l : list file_t) : M unit :=
  emit (Enter (Call_list_files master l)) ;;
  let fs := if opt_set options OPT_SAMELINE then " "%char else "010"%char in
  (if negb (opt_set options OPT_OMITFIRST) then
     if opt_set options OPT_SHOWSIZE then
       printf "%s (%ld)%c" [AStr (name master); AInt (st_size master); AChar fs]
     else printf "%s%c" [AStr (name master); AChar fs]
   else ret tt) ;;
  list_files_loop options fs l ;;
  printf "%c" [AChar "010"%char].

(** ** Phase three: one group of files with the same message digest *)

(** The inner [while] loop of [digest_foreach]: every file after the master
    is compared with it. *)
Fixpoint digest_foreach_scan (options : Z) (master : file_t) (search_list : list file_t)
    (good_list : list file_t) (good_count : Z) (bad_list : list file_t)
  : M (list file_t * Z * list file_t) :=
  match search_list with
  | [] => ret (good_list, good_count, bad_list)
  | data :: next =>
      let* same := compare_files master data in
      if negb (same =? 0) then
        if opt_set options OPT_LINK then
          link_pair master data ;;
          digest_foreach_scan options master next good_list good_count bad_list
        else
          digest_foreach_scan options master next
            (GLib.g_list_append good_list data) (good_count + 1) bad_list
      else
        digest_foreach_scan options master next good_list good_count
          (GLib.g_list_append bad_list data)
  end.

(** The outer [while] loop of [digest_foreach].  The bad list of a round is
    shorter than the list searched; [fuel] bounds the rounds. *)
Fixpoint digest_foreach_loop (fuel : nat) (options : Z) (key : string)
    (search_list : list file_t) : M unit :=
  match fuel with
  | O => ret tt
  | S fuel' =>
      match search_list with
      | [] => ret tt
      | master :: next =>
          let* '(good_list, good_count, bad_list) :=
            digest_foreach_scan options master next [] 0 [] in
          (if good_count >? 0 then
             if opt_set options OPT_DELETE then delete_files key master good_list
             else list_files options master good_list
           else ret tt) ;;
          digest_foreach_loop fuel' options key bad_list
      end
  end.

(** Called for each group of files having the same message digest: checks
    if the files are really the same and calls the action function. *)
Definition digest_foreach (options : Z) (key : string) (value : file_list_t) : M unit :=
  if nfile value >? 1 then
    let search_list := search_list_of options value in
    digest_foreach_loop (length search_list) options key search_list
  else ret tt.

(** [g_hash_table_foreach] with [digest_foreach], over the entries of the
    table in the order the table yields them. *)
Fixpoint phase_three (options : Z) (table : list (string * file_list_t)) : M unit :=
  match table with
  | [] => ret tt
  | (key, value) :: rest =>
      digest_foreach options key value ;; phase_three options rest
  end.

(** ** Phase two and the main program *)

Definition version : string := "$Id$".

Definition help_text : string :=
  "\nUsage: dupfind [options] [ <file|dirrectory> ... ]\n\n  -q --quiet\tdisable progress indicator/messages\n  -r --recurse\tinclude files residing in subdirectories\n  -s --symlinks\tfollow symlinks\n  -H --hardlinks\tnormally, when two or more files point to the same\n\t\t\tdisk area they are treated as non-duplicates; this\n\t\t\toption will change this behavior\n  -n --noempty\texclude zero-length files from consideration\n  -1 --sameline\tlist each set of matches on a single line\n  -f --omitfirst\tomit the first file in each set of matches\n  -S --size\tshow size of duplicate files\n  -d --delete\tfor each set of duplicate files prompt user for\n\t\t\tfiles to preserve and delete all others\n  -l --link\tfor each set of duplicate files make all the\n\t\t\tfilenames hard links to the same disk storage\n  -i -- stdin\tread file names from stdin as well as processing\n\t\t\tany specified on the command line\n  -v --verbose\tshow progress messages\n  -V --version\tdisplay dupfind version\n  -h --help\tdisplay this help message\n\n".

(** The running state of a GLib checksum: the bytes it was fed since it was
    created or last reset. *)
Definition GChecksum : Type := list byte.

Definition g_checksum_update (checksum : GChecksum) (data : list byte) (length : Z)
  : GChecksum :=
  checksum ++ take (Z.to_nat length) data.

Definition g_checksum_reset (checksum : GChecksum) : GChecksum := [].

(** User data passed to tree foreach. *)
Record tree_foreach_t := {
  hash : gmap string file_list_t;
  digest : GChecksum
}.

Section Program.

(** The MD5 message digest of a sequence of bytes, in hexadecimal, as GLib
    computes it. *)
Variable md5_hex : list byte -> string.

(** Phase one, the building of the file list from the command line and
    standard input ([do_fsobj] and [do_stdin]): the status it adds up and
    the tree of files, in the order of its keys. *)
Variable build_file_list : Z -> list string -> M (Z * list file_t).

Definition g_checksum_get_string (checksum : GChecksum) : option string :=
  Some (md5_hex checksum).

(** The [while] loop of [file_foreach]: the file is read and fed to the
    digest for as long as [read] returns a positive count. *)
Fixpoint file_foreach_read (fd : fd_t) (checksum : GChecksum) : GChecksum :=
  match fd with
  | [] => checksum
  | r :: fd' =>
      let '(nbytes, buf) := read_result r in
      if nbytes >? 0 then file_foreach_read fd' (g_checksum_update checksum buf nbytes)
      else checksum
  end.

(** Called during phase two for each file of the tree, keyed by filename. *)
Definition file_foreach (key : string) (value : file_t) (fdata : tree_foreach_t)
  : M (bool * tree_foreach_t) :=
  let file := key in
  let* fd := sys_open file in
  match fd with
  | Some fd =>
      let checksum := file_foreach_read fd (digest fdata) in
      match g_checksum_get_string checksum with
      | Some digest_txt =>
          let table :=
            match hash fdata !! digest_txt with
            | Some file_list =>
                <[digest_txt := {| nfile := nfile file_list + 1;
                                   files := GLib.g_list_append (files file_list) value |}]>
                  (hash fdata)
            | None =>
                <[digest_txt := {| nfile := 1; files := GLib.g_list_append [] value |}]>
                  (hash fdata)
            end in
          ret (false, {| hash := table; digest := g_checksum_reset checksum |})
      | None =>
          g_warning "digest calculation failed on file '%s'" [AStr file] ;;
          ret (false, {| hash := hash fdata; digest := g_checksum_reset checksum |})
      end
  | None =>
      g_warning "unable to open file '%s' for reading - %m" [AStr file] ;;
      ret (false, fdata)
  end.

(** [g_tree_foreach] with [file_foreach]: the files in the order of the
    tree, until the function returns TRUE. *)
Fixpoint phase_two (file_tree : list file_t) (fdata : tree_foreach_t) : M tree_foreach_t :=
  match file_tree with
  | [] => ret fdata
  | value :: rest =>
      let* '(stop, fdata') := file_foreach (name value) value fdata in
      if stop then ret fdata' else phase_two rest fdata'
  end.

(** The [while] loop over [getopt_long], on the values it returns before
    EOF: the options when the loop ends, or the status [main] returns from
    inside it. *)
Fixpoint main_getopt (opts : list ascii) (options : Z) : M (Z + Z) :=
  match opts with
  | [] => ret (inl options)
  | opt :: rest =>
      let set flag := main_getopt rest (Z.lor options flag) in
      if Ascii.eqb opt "q" then set OPT_QUIET
      else if Ascii.eqb opt "r" then set OPT_RECURSE
      else if Ascii.eqb opt "s" then set OPT_SYMLINKS
      else if Ascii.eqb opt "H" then set OPT_HARDLINKS
      else if Ascii.eqb opt "n" then set OPT_NOEMPTY
      else if Ascii.eqb opt "1" then set OPT_SAMELINE
      else if Ascii.eqb opt "f" then set OPT_OMITFIRST
      else if Ascii.eqb opt "S" then set OPT_SHOWSIZE
      else if Ascii.eqb opt "d" then set OPT_DELETE
      else if Ascii.eqb opt "l" then set OPT_LINK
      else if Ascii.eqb opt "i" then set OPT_STDIN
      else if Ascii.eqb opt "v" then set OPT_VERBOSE
      else if Ascii.eqb opt "V" then emit (Stderr version) ;; ret (inr 0)
      else if Ascii.eqb opt "h" then emit (Stderr help_text) ;; ret (inr 0)
      else g_critical "bad command line args - try 'dupfind --help'" [] ;; ret (inr 1)
  end.

(** [main], on the values [getopt_long] returns for the command line and
    the arguments left after the options. *)
Definition main (opts : list ascii) (args : list string) : M Z :=
  let* r := main_getopt opts 0 in
  match r with
  | inr status => ret status
  | inl options =>
      if Z.land options (Z.lor OPT_DELETE OPT_LINK) =? Z.lor OPT_DELETE OPT_LINK then
        g_critical "link and delete are mutually exclusive" [] ;; ret 1
      else if bool_decide (args = []) && negb (opt_set options OPT_STDIN) then
        g_critical "nothing to do - try 'dupfind --help'" [] ;; ret 1
      else
        (if opt_set options OPT_VERBOSE then g_info "building file list" else ret tt) ;;
        let* '(status, file_tree) := build_file_list options args in
        (if opt_set options OPT_VERBOSE then g_info "calculating digests" else ret tt) ;;
        let* foreach_data := phase_two file_tree {| hash := ∅; digest := [] |} in
        (if opt_set options OPT_VERBOSE then g_info "performing required actions"
         else ret tt) ;;
        phase_three options (map_to_list (hash foreach_data)) ;;
        ret status
  end.

End Program.

(** ** Phase one: the names of the file system *)

(** What [stat] and [lstat] put in the [struct stat] of a name: the fields
    the program reads. *)
Module Stat.

Record t := {
  st_mode : Z;
  st_size : Z;
  st_nlink : Z;
  st_dev : Z;
  st_ino : Z
}.

End Stat.

(** The file type bits of a mode (octal 0170000, 0040000 and 0100000) and
    the tests of [<sys/stat.h>]. *)
Definition S_IFMT : Z := 0xF000.
Definition S_IFDIR : Z := 0x4000.
Definition S_IFREG : Z := 0x8000.

Definition S_ISREG (m : Z) : bool := Z.land m S_IFMT =? S_IFREG.
Definition S_ISDIR (m : Z) : bool := Z.land m S_IFMT =? S_IFDIR.

(** The names of the file system while the file list is built: what
    [lstat] and [stat] show for a name, [None] for the -1 of a failure, and
    for a name that [opendir] opens the [d_name] buffers of the entries
    [readdir] yields up to its NULL. *)
Record namespace := {
  ns_lstat : string -> option Stat.t;
  ns_stat : string -> option Stat.t;
  ns_opendir : string -> option (list string)
}.

(** The longest path name the system takes, the terminating NUL included:
    a longer one makes [stat] and [lstat] fail (with ENAMETOOLONG). *)
Definition PATH_MAX : nat := 4096.

Definition sys_lstat (sys : namespace) (name : string) : option Stat.t :=
  if (PATH_MAX <=? String.length name)%nat then None else ns_lstat sys name.

Definition sys_stat (sys : namespace) (name : string) : option Stat.t :=
  if (PATH_MAX <=? String.length name)%nat then None else ns_stat sys name.

(** Which [stat] system call to use: [lstat], unless [main] has found the
    symlinks option set and has made it [stat]. *)
Definition stat_func (options : Z) (sys : namespace) : string -> option Stat.t :=
  if opt_set options OPT_SYMLINKS then sys_stat sys else sys_lstat sys.

(** [s[i]] in a C string: the character, and the terminating NUL at its
    end. *)
Definition char_at (s : string) (i : nat) : ascii :=
  match String.get i s with
  | Some c => c
  | None => zero
  end.

(** [strchr (s, c)] for a character other than NUL: the position of its
    first occurrence, [None] for NULL. *)
Fixpoint strchr (s : string) (c : ascii) : option nat :=
  match s with
  | EmptyString => None
  | String a rest => if Ascii.eqb a c then Some O else option_map S (strchr rest c)
  end.

(** ** GLib trees *)

Module GTree.

(** A [GTree] made by [g_tree_new ((GCompareFunc) strcmp)]: the entries in
    the order of their keys, which is the order [g_tree_foreach] goes
    through them. *)
Definition t (V : Type) : Type := list (string * V).

Definition g_tree_new {V} : t V := [].

(** [g_tree_lookup]: the search goes by the comparison of the key with the
    keys of the tree; NULL when the key is not met. *)
Fixpoint g_tree_lookup {V} (tree : t V) (key : string) : option V :=
  match tree with
  | [] => None
  | (k, v) :: rest =>
      let c := Libc.strcmp key k in
      if c =? 0 then Some v
      else if c <? 0 then None
      else g_tree_lookup rest key
  end.

(** [g_tree_insert]: a new entry at the place of its key; the value of an
    entry whose key compares equal is replaced. *)
Fixpoint g_tree_insert {V} (tree : t V) (key : string) (value : V) : t V :=
  match tree with
  | [] => [(key, value)]
  | (k, v) :: rest =>
      let c := Libc.strcmp key k in
      if c =? 0 then (k, value) :: rest
      else if c <? 0 then (key, value) :: tree
      else (k, v) :: g_tree_insert rest key value
  end.

End GTree.

(** ** Phase one: building the file list *)

(** The test [do_fsobj] makes of the name of a directory entry before it
    goes into it. *)
Definition do_fsobj_enters (dname : string) : bool :=
  negb (Ascii.eqb (char_at dname 0) ".") ||
  (negb (Ascii.eqb (char_at dname 1) ".") && negb (Ascii.eqb (char_at dname 1) zero)).

(** The [while] loop of [do_fsobj] over the entries of a directory;
    [do_fsobj] is the function itself, called on the path of an entry. *)
Fixpoint do_fsobj_readdir (do_fsobj : GTree.t file_t -> string -> M (Z * GTree.t file_t))
    (name : string) (entries : list string) (status : Z) (file_tree : GTree.t file_t)
  : M (Z * GTree.t file_t) :=
  match entries with
  | [] => ret (status, file_tree)
  | d_name :: rest =>
      let dname := Libc.cstr d_name in
      if do_fsobj_enters dname then
        let path := (name ++ "/" ++ dname)%string in
        let* '(r, file_tree') := do_fsobj file_tree path in
        do_fsobj_readdir do_fsobj name rest (CInt.to_int (status + r)) file_tree'
      else do_fsobj_readdir do_fsobj name rest status file_tree
  end.

(** Called during phase one for each file system object being worked on:
    it works out whether it is a file or a directory and either adds it to
    the tree, under the copy of its name that the record holds, or goes
    into it.  Every call on an entry of a directory has a
    longer name; [depth] bounds the calls inside one another. *)
Fixpoint do_fsobj_depth (depth : nat) (options : Z) (sys : namespace)
    (file_tree : GTree.t file_t) (name : string) : M (Z * GTree.t file_t) :=
  match depth with
  | O => ret (0, file_tree)
  | S depth' =>
      match stat_func options sys name with
      | Some stbuf =>
          if S_ISREG (Stat.st_mode stbuf) then
            if (Stat.st_size stbuf >? 0) || negb (opt_set options OPT_NOEMPTY) then
              match GTree.g_tree_lookup file_tree name with
              | Some _ =>
                  (if negb (opt_set options OPT_QUIET) then
                     g_warning "filename '%s' alreday seen" [AStr name]
                   else ret tt) ;;
                  ret (0, file_tree)
              | None =>
                  let fp := {| name := name;
                               st_size := Stat.st_size stbuf;
                               st_nlink := Stat.st_nlink stbuf;
                               st_mode := Stat.st_mode stbuf;
                               st_dev := Stat.st_dev stbuf;
                               st_ino := Stat.st_ino stbuf |} in
                  ret (0, GTree.g_tree_insert file_tree name fp)
              end
            else ret (0, file_tree)
          else if S_ISDIR (Stat.st_mode stbuf) then
            if opt_set options OPT_RECURSE then
              match ns_opendir sys name with
              | Some entries =>
                  do_fsobj_readdir (do_fsobj_depth depth' options sys) name entries 0 file_tree
              | None =>
                  g_warning "unable to read directory '%s' - %m" [AStr name] ;;
                  ret (1, file_tree)
              end
            else
              g_warning "%s is a directory - ignored" [AStr name] ;;
              ret (0, file_tree)
          else ret (0, file_tree)
      | None =>
          g_warning "unable to stat '%s' - %m" [AStr name] ;;
          ret (1, file_tree)
      end
  end.

(** No name of [PATH_MAX] characters or more is gone into, so that many
    calls inside one another are never reached. *)
Definition do_fsobj (options : Z) (sys : namespace) (file_tree : GTree.t file_t)
    (name : string) : M (Z * GTree.t file_t) :=
  do_fsobj_depth (S (PATH_MAX - String.length name)) options sys file_tree name.

(** The [while] loop of [do_stdin].  Every round but the last takes at
    least one character from standard input; [fuel] bounds the rounds. *)
Fixpoint do_stdin_loop (fuel : nat) (options : Z) (sys : namespace) (status : Z)
    (file_tree : GTree.t file_t) : M (Z * GTree.t file_t) :=
  match fuel with
  | O => ret (status, file_tree)
  | S fuel' =>
      let* line := sys_fgets 1024 in
      match line with
      | None => ret (status, file_tree)
      | Some buf =>
          let name := Libc.cstr buf in
          let name :=
            match strchr name "010" with
            | Some ptr => substring 0 ptr name
            | None => name
            end in
          let* '(r, file_tree') := do_fsobj options sys file_tree name in
          do_stdin_loop fuel' options sys (CInt.to_int (status + r)) file_tree'
      end
  end.

(** Called during phase one to read filenames from stdin and add them to
    the tree. *)
Definition do_stdin (options : Z) (sys : namespace) (file_tree : GTree.t file_t)
  : M (Z * GTree.t file_t) :=
  fun w => do_stdin_loop (S (String.length (w_stdin w))) options sys 0 file_tree w.

(** The [while] loop of [main] over the arguments left after the options. *)
Fixpoint phase_one_args (options : Z) (sys : namespace) (args : list string) (status : Z)
    (file_tree : GTree.t file_t) : M (Z * GTree.t file_t) :=
  match args with
  | [] => ret (status, file_tree)
  | arg :: rest =>
      let* '(r, file_tree') := do_fsobj options sys file_tree arg in
      phase_one_args options sys rest (CInt.to_int (status + r)) file_tree'
  end.

(** Phase one of [main]: the status added up and the files of the tree in
    the order of [g_tree_foreach]. *)
Definition phase_one (sys : namespace) (options : Z) (args : list string)
  : M (Z * list file_t) :=
  let* '(status, file_tree) := phase_one_args options sys args 0 GTree.g_tree_new in
  let* '(status, file_tree) :=
    if opt_set options OPT_STDIN then
      let* '(r, file_tree') := do_stdin options sys file_tree in
      ret (CInt.to_int (status + r), file_tree')
    else ret (status, file_tree) in
  ret (status, map snd file_tree).

(** The program, with its three phases. *)
Definition dupfind (md5_hex : list byte -> string) (sys : namespace)
    (opts : list ascii) (args : list string) : M Z :=
  main md5_hex (phase_one sys) opts args.

(** ** Vocabulary of the properties *)

(** The order of a sorted group: more hard links first, and among files
    with as many links the lexicographically smaller path first. *)
Definition links_then_path (a b : file_t) : Prop :=
  st_nlink b < st_nlink a \/
  (st_nlink a = st_nlink b /\ String.leb (name a) (name b) = true).

(** A file record [sort_compare] orders as meant: the name is a C string
    and the number of links is one whose differences fit the [gint] result. *)
Definition sortable (f : file_t) : Prop :=
  0 <= st_nlink f < 2147483648 /\ Libc.is_cstring (name f) = true.

(** What [filter_links] takes for the identity of the storage of a file. *)
Definition storage (f : file_t) : Z * Z := (st_dev f, st_ino f).

Definition example_file (path : string) (links dev ino : Z) : file_t :=
  {| name := path; st_size := 3; st_nlink := links; st_mode := 33188;
     st_dev := dev; st_ino := ino |}.

(** A descriptor at end of input: the next [read] returns 0. *)
Definition at_eof (fd : fd_t) : bool :=
  match fd with
  | [] | Some [] :: _ => true
  | _ => false
  end.

(** Two descriptors yield equal chunks read after read and then reach end
    of input at the same read. *)
Fixpoint equal_streams (fd1 fd2 : fd_t) : bool :=
  match fd1, fd2 with
  | Some (b1 :: chunk1) :: rest1, Some (b2 :: chunk2) :: rest2 =>
      bool_decide (b1 :: chunk1 = b2 :: chunk2) && equal_streams rest1 rest2
  | _, _ => at_eof fd1 && at_eof fd2
  end.

(** A descriptor that can be read to its end: no read fails before the one
    that returns 0. *)
Fixpoint reads_to_end (fd : fd_t) : bool :=
  match fd with
  | [] | Some [] :: _ => true
  | Some (_ :: _) :: rest => reads_to_end rest
  | None :: _ => false
  end.

(** What [open] for reading gives for a path: the reads to come, if the
    entry is there and can be opened. *)
Definition opened (fs : gmap string inode) (path : string) : option fd_t :=
  match fs !! path with
  | Some i => if i_readable i then Some (i_reads i) else None
  | None => None
  end.

(** Two paths that open, with equal streams behind them. *)
Definition same_contents (fs : gmap string inode) (path1 path2 : string) : bool :=
  match opened fs path1, opened fs path2 with
  | Some fd1, Some fd2 => equal_streams fd1 fd2
  | _, _ => false
  end.

Definition is_critical (e : event) : bool :=
  match e with
  | GLog LevelCritical _ _ => true
  | _ => false
  end.

Definition example_inode (ino : Z) (contents : string) : inode :=
  {| i_dev := 0; i_ino := ino; i_readable := true;
     i_reads := [Some (list_byte_of_string contents)] |}.

(** A world with three files, two of them with the same contents. *)
Definition example_world (input : string) : world :=
  {| w_fs := {[ "a" := example_inode 1 "xyz"; "b" := example_inode 2 "xyz";
                "c" := example_inode 3 "xyw" ]};
     w_nounlink := ∅; w_nolink := ∅; w_stdin := input; w_trace := [] |}.

(** The paths [unlink] was called with, and the action functions that were
    entered, in a stretch of the trace. *)
Definition unlink_calls (events : list event) : list string :=
  omap (fun e => match e with SysUnlink path _ => Some path | _ => None end) events.

Definition entered (events : list event) : list call :=
  omap (fun e => match e with Enter c => Some c | _ => None end) events.

(** The operator's input cut the way [fgets] with the buffer of
    [delete_files] cuts it: a property of every line read up to end of
    input. *)
Inductive every_line (P : string -> Prop) : string -> Prop :=
| every_line_eof : every_line P ""
| every_line_next input buf rest :
    Libc.fgets 20 input = Some (buf, rest) ->
    P (Libc.cstr buf) ->
    every_line P rest ->
    every_line P input.

(** The test [delete_files] makes for the go-ahead. *)
Definition go_ahead (buf : string) : bool := Libc.strncmp buf "go" 2 =? 0.

(** The paths of the elements of a delete list that are not marked to be
    kept. *)
Definition marked (delete_list : list delete_t) : list string :=
  map (fun elem => name (file elem)) (List.filter (fun elem => keep elem =? 0) delete_list).

(** What a stretch of the program did to the world: the events it added to
    the trace; no entry changed but those of [names], and [unlink] called
    on these only; the input still to be read is what is left of the input
    there was, cut at a line. *)
Record effect (names : list string) (w w' : world) (events : list event) : Prop := {
  eff_trace : w_trace w' = w_trace w ++ events;
  eff_nounlink : w_nounlink w' = w_nounlink w;
  eff_nolink : w_nolink w' = w_nolink w;
  eff_fs : forall path, path ∉ names -> w_fs w' !! path = w_fs w !! path;
  eff_unlinks : forall path, path ∈ unlink_calls events -> path ∈ names;
  eff_stdin : forall P, every_line P (w_stdin w) -> every_line P (w_stdin w')
}.

(** The same contents behind the paths of two file records. *)
Definition same_files (fs : gmap string inode) (a b : file_t) : bool :=
  same_contents fs (name a) (name b).

(** The rounds of the resolver as the design describes them: the first file
    left is the master, the files after it that are the same as the master
    are its duplicates, and the rounds go on with the others. *)
Equations? classes (same : file_t -> file_t -> bool) (l : list file_t)
  : list (file_t * list file_t) by wf (length l) lt :=
  classes same [] := [];
  classes same (master :: next) :=
    (master, List.filter (same master) next) ::
    classes same (List.filter (fun f => negb (same master f)) next).
Proof.
  pose proof (filter_length_le (fun f => negb (same master f)) next) as H.
  simpl. apply Nat.lt_succ_r. exact H.
Qed.

(** The files of a class, the master first. *)
Definition members (class : file_t * list file_t) : list file_t := fst class :: snd class.

(** The calls of the action functions a class stands for: in link mode one
    call of [link_pair] for every duplicate, otherwise one call of
    [delete_files] or of [list_files] for a class with duplicates. *)
Definition actions_of_class (options : Z) (key : string) (class : file_t * list file_t)
  : list call :=
  let '(master, good_list) := class in
  if opt_set options OPT_LINK then map (Call_link_pair master) good_list
  else
    match good_list with
    | [] => []
    | _ :: _ =>
        if opt_set options OPT_DELETE then [Call_delete_files key master good_list]
        else [Call_list_files master good_list]
    end.

Definition actions_of (options : Z) (key : string) (groups : list (file_t * list file_t))
  : list call :=
  concat (map (actions_of_class options key) groups).

(** The master a call of an action function was given. *)
Definition master_of (c : call) : file_t :=
  match c with
  | Call_list_files master _ => master
  | Call_delete_files _ master _ => master
  | Call_link_pair master _ => master
  end.

(** The bytes read from a descriptor up to the end of input. *)
Fixpoint contents (fd : fd_t) : list byte :=
  match fd with
  | Some (b :: chunk) :: rest => (b :: chunk) ++ contents rest
  | _ => []
  end.

(** Reads as [read] does them on a regular file: every read fills the
    buffer of [CHUNK_SIZE] bytes but the last one before the end of the
    file, and no read fails. *)
Fixpoint regular_reads (fd : fd_t) : bool :=
  match fd with
  | [] => true
  | [Some chunk] => (0 <? Z.of_nat (length chunk)) && (Z.of_nat (length chunk) <=? CHUNK_SIZE)
  | Some chunk :: rest => (Z.of_nat (length chunk) =? CHUNK_SIZE) && regular_reads rest
  | None :: _ => false
  end.

(** A path that opens on a regular file with the given bytes. *)
Definition holds (fs : gmap string inode) (path : string) (bytes : list byte) : Prop :=
  exists fd, opened fs path = Some fd /\ regular_reads fd = true /\ contents fd = bytes.

(** The classes of the group of files under one digest. *)
Definition bucket_classes (options : Z) (fs : gmap string inode) (entry : string * file_list_t)
  : list (file_t * list file_t) :=
  classes (same_files fs) (search_list_of options (snd entry)).

(** The calls of the action functions the table stands for, group after
    group. *)
Definition phase_actions (options : Z) (fs : gmap string inode)
    (table : list (string * file_list_t)) : list call :=
  concat (map (fun entry => actions_of options (fst entry) (bucket_classes options fs entry))
              table).

(** The paths of all the files of a table. *)
Definition table_names (table : list (string * file_list_t)) : list string :=
  concat (map (fun entry => map name (files (snd entry))) table).

(** A table as phase two builds it from a tree of files: every group
    counts its files, and no path is twice in the table. *)
Definition table_ok (table : list (string * file_list_t)) : Prop :=
  Forall (fun entry => nfile (snd entry) = Z.of_nat (length (files (snd entry)))) table /\
  NoDup (table_names table).

(** The group of the three files of the example world. *)
Definition example_bucket : file_list_t :=
  {| nfile := 3;
     files := [example_file "a" 1 0 1; example_file "b" 1 0 2; example_file "c" 1 0 3] |}.

(** The paths the processing of a class, of a group and of a table changes
    at most, when a session of [delete_files] on a master and its
    duplicates changes at most the paths [touched] gives. *)
Definition touched_by_class (options : Z) (touched : file_t -> list file_t -> list string)
    (class : file_t * list file_t) : list string :=
  let '(master, good_list) := class in
  if opt_set options OPT_LINK then map name good_list
  else if opt_set options OPT_DELETE then touched master good_list
  else [].

Definition touched_by_bucket (options : Z) (fs : gmap string inode)
    (touched : file_t -> list file_t -> list string) (entry : string * file_list_t)
  : list string :=
  concat (map (touched_by_class options touched) (bucket_classes options fs entry)).

Definition touched_by_table (options : Z) (fs : gmap string inode)
    (touched : file_t -> list file_t -> list string) (table : list (string * file_list_t))
  : list string :=
  concat (map (touched_by_bucket options fs touched) table).

(** What holds of the table while the files of the tree are gone through:
    every group counts its files, and the paths in the table are paths of
    files gone through, each at most once. *)
Definition table_built (table : gmap string file_list_t) (done : list file_t) : Prop :=
  (forall key value, table !! key = Some value ->
     nfile value = Z.of_nat (length (files value))) /\
  table_names (map_to_list table) ⊆+ map name done.


(** ** Vocabulary of phase one *)

(** A tree in the order of its keys, which are C strings. *)
Definition tree_ok {V} (tree : GTree.t V) : Prop :=
  StronglySorted (fun a b => Libc.strcmp (fst a) (fst b) < 0) tree /\
  Forall (fun entry => Libc.is_cstring (fst entry) = true) tree.

(** The record [do_fsobj] makes of a name and of what [stat] shows for
    it. *)
Definition file_of (path : string) (stbuf : Stat.t) : file_t :=
  {| name := path;
     st_size := Stat.st_size stbuf;
     st_nlink := Stat.st_nlink stbuf;
     st_mode := Stat.st_mode stbuf;
     st_dev := Stat.st_dev stbuf;
     st_ino := Stat.st_ino stbuf |}.

(** A name [do_fsobj] takes for a file to search, and the record of it: a
    regular file, and not an empty one when these are left out. *)
Definition listed (options : Z) (sys : namespace) (path : string) (fp : file_t) : Prop :=
  exists stbuf,
    stat_func options sys path = Some stbuf /\
    S_ISREG (Stat.st_mode stbuf) = true /\
    (0 < Stat.st_size stbuf \/ opt_set options OPT_NOEMPTY = false) /\
    fp = file_of path stbuf.

(** The names under a name: the name itself and, with the recurse option,
    what is under the entries of a directory that opens, but for the
    entries [do_fsobj] does not go into. *)
Inductive under (options : Z) (sys : namespace) : string -> string -> Prop :=
| under_here name : under options sys name name
| under_entry name stbuf entries d_name path :
    opt_set options OPT_RECURSE = true ->
    stat_func options sys name = Some stbuf ->
    S_ISDIR (Stat.st_mode stbuf) = true ->
    ns_opendir sys name = Some entries ->
    In d_name entries ->
    do_fsobj_enters (Libc.cstr d_name) = true ->
    under options sys (name ++ "/" ++ Libc.cstr d_name)%string path ->
    under options sys name path.

(** The files of a tree are records of regular files kept under their own
    names, without the empty ones when these are left out. *)
Definition file_tree_ok (options : Z) (file_tree : GTree.t file_t) : Prop :=
  tree_ok file_tree /\
  Forall (fun entry =>
            name (snd entry) = fst entry /\
            S_ISREG (st_mode (snd entry)) = true /\
            (opt_set options OPT_NOEMPTY = true -> 0 < st_size (snd entry)))
         file_tree.

(** The warnings of [do_fsobj] that go with a status of 1. *)
Definition is_failure (e : event) : bool :=
  match e with
  | GLog LevelWarning format _ =>
      bool_decide (format = "unable to stat '%s' - %m") ||
      bool_decide (format = "unable to read directory '%s' - %m")
  | _ => false
  end.

Definition is_warning (e : event) : bool :=
  match e with
  | GLog LevelWarning _ _ => true
  | _ => false
  end.

(** The tree after some names were worked on: the entries there were, and
    for every name under one of these names that is taken for a file to
    search and was not in the tree, the record of it. *)
Definition collected (options : Z) (sys : namespace) (names : list string)
    (file_tree file_tree' : GTree.t file_t) : Prop :=
  forall entry,
    In entry file_tree' <->
    In entry file_tree \/
    (~ In (fst entry) (map fst file_tree) /\
     exists name, In name names /\
       under options sys name (fst entry) /\
       listed options sys (fst entry) (snd entry)).

(** The number of the warnings that count in the status. *)
Definition failures (events : list event) : Z :=
  Z.of_nat (length (List.filter is_failure events)).

(** A part of the program that does nothing to the world but add events to
    the trace, and whose result does not depend on the world. *)
Definition writes {A} (m : M A) (a : A) (events : list event) : Prop :=
  forall w, m w = (a, logged w events).

(** What a run of a part of phase one is: warnings added to the trace, and
    as status the number of the failures among them, added to a status
    there was. *)
Definition counts (status : Z) (m : M (Z * GTree.t file_t)) : Prop :=
  exists status' file_tree' events,
    writes m (status', file_tree') events /\
    forallb is_warning events = true /\
    status' = CInt.to_int (status + failures events).

(** The world with other characters waiting on standard input. *)
Definition with_stdin (w : world) (input : string) : world :=
  {| w_fs := w_fs w; w_nounlink := w_nounlink w; w_nolink := w_nolink w;
     w_stdin := input; w_trace := w_trace w |}.

(** The name [do_stdin] makes of a buffer [fgets] has filled: the C string
    in it, cut at its newline. *)
Definition stdin_name (buf : string) : string :=
  match strchr (Libc.cstr buf) "010" with
  | Some ptr => substring 0 ptr (Libc.cstr buf)
  | None => Libc.cstr buf
  end.

(** The buffers [fgets] fills for [do_stdin] up to the end of the input. *)
Fixpoint stdin_lines_upto (fuel : nat) (input : string) : list string :=
  match fuel with
  | O => []
  | S fuel' =>
      match Libc.fgets 1024 input with
      | None => []
      | Some (buf, rest) => buf :: stdin_lines_upto fuel' rest
      end
  end.

Definition stdin_names (input : string) : list string :=
  map stdin_name (stdin_lines_upto (S (String.length input)) input).

(** A name that a line of standard input can give: a C string without a
    newline that, with the newline after it, fits the buffer of
    [do_stdin]. *)
Definition line_name (path : string) : Prop :=
  Libc.is_cstring path = true /\ strchr path "010" = None /\
  (String.length path < 1023)%nat.

(** The lines of some names. *)
Definition lines_of (names : list string) : string :=
  fold_right (fun path input => (path ++ String "010" input)%string) EmptyString names.

(** The names of the file system without the directory entries [do_fsobj]
    does not go into. *)
Definition without_dot_entries (sys : namespace) : namespace :=
  {| ns_lstat := ns_lstat sys;
     ns_stat := ns_stat sys;
     ns_opendir := fun name =>
       option_map (List.filter (fun d_name => do_fsobj_enters (Libc.cstr d_name)))
                  (ns_opendir sys name) |}.

(** A directory [d] that holds a file [a], a file [..b] whose name begins
    with two dots, a name [gone] that is no longer there, and a directory
    [e] with an empty file [c]. *)
Definition example_stat (path : string) : option Stat.t :=
  let dir := {| Stat.st_mode := 16877; Stat.st_size := 4096; Stat.st_nlink := 2;
                Stat.st_dev := 0; Stat.st_ino := 1 |} in
  let reg size ino := {| Stat.st_mode := 33188; Stat.st_size := size; Stat.st_nlink := 1;
                         Stat.st_dev := 0; Stat.st_ino := ino |} in
  if String.eqb path "d" then Some dir
  else if String.eqb path "d/a" then Some (reg 3 11)
  else if String.eqb path "d/..b" then Some (reg 3 12)
  else if String.eqb path "d/e" then Some dir
  else if String.eqb path "d/e/c" then Some (reg 0 13)
  else None.

Definition example_sys : namespace :=
  {| ns_lstat := example_stat;
     ns_stat := example_stat;
     ns_opendir := fun path =>
       if String.eqb path "d" then Some ["."; ".."; "a"; "..b"; "gone"; "e"]
       else if String.eqb path "d/e" then Some ["."; ".."; "c"]
       else None |}.

(** A name of 1023 characters. *)
Definition long_name : string := string_of_list_ascii (repeat "x"%char 1023).

(** ** Vocabulary of phase two *)

(** The key [file_foreach] files a file under: the digest of what the
    reads of the file give up to the first one that returns no data. *)
Definition digest_of (md5_hex : list byte -> string) (fs : gmap string inode) (fp : file_t)
  : option string :=
  option_map (fun fd => md5_hex (file_foreach_read fd [])) (opened fs (name fp)).

(** What the trace shows of [file_foreach] on a file. *)
Definition file_foreach_events (fs : gmap string inode) (fp : file_t) : list event :=
  match opened fs (name fp) with
  | Some _ => [SysOpen (name fp) true]
  | None =>
      [SysOpen (name fp) false;
       GLog LevelWarning "unable to open file '%s' for reading - %m" [AStr (name fp)]]
  end.

(** The group of a key: the files of the list with that digest, in the
    order of the list, and their number; no group when there is none. *)
Definition group_of (md5_hex : list byte -> string) (fs : gmap string inode)
    (file_list : list file_t) (key : string) : option file_list_t :=
  match List.filter (fun fp => bool_decide (digest_of md5_hex fs fp = Some key)) file_list with
  | [] => None
  | fp :: l => Some {| nfile := Z.of_nat (length (fp :: l)); files := fp :: l |}
  end.

(** ** Vocabulary of phase three *)

(** A descriptor on which no read fails. *)
Definition no_read_error (fd : fd_t) : bool :=
  forallb (fun r => match r with Some _ => true | None => false end) fd.

(** What [compare_files] leaves in the trace: the opening of files and the
    report of an error. *)
Definition is_probe (e : event) : bool :=
  match e with
  | SysOpen _ _ => true
  | GLog LevelCritical _ _ => true
  | _ => false
  end.

(** What phase three may leave in the trace with the options given.  Files
    are opened and errors reported in every mode; [link_pair] works in link
    mode only, which prints nothing; otherwise the groups are listed, or
    with the delete option the operator is asked and files are unlinked,
    and nothing is linked. *)
Definition mode_event (options : Z) (e : event) : bool :=
  let link := opt_set options OPT_LINK in
  let delete := opt_set options OPT_DELETE in
  match e with
  | SysOpen _ _ => true
  | GLog LevelCritical _ _ => true
  | GLog LevelWarning _ _ => link || delete
  | GLog LevelInfo _ _ => false
  | Stderr _ => false
  | Stdout _ _ => negb link
  | SysUnlink _ _ => link || delete
  | SysLink _ _ _ => link
  | Enter (Call_link_pair _ _) => link
  | Enter (Call_delete_files _ _ _) => negb link && delete
  | Enter (Call_list_files _ _) => negb link && negb delete
  end.

(** A stretch of phase three that keeps to the mode of the options: the
    events it adds to the trace are those of the mode; standard input is
    read in delete mode only, and without the link and the delete option no
    file is touched. *)
Definition mode_run (options : Z) (w w' : world) : Prop :=
  (exists events,
     w_trace w' = w_trace w ++ events /\ forallb (mode_event options) events = true) /\
  w_nounlink w' = w_nounlink w /\
  w_nolink w' = w_nolink w /\
  (opt_set options OPT_LINK = true \/ opt_set options OPT_DELETE = false ->
   w_stdin w' = w_stdin w) /\
  (opt_set options OPT_LINK = false -> opt_set options OPT_DELETE = false ->
   w_fs w' = w_fs w).

(** One round of the loop of [delete_files] on a line that is not the
    go-ahead, as a function on the delete list. *)
Definition retoggled (delete_list : list delete_t) (buf : string) : list delete_t :=
  let i := Libc.atoi buf in
  if i >? 0 then
    match GLib.g_list_nth_data delete_list (i - 1) with
    | Some elem => toggle delete_list (Z.to_nat (i - 1)) elem
    | None => delete_list
    end
  else delete_list.

(** A line the operator types before the go-ahead: at most 18 characters
    and the newline after them, not beginning with [go]. *)
Definition operator_line (line : string) : Prop :=
  exists body,
    line = (body ++ String "010" "")%string /\
    strchr body "010" = None /\
    (String.length body < 19)%nat /\
    go_ahead (Libc.cstr line) = false.

(** ** Vocabulary of the command line *)

(** The switches that set a flag, as [getopt_long] returns them, and their
    flags. *)
Definition switches : list (ascii * Z) :=
  [("q"%char, OPT_QUIET); ("r"%char, OPT_RECURSE); ("s"%char, OPT_SYMLINKS);
   ("H"%char, OPT_HARDLINKS); ("n"%char, OPT_NOEMPTY); ("1"%char, OPT_SAMELINE);
   ("f"%char, OPT_OMITFIRST); ("S"%char, OPT_SHOWSIZE); ("d"%char, OPT_DELETE);
   ("l"%char, OPT_LINK); ("i"%char, OPT_STDIN); ("v"%char, OPT_VERBOSE)].

Definition is_switch (opt : ascii) : Prop := In opt (map fst switches).

(** The calls that change the entries of the file system. *)
Definition is_change (e : event) : bool :=
  match e with
  | SysUnlink _ _ | SysLink _ _ _ => true
  | _ => false
  end.

(** A stretch of the program that changes no entry of the file system and
    calls neither [unlink] nor [link]. *)
Definition changes_no_file (w w' : world) : Prop :=
  w_fs w' = w_fs w /\
  exists events,
    w_trace w' = w_trace w ++ events /\
    forallb (fun e => negb (is_change e)) events = true.

(** ** Files of their own *)

(** The file behind a directory entry, as [stat] tells one file from
    another. *)
Definition identity (i : inode) : Z * Z := (i_dev i, i_ino i).

(** The files searched in the groups of a table. *)
Definition searched (options : Z) (table : list (string * file_list_t)) : list file_t :=
  concat (map (fun entry => search_list_of options (snd entry)) table).

(** The files searched are files of their own: no two of the records have
    the same [(st_dev, st_ino)].  Two paths that name one directory entry,
    such as [a] and [./a], have the same pair, as have the paths of two
    hard links; so paths of current records with different pairs name
    different entries of different files. *)
Definition own_files (options : Z) (table : list (string * file_list_t)) : Prop :=
  NoDup (map storage (searched options table)).

(** The record of a file is current: its path names a file, the one with
    the [(st_dev, st_ino)] of the record. *)
Definition current (fs : gmap string inode) (f : file_t) : Prop :=
  exists i, fs !! name f = Some i /\ identity i = storage f.



(** ** What the operator types *)

(** How often a number was typed: the lines of which [atoi] makes that
    number. *)
Definition typed (n : Z) (lines : list string) : nat :=
  length (List.filter (fun buf => Libc.atoi buf =? n) lines).

(** The duplicates, numbered from [i] in the listing, whose number was
    typed an even number of times. *)
Fixpoint even_typed (i : Z) (l : list file_t) (lines : list string) : list string :=
  match l with
  | [] => []
  | f :: next =>
      (if Nat.even (typed i lines) then [name f] else []) ++ even_typed (i + 1) next lines
  end.

(** The files a delete session has marked for deletion after some lines:
    the master, number 1 in the listing, when its number was typed an odd
    number of times, and every duplicate whose number was typed an even
    number of times. *)
Definition marked_after (master : file_t) (l : list file_t) (lines : list string)
  : list string :=
  (if Nat.odd (typed 1 lines) then [name master] else []) ++ even_typed 2 l lines.

(** A number as the operator types it: its decimal digits. *)
Definition decimal (n : nat) : string := NilEmpty.string_of_uint (Nat.to_uint n).

(** The character a text begins with is no digit. *)
Definition no_digit_ahead (rest : string) : bool :=
  match rest with
  | String c _ => negb (Libc.isdigit c)
  | EmptyString => true
  end.

(** ** The file system behind the paths *)

(** A file system as it is: its directory entries, each under a name of
    its own, and the resolution of paths, which gives the entry a path
    names.  Several paths can name one entry, as [a], [./a] and [d/../a]
    do. *)
Record filesystem := {
  fs_entries : gmap string inode;
  fs_entry : string -> string
}.

Definition fs_lookup (F : filesystem) (path : string) : option inode :=
  fs_entries F !! fs_entry F path.

(** [unlink] removes the entry a path names, [link] makes the entry a path
    names an entry of a file. *)
Definition fs_unlink (F : filesystem) (path : string) : filesystem :=
  {| fs_entries := delete (fs_entry F path) (fs_entries F); fs_entry := fs_entry F |}.

Definition fs_link (F : filesystem) (i : inode) (newpath : string) : filesystem :=
  {| fs_entries := <[fs_entry F newpath := i]> (fs_entries F); fs_entry := fs_entry F |}.

(** What a program that uses some paths sees of a file system: the
    entries of a world. *)
Definition shows (F : filesystem) (paths : list string) (fs : gmap string inode) : Prop :=
  forall path, In path paths -> fs !! path = fs_lookup F path.

(** The paths name entries of their own. *)
Definition own_entries (F : filesystem) (paths : list string) : Prop :=
  forall p q, In p paths -> In q paths -> fs_entry F p = fs_entry F q -> p = q.

(** What [open] for reading gives for a path on a file system. *)
Definition fs_open (F : filesystem) (path : string) : option fd_t :=
  opened (fs_entries F) (fs_entry F path).

(** The file system after the calls of a stretch of the trace: those of
    [unlink] and [link] that returned 0. *)
Fixpoint replay (F : filesystem) (events : list event) : filesystem :=
  match events with
  | [] => F
  | SysUnlink path true :: rest => replay (fs_unlink F path) rest
  | SysLink oldpath newpath true :: rest =>
      match fs_lookup F oldpath with
      | Some i => replay (fs_link F i newpath) rest
      | None => replay F rest
      end
  | _ :: rest => replay F rest
  end.

(** The answer of a file system to a system call is the one the trace
    shows: [open] succeeds on an entry that can be opened, [unlink] on an
    entry there is, [link] when the old path names an entry and the new
    one names none, but for the paths at which these calls are refused. *)
Definition answer (nounlink nolink : gset string) (F : filesystem) (e : event) : Prop :=
  match e with
  | SysOpen path ok => ok = bool_decide (is_Some (fs_open F path))
  | SysUnlink path ok =>
      ok = bool_decide (is_Some (fs_lookup F path)) && negb (bool_decide (path ∈ nounlink))
  | SysLink oldpath newpath ok =>
      ok = bool_decide (is_Some (fs_lookup F oldpath)) &&
           bool_decide (fs_lookup F newpath = None) &&
           negb (bool_decide (newpath ∈ nolink))
  | _ => True
  end.

(** A stretch of the trace is a run on a file system: every call is
    answered by the file system as the calls before have left it. *)
Fixpoint answers (nounlink nolink : gset string) (F : filesystem) (events : list event)
  : Prop :=
  match events with
  | [] => True
  | e :: rest => answer nounlink nolink F e /\ answers nounlink nolink (replay F [e]) rest
  end.

(** A part of the program that runs in a world as it would on the file
    system the world shows: whenever the paths it uses name entries of
    their own, its calls are answered as by the file system, and the world
    after shows the file system after.  [Q] is what holds of the result. *)
Definition faithful (paths : list string) {A} (Q : A -> Prop) (m : M A) : Prop :=
  forall F w,
    shows F paths (w_fs w) -> own_entries F paths ->
    exists events,
      w_trace (snd (m w)) = w_trace w ++ events /\
      w_nounlink (snd (m w)) = w_nounlink w /\
      w_nolink (snd (m w)) = w_nolink w /\
      answers (w_nounlink w) (w_nolink w) F events /\
      shows (replay F events) paths (w_fs (snd (m w))) /\
      Q (fst (m w)).

(** The files of a list are among the paths. *)
Definition on_paths (paths : list string) (l : list file_t) : Prop :=
  Forall (fun f => In (name f) paths) l.

(** * Properties *)



(** ** C integers and the C library *)

Lemma to_int_small z : -2147483648 <= z < 2147483648 -> CInt.to_int z = z.
Proof. intros H. unfold CInt.to_int. rewrite Z.mod_small; lia. Qed.

Lemma uchar_pos c : c <> zero -> 0 < Libc.uchar c.
Proof.
  intros Hc. unfold Libc.uchar.
  destruct (N_of_ascii c) eqn:E; [|lia].
  exfalso. apply Hc. rewrite <- (ascii_N_embedding c), E. reflexivity.
Qed.

Lemma uchar_inj c1 c2 : Libc.uchar c1 = Libc.uchar c2 -> c1 = c2.
Proof.
  unfold Libc.uchar. intros H. apply N2Z.inj in H.
  rewrite <- (ascii_N_embedding c1), <- (ascii_N_embedding c2), H. reflexivity.
Qed.

(** On C strings the sign of [strcmp] is the lexicographic comparison. *)
Lemma strcmp_compare s1 : forall s2,
  Libc.is_cstring s1 = true -> Libc.is_cstring s2 = true ->
  (Libc.strcmp s1 s2 ?= 0) = String.compare s1 s2.
Proof.
  induction s1 as [|c1 r1 IH]; intros [|c2 r2] H1 H2; simpl in *.
  - reflexivity.
  - apply andb_prop in H2 as [Hc _]. apply negb_true_iff, Ascii.eqb_neq in Hc.
    pose proof (uchar_pos c2 Hc). apply Z.compare_lt_iff. lia.
  - apply andb_prop in H1 as [Hc _]. apply negb_true_iff, Ascii.eqb_neq in Hc.
    pose proof (uchar_pos c1 Hc). apply Z.compare_gt_iff. lia.
  - apply andb_prop in H1 as [_ H1]. apply andb_prop in H2 as [_ H2].
    destruct (Ascii.eqb_spec c1 c2) as [->|Hne].
    + unfold Ascii.compare. rewrite N.compare_refl. auto.
    + unfold Ascii.compare.
      assert (Hn : Libc.uchar c1 <> Libc.uchar c2) by (intros E; apply Hne, uchar_inj, E).
      unfold Libc.uchar in *.
      rewrite <- N2Z.inj_compare.
      destruct (Z.compare_spec (Z.of_N (N_of_ascii c1)) (Z.of_N (N_of_ascii c2))) as [E|E|E].
      * contradiction.
      * apply Z.compare_lt_iff. lia.
      * apply Z.compare_gt_iff. lia.
Qed.

Lemma strcmp_leb s1 s2 :
  Libc.is_cstring s1 = true -> Libc.is_cstring s2 = true ->
  (Libc.strcmp s1 s2 <= 0 <-> String.leb s1 s2 = true).
Proof.
  intros H1 H2. unfold String.leb. rewrite <- (strcmp_compare s1 s2 H1 H2).
  destruct (Z.compare_spec (Libc.strcmp s1 s2) 0); split; intros; try lia; discriminate.
Qed.

Lemma string_leb_trans s1 s2 s3 :
  String.leb s1 s2 = true -> String.leb s2 s3 = true -> String.leb s1 s3 = true.
Proof.
  unfold String.leb. intros H12 H23.
  destruct (String.compare s1 s2) eqn:E12; try discriminate.
  - apply String.compare_eq_iff in E12 as ->. exact H23.
  - destruct (String.compare s2 s3) eqn:E23; try discriminate.
    + apply String.compare_eq_iff in E23 as <-. rewrite E12. reflexivity.
    + assert (H : String.compare s1 s3 = Lt).
      { pose proof OrdersEx.String_as_OT.lt_strorder as [_ T]. exact (T s1 s2 s3 E12 E23). }
      rewrite H. reflexivity.
Qed.

(** ** [g_list_sort] sorts *)

Section Sorting.

Context {A : Type}.
Variable compare : A -> A -> Z.
(** The order the comparison function stands for, on the elements of
    interest [P]. *)
Variable R : A -> A -> Prop.
Variable P : A -> Prop.
Hypothesis R_trans : forall a b c, R a b -> R b c -> R a c.
Hypothesis compare_le : forall a b, P a -> P b -> compare a b <= 0 -> R a b.
Hypothesis compare_gt : forall a b, P a -> P b -> compare a b > 0 -> R b a.

Lemma g_list_sort_merge_perm (l1 l2 : list A) :
  Permutation (GLib.g_list_sort_merge compare l1 l2) (l1 ++ l2).
Proof.
  revert l2. induction l1 as [|a l1 IH1]; intros l2.
  - destruct l2; reflexivity.
  - induction l2 as [|b l2 IH2].
    + simpl. rewrite app_nil_r. reflexivity.
    + simpl. destruct (compare a b <=? 0).
      * constructor. apply IH1.
      * etransitivity; [constructor; apply IH2|].
        change (Permutation ([b] ++ (a :: l1) ++ l2) ((a :: l1) ++ b :: l2)).
        rewrite app_assoc. rewrite (Permutation_app_comm [b]).
        rewrite <- app_assoc. reflexivity.
Qed.

Lemma g_list_sort_merge_sorted (l1 l2 : list A) :
  Forall P l1 -> Forall P l2 ->
  StronglySorted R l1 -> StronglySorted R l2 ->
  StronglySorted R (GLib.g_list_sort_merge compare l1 l2).
Proof.
  revert l2. induction l1 as [|a l1 IH1]; intros l2 P1 P2 S1 S2.
  - destruct l2; assumption.
  - induction l2 as [|b l2 IH2].
    + assumption.
    + apply StronglySorted_inv in S1 as S1'. destruct S1' as [S1' F1].
      apply StronglySorted_inv in S2 as S2'. destruct S2' as [S2' F2].
      apply Forall_cons_1 in P1 as P1'. destruct P1' as [Pa P1'].
      apply Forall_cons_1 in P2 as P2'. destruct P2' as [Pb P2'].
      simpl. destruct (Z.leb_spec (compare a b) 0) as [Hle|Hgt].
      * apply SSorted_cons; [apply IH1; assumption|].
        rewrite g_list_sort_merge_perm. apply Forall_app. split; [assumption|].
        assert (Rab : R a b) by (apply compare_le; assumption).
        constructor; [assumption|].
        eapply Forall_impl; [exact F2|]. intros c Rbc. exact (R_trans _ _ _ Rab Rbc).
      * apply SSorted_cons; [apply IH2; assumption|].
        change (Forall (R b) (GLib.g_list_sort_merge compare (a :: l1) l2)).
        rewrite g_list_sort_merge_perm. apply Forall_app. split; [|assumption].
        assert (Rba : R b a) by (apply compare_gt; [assumption..|lia]).
        constructor; [assumption|].
        eapply Forall_impl; [exact F1|]. intros c Rac. exact (R_trans _ _ _ Rba Rac).
Qed.

Lemma g_list_sort_perm (l : list A) : Permutation (GLib.g_list_sort compare l) l.
Proof.
  funelim (GLib.g_list_sort compare l); simp g_list_sort; try reflexivity.
  rewrite g_list_sort_merge_perm.
  match goal with
  | H1 : Permutation _ (take ?n ?l), H2 : Permutation _ (drop ?n ?l) |- _ =>
      rewrite H1, H2; rewrite (take_drop n l); reflexivity
  end.
Qed.

Lemma g_list_sort_sorted (l : list A) :
  Forall P l -> StronglySorted R (GLib.g_list_sort compare l).
Proof.
  funelim (GLib.g_list_sort compare l); simp g_list_sort; intros HP.
  - constructor.
  - repeat constructor.
  - match goal with
    | H1 : Forall P (take ?n ?l) -> _, H2 : Forall P (drop ?n ?l) -> _ |- _ =>
        assert (P1 : Forall P (take n l)) by (apply Forall_take; exact HP);
        assert (P2 : Forall P (drop n l)) by (apply Forall_drop; exact HP);
        specialize (H1 P1); specialize (H2 P2)
    end.
    apply g_list_sort_merge_sorted; try assumption.
    + rewrite g_list_sort_perm. assumption.
    + rewrite g_list_sort_perm. assumption.
Qed.

End Sorting.

(** ** Sorting a group of files *)

Lemma links_then_path_trans a b c :
  links_then_path a b -> links_then_path b c -> links_then_path a c.
Proof.
  unfold links_then_path. intros [H1|[H1 L1]] [H2|[H2 L2]].
  - left. lia.
  - left. lia.
  - left. lia.
  - right. split; [lia|]. eapply string_leb_trans; eassumption.
Qed.

Lemma sort_compare_links a b :
  sortable a -> sortable b ->
  CInt.to_int (st_nlink b - st_nlink a) = st_nlink b - st_nlink a.
Proof. intros [Ha _] [Hb _]. apply to_int_small. lia. Qed.

Lemma sort_compare_le a b :
  sortable a -> sortable b -> sort_compare a b <= 0 -> links_then_path a b.
Proof.
  intros Ha Hb. unfold sort_compare. rewrite (sort_compare_links a b Ha Hb).
  destruct Ha as [_ Ca], Hb as [_ Cb].
  destruct (Z.eqb_spec (st_nlink b - st_nlink a) 0) as [E|E]; intros H.
  - right. split; [lia|]. apply strcmp_leb; assumption.
  - left. lia.
Qed.

Lemma sort_compare_gt a b :
  sortable a -> sortable b -> sort_compare a b > 0 -> links_then_path b a.
Proof.
  intros Ha Hb. unfold sort_compare. rewrite (sort_compare_links a b Ha Hb).
  destruct Ha as [_ Ca], Hb as [_ Cb].
  destruct (Z.eqb_spec (st_nlink b - st_nlink a) 0) as [E|E]; intros H.
  - right. split; [lia|].
    unfold String.leb. rewrite String.compare_antisym.
    rewrite <- (strcmp_compare _ _ Ca Cb).
    assert (G : (Libc.strcmp (name a) (name b) ?= 0) = Gt) by (apply Z.compare_gt_iff; lia).
    rewrite G. reflexivity.
  - left. lia.
Qed.

(** Outside the range of [sortable] the [gint] result wraps round: a file
    with one link is put before a file with 2^31 + 1 links. *)
Example sort_compare_wraps :
  sort_compare
    {| name := "a"; st_size := 0; st_nlink := 1; st_mode := 0; st_dev := 0; st_ino := 1 |}
    {| name := "b"; st_size := 0; st_nlink := 2147483649; st_mode := 0; st_dev := 0;
       st_ino := 2 |} = -2147483648.
Proof. reflexivity. Qed.

(** C6.  The list [digest_foreach] works on is made from the files of the
    group sorted by [g_list_sort] with [sort_compare]: a permutation of the
    files in which a file with more hard links comes before a file with
    fewer, and files with as many links come in ascending lexicographic
    order of their paths. *)
Theorem digest_foreach_sorts (options : Z) (value : file_list_t) :
  Forall sortable (files value) ->
  let sorted := GLib.g_list_sort sort_compare (files value) in
  Permutation sorted (files value) /\
  StronglySorted links_then_path sorted /\
  search_list_of options value =
    (if opt_set options OPT_HARDLINKS then sorted else filter_links sorted).
Proof.
  intros HP sorted. split; [|split].
  - apply g_list_sort_perm.
  - apply (g_list_sort_sorted sort_compare links_then_path sortable).
    + exact links_then_path_trans.
    + exact sort_compare_le.
    + exact sort_compare_gt.
    + exact HP.
  - unfold search_list_of. fold sorted. destruct (opt_set options OPT_HARDLINKS); reflexivity.
Qed.

Lemma digest_foreach_sorts_witness :
  Forall sortable [example_file "b" 1 0 1; example_file "a" 1 0 2; example_file "c" 2 0 3] /\
  GLib.g_list_sort sort_compare
    [example_file "b" 1 0 1; example_file "a" 1 0 2; example_file "c" 2 0 3] =
    [example_file "c" 2 0 3; example_file "a" 1 0 2; example_file "b" 1 0 1] /\
  StronglySorted links_then_path
    [example_file "c" 2 0 3; example_file "a" 1 0 2; example_file "b" 1 0 1].
Proof.
  assert (H : Forall sortable
                [example_file "b" 1 0 1; example_file "a" 1 0 2; example_file "c" 2 0 3]).
  { repeat constructor; simpl; lia. }
  split; [exact H|]. split; [reflexivity|].
  exact (proj1 (proj2 (digest_foreach_sorts 0
    {| nfile := 3;
       files := [example_file "b" 1 0 1; example_file "a" 1 0 2; example_file "c" 2 0 3] |}
    H))).
Defined.

(** ** Filtering the hard links *)

Lemma same_storage_spec fp2 fp1 : same_storage fp2 fp1 = true <-> storage fp2 = storage fp1.
Proof.
  unfold same_storage, storage. rewrite andb_true_iff, !Z.eqb_eq.
  split; [intros [-> ->]; reflexivity | intros [= -> ->]; auto].
Qed.

Lemma filter_links_found_spec fp1 ptr :
  filter_links_found fp1 ptr = true <-> In (storage fp1) (map storage ptr).
Proof.
  induction ptr as [|fp2 next IH]; simpl.
  - split; [discriminate | tauto].
  - destruct (same_storage fp2 fp1) eqn:E.
    + apply same_storage_spec in E. tauto.
    + rewrite IH. split; [tauto|]. intros [H|H]; [|exact H].
      apply same_storage_spec in H. congruence.
Qed.

(** The loop only ever adds to the end of the new list, and what it adds
    is taken in order from the list it goes through. *)
Lemma filter_links_loop_sublist l : forall new_list,
  exists added, filter_links_loop l new_list = new_list ++ added /\ sublist added l.
Proof.
  induction l as [|fp1 next IH]; intros new_list; simpl.
  - exists []. rewrite app_nil_r. split; [reflexivity | constructor].
  - destruct (filter_links_found fp1 new_list).
    + destruct (IH new_list) as (added & -> & Hs).
      exists added. split; [reflexivity | apply sublist_cons, Hs].
    + destruct (IH (GLib.g_list_append new_list fp1)) as (added & -> & Hs).
      exists (fp1 :: added). unfold GLib.g_list_append. rewrite <- app_assoc.
      split; [reflexivity | apply sublist_skip, Hs].
Qed.

Lemma filter_links_loop_NoDup l : forall new_list,
  NoDup (map storage new_list) -> NoDup (map storage (filter_links_loop l new_list)).
Proof.
  induction l as [|fp1 next IH]; intros new_list Hnd; simpl.
  - exact Hnd.
  - destruct (filter_links_found fp1 new_list) eqn:E.
    + apply IH, Hnd.
    + apply IH. unfold GLib.g_list_append. rewrite map_app. simpl.
      apply NoDup_app. split; [exact Hnd|]. split.
      * intros x Hx Hx1. apply list_elem_of_In in Hx, Hx1. destruct Hx1 as [<-|[]].
        apply filter_links_found_spec in Hx. congruence.
      * apply NoDup_singleton.
Qed.

Lemma filter_links_loop_first l1 : forall new_list x l2,
  (forall y, In y (new_list ++ l1) -> storage y <> storage x) ->
  In x (filter_links_loop (l1 ++ x :: l2) new_list).
Proof.
  induction l1 as [|y l1 IH]; intros new_list x l2 Hfresh; simpl.
  - destruct (filter_links_found x new_list) eqn:E.
    + apply filter_links_found_spec, in_map_iff in E as (y & Hy & Hin).
      exfalso. apply (Hfresh y); [apply in_or_app; auto | exact Hy].
    + destruct (filter_links_loop_sublist l2 (GLib.g_list_append new_list x))
        as (added & -> & _).
      unfold GLib.g_list_append. apply in_or_app. left. apply in_or_app. right. left.
      reflexivity.
  - destruct (filter_links_found y new_list).
    + apply IH. intros z Hz. apply Hfresh.
      apply in_app_or in Hz as [Hz|Hz]; apply in_or_app; [left | right; right]; exact Hz.
    + apply IH. intros z Hz. apply Hfresh. unfold GLib.g_list_append in Hz.
      rewrite <- app_assoc in Hz. exact Hz.
Qed.

Lemma filter_links_sublist l : sublist (filter_links l) l.
Proof.
  destruct l as [|data next]; [constructor|]. unfold filter_links.
  destruct (filter_links_loop_sublist next (GLib.g_list_append [] data)) as (added & -> & Hs).
  simpl. apply sublist_skip, Hs.
Qed.

Lemma filter_links_NoDup l : NoDup (map storage (filter_links l)).
Proof.
  destruct l as [|data next]; [constructor|]. unfold filter_links.
  apply filter_links_loop_NoDup. simpl. apply NoDup_singleton.
Qed.

Lemma filter_links_first l1 x l2 :
  (forall y, In y l1 -> storage y <> storage x) ->
  In x (filter_links (l1 ++ x :: l2)).
Proof.
  intros Hfresh. destruct l1 as [|data l1]; simpl.
  - destruct (filter_links_loop_sublist l2 (GLib.g_list_append [] x)) as (added & -> & _).
    left. reflexivity.
  - apply filter_links_loop_first. exact Hfresh.
Qed.

(** C5.  Without the hard links option the list searched is the sorted
    list filtered by [filter_links]: its files are files of the sorted list
    in the same order, no two of them have the same device and inode
    numbers, and a file of the sorted list that no earlier file shares
    these numbers with is kept.  With the option the sorted list is
    searched as it is. *)
Theorem search_list_filters_links (options : Z) (value : file_list_t) :
  let sorted := GLib.g_list_sort sort_compare (files value) in
  let kept := search_list_of options value in
  (opt_set options OPT_HARDLINKS = false ->
     kept = filter_links sorted /\
     sublist kept sorted /\
     NoDup (map storage kept) /\
     (forall l1 x l2, sorted = l1 ++ x :: l2 ->
        (forall y, In y l1 -> storage y <> storage x) -> In x kept)) /\
  (opt_set options OPT_HARDLINKS = true -> kept = sorted).
Proof.
  intros sorted kept. unfold kept, search_list_of. fold sorted. split; intros ->; simpl.
  - split; [reflexivity|]. split; [apply filter_links_sublist|].
    split; [apply filter_links_NoDup|].
    intros l1 x l2 -> Hfresh. apply filter_links_first, Hfresh.
  - reflexivity.
Qed.

(** Three paths, two of them with the same device and inode numbers: one
    of the two is left, the one that comes first in the sorted list. *)
Lemma search_list_filters_links_witness :
  opt_set 0 OPT_HARDLINKS = false /\
  search_list_of 0
    {| nfile := 3;
       files := [example_file "a" 2 0 7; example_file "b" 2 0 7; example_file "c" 1 0 9] |} =
    [example_file "a" 2 0 7; example_file "c" 1 0 9] /\
  opt_set OPT_HARDLINKS OPT_HARDLINKS = true /\
  search_list_of OPT_HARDLINKS
    {| nfile := 3;
       files := [example_file "a" 2 0 7; example_file "b" 2 0 7; example_file "c" 1 0 9] |} =
    [example_file "a" 2 0 7; example_file "b" 2 0 7; example_file "c" 1 0 9].
Proof.
  split; [reflexivity|]. split.
  - exact (proj1 (proj1 (search_list_filters_links 0
      {| nfile := 3;
         files := [example_file "a" 2 0 7; example_file "b" 2 0 7; example_file "c" 1 0 9] |})
      eq_refl)).
  - split; [reflexivity|].
    exact (proj2 (search_list_filters_links OPT_HARDLINKS
      {| nfile := 3;
         files := [example_file "a" 2 0 7; example_file "b" 2 0 7; example_file "c" 1 0 9] |})
      eq_refl).
Defined.

(** ** Byte-by-byte comparison *)

Lemma byte_to_N_inj x y : Byte.to_N x = Byte.to_N y -> x = y.
Proof.
  intros H. pose proof (Byte.of_to_N x) as Hx. pose proof (Byte.of_to_N y) as Hy.
  rewrite H in Hx. congruence.
Qed.

Lemma memcmp_eq (b1 : list byte) : forall b2,
  length b1 = length b2 ->
  (Libc.memcmp b1 b2 (length b1) =? 0) = bool_decide (b1 = b2).
Proof.
  induction b1 as [|x b1 IH]; intros [|y b2] Hlen; simpl in *; try discriminate.
  - reflexivity.
  - injection Hlen as Hlen. destruct (Byte.eqb x y) eqn:E.
    + apply byte_dec_bl in E as ->. rewrite (IH b2 Hlen).
      apply bool_decide_ext. split; [intros ->; reflexivity | intros [= ->]; reflexivity].
    + apply Byte.eqb_false in E.
      rewrite bool_decide_eq_false_2 by (intros [= -> _]; apply E; reflexivity).
      apply Z.eqb_neq. intros H. apply E, byte_to_N_inj. lia.
Qed.

Lemma logged_nil w : logged w [] = w.
Proof. destruct w. unfold logged. simpl. rewrite app_nil_r. reflexivity. Qed.

Lemma logged_app w e1 e2 : logged (logged w e1) e2 = logged w (e1 ++ e2).
Proof. unfold logged. simpl. rewrite app_assoc. reflexivity. Qed.

Lemma emit_logged e w : emit e w = (tt, logged w [e]).
Proof. reflexivity. Qed.

Ltac compare_stops :=
  simpl; unfold bind, ret, g_critical; rewrite ?emit_logged;
  first
    [ exists []; rewrite logged_nil;
      split; [reflexivity | split; [reflexivity | intros; reflexivity]]
    | eexists; split; [reflexivity | split; [reflexivity | discriminate]] ].

(** The loop returns 1 exactly for equal streams; all it leaves in the
    world is the report of a read error. *)
Lemma compare_files_loop_spec name1 name2 fd1 : forall fd2 w,
  exists events,
    compare_files_loop name1 name2 fd1 fd2 w =
      ((if equal_streams fd1 fd2 then 1 else 0), logged w events) /\
    forallb is_critical events = true /\
    (equal_streams fd1 fd2 = true -> events = []).
Proof.
  induction fd1 as [|r1 fd1 IH]; intros fd2 w.
  - (* the read of the first file returns 0 *)
    destruct fd2 as [|[[|b2 chunk2]|] fd2]; compare_stops.
  - destruct r1 as [[|b1 chunk1]|].
    + destruct fd2 as [|[[|b2 chunk2]|] fd2]; compare_stops.
    + destruct fd2 as [|[[|b2 chunk2]|] fd2]; [compare_stops | compare_stops | | compare_stops].
      cbn [compare_files_loop sys_read read_result fst snd equal_streams].
      change (Z.of_nat (length (b1 :: chunk1)) =? -1) with false.
      change (Z.of_nat (length (b2 :: chunk2)) =? -1) with false.
      change (Z.of_nat (length (b1 :: chunk1)) =? 0) with false.
      cbn [andb]. rewrite Nat2Z.id.
      destruct (Z.eqb_spec (Z.of_nat (length (b1 :: chunk1)))
                  (Z.of_nat (length (b2 :: chunk2)))) as [Hlen|Hlen].
      * apply Nat2Z.inj in Hlen. rewrite (memcmp_eq _ _ Hlen). cbn [andb].
        destruct (bool_decide (b1 :: chunk1 = b2 :: chunk2)) eqn:E.
        -- cbn [andb]. apply IH.
        -- exists []. rewrite logged_nil. repeat split; discriminate.
      * cbn [andb].
        rewrite bool_decide_eq_false_2 by (intros H; apply Hlen; rewrite H; reflexivity).
        exists []. rewrite logged_nil. repeat split; discriminate.
    + compare_stops.
Qed.

Lemma sys_open_spec path w :
  sys_open path w =
    (opened (w_fs w) path, logged w [SysOpen path (bool_decide (is_Some (opened (w_fs w) path)))]).
Proof. reflexivity. Qed.

(** [compare_files] returns 1 for two paths that open with equal streams
    and 0 otherwise; the file system and the input are as before. *)
Lemma compare_files_spec file1 file2 w :
  exists events,
    compare_files file1 file2 w =
      ((if same_contents (w_fs w) (name file1) (name file2) then 1 else 0), logged w events) /\
    (opened (w_fs w) (name file1) = None ->
       events = [SysOpen (name file1) false;
                 GLog LevelCritical "unable to open file '%s' for reading - %m"
                   [AStr (name file1)]]) /\
    (is_Some (opened (w_fs w) (name file1)) -> opened (w_fs w) (name file2) = None ->
       events = [SysOpen (name file1) true; SysOpen (name file2) false;
                 GLog LevelCritical "unable to open file '%s' for reading - %m"
                   [AStr (name file2)]]).
Proof.
  unfold compare_files, same_contents, bind. rewrite sys_open_spec.
  destruct (opened (w_fs w) (name file1)) as [fd1|] eqn:O1.
  - rewrite sys_open_spec. cbn [w_fs logged]. 
    destruct (opened (w_fs w) (name file2)) as [fd2|] eqn:O2.
    + destruct (compare_files_loop_spec (name file1) (name file2) fd1 fd2
                  (logged (logged w [SysOpen (name file1) (bool_decide (is_Some (Some fd1)))])
                     [SysOpen (name file2) (bool_decide (is_Some (Some fd2)))]))
        as (events & -> & _ & _).
      repeat rewrite logged_app. eexists. split; [reflexivity|].
      split; [discriminate | intros _ [=]].
    + unfold g_critical, ret. rewrite emit_logged, !logged_app.
      eexists. split; [reflexivity|]. split; [discriminate | intros _ _; reflexivity].
  - unfold g_critical, ret. rewrite emit_logged, !logged_app.
    eexists. split; [reflexivity|]. split; [intros _; reflexivity | intros [? [=]]].
Qed.

Lemma at_eof_read fd : at_eof fd = true <-> fst (sys_read fd) = (0, []).
Proof.
  destruct fd as [|[[|b chunk]|] fd]; simpl; split; try reflexivity; try discriminate.
Qed.

Lemma equal_streams_sym fd1 : forall fd2, equal_streams fd1 fd2 = equal_streams fd2 fd1.
Proof.
  induction fd1 as [|r1 fd1 IH]; intros fd2.
  - destruct fd2 as [|[[|b2 chunk2]|] fd2]; reflexivity.
  - destruct r1 as [[|b1 chunk1]|]; destruct fd2 as [|[[|b2 chunk2]|] fd2]; try reflexivity.
    simpl. rewrite IH. f_equal. apply bool_decide_ext. split; congruence.
Qed.

Lemma equal_streams_refl fd : equal_streams fd fd = reads_to_end fd.
Proof.
  induction fd as [|[[|b chunk]|] fd IH]; try reflexivity.
  simpl. rewrite IH. rewrite bool_decide_eq_true_2 by reflexivity. reflexivity.
Qed.

Lemma equal_streams_trans fd1 : forall fd2 fd3,
  equal_streams fd1 fd2 = true -> equal_streams fd2 fd3 = true ->
  equal_streams fd1 fd3 = true.
Proof.
  induction fd1 as [|r1 fd1 IH]; intros fd2 fd3.
  - destruct fd2 as [|[[|b2 chunk2]|] fd2]; destruct fd3 as [|[[|b3 chunk3]|] fd3];
      simpl; try discriminate; try reflexivity.
  - destruct r1 as [[|b1 chunk1]|]; destruct fd2 as [|[[|b2 chunk2]|] fd2];
      destruct fd3 as [|[[|b3 chunk3]|] fd3]; simpl; try discriminate; try reflexivity.
    rewrite !andb_true_iff, !bool_decide_eq_true.
    intros [E12 H12] [E23 H23]. split; [congruence | eapply IH; eassumption].
Qed.

(** After chunks of data read from both, equal streams go on equal. *)
Lemma equal_streams_after chunks : forall rest1 rest2,
  Forall (fun chunk => chunk <> []) chunks ->
  equal_streams (map Some chunks ++ rest1) (map Some chunks ++ rest2) =
    equal_streams rest1 rest2.
Proof.
  induction chunks as [|chunk chunks IH]; intros rest1 rest2 Hne; [reflexivity|].
  apply Forall_cons_1 in Hne as [Hc Hne]. destruct chunk as [|b chunk]; [contradiction|].
  simpl. rewrite bool_decide_eq_true_2 by reflexivity. apply IH, Hne.
Qed.

Lemma equal_streams_next_read fd1 fd2 :
  equal_streams fd1 fd2 = true -> fst (sys_read fd1) = fst (sys_read fd2).
Proof.
  destruct fd1 as [|[[|b1 chunk1]|] fd1]; destruct fd2 as [|[[|b2 chunk2]|] fd2];
    simpl; try discriminate; try reflexivity.
  rewrite andb_true_iff, bool_decide_eq_true. intros [[= -> ->] _]. reflexivity.
Qed.

(** C4.  [compare_files] returns 1 or 0.  It returns 1 exactly when both
    files open and their streams are equal: equal chunks read after read
    and the end of input reached at the same read.  Where, after equal
    chunks of data, the two reads differ in the count returned or in the
    bytes, it returns 0.  When a file cannot be opened it returns 0, and
    all it does is report the failure with [g_critical]. *)
Theorem compare_files_lockstep (file1 file2 : file_t) (w : world) :
  let status := fst (compare_files file1 file2 w) in
  let after := snd (compare_files file1 file2 w) in
  (status = 1 \/ status = 0) /\
  (status = 1 <->
     exists fd1 fd2,
       opened (w_fs w) (name file1) = Some fd1 /\
       opened (w_fs w) (name file2) = Some fd2 /\
       equal_streams fd1 fd2 = true) /\
  (forall chunks rest1 rest2,
     opened (w_fs w) (name file1) = Some (map Some chunks ++ rest1) ->
     opened (w_fs w) (name file2) = Some (map Some chunks ++ rest2) ->
     Forall (fun chunk => chunk <> []) chunks ->
     fst (sys_read rest1) <> fst (sys_read rest2) ->
     status = 0) /\
  (opened (w_fs w) (name file1) = None ->
     status = 0 /\
     w_trace after =
       w_trace w ++
       [SysOpen (name file1) false;
        GLog LevelCritical "unable to open file '%s' for reading - %m" [AStr (name file1)]]) /\
  (is_Some (opened (w_fs w) (name file1)) -> opened (w_fs w) (name file2) = None ->
     status = 0 /\
     w_trace after =
       w_trace w ++
       [SysOpen (name file1) true; SysOpen (name file2) false;
        GLog LevelCritical "unable to open file '%s' for reading - %m" [AStr (name file2)]]).
Proof.
  intros status after. subst status after.
  destruct (compare_files_spec file1 file2 w) as (events & -> & Hno1 & Hno2).
  cbn [fst snd]. unfold same_contents.
  split; [|split; [|split; [|split]]].
  - destruct (opened _ (name file1)), (opened _ (name file2)); try (right; reflexivity).
    destruct (equal_streams _ _); auto.
  - destruct (opened _ (name file1)) as [fd1|], (opened _ (name file2)) as [fd2|].
    + destruct (equal_streams fd1 fd2) eqn:E.
      * split; [intros _; exists fd1, fd2; auto | reflexivity].
      * split; [discriminate | intros (? & ? & [= <-] & [= <-] & ?); congruence].
    + split; [discriminate | intros (? & ? & _ & [=] & _)].
    + split; [discriminate | intros (? & ? & [=] & _)].
    + split; [discriminate | intros (? & ? & [=] & _)].
  - intros chunks rest1 rest2 -> -> Hne Hdiff.
    rewrite (equal_streams_after chunks rest1 rest2 Hne).
    destruct (equal_streams rest1 rest2) eqn:E; [|reflexivity].
    apply equal_streams_next_read in E. contradiction.
  - intros Hnone. rewrite (Hno1 Hnone), Hnone. split; reflexivity.
  - intros Hsome Hnone. rewrite (Hno2 Hsome Hnone), Hnone.
    destruct (opened (w_fs w) (name file1)); split; reflexivity.
Qed.

Lemma compare_files_lockstep_witness :
  let w := example_world "" in
  fst (compare_files (example_file "a" 1 0 1) (example_file "b" 1 0 2) w) = 1 /\
  fst (compare_files (example_file "a" 1 0 1) (example_file "c" 1 0 3) w) = 0 /\
  fst (compare_files (example_file "a" 1 0 1) (example_file "missing" 1 0 4) w) = 0.
Proof.
  intros w.
  pose proof (compare_files_lockstep (example_file "a" 1 0 1) (example_file "b" 1 0 2) w)
    as (_ & Hab & _).
  pose proof (compare_files_lockstep (example_file "a" 1 0 1) (example_file "c" 1 0 3) w)
    as (_ & _ & Hac & _).
  pose proof (compare_files_lockstep (example_file "a" 1 0 1) (example_file "missing" 1 0 4) w)
    as (_ & _ & _ & _ & Ham).
  split; [|split].
  - apply Hab. eexists _, _. split; [reflexivity|]. split; reflexivity.
  - apply (Hac [] [Some (list_byte_of_string "xyz")] [Some (list_byte_of_string "xyw")]);
      [reflexivity | reflexivity | constructor | discriminate].
  - apply Ham; [eexists; reflexivity | reflexivity].
Defined.

(** C7.  The result of [compare_files] does not depend on the order of its
    two arguments, and a file that opens and reads to its end without a
    read error compares equal to itself. *)
Theorem compare_files_symmetric_reflexive (a b : file_t) (w : world) :
  fst (compare_files a b w) = fst (compare_files b a w) /\
  (forall fd, opened (w_fs w) (name a) = Some fd -> reads_to_end fd = true ->
     fst (compare_files a a w) = 1).
Proof.
  split.
  - destruct (compare_files_spec a b w) as (e1 & -> & _).
    destruct (compare_files_spec b a w) as (e2 & -> & _).
    cbn [fst]. unfold same_contents.
    destruct (opened _ (name a)), (opened _ (name b)); try reflexivity.
    rewrite equal_streams_sym. reflexivity.
  - intros fd Hfd Hend.
    destruct (compare_files_spec a a w) as (e1 & -> & _).
    cbn [fst]. unfold same_contents. rewrite Hfd, equal_streams_refl, Hend. reflexivity.
Qed.

Lemma compare_files_symmetric_reflexive_witness :
  let w := example_world "" in
  opened (w_fs w) "a" = Some [Some (list_byte_of_string "xyz")] /\
  reads_to_end [Some (list_byte_of_string "xyz")] = true /\
  fst (compare_files (example_file "a" 1 0 1) (example_file "a" 1 0 1) w) = 1.
Proof.
  intros w. split; [reflexivity|]. split; [reflexivity|].
  exact (proj2 (compare_files_symmetric_reflexive (example_file "a" 1 0 1)
                  (example_file "c" 1 0 3) w)
           [Some (list_byte_of_string "xyz")] eq_refl eq_refl).
Defined.

(** ** Phase two: a read error while digesting *)

(** The read loop of [file_foreach] stops at a read error as it stops at
    the end of the file, with the digest of what was read before. *)
Lemma file_foreach_read_stops (chunks : list (list byte)) (rest : fd_t) (checksum : GChecksum) :
  Forall (fun chunk => chunk <> []) chunks ->
  file_foreach_read (map Some chunks ++ None :: rest) checksum = checksum ++ concat chunks.
Proof.
  revert checksum. induction chunks as [|chunk chunks IH]; intros checksum Hne.
  - simpl. rewrite app_nil_r. reflexivity.
  - apply Forall_cons_1 in Hne as [Hc Hne]. destruct chunk as [|b chunk]; [contradiction|].
    cbn [map app file_foreach_read read_result].
    change (Z.of_nat (length (b :: chunk)) >? 0) with true. cbn iota.
    rewrite IH by exact Hne. unfold g_checksum_update.
    rewrite Nat2Z.id, firstn_all. cbn [concat]. rewrite <- app_assoc. reflexivity.
Qed.

(** C3, as the code has it.  A file whose second read fails: no warning is
    given, and the file is entered in the table under the digest of the
    bytes read before the error. *)
Theorem file_foreach_read_error_indexed (md5_hex : list byte -> string) :
  let value := example_file "a" 1 0 1 in
  let failing :=
    {| i_dev := 0; i_ino := 1; i_readable := true;
       i_reads := [Some (list_byte_of_string "xy"); None; Some (list_byte_of_string "z")] |} in
  let w := {| w_fs := {[ "a" := failing ]}; w_nounlink := ∅; w_nolink := ∅;
              w_stdin := ""; w_trace := [] |} in
  file_foreach md5_hex "a" value {| hash := ∅; digest := [] |} w =
    ((false,
      {| hash := <[md5_hex (list_byte_of_string "xy") := {| nfile := 1; files := [value] |}]> ∅;
         digest := [] |}),
     logged w [SysOpen "a" true]).
Proof. reflexivity. Qed.

(** ** Effects on the world *)

Lemma bind_run {A B} (m : M A) (k : A -> M B) w : bind m k w = k (fst (m w)) (snd (m w)).
Proof. unfold bind. destruct (m w). reflexivity. Qed.

Lemma printf_logged format args w : printf format args w = (tt, logged w [Stdout format args]).
Proof. reflexivity. Qed.

Lemma g_warning_logged format args w :
  g_warning format args w = (tt, logged w [GLog LevelWarning format args]).
Proof. reflexivity. Qed.

Lemma g_critical_logged format args w :
  g_critical format args w = (tt, logged w [GLog LevelCritical format args]).
Proof. reflexivity. Qed.

Lemma entered_app e1 e2 : entered (e1 ++ e2) = entered e1 ++ entered e2.
Proof. apply omap_app. Qed.

Lemma unlink_calls_app e1 e2 : unlink_calls (e1 ++ e2) = unlink_calls e1 ++ unlink_calls e2.
Proof. apply omap_app. Qed.

Lemma effect_logged names w events :
  unlink_calls events = [] -> effect names w (logged w events) events.
Proof.
  intros Hu. split; try reflexivity; try (intros; assumption).
  rewrite Hu. intros path Hin. inversion Hin.
Qed.

Lemma effect_refl names w : effect names w w [].
Proof. rewrite <- (logged_nil w) at 2. apply effect_logged. reflexivity. Qed.

Lemma effect_trans names w w1 w2 e1 e2 :
  effect names w w1 e1 -> effect names w1 w2 e2 -> effect names w w2 (e1 ++ e2).
Proof.
  intros [T1 U1 L1 F1 C1 S1] [T2 U2 L2 F2 C2 S2]. split.
  - rewrite T2, T1, app_assoc. reflexivity.
  - congruence.
  - congruence.
  - intros path Hp. rewrite (F2 path Hp). apply F1, Hp.
  - intros path. rewrite unlink_calls_app, elem_of_app. intros [H|H]; auto.
  - intros P HP. apply S2, S1, HP.
Qed.

Lemma effect_weaken names names' w w' events :
  (forall path, path ∈ names -> path ∈ names') ->
  effect names w w' events -> effect names' w w' events.
Proof.
  intros Hsub [T U L F C S]. split; auto.
Qed.

Lemma sys_unlink_effect path w :
  exists ok,
    effect [path] w (snd (sys_unlink path w)) [SysUnlink path ok] /\
    w_stdin (snd (sys_unlink path w)) = w_stdin w.
Proof.
  unfold sys_unlink.
  destruct (bool_decide (is_Some (w_fs w !! path)) && negb (bool_decide (path ∈ w_nounlink w))).
  - exists true. split; [|reflexivity]. split; cbn [snd w_trace w_nounlink w_nolink w_fs w_stdin];
      try reflexivity; try (intros; assumption).
    intros p Hp. apply lookup_delete_ne. intros ->. apply Hp. left.
  - exists false. split; [|reflexivity]. split; cbn; try reflexivity; try (intros; assumption).
Qed.

Lemma sys_link_effect oldpath newpath w :
  exists ok,
    effect [newpath] w (snd (sys_link oldpath newpath w)) [SysLink oldpath newpath ok] /\
    w_stdin (snd (sys_link oldpath newpath w)) = w_stdin w.
Proof.
  assert (Hfail : exists ok,
            effect [newpath] w (snd (-1, logged w [SysLink oldpath newpath false]))
              [SysLink oldpath newpath ok] /\
            w_stdin (snd (-1, logged w [SysLink oldpath newpath false])) = w_stdin w).
  { exists false. split; [apply effect_logged|]; reflexivity. }
  unfold sys_link.
  destruct (w_fs w !! oldpath) as [i|], (w_fs w !! newpath) as [j|]; try exact Hfail.
  destruct (bool_decide (newpath ∈ w_nolink w)); [exact Hfail|].
  exists true. split; [|reflexivity]. split; cbn; try reflexivity; try (intros; assumption);
    try (intros p Hp; inversion Hp; fail).
  intros p Hp. apply lookup_insert_ne. intros ->. apply Hp. left.
Qed.

(** The go-ahead calls [unlink] on the marked files, one after the other,
    whatever each call returns. *)
Lemma unlink_marked_effect delete_list : forall w,
  exists events,
    effect (marked delete_list) w (snd (unlink_marked delete_list w)) events /\
    entered events = [] /\
    unlink_calls events = marked delete_list /\
    w_stdin (snd (unlink_marked delete_list w)) = w_stdin w.
Proof.
  induction delete_list as [|elem next IH]; intros w.
  - exists []. split; [apply effect_refl|]. repeat split.
  - cbn [unlink_marked]. rewrite bind_run. unfold marked. cbn [List.filter].
    destruct (keep elem =? 0).
    + cbn [map]. rewrite bind_run.
      destruct (sys_unlink_effect (name (file elem)) w) as (ok & E1 & S1).
      set (w1 := snd (sys_unlink (name (file elem)) w)) in *.
      set (r := fst (sys_unlink (name (file elem)) w)).
      assert (Hlog : exists e, snd ((if r =? 0
                       then printf "%s deleted\n" [AStr (name (file elem))]
                       else g_warning "unable to delete '%s' - %m" [AStr (name (file elem))]) w1)
                     = logged w1 [e] /\ unlink_calls [e] = [] /\ entered [e] = []).
      { destruct (r =? 0); eexists; (split; [reflexivity|split; reflexivity]). }
      destruct Hlog as (e & -> & Hu & He).
      destruct (IH (logged w1 [e])) as (events & E2 & En & Un & S2).
      exists ([SysUnlink (name (file elem)) ok] ++ [e] ++ events).
      split; [|split; [|split]].
      * eapply effect_trans.
        { eapply effect_weaken; [|exact E1]. intros p Hp.
          apply list_elem_of_singleton in Hp as ->. left. }
        eapply effect_trans.
        { apply effect_logged, Hu. }
        eapply effect_weaken; [|exact E2]. intros p Hp. right. exact Hp.
      * rewrite !entered_app, En, He. reflexivity.
      * rewrite !unlink_calls_app, Un, Hu. reflexivity.
      * rewrite S2. cbn. exact S1.
    + unfold ret. cbn [fst snd]. apply IH.
Qed.

Lemma fgets_line_shorter n : forall input buf rest,
  Libc.fgets_line n input = (buf, rest) ->
  (String.length rest <= String.length input)%nat /\
  (n <> O -> input <> "" -> String.length rest < String.length input)%nat.
Proof.
  induction n as [|n IH]; intros input buf rest; simpl.
  - intros [= <- <-]. split; [lia | congruence].
  - destruct input as [|c input']; [intros [= <- <-]; split; [lia | congruence]|].
    destruct (Ascii.eqb c "010").
    + intros [= <- <-]. simpl. split; intros; lia.
    + destruct (Libc.fgets_line n input') as [buf' rest'] eqn:E. intros [= <- <-].
      destruct (IH _ _ _ E) as [Hle _]. simpl. split; intros; lia.
Qed.

Lemma fgets_shorter input buf rest :
  Libc.fgets 20 input = Some (buf, rest) ->
  (String.length rest < String.length input)%nat.
Proof.
  unfold Libc.fgets. destruct input as [|c input']; [discriminate|].
  intros H.
  assert (H' : Libc.fgets_line (20 - 1) (String c input') = (buf, rest)) by congruence.
  apply (fgets_line_shorter _ _ _ _ H'); [lia | discriminate].
Qed.

(** Every input is cut in lines. *)
Lemma every_line_True input : every_line (fun _ => True) input.
Proof.
  remember (String.length input) as n eqn:Hn. revert input Hn.
  induction n as [n IH] using lt_wf_ind. intros input ->.
  destruct (Libc.fgets 20 input) as [[buf rest]|] eqn:E.
  - eapply every_line_next; [exact E | exact I |].
    eapply IH; [|reflexivity]. apply fgets_shorter in E. exact E.
  - destruct input; [constructor | discriminate].
Qed.

Lemma every_line_rest P input buf rest :
  Libc.fgets 20 input = Some (buf, rest) -> every_line P input ->
  P (Libc.cstr buf) /\ every_line P rest.
Proof.
  intros Hf H. destruct H as [|input buf' rest' Hf' HP Hrest]; [discriminate|].
  rewrite Hf in Hf'. injection Hf' as <- <-. auto.
Qed.

Lemma sys_fgets_spec w :
  match Libc.fgets 20 (w_stdin w) with
  | None => sys_fgets 20 w = (None, w) /\ w_stdin w = ""
  | Some (buf, rest) =>
      fst (sys_fgets 20 w) = Some buf /\
      effect [] w (snd (sys_fgets 20 w)) [] /\
      w_stdin (snd (sys_fgets 20 w)) = rest
  end.
Proof.
  unfold sys_fgets. destruct (Libc.fgets 20 (w_stdin w)) as [[buf rest]|] eqn:E.
  - split; [reflexivity|]. split; [|reflexivity].
    split; cbn; try reflexivity; try (intros; assumption).
    + rewrite app_nil_r. reflexivity.
    + intros P HP. eapply every_line_rest; eassumption.
  - split; [reflexivity|]. unfold Libc.fgets in E. destruct (w_stdin w); [reflexivity|discriminate].
Qed.

(** ** The interactive session of [delete_files] *)

Lemma print_disposition_logged ptr : forall i w,
  exists events,
    print_disposition ptr i w = (tt, logged w events) /\
    unlink_calls events = [] /\ entered events = [].
Proof.
  induction ptr as [|elem next IH]; intros i w.
  - exists []. rewrite logged_nil. repeat split.
  - cbn [print_disposition]. unfold bind, printf. cbn [emit].
    match goal with
    | |- context [print_disposition next (i + 1) ?w1] =>
        destruct (IH (i + 1) w1) as (events & -> & Hu & He)
    end.
    rewrite logged_app. eexists. split; [reflexivity|].
    rewrite unlink_calls_app, entered_app, Hu, He. split; reflexivity.
Qed.

(** What the loop prints before it reads a line. *)
Lemma delete_files_prompt_logged digest delete_list (print_list : bool) w :
  exists events,
    ((if print_list then
        printf "\nDisposition of files with digest %s\n\n" [AStr digest] ;;
        print_disposition delete_list 1 ;;
        printf "\nFiles marked (*) will be kept - these reset deleted\nTo toggle a file's status type its number\nType 'go' to go ahead with the delete\n" []
      else ret tt) ;;
     printf "\n> " []) w = (tt, logged w events) /\
    unlink_calls events = [] /\ entered events = [].
Proof.
  destruct print_list.
  - unfold bind, printf. cbn [emit].
    match goal with
    | |- context [print_disposition delete_list 1 ?w1] =>
        destruct (print_disposition_logged delete_list 1 w1) as (events & -> & Hu & He)
    end.
    cbn [emit]. rewrite ?emit_logged. repeat rewrite logged_app.
    eexists. split; [reflexivity|].
    rewrite !unlink_calls_app, !entered_app, Hu, He. split; reflexivity.
  - unfold bind, ret, printf. cbn [emit].
    eexists. split; [reflexivity|]. split; reflexivity.
Qed.

Lemma nth_error_lookup {A} (l : list A) (n : nat) : nth_error l n = l !! n.
Proof. revert n. induction l as [|x l IH]; intros [|n]; simpl; auto. Qed.

Lemma g_list_nth_data_lookup {A} (l : list A) (n : Z) (x : A) :
  GLib.g_list_nth_data l n = Some x -> 0 <= n /\ l !! Z.to_nat n = Some x.
Proof.
  unfold GLib.g_list_nth_data. destruct (Z.ltb_spec n 0); [discriminate|].
  rewrite nth_error_lookup. auto.
Qed.

Section Session.

(** A property of the lines the operator types, an invariant of the delete
    list under the toggles these lines make, and the paths a go-ahead may
    then unlink. *)
Variable P : string -> Prop.
Variable Inv : list delete_t -> Prop.
Variable names : list string.

Hypothesis Inv_toggle : forall delete_list buf elem,
  Inv delete_list -> P buf -> go_ahead buf = false -> Libc.atoi buf > 0 ->
  GLib.g_list_nth_data delete_list (Libc.atoi buf - 1) = Some elem ->
  Inv (toggle delete_list (Z.to_nat (Libc.atoi buf - 1)) elem).

Hypothesis Inv_go : forall delete_list buf,
  Inv delete_list -> P buf -> go_ahead buf = true ->
  forall path, path ∈ marked delete_list -> path ∈ names.

Lemma delete_files_loop_effect fuel : forall digest delete_list print_list w,
  Inv delete_list -> every_line P (w_stdin w) ->
  exists events,
    effect names w (snd (delete_files_loop fuel digest delete_list print_list w)) events /\
    entered events = [].
Proof.
  induction fuel as [|fuel IH]; intros digest delete_list print_list w HI HP.
  - exists []. split; [apply effect_refl | reflexivity].
  - cbn [delete_files_loop]. rewrite bind_run.
    destruct (delete_files_prompt_logged digest delete_list print_list w)
      as (e0 & Hprompt & Hu0 & He0).
    rewrite bind_run in Hprompt. rewrite bind_run, Hprompt. cbn [fst snd].
    pose proof (sys_fgets_spec (logged w e0)) as Hf. cbn [logged w_stdin] in Hf.
    rewrite bind_run.
    destruct (Libc.fgets 20 (w_stdin w)) as [[buf rest]|] eqn:E.
    + destruct Hf as (-> & Ef & Hrest).
      set (w2 := snd (sys_fgets 20 (logged w e0))) in *.
      destruct (every_line_rest P _ _ _ E HP) as [Pbuf Prest].
      assert (E02 : effect names w w2 (e0 ++ [])).
      { eapply effect_trans; [apply effect_logged, Hu0|].
        eapply effect_weaken; [|exact Ef]. intros p Hp. inversion Hp. }
      rewrite app_nil_r in E02.
      fold (go_ahead (Libc.cstr buf)).
      destruct (go_ahead (Libc.cstr buf)) eqn:Go.
      * destruct (unlink_marked_effect delete_list w2) as (e1 & E1 & En1 & _ & _).
        exists (e0 ++ e1). split.
        -- eapply effect_trans; [exact E02|].
           eapply effect_weaken; [|exact E1]. eapply Inv_go; eassumption.
        -- rewrite entered_app, He0, En1. reflexivity.
      * destruct (Z.gtb_spec (Libc.atoi (Libc.cstr buf)) 0) as [Hpos|Hneg].
        -- destruct (GLib.g_list_nth_data delete_list (Libc.atoi (Libc.cstr buf) - 1))
             as [elem|] eqn:Nth.
           ++ destruct (IH digest (toggle delete_list
                          (Z.to_nat (Libc.atoi (Libc.cstr buf) - 1)) elem) true w2)
                as (e1 & E1 & En1).
              { eapply Inv_toggle; try eassumption. lia. }
              { rewrite Hrest. exact Prest. }
              exists (e0 ++ e1). split.
              ** eapply effect_trans; eassumption.
              ** rewrite entered_app, He0, En1. reflexivity.
           ++ rewrite bind_run, !printf_logged. cbn [fst snd].
              destruct (IH digest delete_list false
                          (logged w2 [Stdout "no file number %d\n"
                                        [AInt (Libc.atoi (Libc.cstr buf))]]))
                as (e1 & E1 & En1); [exact HI | cbn; rewrite Hrest; exact Prest |].
              eexists (e0 ++ [_] ++ e1). split.
              ** eapply effect_trans; [exact E02|].
                 eapply effect_trans; [|exact E1]. apply effect_logged. reflexivity.
              ** rewrite !entered_app, He0, En1. reflexivity.
        -- rewrite bind_run, !printf_logged. cbn [fst snd].
           destruct (IH digest delete_list false
                       (logged w2 [Stdout "invalid input - please type a number or 'go'\n" []]))
             as (e1 & E1 & En1); [exact HI | cbn; rewrite Hrest; exact Prest |].
           eexists (e0 ++ [_] ++ e1). split.
           ** eapply effect_trans; [exact E02|].
              eapply effect_trans; [|exact E1]. apply effect_logged. reflexivity.
           ** rewrite !entered_app, He0, En1. reflexivity.
    + destruct Hf as (-> & _). cbn [fst snd]. unfold printf. rewrite emit_logged. cbn [snd].
      rewrite logged_app. eexists. split.
      * apply effect_logged. rewrite unlink_calls_app, Hu0. reflexivity.
      * rewrite entered_app, He0. reflexivity.
Qed.

End Session.

Lemma fold_left_append {A B} (g : A -> B) (l : list A) : forall acc,
  fold_left (fun delete_list data => GLib.g_list_append delete_list (g data)) l acc =
    acc ++ map g l.
Proof.
  induction l as [|data l IH]; intros acc; simpl.
  - rewrite app_nil_r. reflexivity.
  - rewrite IH. unfold GLib.g_list_append. rewrite <- app_assoc. reflexivity.
Qed.

Lemma initial_delete_list_eq master l :
  initial_delete_list master l =
    {| file := master; keep := 1 |} :: map (fun data => {| file := data; keep := 0 |}) l.
Proof. unfold initial_delete_list. rewrite fold_left_append. reflexivity. Qed.

Lemma marked_initial master l : marked (initial_delete_list master l) = map name l.
Proof.
  rewrite initial_delete_list_eq. unfold marked. cbn [List.filter keep Z.eqb map].
  induction l as [|data l IH]; [reflexivity|]. cbn. f_equal. exact IH.
Qed.

Lemma marked_names delete_list path :
  path ∈ marked delete_list -> path ∈ map (fun elem => name (file elem)) delete_list.
Proof.
  unfold marked. rewrite !list_elem_of_In, !in_map_iff.
  intros (elem & <- & Hin). apply filter_In in Hin as [Hin _]. eauto.
Qed.

Lemma toggle_names delete_list n elem :
  delete_list !! n = Some elem ->
  map (fun elem => name (file elem)) (toggle delete_list n elem) =
    map (fun elem => name (file elem)) delete_list.
Proof.
  intros Hn. unfold toggle.
  change (map (fun e => name (file e))) with (fmap (M := list) (fun e => name (file e))).
  rewrite list_fmap_insert. cbn [file]. apply list_insert_id.
  rewrite list_lookup_fmap, Hn. reflexivity.
Qed.

(** Whatever the operator types, the session changes no entry but those of
    the group, and enters no other action. *)
Lemma delete_files_effect digest master l w :
  exists events,
    effect (map name (master :: l)) w (snd (delete_files digest master l w)) events /\
    entered events = [Call_delete_files digest master l].
Proof.
  unfold delete_files. rewrite bind_run. rewrite emit_logged. cbn [fst snd].
  destruct (delete_files_loop_effect (fun _ => True)
              (fun delete_list =>
                 map (fun elem => name (file elem)) delete_list = map name (master :: l))
              (map name (master :: l)))
    with (fuel := S (String.length (w_stdin (logged w [Enter (Call_delete_files digest master l)]))))
         (digest := digest) (delete_list := initial_delete_list master l) (print_list := true)
         (w := logged w [Enter (Call_delete_files digest master l)])
    as (events & E & En).
  - intros delete_list buf elem HI _ _ Hpos Hnth.
    apply g_list_nth_data_lookup in Hnth as [_ Hnth].
    rewrite toggle_names by exact Hnth. exact HI.
  - intros delete_list buf HI _ _ path Hp. rewrite <- HI. apply marked_names, Hp.
  - rewrite initial_delete_list_eq. cbn [map file]. f_equal.
    rewrite map_map. reflexivity.
  - apply every_line_True.
  - exists ([Enter (Call_delete_files digest master l)] ++ events). split.
    + eapply effect_trans; [apply effect_logged; reflexivity | exact E].
    + rewrite entered_app, En. reflexivity.
Qed.

(** Lines that are no go-ahead: nothing is unlinked and no entry changes. *)
Lemma delete_files_no_go_ahead digest master l w :
  every_line (fun buf => go_ahead buf = false) (w_stdin w) ->
  exists events,
    effect [] w (snd (delete_files digest master l w)) events /\
    entered events = [Call_delete_files digest master l].
Proof.
  intros Hlines.
  unfold delete_files. rewrite bind_run. rewrite emit_logged. cbn [fst snd].
  destruct (delete_files_loop_effect (fun buf => go_ahead buf = false) (fun _ => True) [])
    with (fuel := S (String.length (w_stdin (logged w [Enter (Call_delete_files digest master l)]))))
         (digest := digest) (delete_list := initial_delete_list master l) (print_list := true)
         (w := logged w [Enter (Call_delete_files digest master l)])
    as (events & E & En).
  - intros; exact I.
  - intros delete_list buf _ Hno Hgo. congruence.
  - exact I.
  - exact Hlines.
  - exists ([Enter (Call_delete_files digest master l)] ++ events). split.
    + eapply effect_trans; [apply effect_logged; reflexivity | exact E].
    + rewrite entered_app, En. reflexivity.
Qed.

(** Lines none of which is the number 1: the first element of the delete
    list, the master, stays marked to be kept, and a go-ahead unlinks at
    most the other files of the group. *)
Lemma delete_files_spares_master digest master l w :
  every_line (fun buf => Libc.atoi buf <> 1) (w_stdin w) ->
  exists events,
    effect (map name l) w (snd (delete_files digest master l w)) events /\
    entered events = [Call_delete_files digest master l].
Proof.
  intros Hlines.
  unfold delete_files. rewrite bind_run. rewrite emit_logged. cbn [fst snd].
  destruct (delete_files_loop_effect (fun buf => Libc.atoi buf <> 1)
              (fun delete_list =>
                 exists rest,
                   delete_list = {| file := master; keep := 1 |} :: rest /\
                   map (fun elem => name (file elem)) rest = map name l)
              (map name l))
    with (fuel := S (String.length (w_stdin (logged w [Enter (Call_delete_files digest master l)]))))
         (digest := digest) (delete_list := initial_delete_list master l) (print_list := true)
         (w := logged w [Enter (Call_delete_files digest master l)])
    as (events & E & En).
  - intros delete_list buf elem (rest & -> & Hrest) Hne _ Hpos Hnth.
    apply g_list_nth_data_lookup in Hnth as [_ Hnth].
    destruct (Z.to_nat (Libc.atoi buf - 1)) as [|n] eqn:Hn; [lia|].
    cbn in Hnth. exists (toggle rest n elem). split; [reflexivity|].
    rewrite toggle_names by exact Hnth. exact Hrest.
  - intros delete_list buf (rest & -> & Hrest) _ _ path Hp.
    rewrite <- Hrest. apply marked_names. exact Hp.
  - rewrite initial_delete_list_eq. eexists. split; [reflexivity|].
    rewrite map_map. reflexivity.
  - exact Hlines.
  - exists ([Enter (Call_delete_files digest master l)] ++ events). split.
    + eapply effect_trans; [apply effect_logged; reflexivity | exact E].
    + rewrite entered_app, En. reflexivity.
Qed.

(** End of input before any go-ahead: the session says so and ends. *)
Lemma delete_files_loop_eof fuel : forall digest delete_list print_list w,
  (String.length (w_stdin w) < fuel)%nat ->
  every_line (fun buf => go_ahead buf = false) (w_stdin w) ->
  exists events,
    w_trace (snd (delete_files_loop fuel digest delete_list print_list w)) =
      w_trace w ++ events ++ [Stdout "*** EOF *** no action taken\n" []] /\
    w_stdin (snd (delete_files_loop fuel digest delete_list print_list w)) = "".
Proof.
  induction fuel as [|fuel IH]; intros digest delete_list print_list w Hfuel HP; [lia|].
  cbn [delete_files_loop]. rewrite bind_run.
  destruct (delete_files_prompt_logged digest delete_list print_list w)
    as (e0 & Hprompt & Hu0 & He0).
  rewrite bind_run in Hprompt. rewrite bind_run, Hprompt. cbn [fst snd].
  pose proof (sys_fgets_spec (logged w e0)) as Hf. cbn [logged w_stdin] in Hf.
  rewrite bind_run.
  destruct (Libc.fgets 20 (w_stdin w)) as [[buf rest]|] eqn:E.
  - destruct Hf as (-> & Ef & Hrest).
    set (w2 := snd (sys_fgets 20 (logged w e0))) in *.
    destruct (every_line_rest _ _ _ _ E HP) as [Pbuf Prest].
    pose proof (fgets_shorter _ _ _ E) as Hshort.
    pose proof (eff_trace _ _ _ _ Ef) as T2. cbn [logged w_trace] in T2.
    rewrite app_nil_r in T2.
    fold (go_ahead (Libc.cstr buf)). rewrite Pbuf.
    destruct (Libc.atoi (Libc.cstr buf) >? 0).
    + destruct (GLib.g_list_nth_data delete_list (Libc.atoi (Libc.cstr buf) - 1)) as [elem|].
      * destruct (IH digest (toggle delete_list (Z.to_nat (Libc.atoi (Libc.cstr buf) - 1)) elem)
                    true w2) as (e1 & -> & ->); [rewrite Hrest; lia | rewrite Hrest; exact Prest |].
        rewrite T2. exists (e0 ++ e1). rewrite <- !app_assoc. split; reflexivity.
      * rewrite bind_run, !printf_logged. cbn [fst snd].
        match goal with
        | |- context [delete_files_loop fuel digest delete_list false ?w3] =>
            destruct (IH digest delete_list false w3) as (e1 & Ht & Hs);
              [cbn [logged w_stdin]; rewrite Hrest; lia
              | cbn [logged w_stdin]; rewrite Hrest; exact Prest |]
        end.
        rewrite Ht, Hs. cbn [logged w_trace]. rewrite T2. eexists (e0 ++ [_] ++ e1).
        rewrite <- !app_assoc. split; reflexivity.
    + rewrite bind_run, !printf_logged. cbn [fst snd].
      match goal with
      | |- context [delete_files_loop fuel digest delete_list false ?w3] =>
          destruct (IH digest delete_list false w3) as (e1 & Ht & Hs);
            [cbn [logged w_stdin]; rewrite Hrest; lia
              | cbn [logged w_stdin]; rewrite Hrest; exact Prest |]
      end.
      rewrite Ht, Hs. cbn [logged w_trace]. rewrite T2. eexists (e0 ++ [_] ++ e1).
      rewrite <- !app_assoc. split; reflexivity.
  - destruct Hf as (-> & Hnil). cbn [fst snd]. unfold printf. rewrite emit_logged.
    cbn [snd logged w_trace w_stdin]. exists e0. rewrite <- app_assoc. split; [reflexivity|].
    exact Hnil.
Qed.

Lemma fgets_line_go n tail :
  Libc.fgets_line (S (S n)) (String "g" (String "o" tail)) =
    (String "g" (String "o" (fst (Libc.fgets_line n tail))), snd (Libc.fgets_line n tail)).
Proof. cbn [Libc.fgets_line Ascii.eqb Bool.eqb]. destruct (Libc.fgets_line n tail). reflexivity. Qed.

Lemma go_ahead_prefix buf : go_ahead (Libc.cstr (String "g" (String "o" buf))) = true.
Proof. reflexivity. Qed.

(** A line that starts with the two characters of the go-ahead: the marked
    files are unlinked and the loop ends, whatever follows on the line. *)
Lemma delete_files_loop_go fuel digest delete_list print_list w tail :
  w_stdin w = String "g" (String "o" tail) ->
  exists events,
    effect (marked delete_list) w
      (snd (delete_files_loop (S fuel) digest delete_list print_list w)) events /\
    unlink_calls events = marked delete_list /\
    entered events = [] /\
    w_stdin (snd (delete_files_loop (S fuel) digest delete_list print_list w)) =
      snd (Libc.fgets_line 17 tail).
Proof.
  intros Hin. cbn [delete_files_loop]. rewrite bind_run.
  destruct (delete_files_prompt_logged digest delete_list print_list w)
    as (e0 & Hprompt & Hu0 & He0).
  rewrite bind_run in Hprompt. rewrite bind_run, Hprompt. cbn [fst snd].
  pose proof (sys_fgets_spec (logged w e0)) as Hf. cbn [logged w_stdin] in Hf.
  rewrite bind_run.
  assert (E : Libc.fgets 20 (w_stdin w) =
              Some (String "g" (String "o" (fst (Libc.fgets_line 17 tail))),
                    snd (Libc.fgets_line 17 tail))).
  { rewrite Hin. unfold Libc.fgets. change (20 - 1)%nat with (S (S 17)).
    rewrite fgets_line_go. reflexivity. }
  rewrite E in Hf. destruct Hf as (-> & Ef & Hrest).
  set (w2 := snd (sys_fgets 20 (logged w e0))) in *.
  fold (go_ahead (Libc.cstr (String "g" (String "o" (fst (Libc.fgets_line 17 tail)))))).
  rewrite go_ahead_prefix.
  destruct (unlink_marked_effect delete_list w2) as (e1 & E1 & En1 & Un1 & S1).
  exists (e0 ++ e1). split; [|split; [|split]].
  - eapply effect_trans; [apply effect_logged, Hu0|].
    replace e1 with ([] ++ e1) by reflexivity.
    eapply effect_trans; [|exact E1].
    eapply effect_weaken; [|exact Ef]. intros p Hp. inversion Hp.
  - rewrite unlink_calls_app, Hu0, Un1. reflexivity.
  - rewrite entered_app, He0, En1. reflexivity.
  - rewrite S1. exact Hrest.
Qed.

(** C10.  In the loop of [delete_files], a line read whose first two
    characters are g and o is taken for the go-ahead, whatever comes after
    them: [unlink] is called on every file of the delete list not marked to
    be kept, in order, and the loop ends with the rest of the input unread.
    For a session just started these files are all the duplicates of the
    group. *)
Theorem go_ahead_is_prefix_match (digest : string) (w : world) (tail : string) :
  w_stdin w = String "g" (String "o" tail) ->
  (forall fuel delete_list print_list,
     let w' := snd (delete_files_loop (S fuel) digest delete_list print_list w) in
     exists events,
       w_trace w' = w_trace w ++ events /\
       unlink_calls events = marked delete_list /\
       w_stdin w' = snd (Libc.fgets_line 17 tail)) /\
  (forall master l,
     let w' := snd (delete_files digest master l w) in
     exists events,
       w_trace w' = w_trace w ++ events /\
       unlink_calls events = map name l /\
       w_stdin w' = snd (Libc.fgets_line 17 tail)).
Proof.
  intros Hin. split.
  - intros fuel delete_list print_list w'. subst w'.
    destruct (delete_files_loop_go fuel digest delete_list print_list w tail Hin)
      as (events & E & Un & _ & Hs).
    exists events. split; [apply (eff_trace _ _ _ _ E)|]. split; assumption.
  - intros master l w'. subst w'. unfold delete_files. rewrite bind_run, emit_logged.
    cbn [fst snd].
    destruct (delete_files_loop_go
                (String.length (w_stdin (logged w [Enter (Call_delete_files digest master l)])))
                digest (initial_delete_list master l) true
                (logged w [Enter (Call_delete_files digest master l)]) tail Hin)
      as (events & E & Un & _ & Hs).
    exists ([Enter (Call_delete_files digest master l)] ++ events). split; [|split].
    + rewrite (eff_trace _ _ _ _ E). cbn [logged w_trace]. rewrite <- app_assoc. reflexivity.
    + rewrite unlink_calls_app, Un, marked_initial. reflexivity.
    + exact Hs.
Qed.

Lemma go_ahead_is_prefix_match_witness :
  w_stdin (example_world "gone") = String "g" (String "o" "ne") /\
  unlink_calls (w_trace (snd (delete_files "k" (example_file "a" 1 0 1)
                                [example_file "b" 1 0 2] (example_world "gone")))) = ["b"] /\
  w_fs (snd (delete_files "k" (example_file "a" 1 0 1)
               [example_file "b" 1 0 2] (example_world "golf"))) !! "b" = None.
Proof.
  split; [reflexivity|]. split.
  - destruct (proj2 (go_ahead_is_prefix_match "k" (example_world "gone") "ne" eq_refl)
                (example_file "a" 1 0 1) [example_file "b" 1 0 2]) as (events & Ht & Hu & _).
    rewrite Ht, unlink_calls_app, Hu. reflexivity.
  - reflexivity.
Defined.

(** ** The rounds of [digest_foreach] *)

Lemma critical_quiet events :
  forallb is_critical events = true -> unlink_calls events = [] /\ entered events = [].
Proof.
  induction events as [|e events IH]; [split; reflexivity|].
  cbn [forallb]. rewrite andb_true_iff. intros [He Hrest].
  destruct (IH Hrest) as [Hu Hc].
  destruct e as [| |[]| | | |]; try discriminate.
  split; [rewrite <- Hu | rewrite <- Hc]; reflexivity.
Qed.

(** A comparison changes nothing but the trace, and neither unlinks nor
    enters an action. *)
Lemma compare_files_quiet file1 file2 w :
  exists events,
    compare_files file1 file2 w =
      ((if same_files (w_fs w) file1 file2 then 1 else 0), logged w events) /\
    unlink_calls events = [] /\ entered events = [].
Proof.
  unfold compare_files, same_files, same_contents, bind. rewrite sys_open_spec.
  destruct (opened (w_fs w) (name file1)) as [fd1|] eqn:O1.
  - rewrite sys_open_spec. cbn [w_fs logged].
    destruct (opened (w_fs w) (name file2)) as [fd2|] eqn:O2.
    + match goal with
      | |- context [compare_files_loop _ _ fd1 fd2 ?w1] =>
          destruct (compare_files_loop_spec (name file1) (name file2) fd1 fd2 w1)
            as (events & -> & Hc & _)
      end.
      apply critical_quiet in Hc as [Hu He].
      repeat rewrite logged_app. eexists. split; [reflexivity|].
      rewrite !unlink_calls_app, !entered_app, Hu, He. split; reflexivity.
    + rewrite g_critical_logged. unfold ret. repeat rewrite logged_app.
      eexists. split; [reflexivity|]. split; reflexivity.
  - rewrite g_critical_logged. unfold ret. repeat rewrite logged_app.
    eexists. split; [reflexivity|]. split; reflexivity.
Qed.

Lemma same_contents_agree fs fs' path1 path2 :
  fs !! path1 = fs' !! path1 -> fs !! path2 = fs' !! path2 ->
  same_contents fs path1 path2 = same_contents fs' path1 path2.
Proof. intros H1 H2. unfold same_contents, opened. rewrite H1, H2. reflexivity. Qed.

Lemma link_pair_effect master slave w :
  exists events,
    effect [name slave] w (snd (link_pair master slave w)) events /\
    entered events = [Call_link_pair master slave].
Proof.
  unfold link_pair. rewrite bind_run, emit_logged. cbn [fst snd]. rewrite bind_run.
  set (w0 := logged w [Enter (Call_link_pair master slave)]).
  destruct (sys_unlink_effect (name slave) w0) as (ok & E1 & _).
  set (w1 := snd (sys_unlink (name slave) w0)) in *.
  destruct (fst (sys_unlink (name slave) w0) =? 0).
  - rewrite bind_run.
    destruct (sys_link_effect (name master) (name slave) w1) as (ok' & E2 & _).
    set (w2 := snd (sys_link (name master) (name slave) w1)) in *.
    assert (Hlast : exists tail,
              effect [name slave] w2
                (snd ((if fst (sys_link (name master) (name slave) w1) =? -1
                       then g_warning "unable to link '%s' to '%s' - %m"
                              [AStr (name master); AStr (name slave)]
                       else ret tt) w2)) tail /\ entered tail = []).
    { destruct (fst (sys_link (name master) (name slave) w1) =? -1).
      - rewrite g_warning_logged. eexists. split; [apply effect_logged|]; reflexivity.
      - exists []. split; [apply effect_refl | reflexivity]. }
    destruct Hlast as (tail & E3 & He3).
    eexists ([Enter (Call_link_pair master slave)] ++ [_] ++ [_] ++ tail). split.
    + eapply effect_trans; [apply effect_logged; reflexivity|].
      eapply effect_trans; [exact E1|]. eapply effect_trans; [exact E2 | exact E3].
    + rewrite !entered_app, He3. reflexivity.
  - rewrite g_warning_logged. cbn [snd].
    eexists ([Enter (Call_link_pair master slave)] ++ [_] ++
             [GLog LevelWarning "unable to unlink '%s' - %m" [AStr (name slave)]]). split.
    + eapply effect_trans; [apply effect_logged; reflexivity|].
      eapply effect_trans; [exact E1|]. apply effect_logged. reflexivity.
    + reflexivity.
Qed.

Lemma list_files_loop_logged options fs l : forall w,
  exists events,
    list_files_loop options fs l w = (tt, logged w events) /\
    unlink_calls events = [] /\ entered events = [].
Proof.
  induction l as [|fp next IH]; intros w.
  - exists []. rewrite logged_nil. repeat split.
  - cbn [list_files_loop]. unfold bind.
    destruct (opt_set options OPT_SHOWSIZE); rewrite printf_logged;
      match goal with
      | |- context [list_files_loop options fs next ?w1] =>
          destruct (IH w1) as (events & -> & Hu & He)
      end;
      rewrite logged_app; eexists; (split; [reflexivity|]);
      rewrite unlink_calls_app, entered_app, Hu, He; split; reflexivity.
Qed.

Lemma list_files_effect names options master l w :
  exists events,
    effect names w (snd (list_files options master l w)) events /\
    entered events = [Call_list_files master l].
Proof.
  unfold list_files. rewrite bind_run, emit_logged. cbn [fst snd]. rewrite bind_run.
  set (w0 := logged w [Enter (Call_list_files master l)]).
  set (fs := if opt_set options OPT_SAMELINE then " "%char else "010"%char).
  assert (Hfirst : exists e1,
            snd ((if negb (opt_set options OPT_OMITFIRST)
                  then if opt_set options OPT_SHOWSIZE
                       then printf "%s (%ld)%c"
                              [AStr (name master); AInt (st_size master); AChar fs]
                       else printf "%s%c" [AStr (name master); AChar fs]
                  else ret tt) w0) = logged w0 e1 /\
            unlink_calls e1 = [] /\ entered e1 = []).
  { destruct (negb (opt_set options OPT_OMITFIRST)).
    - destruct (opt_set options OPT_SHOWSIZE); rewrite printf_logged; eexists;
        (split; [reflexivity | split; reflexivity]).
    - exists []. unfold ret. cbn [snd]. rewrite logged_nil. repeat split. }
  destruct Hfirst as (e1 & -> & Hu1 & He1).
  rewrite bind_run.
  destruct (list_files_loop_logged options fs l (logged w0 e1)) as (e2 & -> & Hu2 & He2).
  cbn [fst snd]. rewrite printf_logged. cbn [snd]. unfold w0. repeat rewrite logged_app.
  eexists. split.
  - apply effect_logged. rewrite !unlink_calls_app, Hu1, Hu2. reflexivity.
  - rewrite !entered_app, He1, He2. reflexivity.
Qed.

Lemma NoDup_map_In_inj {A B} (g : A -> B) (l : list A) a b :
  NoDup (map g l) -> In a l -> In b l -> g a = g b -> a = b.
Proof.
  induction l as [|x l IH]; simpl; [tauto|].
  rewrite NoDup_cons. intros [Hx Hnd] [->|Ha] [->|Hb] Hg; auto.
  - exfalso. apply Hx. rewrite Hg. apply list_elem_of_In, in_map, Hb.
  - exfalso. apply Hx. rewrite <- Hg. apply list_elem_of_In, in_map, Ha.
Qed.

Lemma NoDup_map_filter {A B} (g : A -> B) (f : A -> bool) (l : list A) :
  NoDup (map g l) -> NoDup (map g (List.filter f l)).
Proof.
  induction l as [|x l IH]; simpl; [auto|].
  rewrite NoDup_cons. intros [Hx Hnd]. destruct (f x); [|auto].
  simpl. apply NoDup_cons. split; [|auto].
  intros Hin. apply Hx. apply list_elem_of_In in Hin. apply list_elem_of_In.
  apply in_map_iff in Hin as (y & Hy & Hin). apply filter_In in Hin as [Hin _].
  apply in_map_iff. eauto.
Qed.

Section Rounds.

(** The options and the key [digest_foreach] was called with; the entries
    of the file system when it was; a property of the lines on standard
    input, and the paths a session of [delete_files] changes at most when
    the lines have it. *)
Variable options : Z.
Variable key : string.
Variable fs0 : gmap string inode.
Variable P : string -> Prop.
Variable touched : file_t -> list file_t -> list string.

Hypothesis touched_group : forall master l path,
  In path (touched master l) -> In path (map name (master :: l)).

Hypothesis session_effect : forall master l w,
  every_line P (w_stdin w) ->
  exists events,
    effect (touched master l) w (snd (delete_files key master l w)) events /\
    entered events = [Call_delete_files key master l].

Lemma digest_foreach_scan_spec master search_list :
  forall good_list good_count bad_list w,
  ~ In (name master) (map name search_list) ->
  NoDup (map name search_list) ->
  (forall f, In f (master :: search_list) -> w_fs w !! name f = fs0 !! name f) ->
  let same := List.filter (same_files fs0 master) search_list in
  let other := List.filter (fun f => negb (same_files fs0 master f)) search_list in
  exists events,
    effect (if opt_set options OPT_LINK then map name same else []) w
      (snd (digest_foreach_scan options master search_list good_list good_count bad_list w))
      events /\
    fst (digest_foreach_scan options master search_list good_list good_count bad_list w) =
      (if opt_set options OPT_LINK then (good_list, good_count, bad_list ++ other)
       else (good_list ++ same, good_count + Z.of_nat (length same), bad_list ++ other)) /\
    entered events =
      (if opt_set options OPT_LINK then map (Call_link_pair master) same else []).
Proof.
  induction search_list as [|data next IH]; intros good_list good_count bad_list w Hm Hnd Hfs.
  - cbn. exists []. split; [apply effect_refl|]. split.
    + destruct (opt_set options OPT_LINK); rewrite ?app_nil_r, ?Z.add_0_r; reflexivity.
    + destruct (opt_set options OPT_LINK); reflexivity.
  - cbn zeta. cbn [digest_foreach_scan]. rewrite bind_run.
    destruct (compare_files_quiet master data w) as (ev & Hc & Hu & He).
    rewrite Hc. cbn [fst snd].
    assert (Hsame : same_files (w_fs w) master data = same_files fs0 master data).
    { apply same_contents_agree; apply Hfs; [left | right; left]; reflexivity. }
    rewrite Hsame.
    cbn [map] in Hm, Hnd. apply NoDup_cons in Hnd as [Hdata Hnd].
    rewrite list_elem_of_In in Hdata.
    assert (Hm' : ~ In (name master) (map name next)) by (intros H; apply Hm; right; exact H).
    cbn [List.filter].
    destruct (same_files fs0 master data) eqn:S; cbn [negb Z.eqb].
    + destruct (opt_set options OPT_LINK) eqn:L.
      * rewrite bind_run.
        destruct (link_pair_effect master data (logged w ev)) as (e2 & E2 & En2).
        set (w2 := snd (link_pair master data (logged w ev))) in *.
        destruct (IH good_list good_count bad_list w2 Hm' Hnd) as (e3 & E3 & R3 & En3).
        { intros f Hf. rewrite (eff_fs _ _ _ _ E2).
          - apply Hfs. destruct Hf as [<-|Hf]; [left; reflexivity | right; right; exact Hf].
          - intros Hin. apply list_elem_of_singleton in Hin.
            destruct Hf as [<-|Hf].
            + apply Hm. left. symmetry. exact Hin.
            + apply Hdata. rewrite <- Hin. apply in_map, Hf. }
        rewrite ?L in E3; rewrite ?L in R3; rewrite ?L in En3.
        exists (ev ++ e2 ++ e3). split; [|split].
        -- eapply effect_trans; [apply effect_logged, Hu|].
           eapply effect_trans.
           ++ eapply effect_weaken; [|exact E2]. intros p Hp.
              apply list_elem_of_singleton in Hp as ->. left.
           ++ eapply effect_weaken; [|exact E3]. intros p Hp. right. exact Hp.
        -- exact R3.
        -- rewrite !entered_app, He, En2, En3. reflexivity.
      * destruct (IH (GLib.g_list_append good_list data) (good_count + 1) bad_list
                    (logged w ev) Hm' Hnd) as (e3 & E3 & R3 & En3).
        { intros f Hf. apply Hfs. destruct Hf as [<-|Hf]; [left; reflexivity | right; right; exact Hf]. }
        rewrite ?L in E3; rewrite ?L in R3; rewrite ?L in En3.
        exists (ev ++ e3). split; [|split].
        -- eapply effect_trans; [apply effect_logged, Hu | exact E3].
        -- rewrite R3. unfold GLib.g_list_append. rewrite <- app_assoc. cbn [length app].
           rewrite Nat2Z.inj_succ. f_equal. f_equal. lia.
        -- rewrite entered_app, He, En3. reflexivity.
    + destruct (IH good_list good_count (GLib.g_list_append bad_list data)
                  (logged w ev) Hm' Hnd) as (e3 & E3 & R3 & En3).
      { intros f Hf. apply Hfs. destruct Hf as [<-|Hf]; [left; reflexivity | right; right; exact Hf]. }
      exists (ev ++ e3). split; [|split].
      * eapply effect_trans; [apply effect_logged, Hu | exact E3].
      * rewrite R3. unfold GLib.g_list_append. rewrite <- !app_assoc. reflexivity.
      * rewrite entered_app, He, En3. reflexivity.
Qed.

Lemma touched_by_class_group master good_list path :
  In path (touched_by_class options touched (master, good_list)) -> In path (map name (master :: good_list)).
Proof.
  unfold touched_by_class. destruct (opt_set options OPT_LINK).
  - intros H. right. exact H.
  - destruct (opt_set options OPT_DELETE); [apply touched_group | intros []].
Qed.

Lemma other_not_touched master next f :
  NoDup (map name (master :: next)) ->
  In f (List.filter (fun f => negb (same_files fs0 master f)) next) ->
  ~ In (name f) (map name (master :: List.filter (same_files fs0 master) next)).
Proof.
  cbn [map]. rewrite NoDup_cons, list_elem_of_In. intros [Hm Hnd] Hf.
  apply filter_In in Hf as [Hf Hneg]. intros [Heq|Hin].
  - apply Hm. rewrite Heq. apply in_map, Hf.
  - apply in_map_iff in Hin as (g & Hg & Hin). apply filter_In in Hin as [Hin Hsame].
    assert (g = f) by (eapply NoDup_map_In_inj; eassumption). subst g.
    rewrite Hsame in Hneg. discriminate.
Qed.

(** One round: the scan and the action on what it found. *)
Lemma digest_foreach_round_spec master next w :
  NoDup (map name (master :: next)) ->
  (forall f, In f (master :: next) -> w_fs w !! name f = fs0 !! name f) ->
  every_line P (w_stdin w) ->
  let same := List.filter (same_files fs0 master) next in
  let other := List.filter (fun f => negb (same_files fs0 master f)) next in
  let scan := digest_foreach_scan options master next [] 0 [] w in
  let w' :=
    snd ((if snd (fst (fst scan)) >? 0 then
            if opt_set options OPT_DELETE then delete_files key master (fst (fst (fst scan)))
            else list_files options master (fst (fst (fst scan)))
          else ret tt) (snd scan)) in
  snd (fst scan) = other /\
  exists events,
    effect (touched_by_class options touched (master, same)) w w' events /\
    entered events = actions_of_class options key (master, same).
Proof.
  intros Hnd Hfs HP same other scan w'.
  assert (Hnd' := Hnd). cbn [map] in Hnd'. apply NoDup_cons in Hnd' as [Hm Hnext].
  rewrite list_elem_of_In in Hm.
  destruct (digest_foreach_scan_spec master next [] 0 [] w Hm Hnext Hfs) as (e1 & E1 & R1 & En1).
  fold scan in E1, R1. fold same in E1, R1, En1. fold other in R1.
  subst w'. unfold touched_by_class, actions_of_class.
  destruct (opt_set options OPT_LINK) eqn:L.
  - rewrite R1. cbn [fst snd Z.gtb Z.compare]. split; [reflexivity|].
    exists e1. split; [exact E1 | exact En1].
  - rewrite R1. cbn [fst snd app]. split; [reflexivity|].
    rewrite Z.add_0_l.
    destruct same as [|g same'] eqn:Hsame.
    + cbn [length Z.of_nat Z.gtb Z.compare]. exists e1. split.
      * eapply effect_weaken; [|exact E1]. intros p Hp. inversion Hp.
      * exact En1.
    + change (Z.of_nat (length (g :: same')) >? 0) with true. cbn iota.
      assert (HP1 : every_line P (w_stdin (snd scan))) by (apply (eff_stdin _ _ _ _ E1), HP).
      destruct (opt_set options OPT_DELETE) eqn:D.
      * destruct (session_effect master (g :: same') (snd scan) HP1) as (e2 & E2 & En2).
        exists (e1 ++ e2). split.
        -- eapply effect_trans; [|exact E2].
           eapply effect_weaken; [|exact E1]. intros p Hp. inversion Hp.
        -- rewrite entered_app, En1, En2. reflexivity.
      * destruct (list_files_effect [] options master (g :: same') (snd scan)) as (e2 & E2 & En2).
        exists (e1 ++ e2). split.
        -- eapply effect_trans; [exact E1 | exact E2].
        -- rewrite entered_app, En1, En2. reflexivity.
Qed.

(** The rounds on a list of files with distinct paths: the action functions
    are entered as the classes of the list say, whatever the actions of
    earlier rounds did to the files of their own classes. *)
Lemma digest_foreach_loop_spec fuel : forall search_list w,
  (length search_list <= fuel)%nat ->
  NoDup (map name search_list) ->
  (forall f, In f search_list -> w_fs w !! name f = fs0 !! name f) ->
  every_line P (w_stdin w) ->
  exists events,
    effect (concat (map (touched_by_class options touched)
                      (classes (same_files fs0) search_list))) w
      (snd (digest_foreach_loop fuel options key search_list w)) events /\
    entered events = actions_of options key (classes (same_files fs0) search_list).
Proof.
  induction fuel as [|fuel IH]; intros search_list w Hlen Hnd Hfs HP.
  - destruct search_list; [|simpl in Hlen; lia]. simp classes.
    exists []. split; [apply effect_refl | reflexivity].
  - destruct search_list as [|master next].
    + simp classes. exists []. split; [apply effect_refl | reflexivity].
    + simp classes. cbn [digest_foreach_loop]. rewrite bind_run.
      destruct (digest_foreach_round_spec master next w Hnd Hfs HP) as (Hbad & e1 & E1 & En1).
      set (scan := digest_foreach_scan options master next [] 0 [] w) in *.
      destruct scan as [[[good_list good_count] bad_list] w1] eqn:Hscan.
      cbn [fst snd] in Hbad, E1. cbn [fst snd]. rewrite bind_run. cbn [fst snd].
      subst bad_list.
      set (same := List.filter (same_files fs0 master) next) in *.
      set (other := List.filter (fun f => negb (same_files fs0 master f)) next) in *.
      match goal with
      | |- context [digest_foreach_loop fuel options key other ?w2] =>
          destruct (IH other w2) as (e2 & E2 & En2)
      end.
      * pose proof (filter_length_le (fun f => negb (same_files fs0 master f)) next).
        simpl in Hlen. unfold other. lia.
      * cbn [map] in Hnd. apply NoDup_cons in Hnd as [_ Hnd].
        apply NoDup_map_filter, Hnd.
      * intros f Hf. rewrite (eff_fs _ _ _ _ E1).
        -- apply Hfs. right. apply filter_In in Hf as [Hf _]. exact Hf.
        -- rewrite list_elem_of_In. intros Hin. apply touched_by_class_group in Hin.
           eapply other_not_touched; eassumption.
      * apply (eff_stdin _ _ _ _ E1), HP.
      * exists (e1 ++ e2). split.
        -- cbn [map concat]. eapply effect_trans.
           ++ eapply effect_weaken; [|exact E1]. intros p Hp. apply elem_of_app. left. exact Hp.
           ++ eapply effect_weaken; [|exact E2]. intros p Hp. apply elem_of_app. right. exact Hp.
        -- rewrite entered_app, En1, En2. reflexivity.
Qed.

End Rounds.

(** ** The classes are the partition by contents *)

Lemma filter_complement_perm {A} (f : A -> bool) (l : list A) :
  Permutation (List.filter f l ++ List.filter (fun x => negb (f x)) l) l.
Proof.
  induction l as [|x l IH]; simpl; [constructor|].
  destruct (f x); simpl.
  - constructor. exact IH.
  - rewrite <- Permutation_middle. constructor. exact IH.
Qed.

Section Classes.

Variable same : file_t -> file_t -> bool.
Hypothesis same_sym : forall a b, same a b = same b a.
Hypothesis same_trans : forall a b c, same a b = true -> same b c = true -> same a c = true.

(** Induction on a list of files along the rounds. *)
Lemma rounds_ind (Q : list file_t -> Prop) :
  Q [] ->
  (forall master next,
     Q (List.filter (fun f => negb (same master f)) next) -> Q (master :: next)) ->
  forall l, Q l.
Proof.
  intros Hnil Hcons l.
  remember (length l) as n eqn:Hn. revert l Hn.
  induction n as [n IH] using lt_wf_ind. intros [|master next] Hn; [exact Hnil|].
  apply Hcons. eapply IH; [|reflexivity].
  pose proof (filter_length_le (fun f => negb (same master f)) next). subst n. simpl. lia.
Qed.

(** Every file of the list is in a class, once. *)
Lemma classes_members_perm l : Permutation (concat (map members (classes same l))) l.
Proof.
  induction l as [|master next IH] using rounds_ind; [rewrite classes_equation_1; constructor|].
  rewrite classes_equation_2. cbn [map concat members fst snd app]. constructor.
  rewrite IH. apply filter_complement_perm.
Qed.

(** The duplicates of a class are the same as its master. *)
Lemma classes_duplicates_same l class a :
  In class (classes same l) -> In a (snd class) -> same (fst class) a = true.
Proof.
  induction l as [|master next IH] using rounds_ind.
  - rewrite classes_equation_1. intros [].
  - rewrite classes_equation_2. intros Hc Ha. destruct Hc as [Hc|Hin].
    + subst class. cbn [snd] in Ha. apply filter_In in Ha as [_ Ha]. exact Ha.
    + exact (IH Hin Ha).
Qed.

(** Two different files of one class are the same. *)
Lemma classes_sound l class a b :
  In class (classes same l) -> In a (members class) -> In b (members class) ->
  a <> b -> same a b = true.
Proof.
  intros Hc Ha Hb Hne. unfold members in *.
  destruct Ha as [<-|Ha], Hb as [<-|Hb].
  - contradiction.
  - eapply classes_duplicates_same; eassumption.
  - rewrite same_sym. eapply classes_duplicates_same; eassumption.
  - apply (same_trans a (fst class) b).
    + rewrite same_sym. eapply classes_duplicates_same; eassumption.
    + eapply classes_duplicates_same; eassumption.
Qed.

(** Two files of the list that are the same are in one class. *)
Lemma classes_complete l a b :
  In a l -> In b l -> same a b = true ->
  exists class, In class (classes same l) /\ In a (members class) /\ In b (members class).
Proof.
  induction l as [|master next IH] using rounds_ind; [intros []|].
  rewrite classes_equation_2. intros Ha Hb Hab.
  assert (Haa : same a a = true).
  { apply (same_trans a b a); [exact Hab | rewrite same_sym; exact Hab]. }
  assert (Hbb : same b b = true).
  { apply (same_trans b a b); [rewrite same_sym; exact Hab | exact Hab]. }
  assert (Hfirst : forall x, In x (master :: next) -> same master x = true ->
            In x (members (master, List.filter (same master) next))).
  { intros x [<-|Hx] Hs; [left; reflexivity|]. right. apply filter_In. auto. }
  assert (Hrest : forall x, In x (master :: next) -> same x x = true ->
            same master x = false ->
            In x (List.filter (fun f => negb (same master f)) next)).
  { intros x [<-|Hx] Hxx Hs; [congruence|]. apply filter_In. rewrite Hs. auto. }
  destruct (same master a) eqn:Sa.
  - exists (master, List.filter (same master) next). split; [left; reflexivity|].
    split; [apply Hfirst; assumption|].
    apply Hfirst; [assumption|]. eapply same_trans; eassumption.
  - assert (Sb : same master b = false).
    { destruct (same master b) eqn:Sb; [|reflexivity].
      rewrite <- Sa. symmetry. apply (same_trans master b a); [exact Sb|].
      rewrite same_sym. exact Hab. }
    destruct IH as (class & Hc & Hca & Hcb); [apply Hrest; assumption.. | exact Hab |].
    exists class. split; [right; exact Hc | auto].
Qed.

End Classes.

Lemma same_files_sym fs a b : same_files fs a b = same_files fs b a.
Proof.
  unfold same_files, same_contents.
  destruct (opened fs (name a)), (opened fs (name b)); try reflexivity.
  apply equal_streams_sym.
Qed.

Lemma same_files_trans fs a b c :
  same_files fs a b = true -> same_files fs b c = true -> same_files fs a c = true.
Proof.
  unfold same_files, same_contents.
  destruct (opened fs (name a)), (opened fs (name b)), (opened fs (name c));
    try discriminate.
  apply equal_streams_trans.
Qed.

(** Equal streams hold the same bytes. *)
Lemma equal_streams_contents fd1 : forall fd2,
  equal_streams fd1 fd2 = true -> contents fd1 = contents fd2.
Proof.
  induction fd1 as [|r1 fd1 IH]; intros fd2.
  - destruct fd2 as [|[[|b2 chunk2]|] fd2]; simpl; try discriminate; reflexivity.
  - destruct r1 as [[|b1 chunk1]|]; destruct fd2 as [|[[|b2 chunk2]|] fd2];
      simpl; try discriminate; try reflexivity.
    rewrite andb_true_iff, bool_decide_eq_true. intros [[= -> ->] H].
    rewrite (IH _ H). reflexivity.
Qed.

Lemma regular_reads_to_end fd : regular_reads fd = true -> reads_to_end fd = true.
Proof.
  induction fd as [|[[|b chunk]|] fd IH]; simpl; try reflexivity; try discriminate.
  destruct fd as [|r fd']; [reflexivity|].
  rewrite andb_true_iff. intros [_ H]. apply IH, H.
Qed.

Lemma regular_reads_contents_length fd :
  regular_reads fd = true -> fd <> [] -> (0 < length (contents fd))%nat.
Proof.
  destruct fd as [|[[|b chunk]|] fd]; simpl; try discriminate; try congruence.
  - destruct fd; [discriminate|]. unfold CHUNK_SIZE. discriminate.
  - intros _ _. lia.
Qed.

(** On regular files the stream is determined by the bytes. *)
Lemma regular_reads_inj fd1 : forall fd2,
  regular_reads fd1 = true -> regular_reads fd2 = true ->
  contents fd1 = contents fd2 -> fd1 = fd2.
Proof.
  induction fd1 as [|r1 fd1 IH]; intros fd2 R1 R2 Hc.
  - destruct fd2 as [|r2 fd2]; [reflexivity|].
    pose proof (regular_reads_contents_length _ R2 ltac:(discriminate)) as H.
    rewrite <- Hc in H. simpl in H. lia.
  - destruct fd2 as [|r2 fd2].
    { pose proof (regular_reads_contents_length _ R1 ltac:(discriminate)) as H.
      rewrite Hc in H. simpl in H. lia. }
    destruct r1 as [chunk1|]; [|discriminate]. destruct r2 as [chunk2|]; [|discriminate].
    assert (N1 : chunk1 <> []).
    { intros ->. simpl in R1. destruct fd1; discriminate. }
    assert (N2 : chunk2 <> []).
    { intros ->. simpl in R2. destruct fd2; discriminate. }
    assert (C1 : contents (Some chunk1 :: fd1) = chunk1 ++ contents fd1)
      by (destruct chunk1; [contradiction | reflexivity]).
    assert (C2 : contents (Some chunk2 :: fd2) = chunk2 ++ contents fd2)
      by (destruct chunk2; [contradiction | reflexivity]).
    rewrite C1, C2 in Hc.
    assert (L1 : (fd1 = [] /\ Z.of_nat (length chunk1) <= CHUNK_SIZE) \/
                 (fd1 <> [] /\ Z.of_nat (length chunk1) = CHUNK_SIZE /\
                  regular_reads fd1 = true)).
    { simpl in R1. destruct fd1.
      - left. apply andb_prop in R1 as [_ R1]. apply Z.leb_le in R1. auto.
      - right. apply andb_prop in R1 as [E R1]. apply Z.eqb_eq in E.
        split; [discriminate | auto]. }
    assert (L2 : (fd2 = [] /\ Z.of_nat (length chunk2) <= CHUNK_SIZE) \/
                 (fd2 <> [] /\ Z.of_nat (length chunk2) = CHUNK_SIZE /\
                  regular_reads fd2 = true)).
    { simpl in R2. destruct fd2.
      - left. apply andb_prop in R2 as [_ R2]. apply Z.leb_le in R2. auto.
      - right. apply andb_prop in R2 as [E R2]. apply Z.eqb_eq in E.
        split; [discriminate | auto]. }
    pose proof (f_equal (@length byte) Hc) as Hlen. rewrite !length_app in Hlen.
    destruct L1 as [[-> B1]|(F1 & B1 & R1')], L2 as [[-> B2]|(F2 & B2 & R2')].
    + simpl in Hc. rewrite !app_nil_r in Hc. congruence.
    + pose proof (regular_reads_contents_length _ R2' F2). simpl in Hlen. lia.
    + pose proof (regular_reads_contents_length _ R1' F1). simpl in Hlen. lia.
    + assert (Hl : length chunk1 = length chunk2) by lia.
      apply app_inj_1 in Hc as [-> Hc']; [|exact Hl].
      rewrite (IH fd2 R1' R2' Hc'). reflexivity.
Qed.

(** Two paths that hold regular files have the same contents, for
    [compare_files], exactly when they hold the same bytes. *)
Lemma same_contents_bytes fs path1 path2 bytes1 bytes2 :
  holds fs path1 bytes1 -> holds fs path2 bytes2 ->
  (same_contents fs path1 path2 = true <-> bytes1 = bytes2).
Proof.
  intros (fd1 & O1 & R1 & C1) (fd2 & O2 & R2 & C2).
  unfold same_contents. rewrite O1, O2. split.
  - intros H. apply equal_streams_contents in H. congruence.
  - intros ->. assert (fd1 = fd2) by (apply regular_reads_inj; congruence). subst fd2.
    rewrite equal_streams_refl. apply regular_reads_to_end, R1.
Qed.

(** ** The sorted list does not depend on the order of the files *)

Lemma sorted_perm_unique {A} (R : A -> A -> Prop) (l1 : list A) : forall l2,
  (forall a b, In a l1 -> In b l1 -> R a b -> R b a -> a = b) ->
  StronglySorted R l1 -> StronglySorted R l2 -> Permutation l1 l2 -> l1 = l2.
Proof.
  induction l1 as [|a l1 IH]; intros l2 Hanti S1 S2 Hp.
  - apply Permutation_nil in Hp. auto.
  - destruct l2 as [|b l2]; [apply Permutation_sym, Permutation_nil in Hp; discriminate|].
    apply StronglySorted_inv in S1 as [S1 F1]. apply StronglySorted_inv in S2 as [S2 F2].
    assert (Hab : a = b).
    { assert (Ha : In a (b :: l2)) by (eapply Permutation_in; [exact Hp | left; reflexivity]).
      assert (Hb : In b (a :: l1)).
      { eapply Permutation_in; [apply Permutation_sym, Hp | left; reflexivity]. }
      destruct Ha as [->|Ha]; [reflexivity|]. destruct Hb as [->|Hb]; [reflexivity|].
      apply Hanti; [left; reflexivity | right; exact Hb | |].
      - rewrite Forall_forall in F1. apply F1, list_elem_of_In, Hb.
      - rewrite Forall_forall in F2. apply F2, list_elem_of_In, Ha. }
    subst b. f_equal. apply IH; auto.
    + intros x y Hx Hy. apply Hanti; right; assumption.
    + eapply Permutation_cons_inv, Hp.
Qed.

Lemma links_then_path_antisym l a b :
  NoDup (map name l) -> In a l -> In b l ->
  links_then_path a b -> links_then_path b a -> a = b.
Proof.
  intros Hnd Ha Hb [H1|[H1 L1]] [H2|[H2 L2]]; try lia.
  eapply NoDup_map_In_inj; try eassumption. apply String.leb_antisym; assumption.
Qed.

Lemma g_list_sort_files_perm l1 l2 :
  Forall sortable l1 -> NoDup (map name l1) -> Permutation l1 l2 ->
  GLib.g_list_sort sort_compare l1 = GLib.g_list_sort sort_compare l2.
Proof.
  intros Hs Hnd Hp.
  assert (Hs2 : Forall sortable l2).
  { rewrite Forall_forall in *. intros x Hx. apply Hs. rewrite Hp. exact Hx. }
  pose proof (g_list_sort_perm sort_compare l1) as P1.
  pose proof (g_list_sort_perm sort_compare l2) as P2.
  apply (sorted_perm_unique links_then_path).
  - intros a b Ha Hb. apply (links_then_path_antisym l1); auto.
    + eapply Permutation_in; [exact P1 | exact Ha].
    + eapply Permutation_in; [exact P1 | exact Hb].
  - exact (g_list_sort_sorted sort_compare links_then_path sortable
             links_then_path_trans sort_compare_le sort_compare_gt l1 Hs).
  - exact (g_list_sort_sorted sort_compare links_then_path sortable
             links_then_path_trans sort_compare_le sort_compare_gt l2 Hs2).
  - rewrite P1, P2. exact Hp.
Qed.

(** ** A group of files, and the table of groups *)

Lemma submseteq_NoDup_l {A} (l k : list A) : l ⊆+ k -> NoDup k -> NoDup l.
Proof.
  intros Hsub Hk. apply submseteq_sublist_l in Hsub as (l' & Hs & Hp).
  eapply sublist_NoDup; [|exact Hs]. rewrite Hp. exact Hk.
Qed.

Lemma submseteq_In {A} (l k : list A) x : l ⊆+ k -> In x l -> In x k.
Proof.
  intros Hsub Hx. apply list_elem_of_In. eapply elem_of_submseteq; [|exact Hsub].
  apply list_elem_of_In, Hx.
Qed.

(** The list searched is made of files of the group. *)
Lemma search_list_submseteq options value : search_list_of options value ⊆+ files value.
Proof.
  unfold search_list_of.
  assert (Hsorted : GLib.g_list_sort sort_compare (files value) ⊆+ files value).
  { apply Permutation_submseteq, g_list_sort_perm. }
  destruct (negb (opt_set options OPT_HARDLINKS)); [|exact Hsorted].
  etransitivity; [|exact Hsorted]. apply sublist_submseteq, filter_links_sublist.
Qed.

Lemma search_list_names options value :
  map name (search_list_of options value) ⊆+ map name (files value).
Proof. apply (fmap_submseteq name), search_list_submseteq. Qed.

Lemma classes_members_submseteq same l : concat (map members (classes same l)) ⊆+ l.
Proof. apply Permutation_submseteq, classes_members_perm. Qed.

Lemma g_list_sort_short {A} (compare : A -> A -> Z) (l : list A) :
  (length l <= 1)%nat -> GLib.g_list_sort compare l = l.
Proof.
  destruct l as [|x [|y l]]; simpl; intros H; try lia; simp g_list_sort; reflexivity.
Qed.

Lemma actions_of_short options key same l :
  (length l <= 1)%nat -> actions_of options key (classes same l) = [].
Proof.
  destruct l as [|x [|y l]]; simpl; intros H; try lia.
  - rewrite classes_equation_1. reflexivity.
  - rewrite classes_equation_2. cbn [List.filter]. rewrite classes_equation_1.
    unfold actions_of. cbn [map concat actions_of_class].
    destruct (opt_set options OPT_LINK); reflexivity.
Qed.

Lemma submseteq_length_le {A} (l k : list A) : l ⊆+ k -> (length l <= length k)%nat.
Proof. apply submseteq_length. Qed.

Section Phase.

Variable options : Z.
Variable fs0 : gmap string inode.
Variable P : string -> Prop.
Variable touched : file_t -> list file_t -> list string.

Hypothesis touched_group : forall master l path,
  In path (touched master l) -> In path (map name (master :: l)).

Hypothesis session_effect : forall key master l w,
  every_line P (w_stdin w) ->
  exists events,
    effect (touched master l) w (snd (delete_files key master l w)) events /\
    entered events = [Call_delete_files key master l].

Lemma touched_by_bucket_names entry path :
  In path (touched_by_bucket options fs0 touched entry) -> In path (map name (files (snd entry))).
Proof.
  unfold touched_by_bucket, bucket_classes. intros Hin.
  apply in_concat in Hin as (names & Hn & Hp).
  apply in_map_iff in Hn as ([master good_list] & <- & Hc).
  apply (touched_by_class_group options touched touched_group) in Hp.
  eapply submseteq_In; [apply search_list_names|].
  eapply submseteq_In; [apply (fmap_submseteq name), classes_members_submseteq|].
  apply in_map_iff in Hp as (f & <- & Hf). apply in_map.
  apply in_concat. exists (members (master, good_list)). split; [|exact Hf].
  apply in_map, Hc.
Qed.

Lemma digest_foreach_spec key value w :
  nfile value = Z.of_nat (length (files value)) ->
  NoDup (map name (files value)) ->
  (forall f, In f (files value) -> w_fs w !! name f = fs0 !! name f) ->
  every_line P (w_stdin w) ->
  exists events,
    effect (touched_by_bucket options fs0 touched (key, value)) w (snd (digest_foreach options key value w))
      events /\
    entered events = actions_of options key (bucket_classes options fs0 (key, value)).
Proof.
  intros Hn Hnd Hfs HP. unfold digest_foreach, touched_by_bucket, bucket_classes. cbn [snd].
  destruct (Z.gtb_spec (nfile value) 1) as [Hmany|Hfew].
  - apply (digest_foreach_loop_spec options key fs0 P touched touched_group
             (session_effect key)).
    + lia.
    + eapply submseteq_NoDup_l; [apply search_list_names | exact Hnd].
    + intros f Hf. apply Hfs. eapply submseteq_In; [apply search_list_submseteq | exact Hf].
    + exact HP.
  - exists []. split; [apply effect_refl|].
    rewrite actions_of_short; [reflexivity|].
    pose proof (submseteq_length_le _ _ (search_list_submseteq options value)). lia.
Qed.

Lemma phase_three_spec table : forall w,
  table_ok table ->
  (forall entry f, In entry table -> In f (files (snd entry)) ->
     w_fs w !! name f = fs0 !! name f) ->
  every_line P (w_stdin w) ->
  exists events,
    effect (touched_by_table options fs0 touched table) w (snd (phase_three options table w)) events /\
    entered events = phase_actions options fs0 table.
Proof.
  induction table as [|[key value] rest IH]; intros w [Hn Hnd] Hfs HP.
  - exists []. split; [apply effect_refl | reflexivity].
  - cbn [phase_three]. rewrite bind_run.
    apply Forall_cons_1 in Hn as [Hn1 Hn]. cbn [snd] in Hn1.
    unfold table_names in Hnd. cbn [map concat snd] in Hnd. apply NoDup_app in Hnd as (Hnd1 & Hdisj & Hnd2).
    destruct (digest_foreach_spec key value w Hn1 Hnd1) as (e1 & E1 & En1).
    { intros f Hf. apply (Hfs (key, value)); [left; reflexivity | exact Hf]. }
    { exact HP. }
    set (w1 := snd (digest_foreach options key value w)) in *.
    destruct (IH w1) as (e2 & E2 & En2).
    + split; assumption.
    + intros entry f He Hf. rewrite (eff_fs _ _ _ _ E1).
      * apply (Hfs entry); [right; exact He | exact Hf].
      * rewrite list_elem_of_In. intros Hin. apply touched_by_bucket_names in Hin.
        cbn [snd] in Hin. apply (Hdisj (name f)); [apply list_elem_of_In, Hin|].
        apply list_elem_of_In, in_concat. exists (map name (files (snd entry))).
        split; [|apply in_map, Hf].
        apply in_map_iff. exists entry. auto.
    + apply (eff_stdin _ _ _ _ E1), HP.
    + exists (e1 ++ e2). split.
      * unfold touched_by_table. cbn [map concat]. eapply effect_trans.
        -- eapply effect_weaken; [|exact E1]. intros p Hp. apply elem_of_app. left. exact Hp.
        -- eapply effect_weaken; [|exact E2]. intros p Hp. apply elem_of_app. right. exact Hp.
      * rewrite entered_app, En1, En2. reflexivity.
Qed.

End Phase.

(** ** The file system behind the paths *)

(** A world keeps the directory entries under the paths that name them.
    That is what a file system with several paths to an entry looks like
    through paths that name entries of their own: [unlink] and [link] of
    the world do to what these paths show what [unlink] and [link] do to
    the file system. *)
Lemma shows_unlink F paths fs path :
  shows F paths fs -> own_entries F paths -> In path paths ->
  shows (fs_unlink F path) paths (delete path fs).
Proof.
  intros Hs Hown Hp q Hq. unfold fs_lookup, fs_unlink. cbn [fs_entries fs_entry].
  destruct (decide (q = path)) as [->|Hne].
  - rewrite !lookup_delete_eq. reflexivity.
  - rewrite !lookup_delete_ne.
    + apply Hs, Hq.
    + intros E. apply Hne. apply Hown; auto.
    + intros E. apply Hne. symmetry. exact E.
Qed.

Lemma shows_link F paths fs i newpath :
  shows F paths fs -> own_entries F paths -> In newpath paths ->
  shows (fs_link F i newpath) paths (<[newpath := i]> fs).
Proof.
  intros Hs Hown Hp q Hq. unfold fs_lookup, fs_link. cbn [fs_entries fs_entry].
  destruct (decide (q = newpath)) as [->|Hne].
  - rewrite !lookup_insert_eq. reflexivity.
  - rewrite !lookup_insert_ne.
    + apply Hs, Hq.
    + intros E. apply Hne. apply Hown; auto.
    + intros E. apply Hne. symmetry. exact E.
Qed.

(** The paths of current records of files of their own name entries of
    their own. *)
Lemma own_files_own_entries F (l : list file_t) fs :
  shows F (map name l) fs ->
  (forall f, In f l -> current fs f) ->
  NoDup (map storage l) ->
  own_entries F (map name l).
Proof.
  intros Hs Hcur Hnd p q Hp Hq E.
  pose proof (Hs p Hp) as Sp. pose proof (Hs q Hq) as Sq.
  apply in_map_iff in Hp as (f & <- & Hf). apply in_map_iff in Hq as (g & <- & Hg).
  destruct (Hcur f Hf) as (i & Ei & Hi). destruct (Hcur g Hg) as (j & Ej & Hj).
  unfold fs_lookup in Sp, Sq. rewrite E in Sp. rewrite <- Sq, Ei, Ej in Sp.
  injection Sp as ->. f_equal.
  apply (NoDup_map_In_inj storage l f g Hnd Hf Hg). rewrite <- Hi, <- Hj. reflexivity.
Qed.

(** ** Running on the file system *)

Lemma replay_app F e1 : forall e2, replay F (e1 ++ e2) = replay (replay F e1) e2.
Proof.
  revert F. induction e1 as [|e e1 IH]; intros F e2; [reflexivity|].
  destruct e as [| | | |path [|]|oldpath newpath [|]|]; cbn [app replay]; try apply IH.
  destruct (fs_lookup F oldpath); apply IH.
Qed.

Lemma replay_entry events : forall F, fs_entry (replay F events) = fs_entry F.
Proof.
  induction events as [|e events IH]; intros F; [reflexivity|].
  destruct e as [| | | |path [|]|oldpath newpath [|]|]; cbn [replay]; rewrite ?IH;
    try reflexivity.
  destruct (fs_lookup F oldpath); rewrite IH; reflexivity.
Qed.

Lemma own_entries_replay F paths events :
  own_entries F paths -> own_entries (replay F events) paths.
Proof. unfold own_entries. rewrite replay_entry. auto. Qed.

Lemma answers_app nounlink nolink e1 : forall F e2,
  answers nounlink nolink F (e1 ++ e2) <->
  answers nounlink nolink F e1 /\ answers nounlink nolink (replay F e1) e2.
Proof.
  induction e1 as [|e e1 IH]; intros F e2; [cbn; tauto|].
  cbn [app answers]. rewrite IH.
  change (e :: e1) with ([e] ++ e1). rewrite (replay_app F [e] e1). tauto.
Qed.

Section Faithful.

Variable paths : list string.

Lemma faithful_ret {A} (Q : A -> Prop) (a : A) : Q a -> faithful paths Q (ret a).
Proof.
  intros HQ F w Hs Ho. exists []. cbn. rewrite app_nil_r. auto 10.
Qed.

Lemma faithful_bind {A B} (Q : A -> Prop) (R : B -> Prop) (m : M A) (k : A -> M B) :
  faithful paths Q m -> (forall a, Q a -> faithful paths R (k a)) ->
  faithful paths R (bind m k).
Proof.
  intros Hm Hk F w Hs Ho. rewrite bind_run.
  destruct (Hm F w Hs Ho) as (e1 & T1 & U1 & L1 & A1 & S1 & Q1).
  destruct (Hk _ Q1 (replay F e1) (snd (m w)) S1 (own_entries_replay _ _ _ Ho))
    as (e2 & T2 & U2 & L2 & A2 & S2 & Q2).
  exists (e1 ++ e2). rewrite T2, T1, U2, U1, L2, L1, replay_app, app_assoc.
  rewrite U1, L1 in A2. repeat split; auto. apply answers_app. auto.
Qed.

Lemma faithful_weaken {A} (Q R : A -> Prop) (m : M A) :
  (forall a, Q a -> R a) -> faithful paths Q m -> faithful paths R m.
Proof.
  intros HQR Hm F w Hs Ho. destruct (Hm F w Hs Ho) as (e & T & U & L & A0 & S & HQ).
  exists e. auto 10.
Qed.

(** The events that are no system calls. *)
Lemma faithful_emit e :
  match e with SysOpen _ _ | SysUnlink _ _ | SysLink _ _ _ => False | _ => True end ->
  faithful paths (fun _ => True) (emit e).
Proof.
  intros He F w Hs Ho. exists [e]. rewrite emit_logged. cbn [fst snd logged w_trace w_fs
    w_nounlink w_nolink answers].
  destruct e; try contradiction; cbn [answer replay]; auto 10.
Qed.

Lemma faithful_printf format args : faithful paths (fun _ => True) (printf format args).
Proof. apply faithful_emit. exact I. Qed.

Lemma faithful_g_warning format args : faithful paths (fun _ => True) (g_warning format args).
Proof. apply faithful_emit. exact I. Qed.

Lemma faithful_g_critical format args :
  faithful paths (fun _ => True) (g_critical format args).
Proof. apply faithful_emit. exact I. Qed.

Lemma faithful_sys_open path :
  In path paths -> faithful paths (fun _ => True) (sys_open path).
Proof.
  intros Hp F w Hs Ho. eexists [_]. unfold sys_open.
  cbn [fst snd logged w_trace w_fs w_nounlink w_nolink answers answer replay].
  repeat split; auto. unfold answer, fs_open, opened. fold (fs_lookup F path).
  rewrite <- (Hs path Hp). reflexivity.
Qed.

Lemma faithful_sys_unlink path :
  In path paths -> faithful paths (fun _ => True) (sys_unlink path).
Proof.
  intros Hp F w Hs Ho. unfold sys_unlink. rewrite (Hs path Hp).
  destruct (bool_decide (is_Some (fs_lookup F path)) &&
            negb (bool_decide (path ∈ w_nounlink w))) eqn:E.
  - exists [SysUnlink path true].
    cbn [fst snd logged w_trace w_fs w_nounlink w_nolink answers answer replay].
    repeat split; auto. apply shows_unlink; assumption.
  - exists [SysUnlink path false].
    cbn [fst snd logged w_trace w_fs w_nounlink w_nolink answers answer replay].
    repeat split; auto.
Qed.

Lemma faithful_sys_link oldpath newpath :
  In oldpath paths -> In newpath paths ->
  faithful paths (fun _ => True) (sys_link oldpath newpath).
Proof.
  intros Hold Hnew F w Hs Ho. unfold sys_link.
  rewrite (Hs oldpath Hold), (Hs newpath Hnew).
  destruct (fs_lookup F oldpath) as [i|] eqn:Eo.
  - destruct (fs_lookup F newpath) as [j|] eqn:En.
    + exists [SysLink oldpath newpath false].
      cbn [fst snd logged w_trace w_fs w_nounlink w_nolink answers answer replay].
      rewrite Eo, En. repeat split; auto.
    + destruct (bool_decide (newpath ∈ w_nolink w)) eqn:E.
      * exists [SysLink oldpath newpath false].
        cbn [fst snd logged w_trace w_fs w_nounlink w_nolink answers answer replay].
        rewrite Eo, En, E. repeat split; auto.
      * exists [SysLink oldpath newpath true].
        cbn [fst snd logged w_trace w_fs w_nounlink w_nolink answers answer replay].
        rewrite Eo, En, E. repeat split; auto.
        apply shows_link; assumption.
  - exists [SysLink oldpath newpath false].
    cbn [fst snd logged w_trace w_fs w_nounlink w_nolink answers answer replay].
    rewrite Eo. repeat split; auto.
Qed.

Lemma faithful_sys_fgets size : faithful paths (fun _ => True) (sys_fgets size).
Proof.
  intros F w Hs Ho. exists []. unfold sys_fgets.
  destruct (Libc.fgets size (w_stdin w)) as [[buf rest]|];
    cbn [fst snd w_trace w_fs w_nounlink w_nolink answers replay]; rewrite app_nil_r; auto 10.
Qed.

(** A part of the program that looks at the world for a bound of its
    rounds. *)
Lemma faithful_fuel {A B} (Q : A -> Prop) (f : B -> M A) (g : world -> B) :
  (forall b, faithful paths Q (f b)) -> faithful paths Q (fun w => f (g w) w).
Proof. intros H F w. apply H. Qed.

End Faithful.

Ltac faithful_steps :=
  repeat first
    [ apply faithful_ret; exact I
    | apply faithful_printf
    | apply faithful_g_warning
    | apply faithful_g_critical
    | apply faithful_emit; exact I
    | apply faithful_sys_fgets
    | (apply faithful_bind with (Q := fun _ => True); [|intros ? _]) ].

Section FaithfulProgram.

Variable paths : list string.

Lemma faithful_compare_files_loop name1 name2 fd1 : forall fd2,
  faithful paths (fun _ => True) (compare_files_loop name1 name2 fd1 fd2).
Proof.
  induction fd1 as [|r fd1 IH]; intros fd2; cbn [compare_files_loop];
    destruct (fst (sys_read _)) as [nb1 buf1];
    (destruct (nb1 =? -1); [faithful_steps|]);
    destruct (sys_read fd2) as [[nb2 buf2] fd2'];
    (destruct (nb2 =? -1); [faithful_steps|]);
    (destruct ((nb1 =? 0) && (nb2 =? 0)); [faithful_steps|]);
    (destruct ((nb1 =? nb2) && (Libc.memcmp buf1 buf2 (Z.to_nat nb1) =? 0));
       [|faithful_steps]);
    first [apply IH | faithful_steps].
Qed.

Lemma faithful_compare_files file1 file2 :
  In (name file1) paths -> In (name file2) paths ->
  faithful paths (fun _ => True) (compare_files file1 file2).
Proof.
  intros H1 H2. unfold compare_files. cbn zeta.
  apply faithful_bind with (Q := fun _ => True); [apply faithful_sys_open, H1|].
  intros [fd1|] _; [|faithful_steps].
  apply faithful_bind with (Q := fun _ => True); [apply faithful_sys_open, H2|].
  intros [fd2|] _; [apply faithful_compare_files_loop | faithful_steps].
Qed.

Lemma faithful_link_pair master slave :
  In (name master) paths -> In (name slave) paths ->
  faithful paths (fun _ => True) (link_pair master slave).
Proof.
  intros Hm Hs. unfold link_pair.
  apply faithful_bind with (Q := fun _ => True); [apply faithful_emit; exact I|].
  intros _ _.
  apply faithful_bind with (Q := fun _ => True); [apply faithful_sys_unlink, Hs|].
  intros r _. destruct (r =? 0); [|faithful_steps].
  apply faithful_bind with (Q := fun _ => True); [apply faithful_sys_link; assumption|].
  intros r' _. destruct (r' =? -1); faithful_steps.
Qed.

Lemma faithful_print_disposition ptr : forall i,
  faithful paths (fun _ => True) (print_disposition ptr i).
Proof. induction ptr as [|elem next IH]; intros i; cbn [print_disposition]; faithful_steps. apply IH. Qed.

Lemma faithful_unlink_marked ptr :
  Forall (fun elem => In (name (file elem)) paths) ptr ->
  faithful paths (fun _ => True) (unlink_marked ptr).
Proof.
  induction 1 as [|elem next He _ IH]; cbn [unlink_marked]; [faithful_steps|].
  apply faithful_bind with (Q := fun _ => True); [|intros _ _; exact IH].
  destruct (keep elem =? 0); [|faithful_steps]. cbn zeta.
  apply faithful_bind with (Q := fun _ => True); [apply faithful_sys_unlink, He|].
  intros r _. destruct (r =? 0); faithful_steps.
Qed.

Lemma faithful_delete_files_loop fuel digest : forall delete_list print_list,
  Forall (fun elem => In (name (file elem)) paths) delete_list ->
  faithful paths (fun _ => True) (delete_files_loop fuel digest delete_list print_list).
Proof.
  induction fuel as [|fuel IH]; intros delete_list print_list Hdl; cbn [delete_files_loop];
    [faithful_steps|].
  apply faithful_bind with (Q := fun _ => True).
  { destruct print_list; faithful_steps. apply faithful_print_disposition. }
  intros _ _. apply faithful_bind with (Q := fun _ => True); [faithful_steps|].
  intros _ _. apply faithful_bind with (Q := fun _ => True); [apply faithful_sys_fgets|].
  intros [buf|] _; [|faithful_steps]. cbn zeta.
  destruct (Libc.strncmp (Libc.cstr buf) "go" 2 =? 0); [apply faithful_unlink_marked, Hdl|].
  destruct (Libc.atoi (Libc.cstr buf) >? 0).
  - destruct (GLib.g_list_nth_data delete_list (Libc.atoi (Libc.cstr buf) - 1))
      as [elem|] eqn:E.
    + apply IH. unfold toggle. apply Forall_insert; [exact Hdl|]. cbn [file].
      apply g_list_nth_data_lookup in E as [_ E].
      rewrite Forall_forall in Hdl. apply Hdl.
      eapply list_elem_of_lookup_2, E.
    + faithful_steps. apply IH, Hdl.
  - faithful_steps. apply IH, Hdl.
Qed.

Lemma faithful_delete_files digest master l :
  In (name master) paths -> on_paths paths l ->
  faithful paths (fun _ => True) (delete_files digest master l).
Proof.
  intros Hm Hl. unfold delete_files.
  apply faithful_bind with (Q := fun _ => True); [apply faithful_emit; exact I|].
  intros _ _.
  apply (faithful_fuel paths (fun _ => True)
           (fun fuel => delete_files_loop fuel digest (initial_delete_list master l) true)
           (fun w => S (String.length (w_stdin w)))).
  intros fuel. apply faithful_delete_files_loop.
  rewrite initial_delete_list_eq. constructor; [exact Hm|].
  apply Forall_map. exact Hl.
Qed.

Lemma faithful_list_files_loop options fs l :
  faithful paths (fun _ => True) (list_files_loop options fs l).
Proof.
  induction l as [|fp next IH]; cbn [list_files_loop]; [faithful_steps|].
  apply faithful_bind with (Q := fun _ => True); [|intros _ _; exact IH].
  destruct (opt_set options OPT_SHOWSIZE); faithful_steps.
Qed.

Lemma faithful_list_files options master l :
  faithful paths (fun _ => True) (list_files options master l).
Proof.
  unfold list_files. cbn zeta.
  apply faithful_bind with (Q := fun _ => True); [apply faithful_emit; exact I|].
  intros _ _. apply faithful_bind with (Q := fun _ => True).
  { destruct (negb (opt_set options OPT_OMITFIRST)); [|faithful_steps].
    destruct (opt_set options OPT_SHOWSIZE); faithful_steps. }
  intros _ _. apply faithful_bind with (Q := fun _ => True);
    [apply faithful_list_files_loop | intros _ _; faithful_steps].
Qed.

Lemma faithful_digest_foreach_scan options master search_list :
  forall good_list good_count bad_list,
  In (name master) paths -> on_paths paths search_list ->
  on_paths paths good_list -> on_paths paths bad_list ->
  faithful paths (fun r => on_paths paths (fst (fst r)) /\ on_paths paths (snd r))
    (digest_foreach_scan options master search_list good_list good_count bad_list).
Proof.
  induction search_list as [|data next IH]; intros good_list good_count bad_list Hm Hs Hg Hb;
    cbn [digest_foreach_scan].
  - apply faithful_ret. cbn. auto.
  - apply Forall_cons_1 in Hs as [Hd Hs].
    apply faithful_bind with (Q := fun _ => True);
      [apply faithful_compare_files; assumption|].
    intros same _. destruct (negb (same =? 0)).
    + destruct (opt_set options OPT_LINK).
      * apply faithful_bind with (Q := fun _ => True);
          [apply faithful_link_pair; assumption|].
        intros _ _. apply IH; assumption.
      * apply IH; try assumption. unfold GLib.g_list_append.
        apply Forall_app. split; [exact Hg | constructor; [exact Hd | constructor]].
    + apply IH; try assumption. unfold GLib.g_list_append.
      apply Forall_app. split; [exact Hb | constructor; [exact Hd | constructor]].
Qed.

Lemma faithful_digest_foreach_loop fuel options key : forall search_list,
  on_paths paths search_list ->
  faithful paths (fun _ => True) (digest_foreach_loop fuel options key search_list).
Proof.
  induction fuel as [|fuel IH]; intros search_list Hs; cbn [digest_foreach_loop];
    [faithful_steps|].
  destruct search_list as [|master next]; [faithful_steps|].
  apply Forall_cons_1 in Hs as [Hm Hs].
  eapply faithful_bind.
  { apply (faithful_digest_foreach_scan options master next [] 0 []); auto; constructor. }
  intros [[good_list good_count] bad_list] [Hg Hb]. cbn [fst snd] in Hg, Hb.
  apply faithful_bind with (Q := fun _ => True); [|intros _ _; apply IH, Hb].
  destruct (good_count >? 0); [|faithful_steps].
  destruct (opt_set options OPT_DELETE);
    [apply faithful_delete_files; assumption | apply faithful_list_files].
Qed.

Lemma faithful_digest_foreach options key value :
  on_paths paths (search_list_of options value) ->
  faithful paths (fun _ => True) (digest_foreach options key value).
Proof.
  intros Hs. unfold digest_foreach. destruct (nfile value >? 1); [|faithful_steps].
  cbn zeta. apply faithful_digest_foreach_loop, Hs.
Qed.

Lemma faithful_phase_three options table :
  on_paths paths (searched options table) ->
  faithful paths (fun _ => True) (phase_three options table).
Proof.
  induction table as [|[key value] rest IH]; intros Hs; cbn [phase_three]; [faithful_steps|].
  unfold searched in Hs. cbn [map concat snd] in Hs. apply Forall_app in Hs as [Hv Hs].
  apply faithful_bind with (Q := fun _ => True);
    [apply faithful_digest_foreach, Hv | intros _ _; apply IH, Hs].
Qed.

End FaithfulProgram.

(** Phase three runs in a world as on the file system the world shows,
    when the paths of the files searched name entries of their own. *)
Lemma phase_three_on_file_system options table F w :
  shows F (map name (searched options table)) (w_fs w) ->
  own_entries F (map name (searched options table)) ->
  exists events,
    w_trace (snd (phase_three options table w)) = w_trace w ++ events /\
    answers (w_nounlink w) (w_nolink w) F events /\
    shows (replay F events) (map name (searched options table))
          (w_fs (snd (phase_three options table w))).
Proof.
  intros Hs Ho.
  destruct (faithful_phase_three (map name (searched options table)) options table)
    with (F := F) (w := w) as (events & T & _ & _ & A0 & S & _); auto.
  - unfold on_paths. rewrite Forall_forall. intros f Hf. apply in_map, list_elem_of_In, Hf.
  - exists events. auto.
Qed.

(** ** The master of a group *)

Lemma effect_fs_same w w' events : effect [] w w' events -> w_fs w' = w_fs w.
Proof.
  intros E. apply map_eq. intros path. apply (eff_fs _ _ _ _ E).
  intros Hin. inversion Hin.
Qed.

Lemma effect_no_unlink w w' events : effect [] w w' events -> unlink_calls events = [].
Proof.
  intros E. destruct (unlink_calls events) as [|path rest] eqn:Hu; [reflexivity|].
  exfalso. assert (Hin : path ∈ ([] : list string)).
  { apply (eff_unlinks _ _ _ _ E). rewrite Hu. left. }
  inversion Hin.
Qed.

Lemma actions_of_class_master options key class c :
  In c (actions_of_class options key class) -> master_of c = fst class.
Proof.
  destruct class as [master good_list]. unfold actions_of_class.
  destruct (opt_set options OPT_LINK).
  - intros Hin. apply in_map_iff in Hin as (slave & <- & _). reflexivity.
  - destruct good_list as [|g good_list]; [intros []|].
    destruct (opt_set options OPT_DELETE); intros [<-|[]]; reflexivity.
Qed.

(** The classes of all the groups of a table. *)
Lemma phase_actions_master options fs table c :
  In c (phase_actions options fs table) ->
  exists entry class,
    In entry table /\ In class (bucket_classes options fs entry) /\ master_of c = fst class.
Proof.
  unfold phase_actions. intros Hin. apply in_concat in Hin as (calls & Hcalls & Hc).
  apply in_map_iff in Hcalls as (entry & <- & He).
  unfold actions_of in Hc. apply in_concat in Hc as (calls & Hcalls & Hc).
  apply in_map_iff in Hcalls as (class & <- & Hclass).
  exists entry, class. split; [exact He|]. split; [exact Hclass|].
  eapply actions_of_class_master, Hc.
Qed.

(** In a list of classes whose files differ in what [g] makes of them,
    a master is not a duplicate. *)
Lemma master_apart_from_duplicate {B} (g : file_t -> B)
    (cs : list (file_t * list file_t)) class class' d :
  NoDup (map g (concat (map members cs))) ->
  In class cs -> In class' cs -> In d (snd class') -> g (fst class) <> g d.
Proof.
  induction cs as [|[master good_list] cs IH]; [intros _ []|].
  cbn [map concat members fst snd]. rewrite map_app. cbn [map].
  intros Hnd. apply NoDup_app in Hnd as (Hfirst & Hdisj & Hrest).
  apply NoDup_cons in Hfirst as [Hm Hgood].
  assert (Hin : forall c f, In c cs -> In f (members c) ->
                  g f ∈ map g (concat (map members cs))).
  { intros c f Hc Hf. apply list_elem_of_In, in_map, in_concat.
    exists (members c). split; [apply in_map, Hc | exact Hf]. }
  intros [<-|Hc] [<-|Hc'] Hd; cbn [fst snd] in *.
  - intros Heq. apply Hm. rewrite Heq. apply list_elem_of_In, in_map, Hd.
  - intros Heq. apply (Hdisj (g master)); [left|].
    rewrite Heq. apply (Hin class'); [exact Hc' | right; exact Hd].
  - intros Heq. apply (Hdisj (g d)); [right; apply list_elem_of_In, in_map, Hd|].
    rewrite <- Heq. apply (Hin class); [exact Hc | left; reflexivity].
  - apply IH; assumption.
Qed.

(** In a list of classes whose files have distinct paths, the path of a
    master is not the path of a duplicate. *)
Lemma master_not_duplicate (cs : list (file_t * list file_t)) class class' d :
  NoDup (map name (concat (map members cs))) ->
  In class cs -> In class' cs -> In d (snd class') -> name (fst class) <> name d.
Proof. apply master_apart_from_duplicate. Qed.

Lemma table_classes_NoDup options fs table :
  NoDup (table_names table) ->
  NoDup (map name (concat (map members (concat (map (bucket_classes options fs) table))))).
Proof.
  intros Hnd. eapply submseteq_NoDup_l; [|exact Hnd]. clear Hnd.
  induction table as [|entry rest IH]; [reflexivity|].
  unfold table_names. cbn [map concat]. rewrite map_app, concat_app, map_app.
  apply submseteq_app; [|exact IH].
  etransitivity; [|apply search_list_names].
  apply (fmap_submseteq name), classes_members_submseteq.
Qed.

Lemma classes_members_searched options fs table :
  concat (map members (concat (map (bucket_classes options fs) table))) ⊆+
    searched options table.
Proof.
  induction table as [|entry rest IH]; [reflexivity|].
  unfold searched. cbn [map concat]. rewrite map_app, concat_app.
  apply submseteq_app; [|exact IH]. apply classes_members_submseteq.
Qed.

Lemma table_classes_own_files options fs table :
  own_files options table ->
  NoDup (map storage (concat (map members (concat (map (bucket_classes options fs) table))))).
Proof.
  intros Hnd. eapply submseteq_NoDup_l; [|exact Hnd].
  apply (fmap_submseteq storage), classes_members_searched.
Qed.

Section Masters.

Variable options : Z.
Variable P : string -> Prop.
Variable touched : file_t -> list file_t -> list string.

Hypothesis touched_group : forall master l path,
  In path (touched master l) -> In path (map name (master :: l)).

Hypothesis session_effect : forall key master l w,
  every_line P (w_stdin w) ->
  exists events,
    effect (touched master l) w (snd (delete_files key master l w)) events /\
    entered events = [Call_delete_files key master l].

Hypothesis touched_duplicates : forall class path,
  In path (touched_by_class options touched class) -> In path (map name (snd class)).

Lemma masters_kept_when_spared table w :
  table_ok table -> every_line P (w_stdin w) ->
  exists events,
    w_trace (snd (phase_three options table w)) = w_trace w ++ events /\
    forall c, In c (entered events) ->
      ~ In (name (master_of c)) (unlink_calls events) /\
      w_fs (snd (phase_three options table w)) !! name (master_of c) =
        w_fs w !! name (master_of c) /\
      In (master_of c) (searched options table) /\
      (own_files options table ->
       (forall f, In f (searched options table) -> current (w_fs w) f) ->
       forall path i,
         In path (unlink_calls events) -> w_fs w !! path = Some i ->
         identity i <> storage (master_of c)).
Proof.
  intros Hok HP.
  destruct (phase_three_spec options (w_fs w) P touched touched_group session_effect
              table w Hok) as (events & E & En); [reflexivity | exact HP |].
  exists events. split; [apply (eff_trace _ _ _ _ E)|].
  intros c Hc. rewrite En in Hc.
  apply phase_actions_master in Hc as (entry & class & He & Hclass & ->).
  assert (Hclasses : In class (concat (map (bucket_classes options (w_fs w)) table))).
  { apply in_concat. exists (bucket_classes options (w_fs w) entry).
    split; [apply in_map, He | exact Hclass]. }
  assert (Htouched : forall path,
            In path (touched_by_table options (w_fs w) touched table) ->
            exists class' d,
              In class' (concat (map (bucket_classes options (w_fs w)) table)) /\
              In d (snd class') /\ path = name d).
  { intros path Hin. unfold touched_by_table in Hin.
    apply in_concat in Hin as (names & Hn & Hp).
    apply in_map_iff in Hn as (entry' & <- & He').
    unfold touched_by_bucket in Hp. apply in_concat in Hp as (names & Hn & Hp).
    apply in_map_iff in Hn as (class' & <- & Hclass').
    apply touched_duplicates, in_map_iff in Hp as (d & Hd & Hin).
    exists class', d. split; [|auto].
    apply in_concat. exists (bucket_classes options (w_fs w) entry').
    split; [apply in_map, He' | exact Hclass']. }
  assert (Hout : ~ In (name (fst class)) (touched_by_table options (w_fs w) touched table)).
  { intros Hin. apply Htouched in Hin as (class' & d & Hclass' & Hd & Heq).
    destruct Hok as [_ Hnd].
    apply (master_not_duplicate
             (concat (map (bucket_classes options (w_fs w)) table)) class class' d);
      auto using table_classes_NoDup. }
  split; [|split; [|split]].
  - intros Hin. apply Hout, list_elem_of_In, (eff_unlinks _ _ _ _ E), list_elem_of_In, Hin.
  - apply (eff_fs _ _ _ _ E). rewrite list_elem_of_In. exact Hout.
  - eapply submseteq_In; [apply (classes_members_searched options (w_fs w))|].
    apply in_concat. exists (members class).
    split; [apply in_map, Hclasses | left; reflexivity].
  - intros Hown Hcur path i Hin Hi.
    apply list_elem_of_In, (eff_unlinks _ _ _ _ E), list_elem_of_In in Hin.
    apply Htouched in Hin as (class' & d & Hclass' & Hd & ->).
    assert (Hs : In d (searched options table)).
    { eapply submseteq_In; [apply (classes_members_searched options (w_fs w))|].
      apply in_concat. exists (members class').
      split; [apply in_map, Hclass' | right; exact Hd]. }
    destruct (Hcur d Hs) as (i' & Ei & Hid). rewrite Hi in Ei. injection Ei as <-.
    rewrite Hid. apply not_eq_sym.
    apply (master_apart_from_duplicate storage
             (concat (map (bucket_classes options (w_fs w)) table)) class class' d);
      auto using table_classes_own_files.
Qed.

End Masters.

(** What [atoi] makes of a line is the number its digits begin with, after
    white space and a sign, as an [int]: lines that are not the numeral 1
    are read as 1 too. *)
Lemma atoi_reads_1 :
  Forall (fun buf => Libc.atoi buf = 1)
         ["1"; " 1"; "+1"; "01"; "1x"; "1.5"; "1 2"; "4294967297"].
Proof. repeat constructor. Qed.

(** A line of 20 characters and more reaches [delete_files] in pieces of
    19 characters: the 1 at the end of such a line is a line of its own. *)
Lemma long_line_ends_in_1 :
  exists rest,
    Libc.fgets 20 "0000000000000000000001
" = Some ("0000000000000000000", rest) /\
    Libc.fgets 20 rest = Some ("001
", "") /\
    Libc.atoi (Libc.cstr "001
") = 1.
Proof. eexists. repeat split. Qed.

(** Without the hard links option the files searched in a group are files
    of their own: [filter_links] has left one record for each pair of
    device and inode numbers. *)
Lemma own_files_one_group options key value :
  opt_set options OPT_HARDLINKS = false -> own_files options [(key, value)].
Proof.
  intros H. unfold own_files, searched. cbn [map concat snd]. rewrite app_nil_r.
  unfold search_list_of. rewrite H. cbn [negb]. apply filter_links_NoDup.
Qed.

(** C1, as the code has it.  In every call of an action function, in the
    whole of phase three, [unlink] is never called on the path of the
    master given to the call: always when the files are listed or linked,
    and in the interactive deletion whenever [atoi] makes the number 1, the
    number of the master in the listing, of none of the lines [fgets] reads
    into the buffer of 20 characters.  When the records are current and the
    files searched are files of their own, the file of the master is under
    none of the paths given to [unlink], what is unlinked being an entry of
    another file, and the directory entry of the master is the same after
    the phase: in the world, and on every file system the world shows
    through the paths of the files searched, whatever other paths lead to
    its entries; the calls of the phase are answered by that file system as
    the trace has them. *)
Theorem masters_are_kept (options : Z) (table : list (string * file_list_t)) (w : world) :
  table_ok table ->
  (opt_set options OPT_DELETE = false \/ opt_set options OPT_LINK = true \/
   every_line (fun buf => Libc.atoi buf <> 1) (w_stdin w)) ->
  let w' := snd (phase_three options table w) in
  exists events,
    w_trace w' = w_trace w ++ events /\
    forall c, In c (entered events) ->
      ~ In (name (master_of c)) (unlink_calls events) /\
      (own_files options table ->
       (forall f, In f (searched options table) -> current (w_fs w) f) ->
       (forall path i,
          In path (unlink_calls events) -> w_fs w !! path = Some i ->
          identity i <> storage (master_of c)) /\
       w_fs w' !! name (master_of c) = w_fs w !! name (master_of c) /\
       forall F,
         shows F (map name (searched options table)) (w_fs w) ->
         answers (w_nounlink w) (w_nolink w) F events /\
         fs_lookup (replay F events) (name (master_of c)) =
           fs_lookup F (name (master_of c))).
Proof.
  intros Hok Hmode w'. subst w'.
  assert (H : exists events,
            w_trace (snd (phase_three options table w)) = w_trace w ++ events /\
            forall c, In c (entered events) ->
              ~ In (name (master_of c)) (unlink_calls events) /\
              w_fs (snd (phase_three options table w)) !! name (master_of c) =
                w_fs w !! name (master_of c) /\
              In (master_of c) (searched options table) /\
              (own_files options table ->
               (forall f, In f (searched options table) -> current (w_fs w) f) ->
               forall path i,
                 In path (unlink_calls events) -> w_fs w !! path = Some i ->
                 identity i <> storage (master_of c))).
  { destruct Hmode as [Hmode|[Hmode|Hlines]].
    - apply (masters_kept_when_spared options (fun _ => True)
               (fun master l => map name (master :: l))); auto.
      + intros key master l w0 _. apply delete_files_effect.
      + intros [master good_list] path. unfold touched_by_class. rewrite Hmode.
        destruct (opt_set options OPT_LINK); [auto | intros []].
      + apply every_line_True.
    - apply (masters_kept_when_spared options (fun _ => True)
               (fun master l => map name (master :: l))); auto.
      + intros key master l w0 _. apply delete_files_effect.
      + intros [master good_list] path. unfold touched_by_class. rewrite Hmode. auto.
      + apply every_line_True.
    - apply (masters_kept_when_spared options (fun buf => Libc.atoi buf <> 1)
               (fun master l => map name l)); auto.
      + intros master l path Hin. right. exact Hin.
      + intros key master l w0. apply delete_files_spares_master.
      + intros [master good_list] path. unfold touched_by_class.
        destruct (opt_set options OPT_LINK); [auto|].
        destruct (opt_set options OPT_DELETE); [auto | intros []]. }
  destruct H as (events & Ht & H). exists events. split; [exact Ht|].
  intros c Hc. destruct (H c Hc) as (Hu & Hfs & Hin & Hid). split; [exact Hu|].
  intros Hown Hcur. split; [exact (Hid Hown Hcur)|]. split; [exact Hfs|].
  intros F Hs.
  destruct (phase_three_on_file_system options table F w Hs) as (events' & Ht' & Ha & Hs').
  { apply (own_files_own_entries F (searched options table) (w_fs w)); assumption. }
  rewrite Ht in Ht'. apply app_inv_head in Ht'. subst events'.
  split; [exact Ha|].
  rewrite <- (Hs' (name (master_of c))) by (apply in_map, Hin).
  rewrite <- (Hs (name (master_of c))) by (apply in_map, Hin). exact Hfs.
Qed.

Lemma example_table_ok : table_ok [("k", example_bucket)].
Proof.
  split; [repeat constructor|].
  unfold table_names. cbn.
  repeat (apply NoDup_cons; split; [rewrite list_elem_of_In; cbn; intuition discriminate|]).
  apply NoDup_nil. exact I.
Defined.

Lemma example_own_files options : own_files options [("k", example_bucket)].
Proof.
  unfold own_files, searched. cbn [map concat snd]. rewrite app_nil_r.
  apply (NoDup_fmap_2_strong storage).
  - intros a b Ha Hb E.
    assert (Hin : forall f, f ∈ search_list_of options example_bucket ->
                    In f (files example_bucket)).
    { intros f Hf. eapply submseteq_In; [apply search_list_submseteq|].
      apply list_elem_of_In, Hf. }
    apply Hin in Ha, Hb. cbn in Ha, Hb.
    destruct Ha as [<-|[<-|[<-|[]]]], Hb as [<-|[<-|[<-|[]]]];
      first [reflexivity | discriminate E].
  - eapply submseteq_NoDup_l; [apply search_list_submseteq|].
    cbn. repeat (apply NoDup_cons; split; [rewrite list_elem_of_In; cbn; intuition discriminate|]).
    apply NoDup_nil. exact I.
Defined.

Lemma example_current options input f :
  In f (searched options [("k", example_bucket)]) -> current (w_fs (example_world input)) f.
Proof.
  intros Hf. unfold searched in Hf. cbn [map concat snd] in Hf. rewrite app_nil_r in Hf.
  assert (Hin : In f (files example_bucket))
    by (eapply submseteq_In; [apply search_list_submseteq | exact Hf]).
  cbn in Hin. destruct Hin as [<-|[<-|[<-|[]]]]; eexists; split; reflexivity.
Defined.

(** The file system of the example, in which [./b] is another path to the
    entry of [b]. *)
Lemma example_shows options input :
  shows {| fs_entries := w_fs (example_world input);
           fs_entry := fun path => if String.eqb path "./b" then "b" else path |}
        (map name (searched options [("k", example_bucket)]))
        (w_fs (example_world input)).
Proof.
  intros path Hp. apply in_map_iff in Hp as (f & <- & Hf).
  unfold searched in Hf. cbn [map concat snd] in Hf. rewrite app_nil_r in Hf.
  assert (Hin : In f (files example_bucket))
    by (eapply submseteq_In; [apply search_list_submseteq | exact Hf]).
  cbn in Hin. destruct Hin as [<-|[<-|[<-|[]]]]; reflexivity.
Defined.

Lemma masters_are_kept_witness :
  table_ok [("k", example_bucket)] /\
  every_line (fun buf => Libc.atoi buf <> 1) "3
go
" /\
  let w := example_world "3
go
" in
  let F := {| fs_entries := w_fs w;
              fs_entry := fun path => if String.eqb path "./b" then "b" else path |} in
  let w' := snd (phase_three OPT_DELETE [("k", example_bucket)] w) in
  exists events,
    w_trace w' = [] ++ events /\
    forall c, In c (entered events) ->
      ~ In (name (master_of c)) (unlink_calls events) /\
      (forall path i,
         In path (unlink_calls events) -> w_fs w !! path = Some i ->
         identity i <> storage (master_of c)) /\
      w_fs w' !! name (master_of c) = w_fs w !! name (master_of c) /\
      answers ∅ ∅ F events /\
      fs_lookup (replay F events) (name (master_of c)) = fs_lookup F (name (master_of c)).
Proof.
  assert (Hlines : every_line (fun buf => Libc.atoi buf <> 1) "3
go
").
  { eapply every_line_next; [reflexivity | discriminate |].
    eapply every_line_next; [reflexivity | discriminate |].
    apply every_line_eof. }
  split; [exact example_table_ok|]. split; [exact Hlines|]. intros w F w'.
  destruct (masters_are_kept OPT_DELETE [("k", example_bucket)] w
              example_table_ok (or_intror (or_intror Hlines))) as (events & Ht & H).
  exists events. split; [exact Ht|]. intros c Hc. destruct (H c Hc) as (Hu & Hrest).
  split; [exact Hu|].
  destruct (Hrest (example_own_files OPT_DELETE) (example_current OPT_DELETE _))
    as (Hid & Hfs & HF).
  split; [exact Hid|]. split; [exact Hfs|].
  exact (HF F (example_shows OPT_DELETE _)).
Defined.

(** C1 as stated fails: the operator types 1, which toggles the master of
    the group, then the go-ahead; the master is unlinked with its
    duplicate. *)
Lemma toggled_master_is_unlinked :
  let w' := snd (phase_three OPT_DELETE [("k", example_bucket)] (example_world "1
go
")) in
  In (Call_delete_files "k" (example_file "a" 1 0 1) [example_file "b" 1 0 2])
     (entered (w_trace w')) /\
  In (SysUnlink "a" true) (w_trace w') /\
  w_fs w' !! "a" = None.
Proof. vm_compute. intuition. Qed.

(** With the hard links option two paths to one directory entry can be in
    a group, and the master is then lost in link mode too: [./a] and [a]
    are two paths to the entry [a].  The program opens both, finds them
    the same and unlinks [a]; up to there the calls are answered by the
    file system as the trace has them, and after them the path of the
    master names no entry. *)
Lemma second_spelling_loses_master :
  let i := example_inode 1 "xyz" in
  let F := {| fs_entries := {[ "a" := i ]};
              fs_entry := fun path => if String.eqb path "./a" then "a" else path |} in
  let w := {| w_fs := {[ "./a" := i; "a" := i ]}; w_nounlink := ∅; w_nolink := ∅;
              w_stdin := ""; w_trace := [] |} in
  let master := example_file "./a" 1 0 1 in
  let slave := example_file "a" 1 0 1 in
  let table := [("k", {| nfile := 2; files := [master; slave] |})] in
  let calls := [SysOpen "./a" true; SysOpen "a" true; Enter (Call_link_pair master slave);
                SysUnlink "a" true] in
  shows F ["./a"; "a"] (w_fs w) /\
  (exists rest,
     w_trace (snd (phase_three (Z.lor OPT_LINK OPT_HARDLINKS) table w)) = calls ++ rest) /\
  answers ∅ ∅ F calls /\
  fs_lookup F "./a" = Some i /\
  fs_lookup (replay F calls) "./a" = None.
Proof.
  intros i F w master slave table calls. split; [|split; [|split; [|split]]].
  - intros path [<-|[<-|[]]]; reflexivity.
  - eexists. vm_compute. reflexivity.
  - repeat split.
  - reflexivity.
  - reflexivity.
Qed.

(** ** End of input in the interactive session *)

Lemma delete_files_eof digest master l w :
  every_line (fun buf => go_ahead buf = false) (w_stdin w) ->
  exists events,
    w_trace (snd (delete_files digest master l w)) =
      w_trace w ++
      [Enter (Call_delete_files digest master l)] ++ events ++
      [Stdout "*** EOF *** no action taken\n" []] /\
    w_stdin (snd (delete_files digest master l w)) = "".
Proof.
  intros Hlines. unfold delete_files. rewrite bind_run, emit_logged. cbn [fst snd].
  destruct (delete_files_loop_eof
              (S (String.length (w_stdin (logged w [Enter (Call_delete_files digest master l)]))))
              digest (initial_delete_list master l) true
              (logged w [Enter (Call_delete_files digest master l)]))
    as (events & Ht & Hs); [lia | exact Hlines |].
  exists events. split; [|exact Hs].
  rewrite Ht. cbn [logged w_trace]. rewrite <- !app_assoc. reflexivity.
Qed.

(** C8.  When the end of the input comes before any line with the
    go-ahead, a session of [delete_files] says so and returns: [unlink] was
    not called and no directory entry has changed.  The groups that follow
    are taken up all the same: in delete mode the whole of phase three
    enters [delete_files] for every class with duplicates of every group of
    the table, and leaves the file system as it was. *)
Theorem end_of_input_aborts_group (options : Z) (table : list (string * file_list_t))
    (w : world) :
  every_line (fun buf => go_ahead buf = false) (w_stdin w) ->
  (forall digest master l,
     let w' := snd (delete_files digest master l w) in
     w_fs w' = w_fs w /\
     exists events,
       w_trace w' =
         w_trace w ++
         [Enter (Call_delete_files digest master l)] ++ events ++
         [Stdout "*** EOF *** no action taken\n" []] /\
       unlink_calls events = []) /\
  (opt_set options OPT_DELETE = true -> opt_set options OPT_LINK = false ->
   table_ok table ->
   let w' := snd (phase_three options table w) in
   w_fs w' = w_fs w /\
   exists events,
     w_trace w' = w_trace w ++ events /\
     unlink_calls events = [] /\
     entered events = phase_actions options (w_fs w) table).
Proof.
  intros Hlines. split.
  - intros digest master l w'. subst w'.
    destruct (delete_files_no_go_ahead digest master l w Hlines) as (events & E & _).
    destruct (delete_files_eof digest master l w Hlines) as (middle & Ht & _).
    split; [apply (effect_fs_same _ _ _ E)|].
    exists middle. split; [exact Ht|].
    pose proof (effect_no_unlink _ _ _ E) as Hu.
    pose proof (eff_trace _ _ _ _ E) as Ht'. rewrite Ht in Ht'.
    apply app_inv_head in Ht'. rewrite <- Ht' in Hu.
    rewrite !unlink_calls_app in Hu. cbn [unlink_calls omap] in Hu.
    apply app_eq_nil in Hu as [_ Hu]. apply app_eq_nil in Hu as [Hu _]. exact Hu.
  - intros Hdel Hlink Hok w'. subst w'.
    destruct (phase_three_spec options (w_fs w) (fun buf => go_ahead buf = false)
                (fun _ _ => [])) with (table := table) (w := w)
      as (events & E & En); auto.
    + intros master l path [].
    + intros key master l w0. apply delete_files_no_go_ahead.
    + assert (Hnames : forall path,
                path ∈ touched_by_table options (w_fs w) (fun _ _ => []) table ->
                path ∈ ([] : list string)).
      { intros path Hin. exfalso. apply list_elem_of_In in Hin.
        unfold touched_by_table in Hin. apply in_concat in Hin as (names & Hn & Hp).
        apply in_map_iff in Hn as (entry & <- & _).
        unfold touched_by_bucket in Hp. apply in_concat in Hp as (names & Hn & Hp).
        apply in_map_iff in Hn as ([master good_list] & <- & _).
        unfold touched_by_class in Hp. rewrite Hlink, Hdel in Hp. exact Hp. }
      pose proof (effect_weaken _ _ _ _ _ Hnames E) as E'.
      split; [apply (effect_fs_same _ _ _ E')|].
      exists events. split; [apply (eff_trace _ _ _ _ E)|].
      split; [apply (effect_no_unlink _ _ _ E') | exact En].
Qed.

Lemma end_of_input_aborts_group_witness :
  every_line (fun buf => go_ahead buf = false) "2
" /\
  opt_set OPT_DELETE OPT_DELETE = true /\ opt_set OPT_DELETE OPT_LINK = false /\
  table_ok [("k", example_bucket)] /\
  let w' := snd (phase_three OPT_DELETE [("k", example_bucket)] (example_world "2
")) in
  w_fs w' = w_fs (example_world "2
") /\
  exists events,
    w_trace w' = [] ++ events /\
    unlink_calls events = [] /\
    entered events = [Call_delete_files "k" (example_file "a" 1 0 1) [example_file "b" 1 0 2]].
Proof.
  assert (Hlines : every_line (fun buf => go_ahead buf = false) "2
").
  { eapply every_line_next; [reflexivity | reflexivity | apply every_line_eof]. }
  split; [exact Hlines|]. split; [reflexivity|]. split; [reflexivity|].
  split; [exact example_table_ok|].
  exact (proj2 (end_of_input_aborts_group OPT_DELETE [("k", example_bucket)]
                  (example_world "2
") Hlines) eq_refl eq_refl example_table_ok).
Defined.

(** ** The command line *)

Lemma land_delete_link options :
  Z.testbit options 8 = true -> Z.testbit options 9 = true ->
  Z.land options (Z.lor OPT_DELETE OPT_LINK) = Z.lor OPT_DELETE OPT_LINK.
Proof.
  intros H8 H9. change (Z.lor OPT_DELETE OPT_LINK) with (Z.shiftl 3 8).
  apply Z.bits_inj'. intros n Hn. rewrite Z.land_spec.
  destruct (Z.eq_dec n 8) as [->|N8]; [rewrite H8; reflexivity|].
  destruct (Z.eq_dec n 9) as [->|N9]; [rewrite H9; reflexivity|].
  assert (H : Z.testbit (Z.shiftl 3 8) n = false).
  { rewrite Z.shiftl_spec by lia. destruct (Z.ltb_spec n 8).
    - apply Z.testbit_neg_r. lia.
    - apply Z.bits_above_log2; [lia|]. change (Z.log2 3) with 1. lia. }
  rewrite H. apply andb_false_r.
Qed.


(** ** The resolver finds the partition by contents *)

Lemma Permutation_concat_map {A B} (f : A -> list B) (l1 l2 : list A) :
  Permutation l1 l2 -> Permutation (concat (map f l1)) (concat (map f l2)).
Proof.
  induction 1 as [|x l1 l2 _ IH|x y l|l1 l2 l3 _ IH1 _ IH2]; cbn [map concat].
  - constructor.
  - apply Permutation_app_head, IH.
  - rewrite !app_assoc. apply Permutation_app_tail, Permutation_app_comm.
  - etransitivity; eassumption.
Qed.

Lemma table_ok_perm table table' : Permutation table table' -> table_ok table -> table_ok table'.
Proof.
  intros Hp [Hn Hnd]. split.
  - rewrite Forall_forall in *. intros entry He. apply Hn. rewrite Hp. exact He.
  - unfold table_names in *. rewrite <- (Permutation_concat_map _ _ _ Hp). exact Hnd.
Qed.

Lemma phase_three_actions options table w :
  table_ok table ->
  exists events,
    w_trace (snd (phase_three options table w)) = w_trace w ++ events /\
    entered events = phase_actions options (w_fs w) table.
Proof.
  intros Hok.
  destruct (phase_three_spec options (w_fs w) (fun _ => True)
              (fun master l => map name (master :: l))) with (table := table) (w := w)
    as (events & E & En); auto.
  - intros key master l w0 _. apply delete_files_effect.
  - apply every_line_True.
  - exists events. split; [apply (eff_trace _ _ _ _ E) | exact En].
Qed.

(** C2.  Phase three on a table of groups with distinct paths.  The action
    functions are entered exactly for the classes of the files searched in
    each group, computed from the contents the files have when the phase
    starts.  In each group the classes are a partition of the files
    searched, and two different files are in one class, which then has
    duplicates and is acted on, exactly when [compare_files] finds them the
    same; for regular files read without error that is when they hold the
    same bytes, and files of any kind found the same were read to the same
    bytes.  The classes do not depend on the order of the groups in
    the table nor on the order of the files in a group. *)
Theorem resolver_partitions (options : Z) (table : list (string * file_list_t)) (w : world) :
  table_ok table ->
  let same := same_files (w_fs w) in
  (exists events,
     w_trace (snd (phase_three options table w)) = w_trace w ++ events /\
     entered events = phase_actions options (w_fs w) table) /\
  (forall entry, In entry table ->
     let searched := search_list_of options (snd entry) in
     let found := bucket_classes options (w_fs w) entry in
     Permutation (concat (map members found)) searched /\
     forall a b, In a searched -> In b searched -> a <> b ->
       ((exists class,
           In class found /\ snd class <> [] /\
           In a (members class) /\ In b (members class)) <->
        same a b = true)) /\
  (forall a b bytes_a bytes_b,
     holds (w_fs w) (name a) bytes_a -> holds (w_fs w) (name b) bytes_b ->
     (same a b = true <-> bytes_a = bytes_b)) /\
  (forall a b fd_a fd_b,
     opened (w_fs w) (name a) = Some fd_a -> opened (w_fs w) (name b) = Some fd_b ->
     same a b = true -> contents fd_a = contents fd_b) /\
  (forall table', Permutation table table' ->
     exists events',
       w_trace (snd (phase_three options table' w)) = w_trace w ++ events' /\
       Permutation (entered events') (phase_actions options (w_fs w) table)) /\
  (forall entry files', In entry table ->
     Forall sortable (files (snd entry)) ->
     Permutation (files (snd entry)) files' ->
     search_list_of options {| nfile := nfile (snd entry); files := files' |} =
       search_list_of options (snd entry)).
Proof.
  intros Hok same. split; [|split; [|split; [|split; [|split]]]].
  - apply phase_three_actions, Hok.
  - intros entry He searched found. split.
    + apply classes_members_perm.
    + intros a b Ha Hb Hne. split.
      * intros (class & Hc & _ & Hca & Hcb).
        eapply (classes_sound same (same_files_sym _) (same_files_trans _)); eassumption.
      * intros Hsame.
        destruct (classes_complete same (same_files_sym _) (same_files_trans _)
                    searched a b Ha Hb Hsame) as (class & Hc & Hca & Hcb).
        exists class. split; [exact Hc|]. split; [|auto].
        intros Hnil. unfold members in Hca, Hcb. rewrite Hnil in Hca, Hcb.
        destruct Hca as [<-|[]], Hcb as [<-|[]]. contradiction.
  - intros a b bytes_a bytes_b Ha Hb. apply same_contents_bytes; assumption.
  - intros a b fd_a fd_b Oa Ob. unfold same, same_files, same_contents. rewrite Oa, Ob.
    apply equal_streams_contents.
  - intros table' Hp.
    destruct (phase_three_actions options table' w (table_ok_perm _ _ Hp Hok))
      as (events' & Ht & En).
    exists events'. split; [exact Ht|]. rewrite En. unfold phase_actions.
    apply Permutation_sym, Permutation_concat_map, Hp.
  - intros entry files' He Hs Hp. unfold search_list_of. cbn [files].
    destruct Hok as [_ Hnd].
    assert (Hnames : NoDup (map name (files (snd entry)))).
    { eapply submseteq_NoDup_l; [|exact Hnd]. unfold table_names.
      apply sublist_submseteq. clear - He.
      induction table as [|x rest IH]; [destruct He|]. cbn [map concat].
      destruct He as [->|He].
      - apply sublist_inserts_r. reflexivity.
      - apply sublist_inserts_l, IH, He. }
    rewrite <- (g_list_sort_files_perm _ _ Hs Hnames Hp). reflexivity.
Qed.

Lemma resolver_partitions_witness :
  table_ok [("k", example_bucket)] /\
  exists events,
    w_trace (snd (phase_three 0 [("k", example_bucket)] (example_world ""))) = [] ++ events /\
    entered events = [Call_list_files (example_file "a" 1 0 1) [example_file "b" 1 0 2]].
Proof.
  split; [exact example_table_ok|].
  exact (proj1 (resolver_partitions 0 [("k", example_bucket)] (example_world "")
                  example_table_ok)).
Defined.

(** ** The bounds on the two loops are enough *)

(** More rounds than the input has characters change nothing: the loop of
    [delete_files] ends by itself, at the go-ahead or at the end of the
    input. *)
Lemma delete_files_loop_fuel fuel : forall extra digest delete_list print_list w,
  (String.length (w_stdin w) < fuel)%nat ->
  delete_files_loop (fuel + extra) digest delete_list print_list w =
    delete_files_loop fuel digest delete_list print_list w.
Proof.
  induction fuel as [|fuel IH]; intros extra digest delete_list print_list w Hlen; [lia|].
  change (S fuel + extra)%nat with (S (fuel + extra)). cbn [delete_files_loop].
  destruct (delete_files_prompt_logged digest delete_list print_list w)
    as (e0 & Hprompt & _ & _).
  rewrite bind_run in Hprompt. rewrite !bind_run, Hprompt. cbn [fst snd].
  pose proof (sys_fgets_spec (logged w e0)) as Hf. cbn [logged w_stdin] in Hf.
  destruct (Libc.fgets 20 (w_stdin w)) as [[buf rest]|] eqn:E.
  - destruct Hf as (-> & _ & Hrest).
    set (w2 := snd (sys_fgets 20 (logged w e0))) in *.
    pose proof (fgets_shorter _ _ _ E) as Hshort.
    destruct (Libc.strncmp (Libc.cstr buf) "go" 2 =? 0); [reflexivity|].
    destruct (Libc.atoi (Libc.cstr buf) >? 0).
    + destruct (GLib.g_list_nth_data delete_list (Libc.atoi (Libc.cstr buf) - 1)).
      * apply IH. rewrite Hrest. lia.
      * rewrite !bind_run, !printf_logged. cbn [fst snd]. apply IH.
        cbn [logged w_stdin]. rewrite Hrest. lia.
    + rewrite !bind_run, !printf_logged. cbn [fst snd]. apply IH.
      cbn [logged w_stdin]. rewrite Hrest. lia.
  - destruct Hf as (-> & _). reflexivity.
Qed.

Lemma digest_foreach_scan_length options master search_list :
  forall good_list good_count bad_list w,
  (length (snd (fst (digest_foreach_scan options master search_list
                        good_list good_count bad_list w)))
   <= length bad_list + length search_list)%nat.
Proof.
  induction search_list as [|data next IH]; intros good_list good_count bad_list w.
  - cbn. lia.
  - cbn [digest_foreach_scan]. rewrite bind_run.
    destruct (negb (fst (compare_files master data w) =? 0)).
    + destruct (opt_set options OPT_LINK).
      * rewrite bind_run. etransitivity; [apply IH|]. simpl. lia.
      * etransitivity; [apply IH|]. simpl. lia.
    + etransitivity; [apply IH|]. unfold GLib.g_list_append. rewrite length_app. simpl. lia.
Qed.

(** More rounds than the list searched has files change nothing: the loop
    of [digest_foreach] ends when the list is used up. *)
Lemma digest_foreach_loop_fuel fuel : forall extra options key search_list w,
  (length search_list <= fuel)%nat ->
  digest_foreach_loop (fuel + extra) options key search_list w =
    digest_foreach_loop fuel options key search_list w.
Proof.
  induction fuel as [|fuel IH]; intros extra options key search_list w Hlen.
  - destruct search_list; [|simpl in Hlen; lia]. destruct extra; reflexivity.
  - change (S fuel + extra)%nat with (S (fuel + extra)). cbn [digest_foreach_loop].
    destruct search_list as [|master next]; [reflexivity|].
    rewrite !(bind_run _ _ w).
    pose proof (digest_foreach_scan_length options master next [] 0 [] w) as Hbad.
    destruct (digest_foreach_scan options master next [] 0 [] w)
      as [[[good_list good_count] bad_list] w1].
    cbn [fst snd] in *. rewrite !bind_run. apply IH. simpl in Hlen, Hbad. lia.
Qed.

(** ** The table phase two builds *)

Lemma table_names_perm table table' :
  Permutation table table' -> Permutation (table_names table) (table_names table').
Proof. apply Permutation_concat_map. Qed.

Lemma table_built_skip table done value :
  table_built table done -> table_built table (done ++ [value]).
Proof.
  intros [Hn Hs]. split; [exact Hn|]. rewrite map_app. apply submseteq_inserts_r, Hs.
Qed.

Lemma table_built_enter table done key value :
  table_built table done ->
  table_built
    (match table !! key with
     | Some file_list =>
         <[key := {| nfile := nfile file_list + 1;
                     files := GLib.g_list_append (files file_list) value |}]> table
     | None => <[key := {| nfile := 1; files := GLib.g_list_append [] value |}]> table
     end)
    (done ++ [value]).
Proof.
  intros [Hn Hs]. destruct (table !! key) as [file_list|] eqn:Hk.
  - split.
    + intros key' value'. rewrite lookup_insert. destruct (decide (key = key')) as [<-|Hne].
      * intros [= <-]. cbn [nfile files]. unfold GLib.g_list_append.
        rewrite length_app, (Hn key file_list Hk). cbn [length]. lia.
      * apply Hn.
    + rewrite <- insert_delete_eq.
      rewrite (table_names_perm _ _ (map_to_list_insert _ _ _ (lookup_delete_eq table key))).
      rewrite <- (table_names_perm _ _ (map_to_list_delete _ _ _ Hk)) in Hs.
      unfold table_names in *. cbn [map concat snd files] in *.
      unfold GLib.g_list_append. rewrite !map_app. cbn [map].
      rewrite <- app_assoc.
      rewrite (Permutation_app_comm [name value]), app_assoc.
      apply submseteq_app; [exact Hs | reflexivity].
  - split.
    + intros key' value'. rewrite lookup_insert. destruct (decide (key = key')) as [<-|Hne].
      * intros [= <-]. reflexivity.
      * apply Hn.
    + rewrite (table_names_perm _ _ (map_to_list_insert _ _ _ Hk)).
      unfold table_names in *. cbn [map concat snd files app].
      rewrite map_app. cbn [map].
      rewrite (Permutation_app_comm (map name done)). cbn [app].
      apply submseteq_skip, Hs.
Qed.

Lemma file_foreach_table_built md5_hex key value fdata w done :
  table_built (hash fdata) done ->
  fst (fst (file_foreach md5_hex key value fdata w)) = false /\
  table_built (hash (snd (fst (file_foreach md5_hex key value fdata w)))) (done ++ [value]).
Proof.
  intros Hb. unfold file_foreach. rewrite bind_run.
  destruct (fst (sys_open key w)) as [fd|].
  - unfold g_checksum_get_string, ret. cbn [fst snd hash]. split; [reflexivity|].
    apply table_built_enter, Hb.
  - rewrite bind_run. unfold ret. cbn [fst snd]. split; [reflexivity|].
    apply table_built_skip, Hb.
Qed.

Lemma phase_two_table_built md5_hex file_tree : forall fdata w done,
  table_built (hash fdata) done ->
  table_built (hash (fst (phase_two md5_hex file_tree fdata w))) (done ++ file_tree).
Proof.
  induction file_tree as [|value rest IH]; intros fdata w done Hb.
  - cbn. rewrite app_nil_r. exact Hb.
  - cbn [phase_two]. rewrite bind_run.
    destruct (file_foreach_table_built md5_hex (name value) value fdata w done Hb)
      as [Hstop Hb'].
    destruct (file_foreach md5_hex (name value) value fdata w) as [[stop fdata'] w'].
    cbn [fst snd] in *. subst stop.
    replace (done ++ value :: rest) with ((done ++ [value]) ++ rest)
      by (rewrite <- app_assoc; reflexivity).
    apply IH, Hb'.
Qed.

(** The table phase three gets from phase two, for a tree of files with
    distinct paths, is as the properties of phase three want it. *)
Lemma phase_two_table_ok md5_hex file_tree w :
  NoDup (map name file_tree) ->
  table_ok
    (map_to_list (hash (fst (phase_two md5_hex file_tree {| hash := ∅; digest := [] |} w)))).
Proof.
  intros Hnd.
  destruct (phase_two_table_built md5_hex file_tree {| hash := ∅; digest := [] |} w [])
    as [Hn Hs].
  { split; cbn [hash]; [intros key value; rewrite lookup_empty; discriminate|].
    rewrite map_to_list_empty. reflexivity. }
  split.
  - apply Forall_forall. intros [key value] Hin. cbn [snd].
    apply (Hn key), elem_of_map_to_list, Hin.
  - eapply submseteq_NoDup_l; [exact Hs | exact Hnd].
Qed.

(** * More of the program: the three phases end to end *)

(** ** The order of [strcmp] *)

Lemma strcmp_refl s : Libc.strcmp s s = 0.
Proof. induction s as [|c r IH]; simpl; [reflexivity|]. rewrite Ascii.eqb_refl. exact IH. Qed.

Lemma strcmp_opp s1 : forall s2, Libc.strcmp s2 s1 = - Libc.strcmp s1 s2.
Proof.
  induction s1 as [|c1 r1 IH]; intros [|c2 r2]; simpl; try lia.
  rewrite (Ascii.eqb_sym c2 c1). destruct (Ascii.eqb c1 c2); [apply IH | lia].
Qed.

Lemma strcmp_eq s1 s2 :
  Libc.is_cstring s1 = true -> Libc.is_cstring s2 = true ->
  Libc.strcmp s1 s2 = 0 -> s1 = s2.
Proof.
  intros H1 H2 E. apply String.compare_eq_iff.
  rewrite <- (strcmp_compare s1 s2 H1 H2), E. reflexivity.
Qed.

Lemma strcmp_lt_trans s1 s2 s3 :
  Libc.is_cstring s1 = true -> Libc.is_cstring s2 = true -> Libc.is_cstring s3 = true ->
  Libc.strcmp s1 s2 < 0 -> Libc.strcmp s2 s3 < 0 -> Libc.strcmp s1 s3 < 0.
Proof.
  intros H1 H2 H3 L12 L23.
  unfold Z.lt in *.
  rewrite strcmp_compare in L12, L23 by assumption.
  rewrite (strcmp_compare s1 s3 H1 H3).
  pose proof OrdersEx.String_as_OT.lt_strorder as [_ T]. exact (T s1 s2 s3 L12 L23).
Qed.

(** ** Lookup and insertion in a tree *)

Section Tree.

Context {V : Type}.

Implicit Types (tree : GTree.t V) (key : string) (value : V).

Lemma tree_ok_nil : tree_ok (@GTree.g_tree_new V).
Proof. split; constructor. Qed.

Lemma tree_ok_inv k v tree :
  tree_ok ((k, v) :: tree) ->
  tree_ok tree /\ Libc.is_cstring k = true /\
  forall entry, In entry tree ->
    Libc.strcmp k (fst entry) < 0 /\ Libc.is_cstring (fst entry) = true.
Proof.
  intros [Hs Hc]. apply StronglySorted_inv in Hs as [Hs Hlt].
  apply Forall_cons_1 in Hc as [Hk Hc]. split; [split; assumption|]. split; [exact Hk|].
  intros entry He. rewrite Forall_forall in Hlt, Hc. split.
  - apply Hlt, list_elem_of_In, He.
  - apply Hc, list_elem_of_In, He.
Qed.

Lemma g_tree_lookup_In tree key value :
  tree_ok tree -> Libc.is_cstring key = true ->
  (GTree.g_tree_lookup tree key = Some value <-> In (key, value) tree).
Proof.
  intros Hok Hkey. induction tree as [|[k v] rest IH]; simpl.
  - split; [discriminate | intros []].
  - apply tree_ok_inv in Hok as (Hrest & Hk & Hlt).
    destruct (Z.eqb_spec (Libc.strcmp key k) 0) as [E|E].
    + apply strcmp_eq in E; [|assumption..]. subst k. split.
      * intros [= ->]. left. reflexivity.
      * intros [[= ->]|Hin]; [reflexivity|].
        apply Hlt in Hin as [Hin _]. simpl in Hin. rewrite strcmp_refl in Hin. lia.
    + destruct (Z.ltb_spec (Libc.strcmp key k) 0) as [L|L].
      * split; [discriminate|]. intros [[= -> ->]|Hin].
        -- rewrite strcmp_refl in E. contradiction.
        -- apply Hlt in Hin as [Hin _]. simpl in Hin.
           rewrite (strcmp_opp key k) in Hin. lia.
      * rewrite (IH Hrest). split; [auto|]. intros [[= -> ->]|Hin]; [|exact Hin].
        rewrite strcmp_refl in E. contradiction.
Qed.

Lemma g_tree_lookup_None tree key :
  tree_ok tree -> Libc.is_cstring key = true ->
  (GTree.g_tree_lookup tree key = None <-> ~ In key (map fst tree)).
Proof.
  intros Hok Hkey. split.
  - intros Hn Hin. apply in_map_iff in Hin as ([k v] & <- & Hin).
    apply (g_tree_lookup_In tree k v Hok Hkey) in Hin. simpl in Hn. congruence.
  - intros Hn. destruct (GTree.g_tree_lookup tree key) as [v|] eqn:E; [|reflexivity].
    exfalso. apply Hn. apply (g_tree_lookup_In tree key v Hok Hkey) in E.
    apply in_map_iff. exists (key, v). auto.
Qed.

Lemma g_tree_insert_In tree key value :
  tree_ok tree -> Libc.is_cstring key = true ->
  GTree.g_tree_lookup tree key = None ->
  forall entry, In entry (GTree.g_tree_insert tree key value) <->
                entry = (key, value) \/ In entry tree.
Proof.
  intros Hok Hkey. induction tree as [|[k v] rest IH]; simpl; intros Hn entry.
  - split; [intros [<-|[]]; auto | intros [->|[]]; auto].
  - apply tree_ok_inv in Hok as (Hrest & Hk & Hlt).
    destruct (Z.eqb_spec (Libc.strcmp key k) 0) as [E|E]; [discriminate|].
    destruct (Z.ltb_spec (Libc.strcmp key k) 0) as [L|L]; simpl.
    + split; [intros [<-|H]; auto | intros [->|H]; auto].
    + rewrite (IH Hrest Hn). tauto.
Qed.

Lemma g_tree_insert_ok tree key value :
  tree_ok tree -> Libc.is_cstring key = true ->
  GTree.g_tree_lookup tree key = None ->
  tree_ok (GTree.g_tree_insert tree key value).
Proof.
  intros Hok Hkey. induction tree as [|[k v] rest IH]; simpl; intros Hn.
  - split; repeat constructor. exact Hkey.
  - pose proof Hok as Hok0. apply tree_ok_inv in Hok as (Hrest & Hk & Hlt).
    destruct (Z.eqb_spec (Libc.strcmp key k) 0) as [E|E]; [discriminate|].
    destruct (Z.ltb_spec (Libc.strcmp key k) 0) as [L|L].
    + destruct Hok0 as [Hs Hc]. split.
      * constructor; [exact Hs|]. apply Forall_forall. intros entry He.
        apply list_elem_of_In in He. destruct He as [<-|He]; [exact L|].
        apply Hlt in He as [He Hce]. simpl.
        apply (strcmp_lt_trans key k (fst entry)); assumption.
      * constructor; assumption.
    + specialize (IH Hrest Hn). destruct IH as [Hs Hc]. split.
      * constructor; [exact Hs|]. apply Forall_forall. intros entry He.
        apply list_elem_of_In in He.
        apply (g_tree_insert_In rest key value Hrest Hkey Hn) in He as [->|He].
        -- simpl. rewrite (strcmp_opp key k). lia.
        -- apply Hlt, He.
      * constructor; assumption.
Qed.

Lemma tree_ok_NoDup tree : tree_ok tree -> NoDup (map fst tree).
Proof.
  induction tree as [|[k v] rest IH]; intros Hok; simpl; [constructor|].
  apply tree_ok_inv in Hok as (Hrest & Hk & Hlt). constructor; [|apply IH, Hrest].
  rewrite list_elem_of_In. intros Hin. apply in_map_iff in Hin as (entry & E & Hin).
  apply Hlt in Hin as [Hin _]. rewrite E, strcmp_refl in Hin. lia.
Qed.

End Tree.

(** ** Phase one: what [do_fsobj] does to the world and the status it
       returns *)

Lemma to_int_range z : -2147483648 <= CInt.to_int z < 2147483648.
Proof. unfold CInt.to_int. pose proof (Z.mod_pos_bound (z + 2147483648) 4294967296). lia. Qed.

Lemma to_int_add_l a b : CInt.to_int (CInt.to_int a + b) = CInt.to_int (a + b).
Proof.
  unfold CInt.to_int. f_equal.
  replace ((a + 2147483648) mod 4294967296 - 2147483648 + b + 2147483648)
    with ((a + 2147483648) mod 4294967296 + b) by lia.
  rewrite Zplus_mod_idemp_l. f_equal. lia.
Qed.

Lemma to_int_add_r a b : CInt.to_int (a + CInt.to_int b) = CInt.to_int (a + b).
Proof. rewrite Z.add_comm, to_int_add_l. f_equal. lia. Qed.

Lemma to_int_idem z : CInt.to_int (CInt.to_int z) = CInt.to_int z.
Proof. apply to_int_small, to_int_range. Qed.

Lemma failures_app e1 e2 : failures (e1 ++ e2) = failures e1 + failures e2.
Proof. unfold failures. rewrite List.filter_app, length_app. lia. Qed.

Lemma writes_ret {A} (a : A) : writes (ret a) a [].
Proof. intros w. unfold ret. rewrite logged_nil. reflexivity. Qed.

Lemma writes_bind {A B} (m : M A) (k : A -> M B) a e1 b e2 :
  writes m a e1 -> writes (k a) b e2 -> writes (bind m k) b (e1 ++ e2).
Proof.
  intros H1 H2 w. rewrite bind_run, H1. cbn [fst snd]. rewrite H2, logged_app. reflexivity.
Qed.

Lemma writes_warning format args : writes (g_warning format args) tt [GLog LevelWarning format args].
Proof. intros w. apply g_warning_logged. Qed.

Lemma counts_ret status file_tree :
  CInt.to_int status = status -> counts status (ret (status, file_tree)).
Proof.
  intros Hs. exists status, file_tree, []. split; [apply writes_ret|]. split; [reflexivity|].
  unfold failures. simpl. rewrite Z.add_0_r. symmetry. exact Hs.
Qed.

Lemma counts_warning format args status file_tree :
  status = (if is_failure (GLog LevelWarning format args) then 1 else 0) ->
  counts 0 (g_warning format args ;; ret (status, file_tree)).
Proof.
  intros ->. exists (if is_failure (GLog LevelWarning format args) then 1 else 0), file_tree,
    ([GLog LevelWarning format args] ++ []).
  split; [|split].
  - apply (writes_bind _ _ tt); [apply writes_warning | apply writes_ret].
  - reflexivity.
  - unfold failures. change (List.filter is_failure ([GLog LevelWarning format args] ++ []))
      with (if is_failure (GLog LevelWarning format args)
            then [GLog LevelWarning format args] else []).
    destruct (is_failure (GLog LevelWarning format args)); reflexivity.
Qed.

(** One more name worked on, its status added to the status there was. *)
Lemma counts_step status (m : M (Z * GTree.t file_t))
    (k : Z -> GTree.t file_t -> M (Z * GTree.t file_t)) :
  counts 0 m ->
  (forall status' file_tree', CInt.to_int status' = status' -> counts status' (k status' file_tree')) ->
  counts status
    (let* ' (r, file_tree') := m in k (CInt.to_int (status + r)) file_tree').
Proof.
  intros (r & t1 & e1 & W1 & F1 & S1) Hk.
  destruct (Hk (CInt.to_int (status + r)) t1 (to_int_idem _)) as (s2 & t2 & e2 & W2 & F2 & S2).
  exists s2, t2, (e1 ++ e2). split; [|split].
  - apply (writes_bind _ _ (r, t1)); assumption.
  - rewrite forallb_app, F1, F2. reflexivity.
  - rewrite S2, S1, failures_app. rewrite to_int_add_l.
    replace (status + CInt.to_int (0 + failures e1) + failures e2)
      with (status + failures e2 + CInt.to_int (0 + failures e1)) by lia.
    rewrite to_int_add_r. f_equal. lia.
Qed.

Lemma do_fsobj_readdir_counts rec name entries :
  (forall file_tree path, counts 0 (rec file_tree path)) ->
  forall status file_tree,
  CInt.to_int status = status ->
  counts status (do_fsobj_readdir rec name entries status file_tree).
Proof.
  intros Hrec. induction entries as [|d_name rest IH]; intros status file_tree Hs.
  - apply counts_ret, Hs.
  - cbn [do_fsobj_readdir].
    destruct (do_fsobj_enters (Libc.cstr d_name)); [|apply IH, Hs].
    apply (counts_step status _ (fun s t => do_fsobj_readdir rec name rest s t)).
    + apply Hrec.
    + intros status' file_tree' Hs'. apply IH, Hs'.
Qed.

Lemma do_fsobj_depth_counts options sys depth :
  forall file_tree name, counts 0 (do_fsobj_depth depth options sys file_tree name).
Proof.
  induction depth as [|depth IH]; intros file_tree name.
  - apply counts_ret. reflexivity.
  - cbn [do_fsobj_depth].
    destruct (stat_func options sys name) as [stbuf|]; [|apply counts_warning; reflexivity].
    destruct (S_ISREG (Stat.st_mode stbuf)).
    + destruct ((Stat.st_size stbuf >? 0) || negb (opt_set options OPT_NOEMPTY));
        [|apply counts_ret; reflexivity].
      destruct (GTree.g_tree_lookup file_tree name); [|apply counts_ret; reflexivity].
      destruct (negb (opt_set options OPT_QUIET)).
      * apply counts_warning. reflexivity.
      * exists 0, file_tree, ([] ++ []). split; [|split; reflexivity].
        apply (writes_bind _ _ tt); apply writes_ret.
    + destruct (S_ISDIR (Stat.st_mode stbuf)); [|apply counts_ret; reflexivity].
      destruct (opt_set options OPT_RECURSE); [|apply counts_warning; reflexivity].
      destruct (ns_opendir sys name) as [entries|]; [|apply counts_warning; reflexivity].
      apply do_fsobj_readdir_counts; [exact IH | reflexivity].
Qed.

(** ** Phase one: the names gone into *)

Lemma cstr_is_cstring buf : Libc.is_cstring (Libc.cstr buf) = true.
Proof.
  induction buf as [|c rest IH]; simpl; [reflexivity|].
  destruct (Ascii.eqb c zero) eqn:E; simpl; [reflexivity|]. rewrite E. exact IH.
Qed.

Lemma is_cstring_app s1 s2 :
  Libc.is_cstring (s1 ++ s2)%string = Libc.is_cstring s1 && Libc.is_cstring s2.
Proof.
  induction s1 as [|c rest IH]; simpl; [reflexivity|]. rewrite IH, andb_assoc. reflexivity.
Qed.

Lemma is_cstring_path name d_name :
  Libc.is_cstring name = true ->
  Libc.is_cstring (name ++ "/" ++ Libc.cstr d_name)%string = true.
Proof.
  intros H. rewrite !is_cstring_app, H, cstr_is_cstring. reflexivity.
Qed.

Lemma stat_func_length options sys name stbuf :
  stat_func options sys name = Some stbuf -> (String.length name < PATH_MAX)%nat.
Proof.
  unfold stat_func, sys_stat, sys_lstat.
  destruct (opt_set options OPT_SYMLINKS);
    destruct (Nat.leb_spec PATH_MAX (String.length name)); (discriminate || auto).
Qed.

Lemma string_length_app s1 s2 :
  String.length (s1 ++ s2)%string = (String.length s1 + String.length s2)%nat.
Proof. induction s1 as [|c rest IH]; simpl; [reflexivity|]. rewrite IH. reflexivity. Qed.

Lemma length_path name dname :
  String.length (name ++ "/" ++ dname)%string = S (String.length name + String.length dname).
Proof. rewrite !string_length_app. simpl. lia. Qed.

(** Any depth that the length of the name leaves room for gives the same
    run. *)
Lemma do_fsobj_depth_enough options sys depth1 : forall depth2 file_tree name w,
  (PATH_MAX - String.length name < depth1)%nat ->
  (PATH_MAX - String.length name < depth2)%nat ->
  do_fsobj_depth depth1 options sys file_tree name w =
    do_fsobj_depth depth2 options sys file_tree name w.
Proof.
  induction depth1 as [|depth1 IH]; intros depth2 file_tree name w H1 H2; [lia|].
  destruct depth2 as [|depth2]; [lia|]. cbn [do_fsobj_depth].
  destruct (stat_func options sys name) as [stbuf|] eqn:Est; [|reflexivity].
  apply stat_func_length in Est.
  destruct (S_ISREG (Stat.st_mode stbuf)); [reflexivity|].
  destruct (S_ISDIR (Stat.st_mode stbuf)); [|reflexivity].
  destruct (opt_set options OPT_RECURSE); [|reflexivity].
  destruct (ns_opendir sys name) as [entries|]; [|reflexivity].
  generalize 0. revert file_tree w.
  induction entries as [|d_name rest IHe]; intros file_tree w status; [reflexivity|].
  cbn [do_fsobj_readdir].
  destruct (do_fsobj_enters (Libc.cstr d_name)); [|apply IHe].
  rewrite !bind_run.
  rewrite (IH depth2 file_tree (name ++ "/" ++ Libc.cstr d_name)%string w)
    by (rewrite length_path; lia).
  destruct (do_fsobj_depth depth2 options sys file_tree
              (name ++ "/" ++ Libc.cstr d_name)%string w) as [[r file_tree'] w1].
  apply IHe.
Qed.

(** [do_fsobj] is the function the source defines by recursion. *)
Lemma do_fsobj_unfold options sys file_tree name :
  do_fsobj options sys file_tree name =
    match stat_func options sys name with
    | Some stbuf =>
        if S_ISREG (Stat.st_mode stbuf) then
          if (Stat.st_size stbuf >? 0) || negb (opt_set options OPT_NOEMPTY) then
            match GTree.g_tree_lookup file_tree name with
            | Some _ =>
                (if negb (opt_set options OPT_QUIET) then
                   g_warning "filename '%s' alreday seen" [AStr name]
                 else ret tt) ;;
                ret (0, file_tree)
            | None => ret (0, GTree.g_tree_insert file_tree name (file_of name stbuf))
            end
          else ret (0, file_tree)
        else if S_ISDIR (Stat.st_mode stbuf) then
          if opt_set options OPT_RECURSE then
            match ns_opendir sys name with
            | Some entries =>
                do_fsobj_readdir (do_fsobj options sys) name entries 0 file_tree
            | None =>
                g_warning "unable to read directory '%s' - %m" [AStr name] ;;
                ret (1, file_tree)
            end
          else
            g_warning "%s is a directory - ignored" [AStr name] ;;
            ret (0, file_tree)
        else ret (0, file_tree)
    | None =>
        g_warning "unable to stat '%s' - %m" [AStr name] ;;
        ret (1, file_tree)
    end.
Proof.
  unfold do_fsobj at 1. cbn [do_fsobj_depth].
  destruct (stat_func options sys name) as [stbuf|] eqn:Est; [|reflexivity].
  apply stat_func_length in Est.
  destruct (S_ISREG (Stat.st_mode stbuf)); [reflexivity|].
  destruct (S_ISDIR (Stat.st_mode stbuf)); [|reflexivity].
  destruct (opt_set options OPT_RECURSE); [|reflexivity].
  destruct (ns_opendir sys name) as [entries|]; [|reflexivity].
  apply functional_extensionality. intros w.
  generalize 0. revert file_tree w.
  induction entries as [|d_name rest IHe]; intros file_tree w status; [reflexivity|].
  cbn [do_fsobj_readdir].
  destruct (do_fsobj_enters (Libc.cstr d_name)); [|apply IHe].
  rewrite !bind_run.
  rewrite (do_fsobj_depth_enough options sys (PATH_MAX - String.length name)
             (S (PATH_MAX - String.length (name ++ "/" ++ Libc.cstr d_name)%string))
             file_tree (name ++ "/" ++ Libc.cstr d_name)%string w)
    by (rewrite length_path; lia).
  change (do_fsobj_depth
            (S (PATH_MAX - String.length (name ++ "/" ++ Libc.cstr d_name)%string))
            options sys file_tree (name ++ "/" ++ Libc.cstr d_name)%string w)
    with (do_fsobj options sys file_tree (name ++ "/" ++ Libc.cstr d_name)%string w).
  destruct (do_fsobj options sys file_tree (name ++ "/" ++ Libc.cstr d_name)%string w)
    as [[r file_tree'] w1].
  apply IHe.
Qed.

(** ** Phase one: the tree [do_fsobj] builds *)

Lemma file_tree_ok_nil options : file_tree_ok options GTree.g_tree_new.
Proof. split; [apply tree_ok_nil | constructor]. Qed.

Lemma file_tree_ok_insert options file_tree path stbuf :
  file_tree_ok options file_tree -> Libc.is_cstring path = true ->
  GTree.g_tree_lookup file_tree path = None ->
  S_ISREG (Stat.st_mode stbuf) = true ->
  (Stat.st_size stbuf >? 0) || negb (opt_set options OPT_NOEMPTY) = true ->
  file_tree_ok options (GTree.g_tree_insert file_tree path (file_of path stbuf)).
Proof.
  intros [Hok Hall] Hname Hnone Hreg Hsize. split.
  - apply g_tree_insert_ok; assumption.
  - apply Forall_forall. intros entry He. apply list_elem_of_In in He.
    apply (g_tree_insert_In file_tree path _ Hok Hname Hnone) in He as [->|He].
    + cbn [fst snd file_of name st_mode st_size]. split; [reflexivity|]. split; [exact Hreg|].
      intros Hne. rewrite Hne in Hsize. cbn [negb] in Hsize. rewrite orb_false_r in Hsize.
      apply Z.gtb_lt in Hsize. lia.
    + rewrite Forall_forall in Hall. apply Hall, list_elem_of_In, He.
Qed.

Lemma do_fsobj_readdir_ok options rec name entries :
  Libc.is_cstring name = true ->
  (forall d_name file_tree w,
     file_tree_ok options file_tree ->
     file_tree_ok options
       (snd (fst (rec file_tree (name ++ "/" ++ Libc.cstr d_name)%string w)))) ->
  forall status file_tree w,
  file_tree_ok options file_tree ->
  file_tree_ok options (snd (fst (do_fsobj_readdir rec name entries status file_tree w))).
Proof.
  intros Hname Hrec. induction entries as [|d_name rest IH]; intros status file_tree w Hok.
  - exact Hok.
  - cbn [do_fsobj_readdir].
    destruct (do_fsobj_enters (Libc.cstr d_name)); [|apply IH, Hok].
    rewrite bind_run. specialize (Hrec d_name file_tree w Hok).
    destruct (rec file_tree (name ++ "/" ++ Libc.cstr d_name)%string w) as [[r file_tree'] w1].
    apply IH, Hrec.
Qed.

Lemma do_fsobj_depth_ok options sys depth : forall file_tree name w,
  file_tree_ok options file_tree -> Libc.is_cstring name = true ->
  file_tree_ok options (snd (fst (do_fsobj_depth depth options sys file_tree name w))).
Proof.
  induction depth as [|depth IH]; intros file_tree name w Hok Hname; [exact Hok|].
  cbn [do_fsobj_depth].
  destruct (stat_func options sys name) as [stbuf|]; [|exact Hok].
  destruct (S_ISREG (Stat.st_mode stbuf)) eqn:Hreg.
  - destruct ((Stat.st_size stbuf >? 0) || negb (opt_set options OPT_NOEMPTY)) eqn:Hsize;
      [|exact Hok].
    destruct (GTree.g_tree_lookup file_tree name) eqn:Hl.
    + rewrite bind_run. exact Hok.
    + apply file_tree_ok_insert; assumption.
  - destruct (S_ISDIR (Stat.st_mode stbuf)); [|exact Hok].
    destruct (opt_set options OPT_RECURSE); [|exact Hok].
    destruct (ns_opendir sys name) as [entries|]; [|exact Hok].
    apply do_fsobj_readdir_ok; [exact Hname| |exact Hok].
    intros d_name file_tree0 w0 Hok0. apply IH; [exact Hok0|].
    apply is_cstring_path, Hname.
Qed.

Lemma listed_functional options sys path fp1 fp2 :
  listed options sys path fp1 -> listed options sys path fp2 -> fp1 = fp2.
Proof. intros (st1 & E1 & _ & _ & ->) (st2 & E2 & _ & _ & ->). congruence. Qed.

Lemma collected_nil options sys file_tree : collected options sys [] file_tree file_tree.
Proof. intros entry. split; [auto|]. intros [H|(_ & name & [] & _)]. exact H. Qed.

Lemma collected_app options sys names1 names2 t0 t1 t2 :
  collected options sys names1 t0 t1 ->
  collected options sys names2 t1 t2 ->
  collected options sys (names1 ++ names2) t0 t2.
Proof.
  intros H1 H2 entry. rewrite (H2 entry), (H1 entry). split.
  - intros [[H|(Hn & name & Hin & Hu & Hl)]|(Hn & name & Hin & Hu & Hl)].
    + left. exact H.
    + right. split; [exact Hn|]. exists name. rewrite in_app_iff. auto.
    + right. split.
      * intros Hk. apply Hn. apply in_map_iff in Hk as (e0 & E0 & Hk).
        apply in_map_iff. exists e0. split; [exact E0|]. apply H1. left. exact Hk.
      * exists name. rewrite in_app_iff. auto.
  - intros [H|(Hn & name & Hin & Hu & Hl)]; [left; left; exact H|].
    apply in_app_iff in Hin as [Hin|Hin].
    + left. right. split; [exact Hn|]. exists name. auto.
    + destruct (in_dec string_dec (fst entry) (map fst t1)) as [Hk|Hk].
      * left. apply in_map_iff in Hk as ([k v] & E0 & Hk). cbn [fst] in E0. subst k.
        pose proof Hk as Hk1. apply H1 in Hk1 as [Hk1|(_ & name1 & Hin1 & Hu1 & Hl1)].
        -- exfalso. apply Hn. apply in_map_iff. exists (fst entry, v). auto.
        -- cbn [fst snd] in Hl1. rewrite (listed_functional _ _ _ _ _ Hl1 Hl) in Hk.
           apply H1. destruct entry. exact Hk.
      * right. split; [exact Hk|]. exists name. auto.
Qed.

Lemma under_not_dir options sys name path :
  under options sys name path ->
  (forall stbuf entries,
     opt_set options OPT_RECURSE = true ->
     stat_func options sys name = Some stbuf ->
     S_ISDIR (Stat.st_mode stbuf) = true ->
     ns_opendir sys name = Some entries -> False) ->
  path = name.
Proof. intros H Hno. destruct H; [reflexivity|]. exfalso. eapply Hno; eassumption. Qed.

Lemma S_ISREG_not_dir m : S_ISREG m = true -> S_ISDIR m = false.
Proof.
  unfold S_ISREG, S_ISDIR. intros H. apply Z.eqb_eq in H. rewrite H. reflexivity.
Qed.

(** A name that adds nothing to the tree. *)
Lemma collected_none options sys name file_tree :
  (forall fp, under options sys name name -> listed options sys name fp ->
     In name (map fst file_tree)) ->
  (forall stbuf entries,
     opt_set options OPT_RECURSE = true ->
     stat_func options sys name = Some stbuf ->
     S_ISDIR (Stat.st_mode stbuf) = true ->
     ns_opendir sys name = Some entries -> False) ->
  collected options sys [name] file_tree file_tree.
Proof.
  intros Hin Hno entry. split; [auto|].
  intros [H|(Hn & name0 & [<-|[]] & Hu & Hl)]; [exact H|].
  pose proof (under_not_dir _ _ _ _ Hu Hno) as E. rewrite E in *.
  exfalso. apply Hn. eapply Hin; eassumption.
Qed.

Lemma do_fsobj_readdir_collected options sys rec name entries :
  (forall d_name file_tree w,
     file_tree_ok options file_tree ->
     file_tree_ok options
       (snd (fst (rec file_tree (name ++ "/" ++ Libc.cstr d_name)%string w))) /\
     collected options sys [(name ++ "/" ++ Libc.cstr d_name)%string] file_tree
       (snd (fst (rec file_tree (name ++ "/" ++ Libc.cstr d_name)%string w)))) ->
  forall status file_tree w,
  file_tree_ok options file_tree ->
  collected options sys
    (map (fun d_name => (name ++ "/" ++ Libc.cstr d_name)%string)
       (List.filter (fun d_name => do_fsobj_enters (Libc.cstr d_name)) entries))
    file_tree
    (snd (fst (do_fsobj_readdir rec name entries status file_tree w))).
Proof.
  intros Hrec. induction entries as [|d_name rest IH]; intros status file_tree w Hok.
  - apply collected_nil.
  - cbn [do_fsobj_readdir List.filter].
    destruct (do_fsobj_enters (Libc.cstr d_name)); [|apply IH, Hok].
    rewrite bind_run. destruct (Hrec d_name file_tree w Hok) as [Hok1 Hc1].
    destruct (rec file_tree (name ++ "/" ++ Libc.cstr d_name)%string w) as [[r file_tree'] w1].
    cbn [map]. apply (collected_app _ _ [_] _ _ _ _ Hc1). apply IH, Hok1.
Qed.

Lemma do_fsobj_depth_collected options sys depth : forall file_tree name w,
  (PATH_MAX - String.length name < depth)%nat ->
  file_tree_ok options file_tree -> Libc.is_cstring name = true ->
  collected options sys [name] file_tree
    (snd (fst (do_fsobj_depth depth options sys file_tree name w))).
Proof.
  induction depth as [|depth IH]; intros file_tree name w Hd Hok Hname; [lia|].
  cbn [do_fsobj_depth].
  destruct (stat_func options sys name) as [stbuf|] eqn:Est.
  2: { apply collected_none.
       - intros fp _ (st & E & _). congruence.
       - intros st entries _ E. congruence. }
  destruct (S_ISREG (Stat.st_mode stbuf)) eqn:Hreg.
  - assert (Hno : forall st entries,
              opt_set options OPT_RECURSE = true ->
              stat_func options sys name = Some st ->
              S_ISDIR (Stat.st_mode st) = true ->
              ns_opendir sys name = Some entries -> False).
    { intros st entries _ E Hdir. rewrite Est in E. injection E as <-.
      rewrite (S_ISREG_not_dir _ Hreg) in Hdir. discriminate. }
    destruct ((Stat.st_size stbuf >? 0) || negb (opt_set options OPT_NOEMPTY)) eqn:Hsize.
    + destruct (GTree.g_tree_lookup file_tree name) as [fp0|] eqn:Hl.
      * rewrite bind_run. apply collected_none; [|exact Hno].
        intros fp _ _. destruct Hok as [Hok _].
        apply (g_tree_lookup_In file_tree name fp0 Hok Hname) in Hl.
        apply in_map_iff. exists (name, fp0). auto.
      * destruct Hok as [Hok Hall]. intros entry. unfold ret. cbn [fst snd].
        rewrite (g_tree_insert_In file_tree name _ Hok Hname Hl). split.
        -- intros [->|H]; [|left; exact H]. right. cbn [fst snd]. split.
           ++ apply (g_tree_lookup_None file_tree name Hok Hname), Hl.
           ++ exists name. split; [left; reflexivity|]. split; [constructor|].
              exists stbuf. split; [exact Est|]. split; [exact Hreg|]. split; [|reflexivity].
              apply orb_prop in Hsize as [Hs|Hs].
              ** left. apply Z.gtb_lt in Hs. lia.
              ** right. apply negb_true_iff, Hs.
        -- intros [H|(Hn & name0 & [<-|[]] & Hu & Hl0)]; [right; exact H|].
           left. pose proof (under_not_dir _ _ _ _ Hu Hno) as E.
           destruct entry as [k v]. cbn [fst snd] in *. subst k.
           destruct Hl0 as (st & E & _ & _ & ->). rewrite Est in E. injection E as <-.
           reflexivity.
    + apply collected_none; [|exact Hno].
      intros fp _ (st & E & _ & [Hs|Hs] & _); rewrite Est in E; injection E as <-;
        apply orb_false_elim in Hsize as [H1 H2].
      * rewrite Z.gtb_ltb in H1. apply Z.ltb_ge in H1. lia.
      * rewrite Hs in H2. discriminate.
  - assert (Hnl : forall fp, under options sys name name -> listed options sys name fp ->
                    In name (map fst file_tree)).
    { intros fp _ (st & E & Hr & _). congruence. }
    destruct (S_ISDIR (Stat.st_mode stbuf)) eqn:Hdir.
    2: { apply collected_none; [exact Hnl|].
         intros st entries _ E Hd'. congruence. }
    destruct (opt_set options OPT_RECURSE) eqn:Hrec.
    2: { rewrite bind_run. apply collected_none; [exact Hnl|].
         intros st entries H. congruence. }
    destruct (ns_opendir sys name) as [entries|] eqn:Hopen.
    2: { rewrite bind_run. apply collected_none; [exact Hnl|].
         intros st entries _ _ _ E. congruence. }
    pose proof (stat_func_length _ _ _ _ Est) as Hlen.
    pose proof (do_fsobj_readdir_collected options sys (do_fsobj_depth depth options sys)
                  name entries) as Hloop.
    intros entry. rewrite (Hloop ltac:(
      intros d_name t0 w0 Hok0; split;
      [apply do_fsobj_depth_ok; [exact Hok0 | apply is_cstring_path, Hname]
      |apply IH; [rewrite length_path; lia | exact Hok0 | apply is_cstring_path, Hname]])
      0 file_tree w Hok entry).
    split; (intros [H|(Hn & name0 & Hin & Hu & Hl)]; [left; exact H|right]);
      (split; [exact Hn|]).
    + apply in_map_iff in Hin as (d_name & <- & Hin).
      apply filter_In in Hin as [Hin Hen].
      exists name. split; [left; reflexivity|]. split; [|exact Hl].
      eapply under_entry; eassumption.
    + destruct Hin as [<-|[]]. destruct Hu as [name|name st es d_name path _ E _ Eo Hin Hen Hu].
      * exfalso. destruct Hl as (st & E & Hr & _). congruence.
      * rewrite Hopen in Eo. injection Eo as <-.
        exists (name ++ "/" ++ Libc.cstr d_name)%string. split; [|auto].
        apply in_map_iff. exists d_name. split; [reflexivity|].
        apply filter_In. auto.
Qed.

(** ** Phase one: the arguments and the names on standard input *)

Lemma do_fsobj_counts options sys file_tree name :
  counts 0 (do_fsobj options sys file_tree name).
Proof. apply do_fsobj_depth_counts. Qed.

Lemma do_fsobj_ok options sys file_tree name w :
  file_tree_ok options file_tree -> Libc.is_cstring name = true ->
  file_tree_ok options (snd (fst (do_fsobj options sys file_tree name w))).
Proof. apply do_fsobj_depth_ok. Qed.

Lemma do_fsobj_collected options sys file_tree name w :
  file_tree_ok options file_tree -> Libc.is_cstring name = true ->
  collected options sys [name] file_tree (snd (fst (do_fsobj options sys file_tree name w))).
Proof. apply do_fsobj_depth_collected. lia. Qed.

Lemma phase_one_args_counts options sys args : forall status file_tree,
  CInt.to_int status = status ->
  counts status (phase_one_args options sys args status file_tree).
Proof.
  induction args as [|arg rest IH]; intros status file_tree Hs.
  - apply counts_ret, Hs.
  - cbn [phase_one_args].
    apply (counts_step status _ (fun s t => phase_one_args options sys rest s t)).
    + apply do_fsobj_counts.
    + intros status' file_tree' Hs'. apply IH, Hs'.
Qed.

Lemma phase_one_args_collected options sys args : forall status file_tree w,
  Forall (fun arg => Libc.is_cstring arg = true) args ->
  file_tree_ok options file_tree ->
  file_tree_ok options (snd (fst (phase_one_args options sys args status file_tree w))) /\
  collected options sys args file_tree
    (snd (fst (phase_one_args options sys args status file_tree w))).
Proof.
  induction args as [|arg rest IH]; intros status file_tree w Hargs Hok.
  - split; [exact Hok | apply collected_nil].
  - apply Forall_cons_1 in Hargs as [Harg Hargs]. cbn [phase_one_args]. rewrite bind_run.
    pose proof (do_fsobj_ok options sys file_tree arg w Hok Harg) as Hok1.
    pose proof (do_fsobj_collected options sys file_tree arg w Hok Harg) as Hc1.
    destruct (do_fsobj options sys file_tree arg w) as [[r file_tree'] w1]. cbn [fst snd] in *.
    destruct (IH (CInt.to_int (status + r)) file_tree' w1 Hargs Hok1) as [Hok2 Hc2].
    split; [exact Hok2|]. apply (collected_app _ _ [arg] rest _ _ _ Hc1 Hc2).
Qed.

(** [do_stdin] works on the names of the lines of standard input as [main]
    does on its arguments, and leaves nothing to read. *)
Lemma fgets_1024_shorter input buf rest :
  Libc.fgets 1024 input = Some (buf, rest) ->
  (String.length rest < String.length input)%nat.
Proof.
  unfold Libc.fgets. destruct input as [|c input']; [discriminate|]. intros H.
  assert (H' : Libc.fgets_line (1024 - 1) (String c input') = (buf, rest)) by congruence.
  apply (fgets_line_shorter _ _ _ _ H'); [lia | discriminate].
Qed.

Lemma with_stdin_logged w input events :
  with_stdin (logged w events) input = logged (with_stdin w input) events.
Proof. reflexivity. Qed.

Lemma writes_run {A} (m : M A) a events w : writes m a events -> m w = (a, logged w events).
Proof. intros H. apply H. Qed.

Lemma do_stdin_loop_args options sys fuel : forall status file_tree w,
  (String.length (w_stdin w) < fuel)%nat ->
  do_stdin_loop fuel options sys status file_tree w =
    phase_one_args options sys (map stdin_name (stdin_lines_upto fuel (w_stdin w)))
      status file_tree (with_stdin w "").
Proof.
  induction fuel as [|fuel IH]; intros status file_tree w Hf; [lia|].
  cbn [do_stdin_loop stdin_lines_upto]. rewrite bind_run. unfold sys_fgets.
  destruct (Libc.fgets 1024 (w_stdin w)) as [[buf rest]|] eqn:E.
  - cbn [fst snd map phase_one_args]. apply fgets_1024_shorter in E as Hlt.
    fold (stdin_name buf). fold (with_stdin w rest). rewrite !bind_run.
    destruct (do_fsobj_counts options sys file_tree (stdin_name buf))
      as (r & t1 & e1 & W1 & _).
    rewrite (writes_run _ _ _ (with_stdin w rest) W1), (writes_run _ _ _ (with_stdin w "") W1).
    cbn [fst snd]. rewrite IH by (simpl; lia). reflexivity.
  - cbn [fst snd map phase_one_args]. unfold ret. f_equal.
    destruct w as [fs nu nl input trace]. unfold with_stdin. cbn in *.
    unfold Libc.fgets in E. destruct input; [reflexivity | discriminate].
Qed.

Lemma stdin_lines_upto_enough fuel : forall extra input,
  (String.length input < fuel)%nat ->
  stdin_lines_upto (fuel + extra) input = stdin_lines_upto fuel input.
Proof.
  induction fuel as [|fuel IH]; intros extra input Hf; [lia|].
  cbn [Nat.add stdin_lines_upto].
  destruct (Libc.fgets 1024 input) as [[buf rest]|] eqn:E; [|reflexivity].
  apply fgets_1024_shorter in E. rewrite IH by lia. reflexivity.
Qed.

Lemma do_stdin_args options sys file_tree w :
  do_stdin options sys file_tree w =
    phase_one_args options sys (stdin_names (w_stdin w)) 0 file_tree (with_stdin w "").
Proof. unfold do_stdin, stdin_names. apply do_stdin_loop_args. lia. Qed.


(** ** Phase one: the lines of standard input *)

Lemma append_cons c s t : (String c s ++ t)%string = String c (s ++ t)%string.
Proof. reflexivity. Qed.

Lemma append_nil s : ("" ++ s)%string = s.
Proof. reflexivity. Qed.

Lemma fgets_line_name n : forall path rest,
  strchr path "010" = None -> (String.length path < n)%nat ->
  Libc.fgets_line n (path ++ String "010" rest) = ((path ++ String "010" "")%string, rest).
Proof.
  induction n as [|n IH]; intros path rest Hnl Hlen; [lia|].
  destruct path as [|c path']; [reflexivity|].
  rewrite ?append_cons; cbn [Libc.fgets_line]. cbn [strchr] in Hnl.
  destruct (Ascii.eqb c "010"); [discriminate|].
  destruct (strchr path' "010") eqn:E; [discriminate|].
  rewrite (IH path' rest E) by (simpl in Hlen; lia). reflexivity.
Qed.

Lemma fgets_line_chunk n : forall chunk rest,
  strchr chunk "010" = None -> String.length chunk = n ->
  Libc.fgets_line n (chunk ++ rest) = (chunk, rest).
Proof.
  induction n as [|n IH]; intros chunk rest Hnl Hlen.
  - destruct chunk; [reflexivity | discriminate].
  - destruct chunk as [|c chunk']; [discriminate|].
    rewrite ?append_cons; cbn [Libc.fgets_line]. cbn [strchr] in Hnl.
    destruct (Ascii.eqb c "010"); [discriminate|].
    destruct (strchr chunk' "010") eqn:E; [discriminate|].
    rewrite (IH chunk' rest E) by (simpl in Hlen; lia). reflexivity.
Qed.

Lemma fgets_line_last n : forall path,
  strchr path "010" = None -> (String.length path <= n)%nat ->
  Libc.fgets_line n path = (path, "").
Proof.
  induction n as [|n IH]; intros path Hnl Hlen.
  - destruct path; [reflexivity | simpl in Hlen; lia].
  - destruct path as [|c path']; [reflexivity|].
    cbn [Libc.fgets_line]. cbn [strchr] in Hnl.
    destruct (Ascii.eqb c "010"); [discriminate|].
    destruct (strchr path' "010") eqn:E; [discriminate|].
    rewrite (IH path' E) by (simpl in Hlen; lia). reflexivity.
Qed.

Lemma cstr_cstring s : Libc.is_cstring s = true -> Libc.cstr s = s.
Proof.
  induction s as [|c rest IH]; simpl; [reflexivity|]. intros H.
  apply andb_prop in H as [Hc Hr]. apply negb_true_iff in Hc. rewrite Hc, (IH Hr). reflexivity.
Qed.

Lemma stdin_name_line path :
  Libc.is_cstring path = true -> strchr path "010" = None ->
  stdin_name (path ++ String "010" "") = path.
Proof.
  intros Hc Hnl. unfold stdin_name.
  rewrite cstr_cstring by (rewrite is_cstring_app, Hc; reflexivity).
  clear Hc. induction path as [|c rest IH]; [reflexivity|].
  rewrite ?append_cons in *; cbn [strchr] in *. destruct (Ascii.eqb c "010"); [discriminate|].
  destruct (strchr rest "010") eqn:E; [discriminate|]. specialize (IH eq_refl).
  destruct (strchr (rest ++ String "010" "") "010") as [ptr|] eqn:E'.
  - cbn [option_map substring]. rewrite IH. reflexivity.
  - cbn [option_map]. f_equal.
    clear - E'. exfalso. induction rest as [|c' rest' IH']; simpl in E'; [discriminate|].
    destruct (Ascii.eqb c' "010"); [discriminate|].
    destruct (strchr (rest' ++ String "010" "") "010"); [discriminate | auto].
Qed.

Lemma stdin_name_chunk path :
  Libc.is_cstring path = true -> strchr path "010" = None -> stdin_name path = path.
Proof. intros Hc Hnl. unfold stdin_name. rewrite (cstr_cstring _ Hc), Hnl. reflexivity. Qed.

Lemma string_app_assoc s1 s2 s3 : ((s1 ++ s2) ++ s3 = s1 ++ s2 ++ s3)%string.
Proof.
  induction s1 as [|c rest IH]; [reflexivity|]. rewrite !append_cons, IH. reflexivity.
Qed.

Lemma fgets_name path rest :
  strchr path "010" = None -> (String.length path < 1023)%nat ->
  Libc.fgets 1024 (path ++ String "010" rest) =
    Some ((path ++ String "010" "")%string, rest).
Proof.
  intros Hnl Hlen. unfold Libc.fgets.
  destruct (path ++ String "010" rest)%string eqn:E.
  - destruct path; discriminate.
  - rewrite <- E. change (1024 - 1)%nat with 1023%nat.
    rewrite (fgets_line_name 1023 path rest Hnl Hlen). reflexivity.
Qed.

Lemma fgets_nonempty size input :
  input <> "" -> Libc.fgets size input = Some (Libc.fgets_line (size - 1) input).
Proof. destruct input; [contradiction | reflexivity]. Qed.

Lemma stdin_lines_upto_nil fuel : stdin_lines_upto fuel "" = [].
Proof. destruct fuel; reflexivity. Qed.

(** The names read from the lines of some names are these names; what
    stands after the last newline is one more name. *)
Lemma stdin_names_lines names : forall fuel last,
  Forall line_name names ->
  strchr last "010" = None -> Libc.is_cstring last = true ->
  (String.length last <= 1023)%nat ->
  (String.length (lines_of names ++ last) < fuel)%nat ->
  map stdin_name (stdin_lines_upto fuel (lines_of names ++ last)) =
    names ++ (if String.eqb last "" then [] else [last]).
Proof.
  induction names as [|path rest IH]; intros fuel last Hn Hnl Hc Hlen Hf.
  - cbn [lines_of fold_right app] in *. rewrite append_nil in *.
    destruct fuel as [|fuel]; [lia|]. cbn [stdin_lines_upto].
    destruct (String.eqb_spec last "") as [->|Hne]; [reflexivity|].
    rewrite (fgets_nonempty 1024 last Hne). change (1024 - 1)%nat with 1023%nat.
    rewrite (fgets_line_last 1023 last Hnl Hlen), stdin_lines_upto_nil.
    cbn [map]. rewrite (stdin_name_chunk last Hc Hnl). reflexivity.
  - apply Forall_cons_1 in Hn as [(Hpc & Hpn & Hpl) Hn].
    cbn [lines_of fold_right] in *. fold (lines_of rest) in *.
    rewrite string_app_assoc in *. rewrite ?append_cons in *.
    destruct fuel as [|fuel]; [lia|]. cbn [stdin_lines_upto].
    rewrite (fgets_name path _ Hpn Hpl). cbn [map app].
    rewrite (stdin_name_line path Hpc Hpn). f_equal.
    apply IH; try assumption. rewrite string_length_app in Hf. simpl in Hf. lia.
Qed.

Lemma with_stdin_twice w input1 input2 :
  with_stdin (with_stdin w input1) input2 = with_stdin w input2.
Proof. reflexivity. Qed.

(** ** Phase one: the directory entries not gone into *)

Lemma do_fsobj_enters_false dname :
  Libc.is_cstring dname = true ->
  (do_fsobj_enters dname = false <->
   dname = "." \/ exists rest, dname = String "." (String "." rest)).
Proof.
  intros Hc. unfold do_fsobj_enters, char_at.
  destruct dname as [|c0 [|c1 rest]]; cbn [String.get].
  - split; [discriminate|]. intros [H|(rest & H)]; discriminate.
  - destruct (Ascii.eqb_spec c0 "."); cbn.
    + subst. split; auto.
    + split; [discriminate|]. intros [[= ->]|(rest & H)]; [contradiction | discriminate].
  - cbn [Libc.is_cstring] in Hc. apply andb_prop in Hc as [_ Hc]. apply andb_prop in Hc as [Hc _].
    destruct (Ascii.eqb_spec c0 "."); cbn [negb orb].
    + subst c0. destruct (Ascii.eqb_spec c1 "."); cbn [negb andb].
      * subst. split; [|reflexivity]. intros _. right. eauto.
      * rewrite Hc. split; [discriminate|].
        intros [H|(rest' & H)]; [discriminate|]. injection H as -> _. contradiction.
    + split; [discriminate|].
      intros [H|(rest' & H)]; [discriminate|]. injection H as -> _. contradiction.
Qed.

Lemma do_fsobj_readdir_filter rec rec' name entries :
  (forall file_tree path w, rec file_tree path w = rec' file_tree path w) ->
  forall status file_tree w,
  do_fsobj_readdir rec name entries status file_tree w =
    do_fsobj_readdir rec' name
      (List.filter (fun d_name => do_fsobj_enters (Libc.cstr d_name)) entries)
      status file_tree w.
Proof.
  intros Hrec. induction entries as [|d_name rest IH]; intros status file_tree w; [reflexivity|].
  cbn [do_fsobj_readdir List.filter].
  destruct (do_fsobj_enters (Libc.cstr d_name)) eqn:E; [|apply IH].
  cbn [do_fsobj_readdir]. rewrite E, !bind_run, Hrec.
  destruct (rec' file_tree (name ++ "/" ++ Libc.cstr d_name)%string w) as [[r t] w1].
  apply IH.
Qed.

Lemma stat_func_without_dot_entries options sys name :
  stat_func options (without_dot_entries sys) name = stat_func options sys name.
Proof. reflexivity. Qed.

Lemma do_fsobj_depth_without_dot_entries options sys depth : forall file_tree name w,
  do_fsobj_depth depth options sys file_tree name w =
    do_fsobj_depth depth options (without_dot_entries sys) file_tree name w.
Proof.
  induction depth as [|depth IH]; intros file_tree name w; [reflexivity|].
  cbn [do_fsobj_depth]. rewrite stat_func_without_dot_entries.
  destruct (stat_func options sys name) as [stbuf|]; [|reflexivity].
  destruct (S_ISREG (Stat.st_mode stbuf)); [reflexivity|].
  destruct (S_ISDIR (Stat.st_mode stbuf)); [|reflexivity].
  destruct (opt_set options OPT_RECURSE); [|reflexivity].
  cbn [ns_opendir without_dot_entries].
  destruct (ns_opendir sys name) as [entries|]; [|reflexivity].
  cbn [option_map]. apply do_fsobj_readdir_filter, IH.
Qed.

(** ** Phase one: the file list *)

Lemma is_cstring_substring s : forall n m,
  Libc.is_cstring s = true -> Libc.is_cstring (substring n m s) = true.
Proof.
  induction s as [|c rest IH]; intros n m H.
  - destruct n, m; reflexivity.
  - cbn [Libc.is_cstring] in H. apply andb_prop in H as [Hc Hr].
    destruct n as [|n]; destruct m as [|m]; cbn [substring Libc.is_cstring]; auto.
    rewrite Hc. apply IH, Hr.
Qed.

Lemma stdin_name_is_cstring buf : Libc.is_cstring (stdin_name buf) = true.
Proof.
  unfold stdin_name. destruct (strchr (Libc.cstr buf) "010").
  - apply is_cstring_substring, cstr_is_cstring.
  - apply cstr_is_cstring.
Qed.

Lemma stdin_names_are_cstrings input :
  Forall (fun path => Libc.is_cstring path = true) (stdin_names input).
Proof.
  unfold stdin_names. apply Forall_forall. intros path Hin. apply list_elem_of_In in Hin.
  apply in_map_iff in Hin as (buf & <- & _). apply stdin_name_is_cstring.
Qed.

Lemma sorted_values {V} (tree : GTree.t V) (key_of : V -> string) :
  Forall (fun entry => key_of (snd entry) = fst entry) tree ->
  StronglySorted (fun a b => Libc.strcmp (fst a) (fst b) < 0) tree ->
  StronglySorted (fun a b => Libc.strcmp (key_of a) (key_of b) < 0) (map snd tree) /\
  map key_of (map snd tree) = map fst tree.
Proof.
  induction tree as [|[k v] rest IH]; intros Hk Hs; [split; [constructor | reflexivity]|].
  apply Forall_cons_1 in Hk as [Hkv Hk]. apply StronglySorted_inv in Hs as [Hs Hlt].
  destruct (IH Hk Hs) as [IH1 IH2]. cbn [fst snd] in Hkv. cbn [map fst snd]. split.
  - constructor; [exact IH1|]. apply Forall_forall. intros fp Hin.
    apply list_elem_of_In, in_map_iff in Hin as ([k' v'] & <- & Hin).
    rewrite Forall_forall in Hlt, Hk. apply list_elem_of_In in Hin.
    specialize (Hlt _ Hin). specialize (Hk _ Hin). cbn [fst snd] in *.
    rewrite Hkv, Hk. exact Hlt.
  - rewrite Hkv, IH2. reflexivity.
Qed.

Lemma phase_one_spec sys options args w :
  Forall (fun arg => Libc.is_cstring arg = true) args ->
  let names := args ++ (if opt_set options OPT_STDIN then stdin_names (w_stdin w) else []) in
  exists status file_tree events,
    phase_one sys options args w =
      ((status, map snd file_tree),
       logged (if opt_set options OPT_STDIN then with_stdin w "" else w) events) /\
    forallb is_warning events = true /\
    status = CInt.to_int (failures events) /\
    file_tree_ok options file_tree /\
    collected options sys names GTree.g_tree_new file_tree.
Proof.
  intros Hargs names. unfold phase_one. rewrite bind_run.
  destruct (phase_one_args_counts options sys args 0 GTree.g_tree_new eq_refl)
    as (s1 & t1 & e1 & W1 & F1 & S1).
  destruct (phase_one_args_collected options sys args 0 GTree.g_tree_new w Hargs
              (file_tree_ok_nil options)) as [Hok1 Hc1].
  rewrite (W1 w) in *. cbn [fst snd] in *. subst names.
  destruct (opt_set options OPT_STDIN).
  - rewrite !bind_run. rewrite do_stdin_args. cbn [w_stdin logged].
    pose proof (stdin_names_are_cstrings (w_stdin w)) as Hnames.
    destruct (phase_one_args_counts options sys (stdin_names (w_stdin w)) 0 t1 eq_refl)
      as (s2 & t2 & e2 & W2 & F2 & S2).
    destruct (phase_one_args_collected options sys (stdin_names (w_stdin w)) 0 t1
                (with_stdin (logged w e1) "") Hnames Hok1) as [Hok2 Hc2].
    rewrite (W2 (with_stdin (logged w e1) "")) in *. cbn [fst snd] in *.
    exists (CInt.to_int (s1 + s2)), t2, (e1 ++ e2). unfold ret. split; [|split; [|split; [|split]]].
    + rewrite with_stdin_logged, logged_app. reflexivity.
    + rewrite forallb_app, F1, F2. reflexivity.
    + rewrite S1, S2, failures_app, to_int_add_l, to_int_add_r. f_equal; lia.
    + exact Hok2.
    + exact (collected_app _ _ _ _ _ _ _ Hc1 Hc2).
  - rewrite !bind_run. unfold ret. cbn [fst snd]. exists s1, t1, e1.
    rewrite app_nil_r. rewrite S1, Z.add_0_l. auto.
Qed.

Lemma collected_from_nil options sys names file_tree :
  collected options sys names GTree.g_tree_new file_tree ->
  forall path fp,
    In (path, fp) file_tree <->
    exists arg, In arg names /\ under options sys arg path /\ listed options sys path fp.
Proof.
  intros Hc path fp. rewrite (Hc (path, fp)). cbn [fst snd GTree.g_tree_new map]. split.
  - intros [[]|(_ & H)]. exact H.
  - intros H. right. split; [intros []|exact H].
Qed.

(** X1.  [do_fsobj] keeps the tree of files as it should be when it is
    given a name that is a C string: the keys stay C strings in strictly
    ascending [strcmp] order, so no name is in the tree twice; every file
    is kept under its own name and is a regular file, and not an empty one
    when the noempty option is set; and what was in the tree stays in it
    with the record it had. *)
Theorem do_fsobj_keeps_tree_ok (options : Z) (sys : namespace) (file_tree : GTree.t file_t)
    (path : string) (w : world) :
  file_tree_ok options file_tree -> Libc.is_cstring path = true ->
  let file_tree' := snd (fst (do_fsobj options sys file_tree path w)) in
  file_tree_ok options file_tree' /\
  NoDup (map fst file_tree') /\
  (forall key fp, In (key, fp) file_tree -> In (key, fp) file_tree') /\
  (forall key fp, Libc.is_cstring key = true ->
     GTree.g_tree_lookup file_tree key = Some fp ->
     GTree.g_tree_lookup file_tree' key = Some fp).
Proof.
  intros Hok Hpath file_tree'.
  pose proof (do_fsobj_ok options sys file_tree path w Hok Hpath) as Hok'.
  pose proof (do_fsobj_collected options sys file_tree path w Hok Hpath) as Hc.
  fold file_tree' in Hok', Hc.
  split; [exact Hok'|]. split; [apply tree_ok_NoDup, Hok'|]. split.
  - intros key fp Hin. apply (Hc (key, fp)). left. exact Hin.
  - intros key fp Hkey Hl. destruct Hok as [Hok _], Hok' as [Hok' _].
    apply (g_tree_lookup_In _ _ _ Hok' Hkey). apply (Hc (key, fp)). left.
    apply (g_tree_lookup_In _ _ _ Hok Hkey), Hl.
Qed.

Lemma do_fsobj_keeps_tree_ok_witness :
  let file_tree' :=
    snd (fst (do_fsobj OPT_RECURSE example_sys GTree.g_tree_new "d" (example_world ""))) in
  map fst file_tree' = ["d/a"; "d/e/c"] /\ file_tree_ok OPT_RECURSE file_tree'.
Proof.
  split; [vm_compute; reflexivity|].
  exact (proj1 (do_fsobj_keeps_tree_ok OPT_RECURSE example_sys GTree.g_tree_new "d"
                  (example_world "") (file_tree_ok_nil OPT_RECURSE) eq_refl)).
Defined.

(** X2.  The tree after [do_fsobj] on a name holds what it held and, for
    every name under the given one that is a regular file (not an empty one
    with the noempty option) and was not in the tree, the record of what
    [stat] shows for it; nothing else.  The names under a name are the name
    itself and, with the recurse option, the names under the entries of a
    directory, without the entries not gone into. *)
Theorem do_fsobj_collects (options : Z) (sys : namespace) (file_tree : GTree.t file_t)
    (path : string) (w : world) :
  file_tree_ok options file_tree -> Libc.is_cstring path = true ->
  let file_tree' := snd (fst (do_fsobj options sys file_tree path w)) in
  forall key fp,
    In (key, fp) file_tree' <->
    In (key, fp) file_tree \/
    (~ In key (map fst file_tree) /\
     under options sys path key /\ listed options sys key fp).
Proof.
  intros Hok Hpath file_tree' key fp.
  pose proof (do_fsobj_collected options sys file_tree path w Hok Hpath (key, fp)) as Hc.
  cbn [fst snd] in Hc. fold file_tree' in Hc. rewrite Hc. split.
  - intros [H|(Hn & name0 & [<-|[]] & Hu & Hl)]; auto.
  - intros [H|(Hn & Hu & Hl)]; [auto|]. right. split; [exact Hn|].
    exists path. split; [left; reflexivity | auto].
Qed.

Lemma do_fsobj_collects_witness :
  let file_tree' :=
    snd (fst (do_fsobj OPT_RECURSE example_sys GTree.g_tree_new "d" (example_world ""))) in
  let fp := {| name := "d/e/c"; st_size := 0; st_nlink := 1; st_mode := 33188;
               st_dev := 0; st_ino := 13 |} in
  In ("d/e/c", fp) file_tree' /\
  under OPT_RECURSE example_sys "d" "d/e/c" /\ listed OPT_RECURSE example_sys "d/e/c" fp.
Proof.
  intros file_tree' fp.
  assert (Hin : In ("d/e/c", fp) file_tree') by (vm_compute; auto).
  split; [exact Hin|].
  destruct (proj1 (do_fsobj_collects OPT_RECURSE example_sys GTree.g_tree_new "d"
                     (example_world "") (file_tree_ok_nil OPT_RECURSE) eq_refl
                     "d/e/c" fp) Hin) as [[]|(_ & Hu & Hl)].
  split; assumption.
Defined.

(** X3.  [do_fsobj] does nothing to the world but add warnings to the
    trace, and what it returns does not depend on the world: the status is
    the number of the names that [stat] failed on and of the directories
    that [opendir] failed on, as the [int] that number wraps to. *)
Theorem do_fsobj_status_counts_failures (options : Z) (sys : namespace)
    (file_tree : GTree.t file_t) (path : string) :
  exists status file_tree' events,
    (forall w, do_fsobj options sys file_tree path w = ((status, file_tree'), logged w events)) /\
    forallb is_warning events = true /\
    status = CInt.to_int (failures events).
Proof.
  destruct (do_fsobj_counts options sys file_tree path) as (status & t & events & W & F & S).
  exists status, t, events. rewrite Z.add_0_l in S. auto.
Qed.

(** X4.  [do_fsobj] does not go into the directory entries [.] and [..],
    nor into any entry whose name begins with two dots: a run is the run
    on a file system whose directories do not have these entries.  Any
    other entry whose name begins with a dot is gone into. *)
Theorem do_fsobj_skips_dot_dot_names :
  (forall d_name,
     do_fsobj_enters (Libc.cstr d_name) = false <->
     Libc.cstr d_name = "." \/ exists rest, Libc.cstr d_name = String "." (String "." rest)) /\
  (forall options sys file_tree path w,
     do_fsobj options sys file_tree path w =
       do_fsobj options (without_dot_entries sys) file_tree path w).
Proof.
  split.
  - intros d_name. apply do_fsobj_enters_false, cstr_is_cstring.
  - intros options sys file_tree path w. apply do_fsobj_depth_without_dot_entries.
Qed.

Lemma stdin_names_chunk chunk rest :
  Libc.is_cstring chunk = true -> strchr chunk "010" = None ->
  String.length chunk = 1023%nat ->
  stdin_names (chunk ++ rest) = chunk :: stdin_names rest.
Proof.
  intros Hc Hnl Hlen. unfold stdin_names. cbn [stdin_lines_upto].
  assert (Hne : (chunk ++ rest)%string <> "").
  { destruct chunk; [discriminate|]. rewrite append_cons. discriminate. }
  rewrite (fgets_nonempty 1024 _ Hne). change (1024 - 1)%nat with 1023%nat.
  rewrite (fgets_line_chunk 1023 chunk rest Hnl Hlen). cbn [map].
  rewrite (stdin_name_chunk chunk Hc Hnl). f_equal. f_equal.
  rewrite string_length_app, Hlen.
  replace (1023 + String.length rest)%nat with (S (String.length rest) + 1022)%nat by lia.
  apply stdin_lines_upto_enough. lia.
Qed.

Lemma stdin_names_newline rest : stdin_names (String "010" rest) = "" :: stdin_names rest.
Proof.
  unfold stdin_names. cbn [stdin_lines_upto String.length]. rewrite fgets_nonempty by discriminate.
  change (Libc.fgets_line (1024 - 1) (String "010" rest)) with (String "010" "", rest).
  cbn [map]. reflexivity.
Qed.

(** X5.  [do_stdin] takes one name from every line of standard input and
    works on the names as [main] does on its arguments; what stands after
    the last newline, if anything, is one more name.  This holds for names
    of at most 1022 characters.  Nothing is left to read on standard input
    afterwards. *)
Theorem do_stdin_reads_names (options : Z) (sys : namespace) (file_tree : GTree.t file_t)
    (w : world) (names : list string) (last : string) :
  Forall line_name names ->
  Libc.is_cstring last = true -> strchr last "010" = None ->
  (String.length last <= 1023)%nat ->
  w_stdin w = (lines_of names ++ last)%string ->
  do_stdin options sys file_tree w =
    phase_one_args options sys (names ++ (if String.eqb last "" then [] else [last]))
      0 file_tree (with_stdin w "").
Proof.
  intros Hn Hc Hnl Hlen Hin. rewrite do_stdin_args. unfold stdin_names. rewrite Hin.
  rewrite (stdin_names_lines names _ last Hn Hnl Hc Hlen) by lia. reflexivity.
Qed.

Lemma do_stdin_reads_names_witness :
  let w := example_world "d/a
d/e/c
d/gone" in
  w_stdin w = (lines_of ["d/a"; "d/e/c"] ++ "d/gone")%string /\
  do_stdin 0 example_sys GTree.g_tree_new w =
    phase_one_args 0 example_sys ["d/a"; "d/e/c"; "d/gone"] 0 GTree.g_tree_new
      (with_stdin w "") /\
  map fst (snd (fst (do_stdin 0 example_sys GTree.g_tree_new w))) = ["d/a"; "d/e/c"] /\
  fst (fst (do_stdin 0 example_sys GTree.g_tree_new w)) = 1.
Proof.
  intros w. split; [reflexivity|].
  assert (Hn : Forall line_name ["d/a"; "d/e/c"]).
  { repeat constructor; simpl; lia. }
  split; [|split; vm_compute; reflexivity].
  exact (do_stdin_reads_names 0 example_sys GTree.g_tree_new w ["d/a"; "d/e/c"] "d/gone"
           Hn eq_refl eq_refl ltac:(simpl; lia) eq_refl).
Defined.

(** X6.  A line of standard input of 1023 characters or more is not one
    name: its first 1023 characters are taken for a name, and what follows
    them for the beginning of the next line.  When the newline follows
    them, the next name is the empty name. *)
Theorem do_stdin_splits_long_lines (options : Z) (sys : namespace)
    (file_tree : GTree.t file_t) (w : world) (chunk rest : string) :
  Libc.is_cstring chunk = true -> strchr chunk "010" = None ->
  String.length chunk = 1023%nat ->
  w_stdin w = (chunk ++ rest)%string ->
  do_stdin options sys file_tree w =
    phase_one_args options sys (chunk :: stdin_names rest) 0 file_tree (with_stdin w "") /\
  (forall rest', rest = String "010" rest' -> stdin_names rest = "" :: stdin_names rest').
Proof.
  intros Hc Hnl Hlen Hin. split.
  - rewrite do_stdin_args, Hin, (stdin_names_chunk chunk rest Hc Hnl Hlen). reflexivity.
  - intros rest' ->. apply stdin_names_newline.
Qed.

Lemma do_stdin_splits_long_lines_witness :
  let w := example_world (long_name ++ "
d/a
") in
  String.length long_name = 1023%nat /\
  do_stdin 0 example_sys GTree.g_tree_new w =
    phase_one_args 0 example_sys [long_name; ""; "d/a"] 0 GTree.g_tree_new (with_stdin w "").
Proof.
  intros w. split; [vm_compute; reflexivity|].
  destruct (do_stdin_splits_long_lines 0 example_sys GTree.g_tree_new w long_name "
d/a
" ltac:(vm_compute; reflexivity) ltac:(vm_compute; reflexivity)
             ltac:(vm_compute; reflexivity) eq_refl) as [H1 H2].
  rewrite H1. rewrite (H2 _ eq_refl). reflexivity.
Defined.

(** X7.  Phase one, for arguments that are C strings and the names read
    from standard input with the stdin option: the file list is in
    strictly ascending [strcmp] order of the names, so no name is twice in
    it, and it holds exactly the records of the regular files (not the
    empty ones with the noempty option) under the names given.  The world
    is left as it was but for the warnings added to the trace and for
    standard input, read to its end with the stdin option; the status is
    the number of failures among the warnings. *)
Theorem phase_one_file_list (sys : namespace) (options : Z) (args : list string) (w : world) :
  Forall (fun arg => Libc.is_cstring arg = true) args ->
  let names := args ++ (if opt_set options OPT_STDIN then stdin_names (w_stdin w) else []) in
  exists status file_list events,
    phase_one sys options args w =
      ((status, file_list),
       logged (if opt_set options OPT_STDIN then with_stdin w "" else w) events) /\
    forallb is_warning events = true /\
    status = CInt.to_int (failures events) /\
    StronglySorted (fun a b => Libc.strcmp (name a) (name b) < 0) file_list /\
    NoDup (map name file_list) /\
    (forall fp,
       In fp file_list <->
       exists arg, In arg names /\
         under options sys arg (name fp) /\ listed options sys (name fp) fp).
Proof.
  intros Hargs names.
  destruct (phase_one_spec sys options args w Hargs)
    as (status & file_tree & events & E & F & S & [[Hs Hcs] Hall] & Hc).
  fold names in Hc.
  assert (Hkeys : Forall (fun entry => name (snd entry) = fst entry) file_tree).
  { eapply Forall_impl; [exact Hall|]. intros entry (H & _). exact H. }
  destruct (sorted_values file_tree name Hkeys Hs) as [Hsorted Hnames].
  exists status, (map snd file_tree), events.
  split; [exact E|]. split; [exact F|]. split; [exact S|]. split; [exact Hsorted|]. split.
  - rewrite Hnames. apply tree_ok_NoDup. split; assumption.
  - intros fp. rewrite <- (collected_from_nil options sys names file_tree Hc (name fp) fp).
    rewrite in_map_iff. split.
    + intros ([k v] & <- & Hin). rewrite Forall_forall in Hkeys.
      pose proof (Hkeys _ (proj2 (list_elem_of_In _ _) Hin)) as Hk. cbn [fst snd] in *.
      rewrite Hk. exact Hin.
    + intros Hin. exists (name fp, fp). auto.
Qed.

Lemma phase_one_file_list_witness :
  map name (snd (fst (phase_one example_sys (Z.lor OPT_RECURSE OPT_STDIN) ["d/e"]
                        (example_world "d/a
d/a
")))) = ["d/a"; "d/e/c"] /\
  w_stdin (snd (phase_one example_sys (Z.lor OPT_RECURSE OPT_STDIN) ["d/e"]
                  (example_world "d/a
d/a
"))) = "".
Proof.
  destruct (phase_one_file_list example_sys (Z.lor OPT_RECURSE OPT_STDIN) ["d/e"]
              (example_world "d/a
d/a
") ltac:(repeat constructor)) as (status & file_list & events & E & _).
  rewrite E. cbn [fst snd]. split; [|reflexivity].
  apply (f_equal (fun r => map name (snd (fst r)))) in E. cbn [fst snd] in E.
  rewrite <- E. vm_compute. reflexivity.
Defined.

(** ** Phase two: the table of the digests *)

Lemma group_of_snoc md5_hex fs file_list fp key :
  group_of md5_hex fs (file_list ++ [fp]) key =
    if bool_decide (digest_of md5_hex fs fp = Some key) then
      match group_of md5_hex fs file_list key with
      | Some file_list0 =>
          Some {| nfile := nfile file_list0 + 1;
                  files := GLib.g_list_append (files file_list0) fp |}
      | None => Some {| nfile := 1; files := GLib.g_list_append [] fp |}
      end
    else group_of md5_hex fs file_list key.
Proof.
  unfold group_of. rewrite List.filter_app. cbn [List.filter].
  destruct (bool_decide (digest_of md5_hex fs fp = Some key)).
  - destruct (List.filter _ file_list) as [|fp0 l]; [reflexivity|].
    cbn [app nfile files]. unfold GLib.g_list_append. f_equal. f_equal.
    cbn [length]. rewrite length_app. cbn [length]. lia.
  - rewrite app_nil_r. reflexivity.
Qed.

Lemma file_foreach_group md5_hex fp fdata w done :
  (forall key, hash fdata !! key = group_of md5_hex (w_fs w) done key) ->
  digest fdata = [] ->
  let r := file_foreach md5_hex (name fp) fp fdata w in
  fst (fst r) = false /\
  (forall key, hash (snd (fst r)) !! key = group_of md5_hex (w_fs w) (done ++ [fp]) key) /\
  digest (snd (fst r)) = [] /\
  snd r = logged w (file_foreach_events (w_fs w) fp).
Proof.
  intros Hgroups Hdigest r. subst r. unfold file_foreach. rewrite bind_run, sys_open_spec.
  cbn [fst snd]. unfold file_foreach_events.
  assert (Hkey : forall key,
            group_of md5_hex (w_fs w) (done ++ [fp]) key =
            if bool_decide (digest_of md5_hex (w_fs w) fp = Some key) then
              match hash fdata !! key with
              | Some file_list0 =>
                  Some {| nfile := nfile file_list0 + 1;
                          files := GLib.g_list_append (files file_list0) fp |}
              | None => Some {| nfile := 1; files := GLib.g_list_append [] fp |}
              end
            else hash fdata !! key).
  { intros key. rewrite group_of_snoc, Hgroups. reflexivity. }
  unfold digest_of in Hkey.
  destruct (opened (w_fs w) (name fp)) as [fd|] eqn:Eo; cbn [option_map] in Hkey.
  - unfold g_checksum_get_string, ret. cbn [fst snd hash digest g_checksum_reset].
    rewrite Hdigest. split; [reflexivity|]. split; [|split; reflexivity].
    intros key. rewrite Hkey.
    destruct (decide (md5_hex (file_foreach_read fd []) = key)) as [<-|Hne].
    + rewrite bool_decide_eq_true_2 by reflexivity.
      destruct (hash fdata !! md5_hex (file_foreach_read fd [])); apply lookup_insert_eq.
    + rewrite bool_decide_eq_false_2 by congruence.
      destruct (hash fdata !! md5_hex (file_foreach_read fd []));
        rewrite lookup_insert_ne by exact Hne; reflexivity.
  - rewrite bind_run, g_warning_logged. unfold ret. cbn [fst snd]. rewrite logged_app.
    split; [reflexivity|]. split; [|split; [exact Hdigest | reflexivity]].
    intros key. rewrite Hkey. rewrite bool_decide_eq_false_2 by discriminate. reflexivity.
Qed.

Lemma phase_two_groups md5_hex file_tree : forall fdata w done,
  (forall key, hash fdata !! key = group_of md5_hex (w_fs w) done key) ->
  digest fdata = [] ->
  let r := phase_two md5_hex file_tree fdata w in
  (forall key, hash (fst r) !! key = group_of md5_hex (w_fs w) (done ++ file_tree) key) /\
  digest (fst r) = [] /\
  snd r = logged w (concat (map (file_foreach_events (w_fs w)) file_tree)).
Proof.
  induction file_tree as [|fp rest IH]; intros fdata w done Hg Hd.
  - cbn. rewrite app_nil_r, logged_nil. auto.
  - cbn [phase_two]. rewrite bind_run.
    destruct (file_foreach_group md5_hex fp fdata w done Hg Hd) as (Hstop & Hg1 & Hd1 & Hw1).
    destruct (file_foreach md5_hex (name fp) fp fdata w) as [[stop fdata1] w1].
    cbn [fst snd] in *. subst stop w1.
    specialize (IH fdata1 (logged w (file_foreach_events (w_fs w) fp)) (done ++ [fp]) Hg1 Hd1).
    cbn [w_fs logged] in IH. destruct IH as (Hg2 & Hd2 & Hw2).
    rewrite <- app_assoc in Hg2. split; [exact Hg2|]. split; [exact Hd2|].
    rewrite Hw2, logged_app. reflexivity.
Qed.

(** X8.  Phase two on a list of files: the table has a group for every
    digest that a file of the list has, and the group holds the files with
    that digest in the order of the list, and their number; the digest of a
    file is that of the bytes read from it alone.  A file that does not
    open is in no group and gets a warning.  Nothing is done to the world
    but the opening of every file, once, in the order of the list. *)
Theorem phase_two_groups_by_digest (md5_hex : list byte -> string) (file_tree : list file_t)
    (w : world) :
  let r := phase_two md5_hex file_tree {| hash := ∅; digest := [] |} w in
  (forall key, hash (fst r) !! key = group_of md5_hex (w_fs w) file_tree key) /\
  digest (fst r) = [] /\
  snd r = logged w (concat (map (file_foreach_events (w_fs w)) file_tree)).
Proof.
  apply (phase_two_groups md5_hex file_tree {| hash := ∅; digest := [] |} w []).
  - intros key. cbn [hash]. apply lookup_empty.
  - reflexivity.
Qed.

(** ** Phase three: sorting, filtering and comparing *)

Lemma filter_links_found_false fp1 ptr :
  ~ In (storage fp1) (map storage ptr) -> filter_links_found fp1 ptr = false.
Proof.
  intros Hn. destruct (filter_links_found fp1 ptr) eqn:E; [|reflexivity].
  exfalso. apply Hn, filter_links_found_spec, E.
Qed.

Lemma filter_links_loop_distinct l : forall new_list,
  NoDup (map storage (new_list ++ l)) -> filter_links_loop l new_list = new_list ++ l.
Proof.
  induction l as [|fp1 next IH]; intros new_list Hnd; cbn [filter_links_loop].
  - rewrite app_nil_r. reflexivity.
  - rewrite filter_links_found_false.
    + unfold GLib.g_list_append. rewrite IH; rewrite <- app_assoc; [reflexivity | exact Hnd].
    + rewrite map_app in Hnd. cbn [map] in Hnd. apply NoDup_app in Hnd as (_ & Hd & _).
      intros Hin. apply list_elem_of_In in Hin. apply (Hd _ Hin). left.
Qed.

Lemma filter_links_distinct l : NoDup (map storage l) -> filter_links l = l.
Proof.
  destruct l as [|data next]; [reflexivity|]. intros Hnd. unfold filter_links.
  apply (filter_links_loop_distinct next [data]), Hnd.
Qed.

(** X9.  [filter_links] changes nothing in a list of files that are all
    on different storage, and so nothing in a list it has filtered
    already. *)
Theorem filter_links_idempotent (l : list file_t) :
  (NoDup (map storage l) -> filter_links l = l) /\
  filter_links (filter_links l) = filter_links l.
Proof.
  split; [apply filter_links_distinct|]. apply filter_links_distinct, filter_links_NoDup.
Qed.

Lemma filter_links_idempotent_witness :
  NoDup (map storage [example_file "a" 1 0 1; example_file "b" 1 0 2]) /\
  filter_links [example_file "a" 1 0 1; example_file "b" 1 0 2] =
    [example_file "a" 1 0 1; example_file "b" 1 0 2].
Proof.
  assert (Hnd : NoDup (map storage [example_file "a" 1 0 1; example_file "b" 1 0 2])).
  { apply NoDup_ListNoDup. repeat constructor; cbn; intuition discriminate. }
  split; [exact Hnd|].
  exact (proj1 (filter_links_idempotent [example_file "a" 1 0 1; example_file "b" 1 0 2]) Hnd).
Defined.

(** X10.  On file records whose link counts are below 2^31 and whose names
    are C strings, [sort_compare] is a comparison function as [g_list_sort]
    wants one: a record compares equal to itself, swapping the arguments
    negates the result, the result is 0 only for records with as many
    links and the same name, and "less than" is transitive. *)
Theorem sort_compare_is_an_order (a b c : file_t) :
  sortable a -> sortable b -> sortable c ->
  sort_compare a a = 0 /\
  sort_compare b a = - sort_compare a b /\
  (sort_compare a b = 0 -> st_nlink a = st_nlink b /\ name a = name b) /\
  (sort_compare a b < 0 -> sort_compare b c < 0 -> sort_compare a c < 0).
Proof.
  intros Ha Hb Hc. unfold sort_compare.
  rewrite (sort_compare_links a a Ha Ha), (sort_compare_links a b Ha Hb),
    (sort_compare_links b a Hb Ha), (sort_compare_links b c Hb Hc),
    (sort_compare_links a c Ha Hc).
  destruct Ha as [_ Ca], Hb as [_ Cb], Hc as [_ Cc].
  split; [|split; [|split]].
  - rewrite Z.sub_diag. cbn. apply strcmp_refl.
  - rewrite (strcmp_opp (name a) (name b)).
    destruct (Z.eqb_spec (st_nlink a - st_nlink b) 0), (Z.eqb_spec (st_nlink b - st_nlink a) 0);
      lia.
  - destruct (Z.eqb_spec (st_nlink b - st_nlink a) 0) as [E|E]; [|contradiction].
    intros H. split; [lia | apply strcmp_eq; assumption].
  - destruct (Z.eqb_spec (st_nlink b - st_nlink a) 0), (Z.eqb_spec (st_nlink c - st_nlink b) 0),
      (Z.eqb_spec (st_nlink c - st_nlink a) 0); try lia.
    apply strcmp_lt_trans; assumption.
Qed.

Lemma sort_compare_is_an_order_witness :
  sortable (example_file "a" 2 0 1) /\ sortable (example_file "b" 1 0 2) /\
  sort_compare (example_file "b" 1 0 2) (example_file "a" 2 0 1) =
    - sort_compare (example_file "a" 2 0 1) (example_file "b" 1 0 2).
Proof.
  assert (Ha : sortable (example_file "a" 2 0 1)) by (split; [cbn; lia | reflexivity]).
  assert (Hb : sortable (example_file "b" 1 0 2)) by (split; [cbn; lia | reflexivity]).
  split; [exact Ha|]. split; [exact Hb|].
  exact (proj1 (proj2 (sort_compare_is_an_order _ _ _ Ha Hb Ha))).
Defined.

Lemma compare_files_loop_after name1 name2 chunks : forall rest1 rest2 w,
  Forall (fun chunk => chunk <> []) chunks ->
  compare_files_loop name1 name2 (map Some chunks ++ rest1) (map Some chunks ++ rest2) w =
    compare_files_loop name1 name2 rest1 rest2 w.
Proof.
  induction chunks as [|chunk chunks IH]; intros rest1 rest2 w Hne; [reflexivity|].
  apply Forall_cons_1 in Hne as [Hc Hne]. destruct chunk as [|b chunk]; [contradiction|].
  cbn [map app compare_files_loop sys_read read_result fst snd].
  change (Z.of_nat (length (b :: chunk)) =? -1) with false.
  change (Z.of_nat (length (b :: chunk)) =? 0) with false.
  cbn [andb]. rewrite Z.eqb_refl, Nat2Z.id, (memcmp_eq _ _ eq_refl).
  rewrite bool_decide_eq_true_2 by reflexivity. cbn [andb]. apply IH, Hne.
Qed.

Lemma compare_files_loop_no_error name1 name2 fd1 : forall fd2 w,
  no_read_error fd1 = true -> no_read_error fd2 = true ->
  snd (compare_files_loop name1 name2 fd1 fd2 w) = w.
Proof.
  induction fd1 as [|r1 fd1 IH]; intros fd2 w H1 H2.
  - destruct fd2 as [|[[|b2 chunk2]|] fd2]; try discriminate; reflexivity.
  - destruct r1 as [[|b1 chunk1]|]; [| |discriminate].
    + destruct fd2 as [|[[|b2 chunk2]|] fd2]; try discriminate; reflexivity.
    + destruct fd2 as [|[[|b2 chunk2]|] fd2]; try discriminate; try reflexivity.
      cbn [compare_files_loop sys_read read_result fst snd].
      change (Z.of_nat (length (b1 :: chunk1)) =? -1) with false.
      change (Z.of_nat (length (b2 :: chunk2)) =? -1) with false.
      change (Z.of_nat (length (b1 :: chunk1)) =? 0) with false.
      cbn [andb].
      destruct ((Z.of_nat (length (b1 :: chunk1)) =? Z.of_nat (length (b2 :: chunk2))) &&
                (Libc.memcmp (b1 :: chunk1) (b2 :: chunk2)
                   (Z.to_nat (Z.of_nat (length (b1 :: chunk1)))) =? 0)); [|reflexivity].
      apply IH; [exact H1 | exact H2].
Qed.

Lemma compare_files_probes file1 file2 w :
  exists events,
    snd (compare_files file1 file2 w) = logged w events /\
    forallb is_probe events = true.
Proof.
  unfold compare_files. rewrite bind_run, sys_open_spec. cbn [fst snd].
  destruct (opened (w_fs w) (name file1)) as [fd1|].
  - rewrite bind_run, sys_open_spec. cbn [fst snd w_fs logged].
    destruct (opened (w_fs w) (name file2)) as [fd2|].
    + destruct (compare_files_loop_spec (name file1) (name file2) fd1 fd2
                  (logged (logged w [SysOpen (name file1) (bool_decide (is_Some (Some fd1)))])
                     [SysOpen (name file2) (bool_decide (is_Some (Some fd2)))]))
        as (events & E & Hc & _).
      rewrite E. cbn [snd]. rewrite !logged_app. eexists. split; [reflexivity|].
      rewrite !forallb_app. cbn [forallb is_probe andb].
      rewrite forallb_forall in Hc. apply forallb_forall. intros e He.
      specialize (Hc e He). destruct e as [| |[] | | | |]; try discriminate; reflexivity.
    + rewrite bind_run, g_critical_logged. cbn [fst snd ret]. rewrite !logged_app.
      eexists. split; reflexivity.
  - rewrite bind_run, g_critical_logged. cbn [fst snd ret]. rewrite !logged_app.
    eexists. split; reflexivity.
Qed.

(** X11.  [compare_files] does nothing to the world but leave in the trace
    the opening of the files and the report of an error.  Two files that
    open and are read without an error leave no report, whether they are
    the same or not.  A read that fails after as many equal reads of the
    two files is reported for the file it failed on, the first file first,
    and the files are not taken for the same. *)
Theorem compare_files_reports_read_errors (file1 file2 : file_t) (w : world) :
  (exists events,
     snd (compare_files file1 file2 w) = logged w events /\
     forallb is_probe events = true) /\
  (forall fd1 fd2,
     opened (w_fs w) (name file1) = Some fd1 -> opened (w_fs w) (name file2) = Some fd2 ->
     no_read_error fd1 = true -> no_read_error fd2 = true ->
     snd (compare_files file1 file2 w) =
       logged w [SysOpen (name file1) true; SysOpen (name file2) true]) /\
  (forall chunks rest1 rest2,
     Forall (fun chunk => chunk <> []) chunks ->
     opened (w_fs w) (name file1) = Some (map Some chunks ++ None :: rest1) ->
     opened (w_fs w) (name file2) = Some (map Some chunks ++ rest2) ->
     compare_files file1 file2 w =
       (0, logged w [SysOpen (name file1) true; SysOpen (name file2) true;
                     GLog LevelCritical "read error on file '%s' - %m" [AStr (name file1)]])) /\
  (forall chunks rest1 rest2,
     Forall (fun chunk => chunk <> []) chunks ->
     match rest1 with None :: _ => False | _ => True end ->
     opened (w_fs w) (name file1) = Some (map Some chunks ++ rest1) ->
     opened (w_fs w) (name file2) = Some (map Some chunks ++ None :: rest2) ->
     compare_files file1 file2 w =
       (0, logged w [SysOpen (name file1) true; SysOpen (name file2) true;
                     GLog LevelCritical "read error on file '%s' - %m" [AStr (name file2)]])).
Proof.
  split; [|split; [|split]].
  - apply compare_files_probes.
  - intros fd1 fd2 O1 O2 H1 H2. unfold compare_files.
    rewrite bind_run, sys_open_spec. cbn [fst snd]. rewrite O1. cbn beta iota zeta.
    rewrite bind_run, sys_open_spec. cbn [fst snd w_fs logged]. rewrite O2. cbn beta iota zeta.
    rewrite (compare_files_loop_no_error _ _ fd1 fd2 _ H1 H2), logged_app. reflexivity.
  - intros chunks rest1 rest2 Hne O1 O2. unfold compare_files.
    rewrite bind_run, sys_open_spec. cbn [fst snd]. rewrite O1. cbn beta iota zeta.
    rewrite bind_run, sys_open_spec. cbn [fst snd w_fs logged]. rewrite O2. cbn beta iota zeta.
    rewrite (compare_files_loop_after _ _ chunks _ _ _ Hne).
    cbn [compare_files_loop sys_read read_result fst snd].
    change (-1 =? -1) with true. cbn beta iota.
    rewrite bind_run, g_critical_logged. cbn [fst snd ret]. rewrite !logged_app. reflexivity.
  - intros chunks rest1 rest2 Hne Hr O1 O2. unfold compare_files.
    rewrite bind_run, sys_open_spec. cbn [fst snd]. rewrite O1. cbn beta iota zeta.
    rewrite bind_run, sys_open_spec. cbn [fst snd w_fs logged]. rewrite O2. cbn beta iota zeta.
    rewrite (compare_files_loop_after _ _ chunks _ _ _ Hne).
    assert (Hnb : (fst (fst (sys_read rest1)) =? -1) = false).
    { destruct rest1 as [|[chunk|] rest1]; [reflexivity| |contradiction].
      cbn. apply Z.eqb_neq. lia. }
    destruct rest1 as [|r1 rest1]; cbn [compare_files_loop];
      destruct (fst (sys_read _)) as [nb1 buf1] eqn:E1; cbn [fst] in Hnb; rewrite Hnb;
      cbn [sys_read read_result fst snd]; change (-1 =? -1) with true; cbn beta iota;
      rewrite bind_run, g_critical_logged; cbn [fst snd ret]; rewrite !logged_app; reflexivity.
Qed.

Lemma compare_files_reports_read_errors_witness :
  let failing :=
    {| i_dev := 0; i_ino := 1; i_readable := true;
       i_reads := [Some (list_byte_of_string "xy"); None] |} in
  let w := {| w_fs := {[ "a" := failing; "b" := example_inode 2 "xyz" ]};
              w_nounlink := ∅; w_nolink := ∅; w_stdin := ""; w_trace := [] |} in
  compare_files (example_file "b" 1 0 2) (example_file "a" 1 0 1) w =
    (0, logged w [SysOpen "b" true; SysOpen "a" true]) /\
  compare_files (example_file "a" 1 0 1) (example_file "a" 1 0 1) w =
    (0, logged w [SysOpen "a" true; SysOpen "a" true;
                  GLog LevelCritical "read error on file '%s' - %m" [AStr "a"]]).
Proof.
  intros failing w. split; [reflexivity|].
  exact (proj1 (proj2 (proj2 (compare_files_reports_read_errors
                                 (example_file "a" 1 0 1) (example_file "a" 1 0 1) w)))
           [list_byte_of_string "xy"] [] [None]
           ltac:(repeat constructor; discriminate) eq_refl eq_refl).
Defined.

(** ** Phase three: the outcomes of [link_pair] *)



(** ** Phase three: every mode keeps to its own actions *)

Lemma mode_run_refl options w : mode_run options w w.
Proof.
  split; [exists []; rewrite app_nil_r; auto|]. auto.
Qed.

Lemma mode_run_trans options w w1 w2 :
  mode_run options w w1 -> mode_run options w1 w2 -> mode_run options w w2.
Proof.
  intros ((e1 & T1 & F1) & U1 & L1 & S1 & X1) ((e2 & T2 & F2) & U2 & L2 & S2 & X2).
  split; [|split; [|split; [|split]]].
  - exists (e1 ++ e2). rewrite T2, T1, app_assoc, forallb_app, F1, F2. auto.
  - congruence.
  - congruence.
  - intros H. rewrite (S2 H), (S1 H). reflexivity.
  - intros Hl Hd. rewrite (X2 Hl Hd), (X1 Hl Hd). reflexivity.
Qed.

Lemma mode_run_logged options w events :
  forallb (mode_event options) events = true -> mode_run options w (logged w events).
Proof. intros H. split; [exists events; auto|]. auto. Qed.

Lemma mode_run_bind {A B} options (m : M A) (k : A -> M B) w :
  mode_run options w (snd (m w)) ->
  (forall a w1, mode_run options w1 (snd (k a w1))) ->
  mode_run options w (snd (bind m k w)).
Proof.
  intros Hm Hk. rewrite bind_run. eapply mode_run_trans; [exact Hm | apply Hk].
Qed.

Lemma is_probe_mode options events :
  forallb is_probe events = true -> forallb (mode_event options) events = true.
Proof.
  rewrite !forallb_forall. intros H e He. specialize (H e He).
  destruct e as [| |[] | | | |]; try discriminate; reflexivity.
Qed.

Lemma compare_files_mode options file1 file2 w :
  mode_run options w (snd (compare_files file1 file2 w)).
Proof.
  destruct (compare_files_probes file1 file2 w) as (events & -> & H).
  apply mode_run_logged, is_probe_mode, H.
Qed.

Lemma compare_files_fst file1 file2 w :
  compare_files file1 file2 w =
    (fst (compare_files file1 file2 w), snd (compare_files file1 file2 w)).
Proof. destruct (compare_files file1 file2 w). reflexivity. Qed.

Lemma link_pair_mode options master slave w :
  opt_set options OPT_LINK = true ->
  mode_run options w (snd (link_pair master slave w)).
Proof.
  intros Hl.
  assert (Hev : forall events,
            forallb (fun e => match e with
                              | Enter (Call_link_pair _ _) | SysUnlink _ _ | SysLink _ _ _
                              | GLog LevelWarning _ _ => true
                              | _ => false
                              end) events = true ->
            forallb (mode_event options) events = true).
  { intros events. rewrite !forallb_forall. intros H e He. specialize (H e He).
    unfold mode_event. rewrite Hl.
    destruct e as [| |[] | | | |[]]; try discriminate; reflexivity. }
  assert (Hrun : forall w' events,
            forallb (fun e => match e with
                              | Enter (Call_link_pair _ _) | SysUnlink _ _ | SysLink _ _ _
                              | GLog LevelWarning _ _ => true
                              | _ => false
                              end) events = true ->
            w_trace w' = w_trace w ++ events ->
            w_nounlink w' = w_nounlink w -> w_nolink w' = w_nolink w ->
            w_stdin w' = w_stdin w ->
            mode_run options w w').
  { intros w' events H Ht Hu Hn Hs. split; [exists events; split; [exact Ht | apply Hev, H]|].
    split; [exact Hu|]. split; [exact Hn|]. split; [intros _; exact Hs|].
    intros Hl'. congruence. }
  unfold link_pair, bind, emit, sys_unlink, sys_link, g_warning, emit, ret.
  repeat (cbn [fst snd logged w_fs w_nounlink w_nolink w_stdin w_trace];
          match goal with
          | |- context [if ?c then _ else _] => destruct c
          | |- context [match ?x with Some _ => _ | None => _ end] => destruct x
          end);
    cbn [fst snd logged w_fs w_nounlink w_nolink w_stdin w_trace];
    (eapply Hrun;
     [|unfold logged; cbn [w_trace]; rewrite <- ?app_assoc; reflexivity|reflexivity..];
     reflexivity).
Qed.

Lemma list_files_loop_mode options options' fs l : forall w,
  opt_set options OPT_LINK = false ->
  mode_run options w (snd (list_files_loop options' fs l w)).
Proof.
  induction l as [|fp next IH]; intros w Hl; [apply mode_run_refl|].
  cbn [list_files_loop]. apply mode_run_bind; [|intros _ w1; apply IH, Hl].
  destruct (opt_set options' OPT_SHOWSIZE); rewrite printf_logged; apply mode_run_logged;
    cbn; rewrite Hl; reflexivity.
Qed.

Lemma list_files_mode options master l w :
  opt_set options OPT_LINK = false -> opt_set options OPT_DELETE = false ->
  mode_run options w (snd (list_files options master l w)).
Proof.
  intros Hl Hd. unfold list_files.
  apply mode_run_bind.
  { rewrite emit_logged. apply mode_run_logged. cbn. rewrite Hl, Hd. reflexivity. }
  intros _ w1. apply mode_run_bind.
  { destruct (negb (opt_set options OPT_OMITFIRST)); [|apply mode_run_refl].
    destruct (opt_set options OPT_SHOWSIZE); rewrite printf_logged; apply mode_run_logged;
      cbn; rewrite Hl; reflexivity. }
  intros _ w2. apply mode_run_bind.
  { apply list_files_loop_mode, Hl. }
  intros _ w3. rewrite printf_logged. apply mode_run_logged. cbn. rewrite Hl. reflexivity.
Qed.

Section DeleteMode.

Variable options : Z.
Hypothesis Hl : opt_set options OPT_LINK = false.
Hypothesis Hd : opt_set options OPT_DELETE = true.

Lemma delete_mode_world w fs input events :
  forallb (fun e => match e with
                    | Stdout _ _ | SysUnlink _ _ | GLog LevelWarning _ _
                    | Enter (Call_delete_files _ _ _) => true
                    | _ => false
                    end) events = true ->
  mode_run options w
    {| w_fs := fs; w_nounlink := w_nounlink w; w_nolink := w_nolink w;
       w_stdin := input; w_trace := w_trace w ++ events |}.
Proof.
  intros H. split; [|cbn; split; [reflexivity|]; split; [reflexivity|]; split].
  - exists events. split; [reflexivity|]. rewrite forallb_forall in *. intros e He.
    specialize (H e He). unfold mode_event. rewrite Hl, Hd.
    destruct e as [| |[] | | | |[]]; try discriminate; reflexivity.
  - intros [H1|H1]; congruence.
  - intros _ H1. congruence.
Qed.

Lemma printf_delete_mode format args w : mode_run options w (snd (printf format args w)).
Proof.
  rewrite printf_logged. apply mode_run_logged. cbn. rewrite Hl. reflexivity.
Qed.

Lemma print_disposition_mode ptr : forall i w,
  mode_run options w (snd (print_disposition ptr i w)).
Proof.
  induction ptr as [|elem next IH]; intros i w; [apply mode_run_refl|].
  cbn [print_disposition]. apply mode_run_bind; [apply printf_delete_mode|].
  intros _ w1. apply IH.
Qed.

Lemma unlink_marked_mode ptr : forall w, mode_run options w (snd (unlink_marked ptr w)).
Proof.
  induction ptr as [|elem next IH]; intros w; [apply mode_run_refl|].
  cbn [unlink_marked]. apply mode_run_bind; [|intros _ w1; apply IH].
  destruct (keep elem =? 0); [|apply mode_run_refl].
  apply mode_run_bind.
  - unfold sys_unlink.
    destruct (bool_decide (is_Some (w_fs w !! name (file elem))) &&
              negb (bool_decide (name (file elem) ∈ w_nounlink w))); cbn [snd].
    + apply delete_mode_world. reflexivity.
    + apply mode_run_logged. cbn. rewrite Hl, Hd. reflexivity.
  - intros r w1. destruct (r =? 0); [apply printf_delete_mode|].
    rewrite g_warning_logged. apply mode_run_logged. cbn. rewrite Hl, Hd. reflexivity.
Qed.

Lemma delete_files_loop_mode fuel : forall digest delete_list print_list w,
  mode_run options w (snd (delete_files_loop fuel digest delete_list print_list w)).
Proof.
  induction fuel as [|fuel IH]; intros digest delete_list print_list w; [apply mode_run_refl|].
  cbn [delete_files_loop]. apply mode_run_bind.
  { destruct print_list; [|apply mode_run_refl].
    apply mode_run_bind; [apply printf_delete_mode|]. intros _ w1.
    apply mode_run_bind; [apply print_disposition_mode|]. intros _ w2.
    apply printf_delete_mode. }
  intros _ w1. apply mode_run_bind; [apply printf_delete_mode|].
  intros _ w2. apply mode_run_bind.
  { unfold sys_fgets. destruct (Libc.fgets 20 (w_stdin w2)) as [[buf rest]|]; cbn [snd].
    - pose proof (delete_mode_world w2 (w_fs w2) rest [] eq_refl) as H.
      rewrite app_nil_r in H. exact H.
    - apply mode_run_refl. }
  intros [buf|] w3; [|apply printf_delete_mode].
  cbn zeta. destruct (Libc.strncmp (Libc.cstr buf) "go" 2 =? 0); [apply unlink_marked_mode|].
  destruct (Libc.atoi (Libc.cstr buf) >? 0).
  - destruct (GLib.g_list_nth_data delete_list (Libc.atoi (Libc.cstr buf) - 1)); [apply IH|].
    apply mode_run_bind; [apply printf_delete_mode|]. intros _ w4. apply IH.
  - apply mode_run_bind; [apply printf_delete_mode|]. intros _ w4. apply IH.
Qed.

Lemma delete_files_mode digest master l w :
  mode_run options w (snd (delete_files digest master l w)).
Proof.
  unfold delete_files. apply mode_run_bind.
  - rewrite emit_logged. apply mode_run_logged. cbn. rewrite Hl, Hd. reflexivity.
  - intros _ w1. apply delete_files_loop_mode.
Qed.

End DeleteMode.

(** In link mode nothing is put on the good list. *)
Lemma digest_foreach_scan_mode options master search_list :
  forall good_list good_count bad_list w,
  let r := digest_foreach_scan options master search_list good_list good_count bad_list w in
  mode_run options w (snd r) /\
  (opt_set options OPT_LINK = true -> snd (fst (fst r)) = good_count).
Proof.
  induction search_list as [|data next IH]; intros good_list good_count bad_list w.
  - split; [apply mode_run_refl | reflexivity].
  - cbn [digest_foreach_scan]. cbn zeta. rewrite bind_run.
    pose proof (compare_files_mode options master data w) as Hc.
    destruct (compare_files master data w) as [same w1]. cbn [fst snd] in *.
    destruct (negb (same =? 0)).
    + destruct (opt_set options OPT_LINK) eqn:Hl.
      * rewrite bind_run. pose proof (link_pair_mode options master data w1 Hl) as Hp.
        destruct (link_pair master data w1) as [[] w2]. cbn [fst snd] in *.
        destruct (IH good_list good_count bad_list w2) as [Hr Hg]. split; [|exact Hg].
        eapply mode_run_trans; [exact Hc|]. eapply mode_run_trans; [exact Hp | exact Hr].
      * destruct (IH (GLib.g_list_append good_list data) (good_count + 1) bad_list w1)
          as [Hr _].
        split; [|discriminate]. eapply mode_run_trans; [exact Hc | exact Hr].
    + destruct (IH good_list good_count (GLib.g_list_append bad_list data) w1) as [Hr Hg].
      split; [|exact Hg]. eapply mode_run_trans; [exact Hc | exact Hr].
Qed.

Lemma digest_foreach_loop_mode options key fuel : forall search_list w,
  mode_run options w (snd (digest_foreach_loop fuel options key search_list w)).
Proof.
  induction fuel as [|fuel IH]; intros search_list w; [apply mode_run_refl|].
  cbn [digest_foreach_loop]. destruct search_list as [|master next]; [apply mode_run_refl|].
  rewrite bind_run.
  destruct (digest_foreach_scan_mode options master next [] 0 [] w) as [Hs Hg].
  destruct (digest_foreach_scan options master next [] 0 [] w)
    as [[[good_list good_count] bad_list] w1]. cbn [fst snd] in *.
  eapply mode_run_trans; [exact Hs|]. apply mode_run_bind; [|intros _ w2; apply IH].
  destruct (good_count >? 0) eqn:Hc; [|apply mode_run_refl].
  destruct (opt_set options OPT_LINK) eqn:Hl.
  - rewrite (Hg eq_refl) in Hc. discriminate.
  - destruct (opt_set options OPT_DELETE) eqn:Hd.
    + apply delete_files_mode; assumption.
    + apply list_files_mode; assumption.
Qed.

Lemma phase_three_mode options table : forall w,
  mode_run options w (snd (phase_three options table w)).
Proof.
  induction table as [|[key value] rest IH]; intros w; [apply mode_run_refl|].
  cbn [phase_three]. apply mode_run_bind; [|intros _ w1; apply IH].
  unfold digest_foreach. destruct (nfile value >? 1); [|apply mode_run_refl].
  apply digest_foreach_loop_mode.
Qed.

(** X13.  Phase three keeps to the mode of the options, whatever the table
    and the world.  Without the link and the delete option it lists: it
    opens files, reports errors and prints, and no file is touched nor
    standard input read.  In link mode it opens files, unlinks and links,
    and reports; it prints nothing, does not read standard input and
    leaves the listing and the delete session alone, also when the delete
    option is set with it.  In delete mode it opens files, asks, unlinks
    and reports, and never links. *)
Theorem phase_three_keeps_to_its_mode (options : Z) (table : list (string * file_list_t))
    (w : world) :
  let w' := snd (phase_three options table w) in
  (exists events,
     w_trace w' = w_trace w ++ events /\ forallb (mode_event options) events = true) /\
  w_nounlink w' = w_nounlink w /\
  w_nolink w' = w_nolink w /\
  (opt_set options OPT_LINK = true \/ opt_set options OPT_DELETE = false ->
   w_stdin w' = w_stdin w) /\
  (opt_set options OPT_LINK = false -> opt_set options OPT_DELETE = false ->
   w_fs w' = w_fs w).
Proof. apply phase_three_mode. Qed.

(** ** Phase three: what link mode makes of the duplicates *)











Section LinkMode.

Variable options : Z.
Variable fs0 : gmap string inode.

Hypothesis Hl : opt_set options OPT_LINK = true.







End LinkMode.




(** ** Phase three: what a delete session unlinks *)

Lemma fgets_20_line body rest :
  strchr body "010" = None -> (String.length body < 19)%nat ->
  Libc.fgets 20 ((body ++ String "010" "") ++ rest) =
    Some ((body ++ String "010" "")%string, rest).
Proof.
  intros Hnl Hlen. rewrite string_app_assoc, append_cons, append_nil.
  unfold Libc.fgets.
  destruct (body ++ String "010" rest)%string eqn:E.
  - destruct body; discriminate.
  - rewrite <- E. change (20 - 1)%nat with 19%nat.
    rewrite (fgets_line_name 19 body rest Hnl Hlen). reflexivity.
Qed.

Lemma delete_files_loop_lines lines : forall fuel digest delete_list print_list w tail,
  Forall operator_line lines ->
  w_stdin w = fold_right String.append (String "g" (String "o" tail)) lines ->
  (String.length (w_stdin w) < fuel)%nat ->
  exists events,
    w_trace (snd (delete_files_loop fuel digest delete_list print_list w)) =
      w_trace w ++ events /\
    unlink_calls events =
      marked (fold_left retoggled (map Libc.cstr lines) delete_list).
Proof.
  induction lines as [|line rest IH]; intros fuel digest delete_list print_list w tail
    Hlines Hin Hfuel.
  - cbn [fold_right map fold_left] in *. destruct fuel as [|fuel]; [lia|].
    destruct (delete_files_loop_go fuel digest delete_list print_list w tail Hin)
      as (events & E & Hu & _).
    exists events. split; [apply (eff_trace _ _ _ _ E) | exact Hu].
  - apply Forall_cons_1 in Hlines as [(body & -> & Hnl & Hlen & Hgo) Hlines].
    cbn [fold_right map fold_left] in *.
    destruct fuel as [|fuel]; [lia|]. cbn [delete_files_loop]. rewrite bind_run.
    destruct (delete_files_prompt_logged digest delete_list print_list w)
      as (e0 & Hprompt & Hu0 & _).
    rewrite bind_run in Hprompt. rewrite bind_run, Hprompt. cbn [fst snd].
    pose proof (sys_fgets_spec (logged w e0)) as Hf. cbn [logged w_stdin] in Hf.
    rewrite bind_run. rewrite Hin, (fgets_20_line body _ Hnl Hlen) in Hf.
    destruct Hf as (-> & Ef & Hrest).
    set (w2 := snd (sys_fgets 20 (logged w e0))) in *.
    pose proof (eff_trace _ _ _ _ Ef) as T2. cbn [logged w_trace] in T2.
    rewrite app_nil_r in T2.
    fold (go_ahead (Libc.cstr (body ++ String "010" ""))). rewrite Hgo.
    assert (Hlen2 : (String.length (w_stdin w2) < fuel)%nat).
    { rewrite Hrest. rewrite Hin in Hfuel. rewrite string_length_app in Hfuel.
      rewrite string_length_app in Hfuel. simpl in Hfuel. lia. }
    unfold retoggled at 2. cbn zeta.
    destruct (Libc.atoi (Libc.cstr (body ++ String "010" "")) >? 0).
    + destruct (GLib.g_list_nth_data delete_list
                  (Libc.atoi (Libc.cstr (body ++ String "010" "")) - 1)) as [elem|].
      * match goal with
        | |- context [delete_files_loop fuel digest ?dl true w2] =>
            destruct (IH fuel digest dl true w2 tail Hlines Hrest Hlen2) as (e1 & Ht & Hu)
        end.
        exists (e0 ++ e1). rewrite Ht, T2, <- app_assoc. split; [reflexivity|].
        rewrite unlink_calls_app, Hu0. exact Hu.
      * rewrite bind_run, !printf_logged. cbn [fst snd].
        match goal with
        | |- context [delete_files_loop fuel digest delete_list false ?w3] =>
            destruct (IH fuel digest delete_list false w3 tail Hlines Hrest Hlen2)
              as (e1 & Ht & Hu)
        end.
        rewrite Ht. cbn [logged w_trace]. rewrite T2. eexists (e0 ++ [_] ++ e1).
        rewrite <- !app_assoc. split; [reflexivity|].
        rewrite !unlink_calls_app, Hu0. exact Hu.
    + rewrite bind_run, !printf_logged. cbn [fst snd].
      match goal with
      | |- context [delete_files_loop fuel digest delete_list false ?w3] =>
          destruct (IH fuel digest delete_list false w3 tail Hlines Hrest Hlen2)
            as (e1 & Ht & Hu)
      end.
      rewrite Ht. cbn [logged w_trace]. rewrite T2. eexists (e0 ++ [_] ++ e1).
      rewrite <- !app_assoc. split; [reflexivity|].
      rewrite !unlink_calls_app, Hu0. exact Hu.
Qed.

(** The mark of an element the other way round. *)
Lemma toggled_back elem :
  {| file := file {| file := file elem; keep := 1 - keep elem |};
     keep := 1 - keep {| file := file elem; keep := 1 - keep elem |} |} = elem.
Proof. destruct elem as [f k]. cbn [file keep]. f_equal. lia. Qed.

Lemma retoggled_lookup delete_list buf (k : nat) :
  retoggled delete_list buf !! k =
    (fun elem => if Libc.atoi buf =? Z.of_nat k + 1
                 then {| file := file elem; keep := 1 - keep elem |} else elem)
      <$> delete_list !! k.
Proof.
  unfold retoggled. cbn zeta.
  destruct (Z.gtb_spec (Libc.atoi buf) 0) as [Hpos|Hneg].
  - destruct (GLib.g_list_nth_data delete_list (Libc.atoi buf - 1)) as [elem|] eqn:E.
    + apply g_list_nth_data_lookup in E as [_ E]. unfold toggle.
      destruct (Z.eqb_spec (Libc.atoi buf) (Z.of_nat k + 1)) as [Heq|Hne].
      * replace (Z.to_nat (Libc.atoi buf - 1)) with k in * by lia.
        rewrite list_lookup_insert_eq by (apply lookup_lt_Some in E; exact E).
        rewrite E. reflexivity.
      * rewrite list_lookup_insert_ne by lia.
        destruct (delete_list !! k); reflexivity.
    + destruct (Z.eqb_spec (Libc.atoi buf) (Z.of_nat k + 1)) as [Heq|Hne].
      * unfold GLib.g_list_nth_data in E.
        destruct (Z.ltb_spec (Libc.atoi buf - 1) 0) as [|_]; [lia|].
        rewrite nth_error_lookup in E.
        replace (Z.to_nat (Libc.atoi buf - 1)) with k in E by lia.
        rewrite E. reflexivity.
      * destruct (delete_list !! k); reflexivity.
  - destruct (Z.eqb_spec (Libc.atoi buf) (Z.of_nat k + 1)) as [Heq|Hne]; [lia|].
    destruct (delete_list !! k); reflexivity.
Qed.

Lemma typed_cons n buf lines :
  typed n (buf :: lines) = if Libc.atoi buf =? n then S (typed n lines) else typed n lines.
Proof. unfold typed. cbn [List.filter]. destruct (Libc.atoi buf =? n); reflexivity. Qed.

(** The marks after some lines: an element is the other way round when
    its number was typed an odd number of times. *)
Lemma fold_retoggled_lookup lines : forall delete_list (k : nat),
  fold_left retoggled lines delete_list !! k =
    (fun elem => if Nat.odd (typed (Z.of_nat k + 1) lines)
                 then {| file := file elem; keep := 1 - keep elem |} else elem)
      <$> delete_list !! k.
Proof.
  induction lines as [|buf lines IH]; intros delete_list k.
  - cbn. destruct (delete_list !! k); reflexivity.
  - cbn [fold_left]. rewrite IH, retoggled_lookup, typed_cons.
    destruct (delete_list !! k) as [elem|]; [|reflexivity]. cbn [fmap option_fmap option_map].
    destruct (Libc.atoi buf =? Z.of_nat k + 1); [|reflexivity].
    rewrite Nat.odd_succ, <- Nat.negb_odd.
    destruct (Nat.odd (typed (Z.of_nat k + 1) lines)); cbn [negb]; [|reflexivity].
    rewrite toggled_back. reflexivity.
Qed.

Lemma fold_retoggled_imap lines delete_list :
  fold_left retoggled lines delete_list =
    imap (fun k elem => if Nat.odd (typed (Z.of_nat k + 1) lines)
                        then {| file := file elem; keep := 1 - keep elem |} else elem)
         delete_list.
Proof.
  apply list_eq. intros k. rewrite fold_retoggled_lookup, list_lookup_imap. reflexivity.
Qed.

Lemma marked_duplicates lines l : forall i : nat,
  marked (imap (fun k elem => if Nat.odd (typed (Z.of_nat (i + k) + 1) lines)
                              then {| file := file elem; keep := 1 - keep elem |} else elem)
               (map (fun data => {| file := data; keep := 0 |}) l)) =
    even_typed (Z.of_nat i + 1) l lines.
Proof.
  induction l as [|f next IH]; intros i; [reflexivity|].
  cbn [map even_typed]. rewrite imap_cons.
  replace (Z.of_nat (i + 0) + 1) with (Z.of_nat i + 1) by lia.
  unfold marked in *. cbn [List.filter].
  rewrite <- Nat.negb_odd.
  assert (Hnext : imap ((fun k elem =>
                           if Nat.odd (typed (Z.of_nat (i + k) + 1) lines)
                           then {| file := file elem; keep := 1 - keep elem |} else elem) ∘ S)
                    (map (fun data => {| file := data; keep := 0 |}) next) =
                  imap (fun k elem =>
                          if Nat.odd (typed (Z.of_nat (S i + k) + 1) lines)
                          then {| file := file elem; keep := 1 - keep elem |} else elem)
                    (map (fun data => {| file := data; keep := 0 |}) next)).
  { apply imap_ext. intros k elem _. cbn.
    replace (Z.of_nat (i + S k) + 1) with (Z.of_nat (S (i + k)) + 1) by lia. reflexivity. }
  rewrite Hnext. specialize (IH (S i)).
  replace (Z.of_nat (S i) + 1) with (Z.of_nat i + 1 + 1) in IH by lia.
  destruct (Nat.odd (typed (Z.of_nat i + 1) lines)); cbn [negb keep file Z.sub Z.eqb map app];
    change (1 - 0 =? 0) with false; cbn beta iota; rewrite IH; reflexivity.
Qed.

(** What is marked for deletion after some lines, by the numbers typed. *)
Lemma marked_fold_retoggled master l lines :
  marked (fold_left retoggled lines (initial_delete_list master l)) =
    marked_after master l lines.
Proof.
  rewrite fold_retoggled_imap, initial_delete_list_eq. rewrite imap_cons.
  unfold marked_after. change (Z.of_nat 0 + 1) with 1.
  pose proof (marked_duplicates lines l 1) as H.
  change (Z.of_nat 1 + 1) with 2 in H. rewrite <- H. clear H.
  unfold marked. cbn [List.filter].
  assert (Hnext : forall dl,
            imap ((fun k elem =>
                     if Nat.odd (typed (Z.of_nat k + 1) lines)
                     then {| file := file elem; keep := 1 - keep elem |} else elem) ∘ S) dl =
            imap (fun k elem =>
                    if Nat.odd (typed (Z.of_nat (1 + k) + 1) lines)
                    then {| file := file elem; keep := 1 - keep elem |} else elem) dl).
  { intros dl. apply imap_ext. intros k elem _. reflexivity. }
  rewrite Hnext.
  destruct (Nat.odd (typed 1 lines)); cbn [keep file Z.sub Z.eqb map app]; reflexivity.
Qed.

(** ** The numbers [atoi] reads *)

Lemma digits_decimal d : forall rest acc,
  no_digit_ahead rest = true ->
  Libc.digits (NilEmpty.string_of_uint d ++ rest) (Z.of_nat acc) =
    Z.of_nat (Nat.of_uint_acc d acc).
Proof.
  induction d as [|d IH|d IH|d IH|d IH|d IH|d IH|d IH|d IH|d IH|d IH]; intros rest acc Hrest;
    cbn [NilEmpty.string_of_uint Nat.of_uint_acc];
    rewrite ?append_cons, ?append_nil.
  1: { destruct rest as [|c rest]; [reflexivity|]. cbn [Libc.digits].
       cbn [no_digit_ahead] in Hrest. apply negb_true_iff in Hrest. rewrite Hrest.
       reflexivity. }
  all: cbn [Libc.digits]; change (Libc.isdigit _) with true; cbn beta iota;
    rewrite <- (IH rest _ Hrest); f_equal; rewrite Nat.tail_mul_spec;
    unfold Libc.uchar; cbn [N_of_ascii N_of_digits]; lia.
Qed.

Lemma cstr_decimal d rest :
  Libc.cstr (NilEmpty.string_of_uint d ++ rest) =
    (NilEmpty.string_of_uint d ++ Libc.cstr rest)%string.
Proof.
  induction d; cbn [NilEmpty.string_of_uint]; rewrite ?append_cons, ?append_nil;
    [reflexivity | cbn [Libc.cstr]; change (Ascii.eqb _ zero) with false; cbn beta iota;
                   rewrite IHd; reflexivity ..].
Qed.

Lemma no_digit_ahead_cstr rest :
  no_digit_ahead rest = true -> no_digit_ahead (Libc.cstr rest) = true.
Proof.
  destruct rest as [|c rest]; [reflexivity|]. cbn [Libc.cstr no_digit_ahead].
  destruct (Ascii.eqb c zero); [reflexivity | auto].
Qed.

(** [atoi] on a number in decimal digits, below 2^31 and followed by what
    is no digit, gives the number. *)
Lemma atoi_decimal (n : nat) rest :
  Z.of_nat n < 2147483648 -> no_digit_ahead rest = true ->
  Libc.atoi (Libc.cstr (decimal n ++ rest)) = Z.of_nat n.
Proof.
  intros Hn Hrest. unfold decimal. rewrite cstr_decimal.
  apply no_digit_ahead_cstr in Hrest.
  pose proof (digits_decimal (Nat.to_uint n) (Libc.cstr rest) 0 Hrest) as Hd.
  fold (Nat.of_uint (Nat.to_uint n)) in Hd. rewrite DecimalNat.Unsigned.of_to in Hd.
  assert (Hnil : Nat.to_uint n <> Decimal.Nil).
  { rewrite <- (DecimalNat.Unsigned.of_to n), DecimalNat.Unsigned.to_of.
    apply DecimalFacts.unorm_nonnil. }
  unfold Libc.atoi, Libc.strtol.
  assert (E : CInt.clamp_long (Libc.digits (NilEmpty.string_of_uint (Nat.to_uint n) ++
                                            Libc.cstr rest) 0) = Z.of_nat n).
  { change 0 with (Z.of_nat 0). rewrite Hd. unfold CInt.clamp_long, CInt.LONG_MIN, CInt.LONG_MAX.
    lia. }
  assert (T : CInt.to_int (Z.of_nat n) = Z.of_nat n).
  { unfold CInt.to_int. rewrite Z.mod_small by lia. lia. }
  destruct (Nat.to_uint n) as [|d|d|d|d|d|d|d|d|d|d]; [contradiction | ..];
    cbn [NilEmpty.string_of_uint] in *; rewrite ?append_cons in *;
    cbn [Libc.skip_space]; change (Libc.isspace _) with false; cbn beta iota;
    rewrite E; exact T.
Qed.

(** X15.  A delete session in which the operator types some lines, of at
    most 18 characters each, and then the go-ahead.  What is unlinked is
    settled by how often each number was typed, a line counting for the
    number [atoi] makes of it: the master, number 1 in the listing, is
    unlinked when its number was typed an odd number of times, a duplicate
    when its number was typed an even number of times, not at all for one.
    Lines of which [atoi] makes no number of the listing change nothing.
    [atoi] makes of the decimal digits of a number below 2^31, followed by
    anything but a digit, that number. *)
Theorem delete_session_unlinks_marked (digest : string) (master : file_t) (l : list file_t)
    (w : world) (lines : list string) (tail : string) :
  Forall operator_line lines ->
  w_stdin w = fold_right String.append (String "g" (String "o" tail)) lines ->
  (exists events,
     w_trace (snd (delete_files digest master l w)) = w_trace w ++ events /\
     unlink_calls events = marked_after master l (map Libc.cstr lines)) /\
  (forall (n : nat) rest,
     Z.of_nat n < 2147483648 -> no_digit_ahead rest = true ->
     Libc.atoi (Libc.cstr (decimal n ++ rest)) = Z.of_nat n).
Proof.
  intros Hlines Hin. split; [|apply atoi_decimal].
  unfold delete_files. rewrite bind_run, emit_logged. cbn [fst snd].
  destruct (delete_files_loop_lines lines (S (String.length (w_stdin w))) digest
              (initial_delete_list master l) true
              (logged w [Enter (Call_delete_files digest master l)]) tail Hlines Hin)
    as (events & Ht & Hu); [cbn [logged w_stdin]; lia|].
  cbn [logged w_stdin] in *. rewrite Ht. cbn [logged w_trace].
  exists ([Enter (Call_delete_files digest master l)] ++ events).
  rewrite <- app_assoc. split; [reflexivity|]. rewrite unlink_calls_app, Hu.
  apply marked_fold_retoggled.
Qed.

Lemma delete_session_unlinks_marked_witness :
  let w := example_world "2x
1
3
+3
go
" in
  Forall operator_line ["2x
"; "1
"; "3
"; "+3
"] /\
  unlink_calls (w_trace (snd (delete_files "k" (example_file "a" 1 0 1)
                                [example_file "b" 1 0 2; example_file "c" 1 0 3] w))) =
    ["a"; "c"].
Proof.
  intros w.
  assert (Hlines : Forall operator_line ["2x
"; "1
"; "3
"; "+3
"]).
  { repeat constructor.
    - exists "2x". repeat split; simpl; lia.
    - exists "1". repeat split; simpl; lia.
    - exists "3". repeat split; simpl; lia.
    - exists "+3". repeat split; simpl; lia. }
  split; [exact Hlines|].
  destruct (proj1 (delete_session_unlinks_marked "k" (example_file "a" 1 0 1)
                     [example_file "b" 1 0 2; example_file "c" 1 0 3] w ["2x
"; "1
"; "3
"; "+3
"] "
" Hlines eq_refl)) as (events & Ht & Hu).
  rewrite Ht, unlink_calls_app, Hu. reflexivity.
Defined.

(** ** The command line and the whole program *)

Lemma opt_set_testbit options k :
  0 <= k -> opt_set options (2 ^ k) = Z.testbit options k.
Proof.
  intros Hk. unfold opt_set.
  destruct (Z.testbit options k) eqn:E.
  - assert (H : Z.land options (2 ^ k) = 2 ^ k).
    { apply Z.bits_inj'. intros n Hn. rewrite Z.land_spec, Z.pow2_bits_eqb by exact Hk.
      destruct (Z.eqb_spec k n) as [<-|]; [rewrite E; reflexivity | apply andb_false_r]. }
    rewrite H. apply negb_true_iff, Z.eqb_neq. pose proof (Z.pow_pos_nonneg 2 k). lia.
  - assert (H : Z.land options (2 ^ k) = 0).
    { apply Z.bits_inj'. intros n Hn. rewrite Z.land_spec, Z.pow2_bits_eqb, Z.bits_0 by exact Hk.
      destruct (Z.eqb_spec k n) as [<-|]; [rewrite E; reflexivity | apply andb_false_r]. }
    rewrite H. reflexivity.
Qed.

Lemma switch_flag_bit c F : In (c, F) switches -> exists k, 0 <= k /\ F = 2 ^ k.
Proof.
  intros H. cbn in H.
  repeat (destruct H as [[= <- <-]|H];
          [first [ exists 0; split; [lia | reflexivity] | exists 1; split; [lia | reflexivity]
                 | exists 2; split; [lia | reflexivity] | exists 3; split; [lia | reflexivity]
                 | exists 4; split; [lia | reflexivity] | exists 5; split; [lia | reflexivity]
                 | exists 6; split; [lia | reflexivity] | exists 7; split; [lia | reflexivity]
                 | exists 8; split; [lia | reflexivity] | exists 9; split; [lia | reflexivity]
                 | exists 10; split; [lia | reflexivity] | exists 11; split; [lia | reflexivity] ]|]).
  destruct H.
Qed.

Lemma opt_set_lor options flag c F :
  In (c, F) switches ->
  opt_set (Z.lor options flag) F = opt_set options F || opt_set flag F.
Proof.
  intros H. destruct (switch_flag_bit c F H) as (k & Hk & ->).
  rewrite !opt_set_testbit by exact Hk. apply Z.lor_spec.
Qed.

(** One switch that sets a flag. *)
Lemma main_getopt_switch opt rest options w :
  is_switch opt ->
  exists flag,
    In (opt, flag) switches /\
    main_getopt (opt :: rest) options w = main_getopt rest (Z.lor options flag) w.
Proof.
  intros H. unfold is_switch in H. cbn in H.
  repeat (destruct H as [<-|H]; [eexists; split; [|reflexivity]; cbn; tauto|]).
  destruct H.
Qed.

Lemma switches_distinct c F c' F' :
  In (c, F) switches -> In (c', F') switches -> opt_set F' F = bool_decide (c' = c).
Proof.
  intros H H'. cbn in H, H'.
  repeat (destruct H as [[= <- <-]|H];
          [repeat (destruct H' as [[= <- <-]|H']; [reflexivity|]); destruct H'|]).
  destruct H.
Qed.

Lemma main_getopt_flags opts : forall options w,
  Forall is_switch opts ->
  exists options',
    main_getopt opts options w = (inl options', w) /\
    forall c F, In (c, F) switches ->
      opt_set options' F = opt_set options F || bool_decide (c ∈ opts).
Proof.
  induction opts as [|opt rest IH]; intros options w Hopts.
  - exists options. split; [reflexivity|]. intros c F _.
    rewrite bool_decide_eq_false_2 by (apply not_elem_of_nil). rewrite orb_false_r. reflexivity.
  - apply Forall_cons_1 in Hopts as [Hopt Hopts].
    destruct (main_getopt_switch opt rest options w Hopt) as (flag & Hflag & ->).
    destruct (IH (Z.lor options flag) w Hopts) as (options' & E & Hbits).
    exists options'. split; [exact E|]. intros c F HF.
    rewrite (Hbits c F HF), (opt_set_lor options flag c F HF).
    rewrite (switches_distinct c F opt flag HF Hflag), <- orb_assoc. f_equal.
    destruct (decide (opt = c)) as [->|Hne].
    + rewrite bool_decide_eq_true_2 by reflexivity.
      rewrite (bool_decide_eq_true_2 (c ∈ c :: rest)) by (apply elem_of_cons; left; reflexivity).
      reflexivity.
    + rewrite (bool_decide_eq_false_2 (opt = c)) by exact Hne. cbn [orb].
      apply bool_decide_ext. rewrite elem_of_cons. split; [intros H; right; exact H|].
      intros [H|H]; [exfalso; apply Hne; symmetry; exact H | exact H].
Qed.

Lemma opt_set_0 F : opt_set 0 F = false.
Proof. reflexivity. Qed.

Lemma getopt_switches_spec opts w :
  Forall is_switch opts ->
  exists options,
    main_getopt opts 0 w = (inl options, w) /\
    forall c F, In (c, F) switches -> (opt_set options F = true <-> In c opts).
Proof.
  intros Hopts. destruct (main_getopt_flags opts 0 w Hopts) as (options & E & Hbits).
  exists options. split; [exact E|]. intros c F HF.
  rewrite (Hbits c F HF), opt_set_0. cbn [orb]. rewrite bool_decide_eq_true.
  apply list_elem_of_In.
Qed.

(** X16.  The switches that set a flag can be given in any order and any
    number of times: when the command line has no other switch, the option
    loop ends without a message, and a flag is set in the options exactly
    when its switch was given. *)
Theorem main_getopt_sets_flags (opts : list ascii) (w : world) :
  Forall is_switch opts ->
  exists options,
    main_getopt opts 0 w = (inl options, w) /\
    forall c F, In (c, F) switches -> (opt_set options F = true <-> In c opts).
Proof. apply getopt_switches_spec. Qed.

Lemma main_getopt_sets_flags_witness :
  Forall is_switch ["r"; "d"; "r"]%char /\
  main_getopt ["r"; "d"; "r"]%char 0 (example_world "") =
    (inl (Z.lor OPT_RECURSE OPT_DELETE), example_world "").
Proof.
  assert (H : Forall is_switch ["r"; "d"; "r"]%char).
  { repeat constructor; unfold is_switch; cbn; tauto. }
  split; [exact H|].
  destruct (main_getopt_sets_flags ["r"; "d"; "r"]%char (example_world "") H)
    as (options & E & _).
  rewrite E. vm_compute in E. injection E as <-. reflexivity.
Defined.

Lemma main_getopt_app pre : forall post options w,
  Forall is_switch pre ->
  exists options',
    main_getopt (pre ++ post) options w = main_getopt post options' w.
Proof.
  induction pre as [|opt rest IH]; intros post options w Hpre; [exists options; reflexivity|].
  apply Forall_cons_1 in Hpre as [Hopt Hpre]. cbn [app].
  destruct (main_getopt_switch opt (rest ++ post) options w Hopt) as (flag & _ & ->).
  apply IH, Hpre.
Qed.

Lemma main_getopt_other opt post options w :
  ~ is_switch opt ->
  main_getopt (opt :: post) options w =
    if Ascii.eqb opt "V" then (inr 0, logged w [Stderr version])
    else if Ascii.eqb opt "h" then (inr 0, logged w [Stderr help_text])
    else (inr 1, logged w [GLog LevelCritical
                             "bad command line args - try 'dupfind --help'" []]).
Proof.
  intros Hn. cbn [main_getopt].
  repeat match goal with
  | |- context [Ascii.eqb opt ?c] =>
      lazymatch c with
      | "V"%char => fail
      | "h"%char => fail
      | _ => destruct (Ascii.eqb_spec opt c) as [->|?];
             [exfalso; apply Hn; unfold is_switch; cbn; tauto|]
      end
  end.
  destruct (Ascii.eqb opt "V"); [reflexivity|].
  destruct (Ascii.eqb opt "h"); reflexivity.
Qed.

(** X17.  The first switch that sets no flag ends the run, whatever comes
    before and after it on the command line: the version switch and the
    help switch put their text on standard error and [main] returns 0, any
    other makes it report bad arguments and return 1.  Nothing else is
    done; the delete and the link switch together before a help switch are
    not an error. *)
Theorem main_stops_at_first_other_switch
    (md5_hex : list byte -> string) (build_file_list : Z -> list string -> M (Z * list file_t))
    (pre : list ascii) (opt : ascii) (post : list ascii) (args : list string) (w : world) :
  Forall is_switch pre -> ~ is_switch opt ->
  main md5_hex build_file_list (pre ++ opt :: post) args w =
    if Ascii.eqb opt "V" then (0, logged w [Stderr version])
    else if Ascii.eqb opt "h" then (0, logged w [Stderr help_text])
    else (1, logged w [GLog LevelCritical
                         "bad command line args - try 'dupfind --help'" []]).
Proof.
  intros Hpre Hopt. unfold main. rewrite bind_run.
  destruct (main_getopt_app pre (opt :: post) 0 w Hpre) as (options' & ->).
  rewrite (main_getopt_other opt post options' w Hopt).
  destruct (Ascii.eqb opt "V"); [reflexivity|].
  destruct (Ascii.eqb opt "h"); reflexivity.
Qed.

Lemma main_stops_at_first_other_switch_witness :
  Forall is_switch ["d"; "l"]%char /\ ~ is_switch "h"%char /\
  main (fun _ => "") (phase_one example_sys) ["d"; "l"; "h"; "x"]%char ["d"]
    (example_world "") =
    (0, logged (example_world "") [Stderr help_text]).
Proof.
  assert (H : Forall is_switch ["d"; "l"]%char).
  { repeat constructor; unfold is_switch; cbn; tauto. }
  assert (Hh : ~ is_switch "h"%char).
  { unfold is_switch. cbn. intuition discriminate. }
  split; [exact H|]. split; [exact Hh|].
  exact (main_stops_at_first_other_switch (fun _ => "") (phase_one example_sys)
           ["d"; "l"]%char "h"%char ["x"]%char ["d"] (example_world "") H Hh).
Defined.

Lemma land_both options :
  (Z.land options (Z.lor OPT_DELETE OPT_LINK) =? Z.lor OPT_DELETE OPT_LINK) =
    opt_set options OPT_DELETE && opt_set options OPT_LINK.
Proof.
  change OPT_DELETE with (2 ^ 8). change OPT_LINK with (2 ^ 9).
  rewrite !opt_set_testbit by lia.
  destruct (Z.testbit options 8) eqn:H8; [destruct (Z.testbit options 9) eqn:H9|]; cbn [andb].
  - change (2 ^ 8) with OPT_DELETE. change (2 ^ 9) with OPT_LINK.
    rewrite (land_delete_link options H8 H9). apply Z.eqb_refl.
  - apply Z.eqb_neq. intros E. apply (f_equal (fun z => Z.testbit z 9)) in E.
    rewrite Z.land_spec, H9 in E. discriminate.
  - apply Z.eqb_neq. intros E. apply (f_equal (fun z => Z.testbit z 8)) in E.
    rewrite Z.land_spec, H8 in E. discriminate.
Qed.

(** [main] when the options are read to the end and are in order: the
    three phases, one after the other. *)
Lemma main_run md5_hex build_file_list opts args options w :
  main_getopt opts 0 w = (inl options, w) ->
  opt_set options OPT_DELETE && opt_set options OPT_LINK = false ->
  bool_decide (args = []) && negb (opt_set options OPT_STDIN) = false ->
  let verbose := opt_set options OPT_VERBOSE in
  let w1 := if verbose then logged w [GLog LevelInfo "building file list" []] else w in
  let r1 := build_file_list options args w1 in
  let w2 := if verbose then logged (snd r1) [GLog LevelInfo "calculating digests" []]
            else snd r1 in
  let r2 := phase_two md5_hex (snd (fst r1)) {| hash := ∅; digest := [] |} w2 in
  let w3 := if verbose then logged (snd r2) [GLog LevelInfo "performing required actions" []]
            else snd r2 in
  main md5_hex build_file_list opts args w =
    (fst (fst r1), snd (phase_three options (map_to_list (hash (fst r2))) w3)).
Proof.
  intros Hopts Hboth Hwork. cbn zeta. unfold main. rewrite bind_run, Hopts. cbn [fst snd].
  rewrite land_both, Hboth, Hwork. rewrite !bind_run.
  destruct (opt_set options OPT_VERBOSE); unfold g_info; rewrite ?emit_logged; unfold ret;
    cbn [fst snd];
    destruct (build_file_list options args _) as [[status file_tree] w2]; cbn [fst snd];
    rewrite ?bind_run; reflexivity.
Qed.

Lemma switch_In c F : In (c, F) switches -> is_switch c.
Proof. intros H. unfold is_switch. apply in_map_iff. exists (c, F). auto. Qed.

(** X18.  With no name on the command line and no stdin switch there is
    nothing to do: [main] says so and returns 1 before phase one. *)
Theorem main_nothing_to_do
    (md5_hex : list byte -> string) (build_file_list : Z -> list string -> M (Z * list file_t))
    (opts : list ascii) (w : world) :
  Forall is_switch opts -> ~ In "i"%char opts ->
  ~ (In "d"%char opts /\ In "l"%char opts) ->
  main md5_hex build_file_list opts [] w =
    (1, logged w [GLog LevelCritical "nothing to do - try 'dupfind --help'" []]).
Proof.
  intros Hopts Hi Hdl. unfold main. rewrite bind_run.
  destruct (getopt_switches_spec opts w Hopts) as (options & -> & Hflags).
  cbn [fst snd]. rewrite land_both.
  assert (Hboth : opt_set options OPT_DELETE && opt_set options OPT_LINK = false).
  { destruct (opt_set options OPT_DELETE) eqn:Ed; [|reflexivity].
    destruct (opt_set options OPT_LINK) eqn:El; [|reflexivity].
    exfalso. apply Hdl. split.
    - apply (Hflags "d"%char OPT_DELETE); [cbn; tauto | exact Ed].
    - apply (Hflags "l"%char OPT_LINK); [cbn; tauto | exact El]. }
  rewrite Hboth.
  assert (Hstdin : opt_set options OPT_STDIN = false).
  { destruct (opt_set options OPT_STDIN) eqn:Es; [|reflexivity].
    exfalso. apply Hi. apply (Hflags "i"%char OPT_STDIN); [cbn; tauto | exact Es]. }
  rewrite Hstdin, bool_decide_eq_true_2 by reflexivity. cbn [andb negb].
  rewrite bind_run, g_critical_logged. reflexivity.
Qed.

Lemma main_nothing_to_do_witness :
  main (fun _ => "") (phase_one example_sys) ["r"; "d"]%char [] (example_world "") =
    (1, logged (example_world "")
          [GLog LevelCritical "nothing to do - try 'dupfind --help'" []]).
Proof.
  apply main_nothing_to_do.
  - repeat constructor; unfold is_switch; cbn; tauto.
  - cbn. intuition discriminate.
  - cbn. intuition discriminate.
Defined.

(** ** The whole program *)

Lemma changes_no_file_refl w : changes_no_file w w.
Proof. split; [reflexivity|]. exists []. rewrite app_nil_r. auto. Qed.

Lemma changes_no_file_trans w w1 w2 :
  changes_no_file w w1 -> changes_no_file w1 w2 -> changes_no_file w w2.
Proof.
  intros (F1 & e1 & T1 & H1) (F2 & e2 & T2 & H2). split; [congruence|].
  exists (e1 ++ e2). rewrite T2, T1, app_assoc, forallb_app, H1, H2. auto.
Qed.

Lemma changes_no_file_logged w input events :
  forallb (fun e => negb (is_change e)) events = true ->
  changes_no_file w (logged (with_stdin w input) events).
Proof. intros H. split; [reflexivity|]. exists events. auto. Qed.

Lemma changes_no_file_info w (verbose : bool) format :
  changes_no_file w (if verbose then logged w [GLog LevelInfo format []] else w).
Proof.
  destruct verbose; [|apply changes_no_file_refl].
  split; [reflexivity|]. exists [GLog LevelInfo format []]. auto.
Qed.

Lemma is_warning_no_change events :
  forallb is_warning events = true ->
  forallb (fun e => negb (is_change e)) events = true.
Proof.
  rewrite !forallb_forall. intros H e He. specialize (H e He).
  destruct e; try discriminate; reflexivity.
Qed.

(** Phase one leaves the files alone, whatever the arguments are. *)
Lemma phase_one_writes sys options args w :
  exists status file_list events,
    phase_one sys options args w =
      ((status, file_list),
       logged (if opt_set options OPT_STDIN then with_stdin w "" else w) events) /\
    forallb is_warning events = true.
Proof.
  unfold phase_one. rewrite bind_run.
  destruct (phase_one_args_counts options sys args 0 GTree.g_tree_new eq_refl)
    as (s1 & t1 & e1 & W1 & F1 & _).
  rewrite (W1 w). cbn [fst snd].
  destruct (opt_set options OPT_STDIN).
  - rewrite !bind_run, do_stdin_args. cbn [w_stdin logged].
    destruct (phase_one_args_counts options sys (stdin_names (w_stdin w)) 0 t1 eq_refl)
      as (s2 & t2 & e2 & W2 & F2 & _).
    rewrite (W2 (with_stdin (logged w e1) "")). cbn [fst snd]. unfold ret.
    exists (CInt.to_int (s1 + s2)), (map snd t2), (e1 ++ e2).
    rewrite with_stdin_logged, logged_app, forallb_app, F1, F2. auto.
  - rewrite !bind_run. unfold ret. cbn [fst snd]. exists s1, (map snd t1), e1. auto.
Qed.

Lemma phase_one_changes_no_file sys options args w :
  changes_no_file w (snd (phase_one sys options args w)).
Proof.
  destruct (phase_one_writes sys options args w) as (status & file_list & events & E & F).
  rewrite E. cbn [snd]. destruct (opt_set options OPT_STDIN).
  - apply changes_no_file_logged, is_warning_no_change, F.
  - split; [reflexivity|]. exists events. split; [reflexivity|].
    apply is_warning_no_change, F.
Qed.

Lemma phase_two_changes_no_file md5_hex file_tree w :
  changes_no_file w (snd (phase_two md5_hex file_tree {| hash := ∅; digest := [] |} w)).
Proof.
  destruct (phase_two_groups md5_hex file_tree {| hash := ∅; digest := [] |} w [])
    as (_ & _ & E).
  - intros key. cbn [hash]. apply lookup_empty.
  - reflexivity.
  - rewrite E. split; [reflexivity|]. eexists. split; [reflexivity|].
    apply forallb_forall. intros e He. apply in_concat in He as (events & Hev & He).
    apply in_map_iff in Hev as (fp & <- & _). unfold file_foreach_events in He.
    destruct (opened (w_fs w) (name fp)); cbn in He;
      repeat (destruct He as [<-|He]; [reflexivity|]); destruct He.
Qed.

Lemma phase_three_list_changes_no_file options table w :
  opt_set options OPT_LINK = false -> opt_set options OPT_DELETE = false ->
  changes_no_file w (snd (phase_three options table w)).
Proof.
  intros Hl Hd. destruct (phase_three_mode options table w) as ((events & T & F) & _ & _ & _ & X).
  split; [apply X; assumption|]. exists events. split; [exact T|].
  rewrite forallb_forall in *. intros e He. specialize (F e He).
  unfold mode_event in F. rewrite Hl, Hd in F. destruct e; try discriminate; reflexivity.
Qed.

(** X19.  The status [main] returns after the three phases is the status
    of phase one: what goes wrong in phase two and in phase three (a file
    that does not open, a read error, a link or an unlink that fails) does
    not change it. *)
Theorem main_returns_status_of_phase_one
    (md5_hex : list byte -> string) (build_file_list : Z -> list string -> M (Z * list file_t))
    (opts : list ascii) (args : list string) (w : world) :
  Forall is_switch opts ->
  ~ (In "d"%char opts /\ In "l"%char opts) ->
  args <> [] \/ In "i"%char opts ->
  exists options,
    main_getopt opts 0 w = (inl options, w) /\
    fst (main md5_hex build_file_list opts args w) =
      fst (fst (build_file_list options args
                  (if opt_set options OPT_VERBOSE
                   then logged w [GLog LevelInfo "building file list" []] else w))).
Proof.
  intros Hopts Hdl Hwork.
  destruct (getopt_switches_spec opts w Hopts) as (options & E & Hflags).
  exists options. split; [exact E|].
  rewrite (main_run md5_hex build_file_list opts args options w E); [reflexivity| |].
  - destruct (opt_set options OPT_DELETE) eqn:Ed; [|reflexivity].
    destruct (opt_set options OPT_LINK) eqn:El; [|reflexivity].
    exfalso. apply Hdl. split.
    + apply (Hflags "d"%char OPT_DELETE); [cbn; tauto | exact Ed].
    + apply (Hflags "l"%char OPT_LINK); [cbn; tauto | exact El].
  - destruct Hwork as [Ha|Hi].
    + rewrite bool_decide_eq_false_2 by exact Ha. reflexivity.
    + assert (Hs : opt_set options OPT_STDIN = true)
        by (apply (Hflags "i"%char OPT_STDIN); [cbn; tauto | exact Hi]).
      rewrite Hs. apply andb_false_r.
Qed.

Lemma main_returns_status_of_phase_one_witness :
  fst (dupfind (fun _ => "") example_sys ["r"]%char ["d"; "nowhere"] (example_world "")) = 2.
Proof.
  destruct (main_returns_status_of_phase_one (fun _ => "") (phase_one example_sys)
              ["r"]%char ["d"; "nowhere"] (example_world ""))
    as (options & E & Hs).
  - repeat constructor; unfold is_switch; cbn; tauto.
  - cbn. intuition discriminate.
  - left. discriminate.
  - unfold dupfind. rewrite Hs. vm_compute in E. injection E as <-. vm_compute. reflexivity.
Defined.

(** X20.  Without the delete and the link switch the program changes no
    entry of the file system, whatever is on the command line, in the file
    system and on standard input: it calls neither [unlink] nor [link]. *)
Theorem dupfind_list_mode_changes_no_file
    (md5_hex : list byte -> string) (sys : namespace)
    (opts : list ascii) (args : list string) (w : world) :
  Forall is_switch opts -> ~ In "d"%char opts -> ~ In "l"%char opts ->
  let w' := snd (dupfind md5_hex sys opts args w) in
  w_fs w' = w_fs w /\
  exists events,
    w_trace w' = w_trace w ++ events /\
    forallb (fun e => negb (is_change e)) events = true.
Proof.
  intros Hopts Hd Hl. fold (changes_no_file w (snd (dupfind md5_hex sys opts args w))).
  destruct (getopt_switches_spec opts w Hopts) as (options & E & Hflags).
  assert (Ed : opt_set options OPT_DELETE = false).
  { destruct (opt_set options OPT_DELETE) eqn:Ed; [|reflexivity].
    exfalso. apply Hd. apply (Hflags "d"%char OPT_DELETE); [cbn; tauto | exact Ed]. }
  assert (El : opt_set options OPT_LINK = false).
  { destruct (opt_set options OPT_LINK) eqn:El; [|reflexivity].
    exfalso. apply Hl. apply (Hflags "l"%char OPT_LINK); [cbn; tauto | exact El]. }
  unfold dupfind.
  destruct (bool_decide (args = []) && negb (opt_set options OPT_STDIN)) eqn:Hwork.
  - unfold main. rewrite bind_run, E. cbn [fst snd]. rewrite land_both, Ed, Hwork.
    cbn [andb]. rewrite bind_run, g_critical_logged. cbn [fst snd ret].
    split; [reflexivity|]. eexists. split; reflexivity.
  - rewrite (main_run md5_hex (phase_one sys) opts args options w E); [|rewrite Ed; reflexivity
                                                                        |exact Hwork].
    cbn [snd].
    eapply changes_no_file_trans; [apply changes_no_file_info|].
    eapply changes_no_file_trans; [apply phase_one_changes_no_file|].
    eapply changes_no_file_trans; [apply changes_no_file_info|].
    eapply changes_no_file_trans; [apply phase_two_changes_no_file|].
    eapply changes_no_file_trans; [apply changes_no_file_info|].
    apply phase_three_list_changes_no_file; assumption.
Qed.

Lemma dupfind_list_mode_changes_no_file_witness :
  w_fs (snd (dupfind (fun _ => "") example_sys ["r"; "v"]%char ["d"] (example_world ""))) =
    w_fs (example_world "").
Proof.
  apply (dupfind_list_mode_changes_no_file (fun _ => "") example_sys ["r"; "v"]%char ["d"]
           (example_world "")).
  - repeat constructor; unfold is_switch; cbn; tauto.
  - cbn. intuition discriminate.
  - cbn. intuition discriminate.
Defined.

Lemma phase_one_two_table_ok md5_hex sys options args w w2 :
  Forall (fun arg => Libc.is_cstring arg = true) args ->
  table_ok
    (map_to_list
       (hash (fst (phase_two md5_hex (snd (fst (phase_one sys options args w)))
                     {| hash := ∅; digest := [] |} w2)))).
Proof.
  intros Hargs.
  destruct (phase_one_spec sys options args w Hargs)
    as (status & file_tree & events & E & _ & _ & [[Hs Hcs] Hall] & _).
  rewrite E. cbn [fst snd]. apply phase_two_table_ok.
  assert (Hkeys : Forall (fun entry => name (snd entry) = fst entry) file_tree).
  { eapply Forall_impl; [exact Hall|]. intros entry (H & _). exact H. }
  destruct (sorted_values file_tree name Hkeys Hs) as [_ Hnames].
  rewrite Hnames. apply tree_ok_NoDup. split; assumption.
Qed.

(** X21.  The table that phase two makes of the file list of phase one,
    for arguments that are C strings: every group counts its files, and no
    path is in the table twice.  This is what the properties of phase
    three ask of the table. *)
Theorem phases_one_and_two_give_table_ok (md5_hex : list byte -> string) (sys : namespace)
    (options : Z) (args : list string) (w w2 : world) :
  Forall (fun arg => Libc.is_cstring arg = true) args ->
  table_ok
    (map_to_list
       (hash (fst (phase_two md5_hex (snd (fst (phase_one sys options args w)))
                     {| hash := ∅; digest := [] |} w2)))).
Proof. apply phase_one_two_table_ok. Qed.

Lemma phases_one_and_two_give_table_ok_witness :
  table_ok
    (map_to_list
       (hash (fst (phase_two (fun _ => "") (snd (fst (phase_one example_sys OPT_RECURSE
                                                        ["d"; "d/a"] (example_world ""))))
                     {| hash := ∅; digest := [] |} (example_world ""))))).
Proof.
  apply phases_one_and_two_give_table_ok. repeat constructor.
Defined.

Lemma every_line_False_nil input : every_line (fun _ => False) input -> input = "".
Proof. intros H. destruct H as [|input buf rest _ []]. reflexivity. Qed.

Lemma unlink_calls_nil_no_unlink events e :
  unlink_calls events = [] -> In e events ->
  match e with SysUnlink _ _ => False | _ => True end.
Proof.
  intros Hu He. destruct e; try exact I.
  assert (Hin : path ∈ unlink_calls events).
  { unfold unlink_calls. apply list_elem_of_omap. eexists. split; [apply list_elem_of_In, He|].
    reflexivity. }
  rewrite Hu in Hin. apply not_elem_of_nil in Hin. exact Hin.
Qed.

Lemma touched_none options fs table path :
  opt_set options OPT_LINK = false ->
  ~ In path (touched_by_table options fs (fun _ _ => []) table).
Proof.
  intros Hl Hin. unfold touched_by_table in Hin.
  apply in_concat in Hin as (names & Hn & Hp). apply in_map_iff in Hn as (entry & <- & _).
  unfold touched_by_bucket in Hp. apply in_concat in Hp as (names & Hn & Hp).
  apply in_map_iff in Hn as ([master good_list] & <- & _).
  unfold touched_by_class in Hp. rewrite Hl in Hp.
  destruct (opt_set options OPT_DELETE); destruct Hp.
Qed.

(** Phase three in delete mode when standard input is at its end. *)
Lemma phase_three_delete_at_eof options table w :
  opt_set options OPT_LINK = false ->
  table_ok table -> w_stdin w = "" ->
  changes_no_file w (snd (phase_three options table w)) /\
  w_stdin (snd (phase_three options table w)) = "".
Proof.
  intros Hl Hok Hin.
  destruct (phase_three_spec options (w_fs w) (fun buf => go_ahead buf = false)
              (fun _ _ => []) (fun _ _ _ H => match H with end)
              (fun key master l w0 H => delete_files_no_go_ahead key master l w0 H)
              table w Hok (fun _ _ _ _ => eq_refl))
    as (events & E & _).
  { rewrite Hin. constructor. }
  destruct (phase_three_mode options table w) as ((events' & T' & F') & _).
  pose proof (eff_trace _ _ _ _ E) as T. rewrite T in T'. apply app_inv_head in T'. subst events'.
  split; [split|].
  - apply map_eq. intros path. apply (eff_fs _ _ _ _ E).
    rewrite list_elem_of_In. apply touched_none, Hl.
  - exists events. split; [exact T|]. apply forallb_forall. intros e He.
    assert (Hu : unlink_calls events = []).
    { destruct (unlink_calls events) as [|path rest] eqn:Hu; [reflexivity|]. exfalso.
      apply (touched_none options (w_fs w) table path Hl). apply list_elem_of_In.
      apply (eff_unlinks _ _ _ _ E). rewrite Hu. apply elem_of_cons. left. reflexivity. }
    pose proof (unlink_calls_nil_no_unlink events e Hu He) as H1.
    rewrite forallb_forall in F'. specialize (F' e He). unfold mode_event in F'.
    rewrite Hl in F'. destruct e; try reflexivity; [destruct H1 | discriminate].
  - apply every_line_False_nil. apply (eff_stdin _ _ _ _ E). rewrite Hin. constructor.
Qed.

(** X22.  With the stdin switch and the delete switch the program deletes
    nothing: phase one reads standard input to its end for the names, and
    every delete session of phase three finds the end of input when it
    asks the operator.  No entry of the file system is changed. *)
Theorem dupfind_stdin_delete_deletes_nothing
    (md5_hex : list byte -> string) (sys : namespace)
    (opts : list ascii) (args : list string) (w : world) :
  Forall is_switch opts ->
  In "i"%char opts -> In "d"%char opts -> ~ In "l"%char opts ->
  Forall (fun arg => Libc.is_cstring arg = true) args ->
  let w' := snd (dupfind md5_hex sys opts args w) in
  w_fs w' = w_fs w /\
  w_stdin w' = "" /\
  exists events,
    w_trace w' = w_trace w ++ events /\
    forallb (fun e => negb (is_change e)) events = true.
Proof.
  intros Hopts Hi Hd Hl Hargs.
  destruct (getopt_switches_spec opts w Hopts) as (options & E & Hflags).
  assert (Ei : opt_set options OPT_STDIN = true)
    by (apply (Hflags "i"%char OPT_STDIN); [cbn; tauto | exact Hi]).
  assert (El : opt_set options OPT_LINK = false).
  { destruct (opt_set options OPT_LINK) eqn:El; [|reflexivity].
    exfalso. apply Hl. apply (Hflags "l"%char OPT_LINK); [cbn; tauto | exact El]. }
  unfold dupfind.
  rewrite (main_run md5_hex (phase_one sys) opts args options w E);
    [|rewrite El; apply andb_false_r | rewrite Ei; apply andb_false_r].
  cbn [snd].
  set (w1 := if opt_set options OPT_VERBOSE
             then logged w [GLog LevelInfo "building file list" []] else w).
  pose proof (changes_no_file_info w (opt_set options OPT_VERBOSE) "building file list") as C1.
  fold w1 in C1.
  pose proof (phase_one_changes_no_file sys options args w1) as C2.
  pose proof (phase_one_two_table_ok md5_hex sys options args w1) as Hok.
  destruct (phase_one_writes sys options args w1) as (status & file_list & ev1 & E1 & _).
  rewrite Ei in E1.
  assert (Hs1 : w_stdin (snd (phase_one sys options args w1)) = "") by (rewrite E1; reflexivity).
  set (r1 := phase_one sys options args w1) in *.
  set (w2 := if opt_set options OPT_VERBOSE
             then logged (snd r1) [GLog LevelInfo "calculating digests" []] else snd r1).
  pose proof (changes_no_file_info (snd r1) (opt_set options OPT_VERBOSE)
                "calculating digests") as C3. fold w2 in C3.
  assert (Hs2 : w_stdin w2 = "") by (subst w2; destruct (opt_set options OPT_VERBOSE); exact Hs1).
  pose proof (phase_two_changes_no_file md5_hex (snd (fst r1)) w2) as C4.
  specialize (Hok w2 Hargs).
  assert (Hs3 : w_stdin (snd (phase_two md5_hex (snd (fst r1))
                                {| hash := ∅; digest := [] |} w2)) = "").
  { destruct (phase_two_groups md5_hex (snd (fst r1)) {| hash := ∅; digest := [] |} w2 [])
      as (_ & _ & E2); [intros key; cbn [hash]; apply lookup_empty | reflexivity|].
    rewrite E2. exact Hs2. }
  set (r2 := phase_two md5_hex (snd (fst r1)) {| hash := ∅; digest := [] |} w2) in *.
  set (w3 := if opt_set options OPT_VERBOSE
             then logged (snd r2) [GLog LevelInfo "performing required actions" []]
             else snd r2).
  pose proof (changes_no_file_info (snd r2) (opt_set options OPT_VERBOSE)
                "performing required actions") as C5. fold w3 in C5.
  assert (Hs4 : w_stdin w3 = "") by (subst w3; destruct (opt_set options OPT_VERBOSE); exact Hs3).
  destruct (phase_three_delete_at_eof options (map_to_list (hash (fst r2))) w3 El Hok Hs4)
    as [C6 Hs5].
  assert (C : changes_no_file w
                (snd (phase_three options (map_to_list (hash (fst r2))) w3))).
  { eapply changes_no_file_trans; [exact C1|].
    eapply changes_no_file_trans; [exact C2|].
    eapply changes_no_file_trans; [exact C3|].
    eapply changes_no_file_trans; [exact C4|].
    eapply changes_no_file_trans; [exact C5 | exact C6]. }
  destruct C as [Hfs Hev]. split; [exact Hfs|]. split; [exact Hs5 | exact Hev].
Qed.

Lemma dupfind_stdin_delete_deletes_nothing_witness :
  let w := example_world "a
b
go
" in
  w_fs (snd (dupfind (fun _ => "") example_sys ["i"; "d"]%char [] w)) = w_fs w.
Proof.
  intros w.
  apply (dupfind_stdin_delete_deletes_nothing (fun _ => "") example_sys ["i"; "d"]%char [] w).
  - repeat constructor; unfold is_switch; cbn; tauto.
  - cbn. tauto.
  - cbn. tauto.
  - cbn. intuition discriminate.
  - constructor.
Defined.

(** ** The file list does not depend on the order of the names *)

Lemma sorted_same_elements (l1 l2 : list file_t) :
  StronglySorted (fun a b => Libc.strcmp (name a) (name b) < 0) l1 ->
  StronglySorted (fun a b => Libc.strcmp (name a) (name b) < 0) l2 ->
  NoDup (map name l1) -> NoDup (map name l2) ->
  (forall fp, In fp l1 <-> In fp l2) ->
  l1 = l2.
Proof.
  intros S1 S2 N1 N2 Hsame.
  apply (sorted_perm_unique (fun a b => Libc.strcmp (name a) (name b) < 0)); try assumption.
  - intros a b _ _ Hab Hba. rewrite (strcmp_opp (name b) (name a)) in Hab. lia.
  - apply NoDup_Permutation.
    + eapply NoDup_fmap_1, N1.
    + eapply NoDup_fmap_1, N2.
    + intros fp. rewrite !list_elem_of_In. apply Hsame.
Qed.

(** X23.  The file list of phase one does not depend on the order of the
    arguments, nor on how many times a name is given: two command lines
    that give the same names, in whatever order, make the same list. *)
Theorem phase_one_order_independent (sys : namespace) (options : Z)
    (args args' : list string) (w : world) :
  Forall (fun arg => Libc.is_cstring arg = true) args ->
  Forall (fun arg => Libc.is_cstring arg = true) args' ->
  (forall arg, In arg args <-> In arg args') ->
  snd (fst (phase_one sys options args w)) = snd (fst (phase_one sys options args' w)).
Proof.
  intros Hargs Hargs' Hsame.
  destruct (phase_one_spec sys options args w Hargs)
    as (s1 & t1 & e1 & E1 & _ & _ & [[Hs1 Hc1] Hall1] & Hcol1).
  destruct (phase_one_spec sys options args' w Hargs')
    as (s2 & t2 & e2 & E2 & _ & _ & [[Hs2 Hc2] Hall2] & Hcol2).
  rewrite E1, E2. cbn [fst snd].
  assert (Hk1 : Forall (fun entry => name (snd entry) = fst entry) t1).
  { eapply Forall_impl; [exact Hall1|]. intros entry (H & _). exact H. }
  assert (Hk2 : Forall (fun entry => name (snd entry) = fst entry) t2).
  { eapply Forall_impl; [exact Hall2|]. intros entry (H & _). exact H. }
  destruct (sorted_values t1 name Hk1 Hs1) as [Hsorted1 Hn1].
  destruct (sorted_values t2 name Hk2 Hs2) as [Hsorted2 Hn2].
  apply sorted_same_elements; try assumption.
  - rewrite Hn1. apply tree_ok_NoDup. split; assumption.
  - rewrite Hn2. apply tree_ok_NoDup. split; assumption.
  - assert (Hin : forall t names,
              Forall (fun entry : string * file_t => name (snd entry) = fst entry) t ->
              collected options sys names GTree.g_tree_new t ->
              forall fp, In fp (map snd t) <->
                exists arg, In arg names /\
                  under options sys arg (name fp) /\ listed options sys (name fp) fp).
    { intros t names Hk Hcol fp.
      rewrite <- (collected_from_nil options sys names t Hcol (name fp) fp).
      rewrite in_map_iff. split.
      - intros ([k v] & <- & Hin). rewrite Forall_forall in Hk.
        pose proof (Hk _ (proj2 (list_elem_of_In _ _) Hin)) as Hkv. cbn [fst snd] in *.
        rewrite Hkv. exact Hin.
      - intros Hin. exists (name fp, fp). auto. }
    intros fp. rewrite (Hin t1 _ Hk1 Hcol1 fp), (Hin t2 _ Hk2 Hcol2 fp).
    split; intros (arg & Ha & Hu & Hl); exists arg; (split; [|auto]);
      apply in_app_iff; apply in_app_iff in Ha as [Ha|Ha]; auto; left; apply Hsame, Ha.
Qed.

Lemma phase_one_order_independent_witness :
  snd (fst (phase_one example_sys OPT_RECURSE ["d/e"; "d"] (example_world ""))) =
  snd (fst (phase_one example_sys OPT_RECURSE ["d"; "d/e"; "d"] (example_world ""))).
Proof.
  apply phase_one_order_independent.
  - repeat constructor.
  - repeat constructor.
  - intros arg. cbn. tauto.
Defined.

(** ** What [list_files] prints *)

Lemma list_files_loop_prints options fs l : forall w,
  list_files_loop options fs l w =
    (tt, logged w (map (fun fp =>
                          if opt_set options OPT_SHOWSIZE
                          then Stdout "%s (%ld)%c" [AStr (name fp); AInt (st_size fp); AChar fs]
                          else Stdout "%s%c" [AStr (name fp); AChar fs]) l)).
Proof.
  induction l as [|fp next IH]; intros w.
  - unfold list_files_loop, ret. rewrite logged_nil. reflexivity.
  - cbn [list_files_loop map]. rewrite bind_run, IH.
    destruct (opt_set options OPT_SHOWSIZE); rewrite printf_logged; cbn [fst snd];
      rewrite logged_app; reflexivity.
Qed.

(** X24.  [list_files] prints the master and then the duplicates in the
    order of the list, each followed by a newline or, with the sameline
    option, by a space, and each with its size when the size option is
    set; then a newline.  With the omitfirst option the master is left
    out, and only the duplicates are printed.  Nothing else is done. *)
Theorem list_files_prints_group (options : Z) (master : file_t) (l : list file_t) (w : world) :
  let fs := if opt_set options OPT_SAMELINE then " "%char else "010"%char in
  let entry fp :=
    if opt_set options OPT_SHOWSIZE
    then Stdout "%s (%ld)%c" [AStr (name fp); AInt (st_size fp); AChar fs]
    else Stdout "%s%c" [AStr (name fp); AChar fs] in
  list_files options master l w =
    (tt, logged w
           ([Enter (Call_list_files master l)] ++
            map entry (if opt_set options OPT_OMITFIRST then l else master :: l) ++
            [Stdout "%c" [AChar "010"%char]])).
Proof.
  cbn zeta. unfold list_files. rewrite bind_run, emit_logged. cbn [fst snd].
  rewrite bind_run.
  destruct (opt_set options OPT_OMITFIRST); cbn [negb].
  - unfold ret at 1. cbn [fst snd]. rewrite bind_run, list_files_loop_prints. cbn [fst snd].
    rewrite printf_logged, !logged_app. reflexivity.
  - rewrite bind_run, list_files_loop_prints. cbn [fst snd map].
    destruct (opt_set options OPT_SHOWSIZE); rewrite !printf_logged; cbn [fst snd];
      rewrite !logged_app; reflexivity.
Qed.

(** ** The delete and the link switch together *)

Ltac getopt_flag IH options rest w :=
  let Hw := fresh "Hw" in
  let Hs := fresh "Hs" in
  let Hd := fresh "Hd" in
  let Hl := fresh "Hl" in
  match goal with
  | |- context [main_getopt rest (Z.lor options ?flag) w] =>
      specialize (IH (Z.lor options flag) w);
      destruct (fst (main_getopt rest (Z.lor options flag) w)) as [options'|status];
      [ destruct IH as (Hw & Hs & Hd & Hl); split; [exact Hw|];
        split; [constructor; [unfold is_switch; cbn; tauto | exact Hs]|];
        split;
        (intros [H|[H|H]];
         [ first [apply Hd | apply Hl]; left; rewrite Z.lor_spec, H; reflexivity
         | first [ discriminate H
                 | first [apply Hd | apply Hl]; left; rewrite Z.lor_spec;
                   apply orb_true_r ]
         | first [apply Hd | apply Hl]; right; exact H ])
      | destruct IH as (Hs & event & Hw & Hcase); split;
        [ intros Hall; apply Forall_cons_1 in Hall as [_ Hall]; exact (Hs Hall)
        | exists event; split; [exact Hw|];
          destruct Hcase as [Hcase|(H0 & [[HV He]|[Hh He]])];
          [ left; exact Hcase
          | right; split; [exact H0 | left; split; [right; exact HV | exact He]]
          | right; split; [exact H0 | right; split; [right; exact Hh | exact He]] ] ] ]
  end.

(** The option loop: either every switch sets a flag, the loop ends with
    the delete and link flags set for the switches given and nothing was
    written; or [main] returns from inside the loop at the first other
    switch, with 0 after the version or the help text, with 1 after the
    report of a switch it does not know. *)
Lemma main_getopt_outcome opts : forall options w,
  match fst (main_getopt opts options w) with
  | inl options' =>
      snd (main_getopt opts options w) = w /\
      Forall is_switch opts /\
      (Z.testbit options 8 = true \/ In "d"%char opts -> Z.testbit options' 8 = true) /\
      (Z.testbit options 9 = true \/ In "l"%char opts -> Z.testbit options' 9 = true)
  | inr status =>
      ~ Forall is_switch opts /\
      exists event,
        snd (main_getopt opts options w) = logged w [event] /\
        (status = 1 /\
           event = GLog LevelCritical "bad command line args - try 'dupfind --help'" [] \/
         status = 0 /\
           (In "V"%char opts /\ event = Stderr version \/
            In "h"%char opts /\ event = Stderr help_text))
  end.
Proof.
  induction opts as [|opt rest IH]; intros options w.
  - cbn. split; [reflexivity|]. split; [constructor|]. split; intros [H|[]]; exact H.
  - cbn [main_getopt].
    repeat match goal with
    | |- context [Ascii.eqb opt ?c] =>
        destruct (Ascii.eqb_spec opt c) as [->|?];
          [first [ getopt_flag IH options rest w
                 | rewrite bind_run, emit_logged; cbn [fst snd ret]; split;
                   [ intros Hall; apply Forall_cons_1 in Hall as [Hopt _];
                     unfold is_switch in Hopt; cbn in Hopt;
                     repeat (destruct Hopt as [Hopt|Hopt]; [discriminate Hopt|]);
                     exact Hopt
                   | eexists; split; [reflexivity|]; right; split; [reflexivity|];
                     first [ left; split; [left; reflexivity | reflexivity]
                           | right; split; [left; reflexivity | reflexivity] ] ] ]|]
    end.
    rewrite bind_run, g_critical_logged. cbn [fst snd ret]. split.
    + intros Hall. apply Forall_cons_1 in Hall as [Hopt _].
      unfold is_switch in Hopt. cbn in Hopt.
      repeat (destruct Hopt as [Hopt|Hopt]; [symmetry in Hopt; contradiction|]).
      exact Hopt.
    + eexists. split; [reflexivity|]. left. split; reflexivity.
Qed.

(** What [main] does with a command line whose first switch that sets no
    flag is [opt]. *)
Lemma main_first_other_switch md5_hex build_file_list pre opt post args w :
  Forall is_switch pre -> ~ is_switch opt ->
  main md5_hex build_file_list (pre ++ opt :: post) args w =
    if Ascii.eqb opt "V" then (0, logged w [Stderr version])
    else if Ascii.eqb opt "h" then (0, logged w [Stderr help_text])
    else (1, logged w [GLog LevelCritical
                         "bad command line args - try 'dupfind --help'" []]).
Proof.
  intros Hpre Hopt. unfold main. rewrite bind_run.
  destruct (main_getopt_app pre (opt :: post) 0 w Hpre) as (options' & ->).
  rewrite (main_getopt_other opt post options' w Hopt).
  destruct (Ascii.eqb opt "V"); [reflexivity|].
  destruct (Ascii.eqb opt "h"); reflexivity.
Qed.

(** C9, as the code has it.  A command line with the delete and the link
    switch never gets as far as phase one: [main] returns having written
    one message and done nothing else.  When every switch sets a flag the
    message is the [g_critical] report that link and delete are mutually
    exclusive and the status is 1.  Otherwise the first switch that sets no
    flag decides: for the version or the help switch [main] writes that
    text to standard error and returns 0, for any other it reports bad
    arguments with [g_critical] and returns 1.  So the status is 0 only
    with a version or help switch. *)
Theorem main_link_delete_exclusive
    (md5_hex : list byte -> string) (build_file_list : Z -> list string -> M (Z * list file_t))
    (opts : list ascii) (args : list string) (w : world) :
  In "d"%char opts -> In "l"%char opts ->
  exists status event,
    main md5_hex build_file_list opts args w = (status, logged w [event]) /\
    (status = 1 /\
       (event = GLog LevelCritical "link and delete are mutually exclusive" [] \/
        event = GLog LevelCritical "bad command line args - try 'dupfind --help'" []) \/
     status = 0 /\
       (In "V"%char opts /\ event = Stderr version \/
        In "h"%char opts /\ event = Stderr help_text)) /\
    (Forall is_switch opts ->
     status = 1 /\ event = GLog LevelCritical "link and delete are mutually exclusive" []) /\
    (forall pre opt post,
       opts = pre ++ opt :: post -> Forall is_switch pre -> ~ is_switch opt ->
       (status, event) =
         if Ascii.eqb opt "V" then (0, Stderr version)
         else if Ascii.eqb opt "h" then (0, Stderr help_text)
         else (1, GLog LevelCritical "bad command line args - try 'dupfind --help'" [])).
Proof.
  intros Hd Hl.
  assert (H : exists status event,
            main md5_hex build_file_list opts args w = (status, logged w [event]) /\
            (status = 1 /\
               (event = GLog LevelCritical "link and delete are mutually exclusive" [] \/
                event = GLog LevelCritical
                          "bad command line args - try 'dupfind --help'" []) \/
             status = 0 /\
               (In "V"%char opts /\ event = Stderr version \/
                In "h"%char opts /\ event = Stderr help_text)) /\
            (Forall is_switch opts ->
             status = 1 /\
             event = GLog LevelCritical "link and delete are mutually exclusive" [])).
  { unfold main. rewrite bind_run.
    pose proof (main_getopt_outcome opts 0 w) as Hspec.
    destruct (main_getopt opts 0 w) as [[options'|status] w1]; cbn [fst snd] in *.
    - destruct Hspec as (-> & _ & H8 & H9).
      rewrite (land_delete_link options' (H8 (or_intror Hd)) (H9 (or_intror Hl))).
      rewrite Z.eqb_refl, bind_run, g_critical_logged. cbn [fst snd ret].
      eexists _, _. split; [reflexivity|]. split; [left|]; auto.
    - destruct Hspec as (Hnot & event & -> & Hcase). unfold ret.
      exists status, event. split; [reflexivity|]. split.
      + destruct Hcase as [[-> ->]|[-> Hcase]]; [left | right]; auto.
      + intros Hall. destruct (Hnot Hall). }
  destruct H as (status & event & E & Hcase & Hall).
  exists status, event. split; [exact E|]. split; [exact Hcase|]. split; [exact Hall|].
  intros pre opt post -> Hpre Hopt.
  rewrite (main_first_other_switch md5_hex build_file_list pre opt post args w Hpre Hopt) in E.
  destruct (Ascii.eqb opt "V");
    [|destruct (Ascii.eqb opt "h")];
    injection E as <- E; apply app_inv_head in E; injection E as <-; reflexivity.
Qed.

Lemma main_link_delete_exclusive_witness :
  In "d"%char ["r"; "d"; "l"]%char /\ In "l"%char ["r"; "d"; "l"]%char /\
  main (fun _ => "") (phase_one example_sys) ["r"; "d"; "l"]%char ["d"] (example_world "") =
    (1, logged (example_world "")
          [GLog LevelCritical "link and delete are mutually exclusive" []]).
Proof.
  assert (Hd : In "d"%char ["r"; "d"; "l"]%char) by (right; left; reflexivity).
  assert (Hl : In "l"%char ["r"; "d"; "l"]%char) by (right; right; left; reflexivity).
  split; [exact Hd|]. split; [exact Hl|].
  destruct (main_link_delete_exclusive (fun _ => "") (phase_one example_sys)
              ["r"; "d"; "l"]%char ["d"] (example_world "") Hd Hl)
    as (status & event & E & _ & Hall & _).
  destruct Hall as [-> ->]; [|exact E].
  repeat constructor; unfold is_switch; cbn; tauto.
Defined.

(** C9 as stated fails: with the delete, the link and the help switch the
    program prints the help text and returns 0. *)
Lemma link_delete_help_returns_0 :
  main (fun _ => "") (phase_one example_sys) ["d"; "l"; "h"]%char ["d"] (example_world "") =
    (0, logged (example_world "") [Stderr help_text]).
Proof. reflexivity. Qed.
